(** * Layers of a small CNN library: a shallow embedding of [layers.py]

    The development follows [neural_networks/layers.py]: the [Layer] base
    class, the layer factory [initialize_layer], and the [FullyConnected],
    [Conv2D], [Pool2D] and [Flatten] layers with their forward and backward
    passes.

    Modelling conventions.
    - Array elements are exact rationals ([Qc]).  The source computes in
      IEEE floating point; rounding, NaN and infinities are abstracted, so
      the theorems describe which cells are read, multiplied, summed and
      written, in exact arithmetic.  Reductions ([np.sum], [np.mean]) add
      their operands in row-major order.
    - An [ndarray] is a shape, a row-major (C order) buffer and the kind of
      its element type: floating-point or integer.  The kind decides what
      an assignment stores (a value assigned into an integer array is
      truncated towards zero) and whether an in-place addition is accepted
      (a floating-point term is not added into an integer array).  Widths
      and overflow are abstracted like rounding; boolean, complex and
      object arrays are not represented.
    - Python exceptions are values of [exn]; a function that may raise
      returns a [result].  The state a method leaves behind when it raises
      is not modelled.
    - Configuration values whose Python type the code inspects at run time
      ([pad], [mode], [kernel_shape], [keep_dim], the layer name) are
      [pyval]s.
    - The activation functions and the weight initialisers live in sibling
      modules ([neural_networks.activations], [neural_networks.weights]);
      they enter as capabilities ([Activation], [initialize_activation],
      [initialize_weights]).  The contents of memory returned by [np.empty]
      are a section variable as well. *)

From Stdlib Require Import String Ascii List ZArith QArith Qround Qcanon Lia Bool Arith.
Import ListNotations.

Set Implicit Arguments.

Open Scope string_scope.
Open Scope list_scope.
Open Scope nat_scope.

(** ** Exceptions and results *)

Inductive exn : Type :=
| ValueError (msg : string)
| NameError (name : string)
| UnboundLocalError (name : string)
| KeyError (key : string)
| ZeroDivisionError
| IndexError
| TypeError
| AttributeError
| UFuncTypeError
| NotANumber. (* not a Python exception: a float result that is NaN *)

Inductive result (A : Type) : Type :=
| Ok (a : A)
| Raise (e : exn).

Arguments Ok {A} a.
Arguments Raise {A} e.

Definition bind {A B : Type} (r : result A) (k : A -> result B) : result B :=
  match r with
  | Ok a => k a
  | Raise e => Raise e
  end.

Notation "x <- r ;; k" := (bind r (fun x => k))
  (at level 61, r at next level, right associativity).
Notation "' pat <- r ;; k" := (bind r (fun x => match x with pat => k end))
  (at level 61, pat pattern, r at next level, right associativity).

Definition returns {A : Type} (r : result A) : Prop := exists a, r = Ok a.
Definition raises {A : Type} (r : result A) : Prop := exists e, r = Raise e.

(** A Python [for] loop over a list of indices whose body may raise. *)
Fixpoint for_each {S I : Type} (l : list I) (body : S -> I -> result S) (s : S)
  : result S :=
  match l with
  | [] => Ok s
  | i :: l' => s' <- body s i ;; for_each l' body s'
  end.

(** [range(n)] for a Python integer [n]: empty when [n <= 0]. *)
Definition range (n : Z) : list nat := seq 0 (Z.to_nat n).

(** ** Dynamically typed configuration values *)

Inductive pyval : Type :=
| PyNone
| PyStr (s : string)
| PyInt (z : Z)
| PyTuple (a b : Z).

Definition is_str (v : pyval) (s : string) : bool :=
  match v with
  | PyStr s' => String.eqb s' s
  | _ => false
  end.

Definition is_int (v : pyval) (z : Z) : bool :=
  match v with
  | PyInt z' => Z.eqb z' z
  | _ => false
  end.

(** ** Dictionaries ([dict], [OrderedDict]): insertion-ordered, unique keys *)

Definition dict (V : Type) : Type := list (string * V).

Fixpoint dict_get {V : Type} (d : dict V) (k : string) : option V :=
  match d with
  | [] => None
  | (k', v) :: d' => if String.eqb k' k then Some v else dict_get d' k
  end.

Fixpoint dict_set {V : Type} (d : dict V) (k : string) (v : V) : dict V :=
  match d with
  | [] => [(k, v)]
  | (k', v') :: d' =>
      if String.eqb k' k then (k', v) :: d' else (k', v') :: dict_set d' k v
  end.

Definition keys {V : Type} (d : dict V) : list string := map fst d.

(** [{a: f(b) for a, b in d.items()}] *)
Definition dict_comp {V U : Type} (f : V -> U) (d : dict V) : dict U :=
  fold_left (fun acc ab => dict_set acc (fst ab) (f (snd ab))) d [].

(** [d[k]], raising [KeyError] on a missing key. *)
Definition dict_item {V : Type} (d : dict V) (k : string) : result V :=
  match dict_get d k with
  | Some v => Ok v
  | None => Raise (KeyError k)
  end.

(** ** Arrays *)

Open Scope Qc_scope.

(** The kind of an array's element type: [Kfloat] stands for numpy's
    floating-point types and [Kint] for its integer types. *)
Inductive kind : Type := Kfloat | Kint.

Record ndarray : Type := { shape : list nat; data : list Qc; dtype : kind }.

(** A Python integer as an array element. *)
Definition of_int (z : Z) : Qc := Q2Qc (inject_Z z).

(** [int(q)] for an exactly represented quotient: truncation towards zero. *)
Definition py_int (q : Q) : Z := Z.quot (Qnum q) (Z.pos (Qden q)).

(** [np.result_type] of two operands. *)
Definition result_type (a b : kind) : kind :=
  match a, b with
  | Kint, Kint => Kint
  | _, _ => Kfloat
  end.

(** [np.can_cast(from, to, casting="same_kind")], the rule an in-place
    operation applies to its result. *)
Definition can_cast (from to : kind) : bool :=
  match from, to with
  | Kfloat, Kint => false
  | _, _ => true
  end.

(** The value an assignment stores into an array of kind [k]: a value
    assigned to an integer array is truncated towards zero. *)
Definition astype (k : kind) (x : Qc) : Qc :=
  match k with
  | Kfloat => x
  | Kint => of_int (py_int (this x))
  end.

Definition size (sh : list nat) : nat := fold_right Nat.mul 1%nat sh.

Definition wf (A : ndarray) : Prop := length (data A) = size (shape A).

Definition mk1 (d : kind) (n0 : nat) (f : nat -> Qc) : ndarray :=
  {| shape := [n0]; data := map f (seq 0 n0); dtype := d |}.

Definition mk2 (d : kind) (n0 n1 : nat) (f : nat -> nat -> Qc) : ndarray :=
  {| shape := [n0; n1];
     data := flat_map (fun i => map (f i) (seq 0 n1)) (seq 0 n0);
     dtype := d |}.

Definition mk3 (d : kind) (n0 n1 n2 : nat) (f : nat -> nat -> nat -> Qc) : ndarray :=
  {| shape := [n0; n1; n2];
     data :=
       flat_map (fun i => flat_map (fun j => map (f i j) (seq 0 n2)) (seq 0 n1))
         (seq 0 n0);
     dtype := d |}.

Definition mk4 (d : kind) (n0 n1 n2 n3 : nat) (f : nat -> nat -> nat -> nat -> Qc)
  : ndarray :=
  {| shape := [n0; n1; n2; n3];
     data :=
       flat_map (fun b =>
         flat_map (fun i =>
           flat_map (fun j => map (f b i j) (seq 0 n3)) (seq 0 n2))
           (seq 0 n1))
         (seq 0 n0);
     dtype := d |}.

Definition get1 (A : ndarray) (i : nat) : Qc := nth i (data A) 0.

Definition get2 (A : ndarray) (i j : nat) : Qc :=
  match shape A with
  | [_; n1] => nth (i * n1 + j) (data A) 0
  | _ => 0
  end.

Definition get3 (A : ndarray) (i j k : nat) : Qc :=
  match shape A with
  | [_; n1; n2] => nth ((i * n1 + j) * n2 + k) (data A) 0
  | _ => 0
  end.

Definition get4 (A : ndarray) (b i j k : nat) : Qc :=
  match shape A with
  | [_; n1; n2; n3] => nth (((b * n1 + i) * n2 + j) * n3 + k) (data A) 0
  | _ => 0
  end.

(** [np.zeros(shape)], a floating-point array, and [np.zeros_like(A)], of
    the kind of [A]. *)
Definition np_zeros (sh : list nat) : ndarray :=
  {| shape := sh; data := repeat 0 (size sh); dtype := Kfloat |}.

Definition np_zeros_like (A : ndarray) : ndarray :=
  {| shape := shape A; data := repeat 0 (size (shape A)); dtype := dtype A |}.

(** A shape given as Python integers; a negative entry is a [ValueError]. *)
Fixpoint shape_of_ints (l : list Z) : result (list nat) :=
  match l with
  | [] => Ok []
  | z :: l' =>
      if (z <? 0)%Z then Raise (ValueError "negative dimensions are not allowed")
      else sh <- shape_of_ints l' ;; Ok (Z.to_nat z :: sh)
  end.

(** Row-major sum of [f 0 .. f (n-1)], accumulated from the left. *)
Definition sum_n (n : nat) (f : nat -> Qc) : Qc :=
  fold_left (fun acc i => acc + f i) (seq 0 n) 0.


(** ** The numpy operations the layers use *)

(** [(n0, n1, n2, n3) = A.shape]: a [ValueError] unless [A] has rank 4. *)
Definition unpack4 (sh : list nat) : result (nat * nat * nat * nat) :=
  match sh with
  | [n0; n1; n2; n3] => Ok (n0, n1, n2, n3)
  | _ => Raise (ValueError "not enough or too many values to unpack")
  end.

(** A slice [start:stop] of an axis of length [n], with Python's treatment
    of negative and out-of-range bounds: first index and length. *)
Definition norm_index (n : nat) (x : Z) : Z :=
  if (x <? 0)%Z then Z.max (x + Z.of_nat n) 0 else Z.min x (Z.of_nat n).

Definition py_slice (n : nat) (start stop : Z) : nat * nat :=
  let lo := norm_index n start in
  let hi := norm_index n stop in
  (Z.to_nat lo, Z.to_nat (hi - lo)).

(** [int((n + 2*p - k) / s + 1)], the output extent along one spatial axis.
    [/] is Python's true division. *)
Definition out_size (n : nat) (p k s : Z) : result Z :=
  if (s =? 0)%Z then Raise ZeroDivisionError
  else Ok (py_int (Qplus (Qdiv (inject_Z (Z.of_nat n + 2 * p - k)) (inject_Z s)) 1)).

(** [np.pad(X, ((0,0),(p,p),(q,q),(0,0)), mode='constant')] *)
Definition np_pad (X : ndarray) (p q : Z) : result ndarray :=
  match shape X with
  | [B; H; W; C] =>
      if ((p <? 0) || (q <? 0))%Z
      then Raise (ValueError "index can't contain negative values")
      else
        let p' := Z.to_nat p in
        let q' := Z.to_nat q in
        Ok (mk4 (dtype X) B (H + 2 * p') (W + 2 * q') C
              (fun b i j k =>
                 if (p' <=? i) && (i <? p' + H) && (q' <=? j) && (j <? q' + W)
                 then get4 X b (i - p') (j - q') k
                 else 0))
  | _ => Raise (ValueError "pad_width does not match the rank")
  end.

(** [np.empty(sh, dtype=d)]: a buffer with unspecified contents, [junk] by
    position. *)
Definition np_empty (junk : nat -> Qc) (d : kind) (sh : list Z) : result ndarray :=
  sh' <- shape_of_ints sh ;;
  Ok {| shape := sh'; data := map junk (seq 0 (size sh')); dtype := d |}.

(** [A[:, r0:r1, c0:c1, :]] *)
Definition slice_hw (A : ndarray) (r0 r1 c0 c1 : Z) : result ndarray :=
  match shape A with
  | [B; H; W; C] =>
      let '(i0, h) := py_slice H r0 r1 in
      let '(j0, w) := py_slice W c0 c1 in
      Ok (mk4 (dtype A) B h w C (fun b i j k => get4 A b (i0 + i) (j0 + j) k))
  | _ => Raise IndexError
  end.

(** [A[:, :, :, c]], of rank 3. *)
Definition last_axis_item (A : ndarray) (c : nat) : result ndarray :=
  match shape A with
  | [n0; n1; n2; n3] =>
      if c <? n3 then Ok (mk3 (dtype A) n0 n1 n2 (fun i j k => get4 A i j k c))
      else Raise IndexError
  | _ => Raise IndexError
  end.

(** [A[np.newaxis, ...]] for [A] of rank 3; also the way numpy aligns a
    rank-3 operand against a rank-4 one when broadcasting. *)
Definition expand4 (A : ndarray) : ndarray :=
  {| shape := 1%nat :: shape A; data := data A; dtype := dtype A |}.

(** [dZ[:, row:row+1, col:col+1, np.newaxis, c]] *)
Definition grad_item (A : ndarray) (row col : Z) (c : nat) : result ndarray :=
  match shape A with
  | [B; H; W; C] =>
      if c <? C then
        let '(i0, h) := py_slice H row (row + 1) in
        let '(j0, w) := py_slice W col (col + 1) in
        Ok (mk4 (dtype A) B h w 1 (fun b i j _ => get4 A b (i0 + i) (j0 + j) c))
      else Raise IndexError
  | _ => Raise IndexError
  end.

(** [b[:, c]] for [b] of rank 2. *)
Definition column (A : ndarray) (c : nat) : result ndarray :=
  match shape A with
  | [n0; n1] =>
      if c <? n1 then Ok (mk1 (dtype A) n0 (fun i => get2 A i c)) else Raise IndexError
  | _ => Raise IndexError
  end.

(** Broadcasting: the common length of two axes, and the index read along an
    axis of length [n]. *)
Definition bdim (a b : nat) : result nat :=
  if a =? b then Ok a
  else if a =? 1 then Ok b
  else if b =? 1 then Ok a
  else Raise (ValueError "operands could not be broadcast together").

Definition bidx (n i : nat) : nat := if n =? 1 then 0%nat else i.

(** An axis of length [v] can be stored into an axis of length [t]. *)
Definition fits (v t : nat) : bool := (v =? t) || (v =? 1).

Definition broadcast1 (op : Qc -> Qc -> Qc) (A B : ndarray) : result ndarray :=
  match shape A, shape B with
  | [a0], [b0] =>
      n0 <- bdim a0 b0 ;;
      Ok (mk1 (result_type (dtype A) (dtype B)) n0
            (fun i => op (get1 A (bidx a0 i)) (get1 B (bidx b0 i))))
  | _, _ => Raise (ValueError "operands could not be broadcast together")
  end.

Definition broadcast4 (op : Qc -> Qc -> Qc) (A B : ndarray) : result ndarray :=
  match shape A, shape B with
  | [a0; a1; a2; a3], [b0; b1; b2; b3] =>
      n0 <- bdim a0 b0 ;;
      n1 <- bdim a1 b1 ;;
      n2 <- bdim a2 b2 ;;
      n3 <- bdim a3 b3 ;;
      Ok (mk4 (result_type (dtype A) (dtype B)) n0 n1 n2 n3
            (fun b i j k =>
               op (get4 A (bidx a0 b) (bidx a1 i) (bidx a2 j) (bidx a3 k))
                  (get4 B (bidx b0 b) (bidx b1 i) (bidx b2 j) (bidx b3 k))))
  | _, _ => Raise (ValueError "operands could not be broadcast together")
  end.

Definition np_add1 := broadcast1 Qcplus.
Definition np_mul := broadcast4 Qcmult.

(** [A / n] for a Python integer [n]: true division, whose result is a
    floating-point array.  ([n = 0] only arises for an empty kernel, whose
    windows have no cell to store the quotient into.) *)
Definition np_div_int (A : ndarray) (n : Z) : ndarray :=
  {| shape := shape A; data := map (fun x => x / of_int n) (data A); dtype := Kfloat |}.

(** [np.sum(A, axis=(1, 2, 3))] *)
Definition np_sum_123 (A : ndarray) : result ndarray :=
  match shape A with
  | [n0; n1; n2; n3] =>
      Ok (mk1 (dtype A) n0 (fun b =>
            sum_n n1 (fun i => sum_n n2 (fun j => sum_n n3 (fun k => get4 A b i j k)))))
  | _ => Raise (ValueError "axis out of bounds")
  end.

(** [np.sum(A, axis=0)] *)
Definition np_sum_0 (A : ndarray) : result ndarray :=
  match shape A with
  | [n0; n1; n2; n3] =>
      Ok (mk3 (dtype A) n1 n2 n3 (fun i j k => sum_n n0 (fun b => get4 A b i j k)))
  | _ => Raise (ValueError "axis out of bounds")
  end.

(** [A.sum(axis=(0, 1, 2))] *)
Definition np_sum_012 (A : ndarray) : result ndarray :=
  match shape A with
  | [n0; n1; n2; n3] =>
      Ok (mk1 (dtype A) n3 (fun c =>
            sum_n n0 (fun b => sum_n n1 (fun i => sum_n n2 (fun j => get4 A b i j c)))))
  | _ => Raise (ValueError "axis out of bounds")
  end.

(** [A.reshape(newshape)], where one entry of [newshape] may be [-1]. *)
Definition known_size (newshape : list Z) : Z :=
  fold_right (fun z acc => if (z =? -1)%Z then acc else (z * acc)%Z) 1%Z newshape.

Definition np_reshape (A : ndarray) (newshape : list Z) : result ndarray :=
  let n := Z.of_nat (size (shape A)) in
  let k := known_size newshape in
  if existsb (fun z => (z <? -1)%Z) newshape
  then Raise (ValueError "negative dimensions not allowed")
  else
    match count_occ Z.eq_dec newshape (-1)%Z with
    | 0%nat =>
        if (k =? n)%Z
        then Ok {| shape := map Z.to_nat newshape; data := data A; dtype := dtype A |}
        else Raise (ValueError "cannot reshape array")
    | 1%nat =>
        if (k =? 0)%Z then Raise (ValueError "cannot reshape array")
        else if (n mod k =? 0)%Z
        then Ok {| shape := map (fun z => if (z =? -1)%Z then Z.to_nat (n / k)
                                          else Z.to_nat z) newshape;
                   data := data A; dtype := dtype A |}
        else Raise (ValueError "cannot reshape array")
    | _ => Raise (ValueError "can only specify one unknown dimension")
    end.

(** [A.flatten()] *)
Definition np_flatten (A : ndarray) : ndarray :=
  {| shape := [size (shape A)]; data := data A; dtype := dtype A |}.

(** [Z[:, row, col, c] = v]: the values are converted to the kind of [Z]. *)
Definition setitem_cell (A : ndarray) (row col c : nat) (v : ndarray)
  : result ndarray :=
  match shape A, shape v with
  | [B; H; W; C], [n] =>
      if (row <? H) && (col <? W) && (c <? C) then
        if fits n B then
          Ok (mk4 (dtype A) B H W C
                (fun b i j k =>
                   if (i =? row) && (j =? col) && (k =? c)
                   then astype (dtype A) (get1 v (bidx n b)) else get4 A b i j k))
        else Raise (ValueError "could not broadcast input array")
      else Raise IndexError
  | _, _ => Raise IndexError
  end.

(** [A[:, row, col, :] = v] for [v] of rank 2. *)
Definition setitem_pixel (A : ndarray) (row col : nat) (v : ndarray)
  : result ndarray :=
  match shape A, shape v with
  | [B; H; W; C], [n0; n1] =>
      if (row <? H) && (col <? W) then
        if fits n0 B && fits n1 C then
          Ok (mk4 (dtype A) B H W C
                (fun b i j k =>
                   if (i =? row) && (j =? col)
                   then astype (dtype A) (get2 v (bidx n0 b) (bidx n1 k))
                   else get4 A b i j k))
        else Raise (ValueError "could not broadcast input array")
      else Raise IndexError
  | _, _ => Raise IndexError
  end.

(** [A[:, r0:r1, c0:c1, :] += V].  The sum is computed in the common kind
    of the operands and has to go back into [A] by a same-kind cast: adding
    a floating-point array to an integer array in place is refused. *)
Definition iadd_hw (A : ndarray) (r0 r1 c0 c1 : Z) (V : ndarray) : result ndarray :=
  match shape A, shape V with
  | [B; H; W; C], [v0; v1; v2; v3] =>
      let '(i0, h) := py_slice H r0 r1 in
      let '(j0, w) := py_slice W c0 c1 in
      if negb (can_cast (result_type (dtype A) (dtype V)) (dtype A))
      then Raise UFuncTypeError
      else if fits v0 B && fits v1 h && fits v2 w && fits v3 C then
        Ok (mk4 (dtype A) B H W C
              (fun b i j k =>
                 if (i0 <=? i) && (i <? i0 + h) && (j0 <=? j) && (j <? j0 + w)
                 then get4 A b i j k
                      + get4 V (bidx v0 b) (bidx v1 (i - i0)) (bidx v2 (j - j0)) (bidx v3 k)
                 else get4 A b i j k))
      else Raise (ValueError "operands could not be broadcast together")
  | _, _ => Raise (ValueError "operands could not be broadcast together")
  end.

(** [A[:, :, :, c] += V] for [V] of rank 3, under the same rule. *)
Definition iadd_last_axis_item (A : ndarray) (c : nat) (V : ndarray) : result ndarray :=
  match shape A, shape V with
  | [n0; n1; n2; n3], [v0; v1; v2] =>
      if c <? n3 then
        if negb (can_cast (result_type (dtype A) (dtype V)) (dtype A))
        then Raise UFuncTypeError
        else if fits v0 n0 && fits v1 n1 && fits v2 n2 then
          Ok (mk4 (dtype A) n0 n1 n2 n3
                (fun i j k c' =>
                   if c' =? c
                   then get4 A i j k c' + get3 V (bidx v0 i) (bidx v1 j) (bidx v2 k)
                   else get4 A i j k c'))
        else Raise (ValueError "operands could not be broadcast together")
      else Raise IndexError
  | _, _ => Raise (ValueError "operands could not be broadcast together")
  end.

(** The cells [A[b, :, :, c]] of a window in row-major order. *)
Definition cells (A : ndarray) (b c : nat) : list Qc :=
  match shape A with
  | [_; h; w; _] => flat_map (fun i => map (fun j => get4 A b i j c) (seq 0 w)) (seq 0 h)
  | _ => []
  end.

Definition Qcltb (x y : Qc) : bool := negb (Qle_bool y x).

Definition max_list (x : Qc) (l : list Qc) : Qc :=
  fold_left (fun m y => if Qcltb m y then y else m) l x.

(** Index of the first maximal element: the running best is replaced only by
    a strictly larger element. *)
Fixpoint argmax_from (best_i : nat) (best : Qc) (i : nat) (l : list Qc) : nat :=
  match l with
  | [] => best_i
  | y :: l' =>
      if Qcltb best y then argmax_from i y (S i) l'
      else argmax_from best_i best (S i) l'
  end.

Definition argmax (l : list Qc) : nat :=
  match l with
  | [] => 0%nat
  | x :: l' => argmax_from 0 x 1 l'
  end.

(** [np.max(A, axis=(1, 2))], of rank 2. *)
Definition np_max_12 (A : ndarray) : result ndarray :=
  match shape A with
  | [n0; n1; n2; n3] =>
      if (n1 * n2 =? 0)%nat
      then Raise (ValueError "zero-size array to reduction operation maximum")
      else Ok (mk2 (dtype A) n0 n3 (fun b c =>
                 match cells A b c with
                 | [] => 0
                 | x :: l => max_list x l
                 end))
  | _ => Raise (ValueError "axis out of bounds")
  end.

(** [np.mean(A, axis=(1, 2))], of rank 2.  The mean of an empty window is
    NaN in numpy. *)
Definition np_mean_12 (A : ndarray) : result ndarray :=
  match shape A with
  | [n0; n1; n2; n3] =>
      if (n1 * n2 =? 0)%nat then Raise NotANumber
      else Ok (mk2 Kfloat n0 n3 (fun b c =>
                 sum_n n1 (fun i => sum_n n2 (fun j => get4 A b i j c))
                 / of_int (Z.of_nat (n1 * n2))))
  | _ => Raise (ValueError "axis out of bounds")
  end.

(** [np.argmax(A, axis=1)] for [A] of rank 3: an integer array indexed by
    the first and the last axis. *)
Definition np_argmax_1 (A : ndarray) : result (list (list nat)) :=
  match shape A with
  | [n0; n1; n2] =>
      if (n1 =? 0)%nat
      then Raise (ValueError "attempt to get argmax of an empty sequence")
      else Ok (map (fun b =>
                 map (fun c => argmax (map (fun m => get3 A b m c) (seq 0 n1)))
                   (seq 0 n2))
                 (seq 0 n0))
  | _ => Raise (ValueError "axis out of bounds")
  end.

(** [mask = np.zeros_like(A); mask[exp_id, max_id, channel_id] = 1] where
    [exp_id, channel_id = np.indices((n0, n2))]. *)
Definition one_hot_1 (A : ndarray) (max_id : list (list nat)) : result ndarray :=
  match shape A with
  | [n0; n1; n2] =>
      Ok (mk3 (dtype A) n0 n1 n2 (fun b m c =>
            if m =? nth c (nth b max_id []) 0%nat then 1 else 0))
  | _ => Raise IndexError
  end.

(** ** The [Layer] base class *)

(** The activation capability: [activation(Z)] and
    [activation.backward(Z, dLdY)]. *)
Record Activation : Type :=
  { act_forward : ndarray -> ndarray;
    act_backward : ndarray -> ndarray -> ndarray }.

(** What a cache entry may hold: a Python list of arrays ([[]] when fresh or
    cleared), an array, or a shape tuple. *)
Inductive cache_val : Type :=
| Clist (l : list ndarray)
| Carr (A : ndarray)
| Cshape (sh : list nat).

Record Layer : Type :=
  { activation : option Activation;
    n_in : option nat;
    n_out : pyval;
    parameters : dict ndarray;
    cache : dict cache_val;
    gradients : dict ndarray }.

(** [Layer.__init__] *)
Definition Layer_init : Layer :=
  {| activation := None; n_in := None; n_out := PyNone;
     parameters := []; cache := []; gradients := [] |}.

Definition set_cache (L : Layer) (c : dict cache_val) : Layer :=
  {| activation := activation L; n_in := n_in L; n_out := n_out L;
     parameters := parameters L; cache := c; gradients := gradients L |}.

Definition set_gradients (L : Layer) (g : dict ndarray) : Layer :=
  {| activation := activation L; n_in := n_in L; n_out := n_out L;
     parameters := parameters L; cache := cache L; gradients := g |}.

(** [Layer.clear_gradients] *)
Definition clear_gradients (L : Layer) : Layer :=
  let L1 := set_cache L (dict_comp (fun _ => Clist []) (cache L)) in
  set_gradients L1 (dict_comp np_zeros_like (gradients L1)).

Definition _get_parameters (L : Layer) : list ndarray := map snd (parameters L).
Definition _get_cache (L : Layer) : list cache_val := map snd (cache L).
Definition _get_gradients (L : Layer) : list ndarray := map snd (gradients L).

(** [cache[k]] read as an array: a cleared entry has no [shape]. *)
Definition cache_array (c : dict cache_val) (k : string) : result ndarray :=
  v <- dict_item c k ;;
  match v with
  | Carr A => Ok A
  | _ => Raise AttributeError
  end.

(** [self.activation(Z)] and [self.activation.backward(Z, dLdY)]: what they
    resolve to, or the error when [self.activation] is [None]. *)
Definition call_activation (a : option Activation) : result Activation :=
  match a with
  | Some f => Ok f
  | None => Raise TypeError
  end.

Definition activation_backward (a : option Activation) : result Activation :=
  match a with
  | Some f => Ok f
  | None => Raise AttributeError
  end.

Definition as_int (v : pyval) : result Z :=
  match v with
  | PyInt z => Ok z
  | _ => Raise TypeError
  end.

(** [h, w = v], the two being used as integers afterwards. *)
Definition unpack_pair (v : pyval) : result (Z * Z) :=
  match v with
  | PyTuple a b => Ok (a, b)
  | PyStr s =>
      if String.length s =? 2 then Raise TypeError
      else Raise (ValueError "not enough or too many values to unpack")
  | _ => Raise TypeError
  end.

(** [v + (a,) + (b,)]: [v] has to be a tuple. *)
Definition as_tuple (v : pyval) : result (Z * Z) :=
  match v with
  | PyTuple a b => Ok (a, b)
  | _ => Raise TypeError
  end.

(** [v[0]] and [v[1]], used as integers. *)
Definition pair_item (v : pyval) (i : nat) : result Z :=
  match v with
  | PyTuple a b => Ok (if i =? 0 then a else b)
  | PyStr EmptyString => Raise IndexError
  | _ => Raise TypeError
  end.

(** The padding rule shared by [Conv2D] and [Pool2D]:
    ["same"], ["valid"], an integer, or a [ValueError]. *)
Definition resolve_pad (pad : pyval) (k0 k1 : result Z) : result pyval :=
  if is_str pad "same" then
    a <- k0 ;; b <- k1 ;; Ok (PyTuple ((a - 1) / 2) ((b - 1) / 2))
  else if is_str pad "valid" then Ok (PyTuple 0 0)
  else match pad with
       | PyInt p => Ok (PyTuple p p)
       | _ => Raise (ValueError "invalid Pad mode found in self.pad.")
       end.

(** ** The layers *)

Record FullyConnected : Type :=
  { fc_base : Layer;
    fc_init_weights : list Z -> result ndarray }.

Record Conv2D : Type :=
  { base : Layer;
    kernel_shape : pyval;
    stride : pyval;
    pad : pyval;
    init_weights : list Z -> result ndarray }.

Inductive pool_fn : Type := NpMax | NpMean.

Record Pool2D : Type :=
  { pool_base : Layer;
    pool_kernel_shape : pyval;
    pool_stride : pyval;
    pool_pad : pyval;
    mode : pyval;
    self_pool_fn : option pool_fn;
    arg_pool_fn : bool }.

Record Flatten : Type :=
  { flat_base : Layer;
    keep_dim : pyval }.

Inductive layer : Type :=
| IsFullyConnected (l : FullyConnected)
| IsConv2D (l : Conv2D)
| IsPool2D (l : Pool2D)
| IsFlatten (l : Flatten).

Definition with_base (L : Conv2D) (b : Layer) : Conv2D :=
  {| base := b; kernel_shape := kernel_shape L; stride := stride L;
     pad := pad L; init_weights := init_weights L |}.

Definition with_pad (L : Conv2D) (p : pyval) : Conv2D :=
  {| base := base L; kernel_shape := kernel_shape L; stride := stride L;
     pad := p; init_weights := init_weights L |}.

Definition pool_with_base (L : Pool2D) (b : Layer) : Pool2D :=
  {| pool_base := b; pool_kernel_shape := pool_kernel_shape L;
     pool_stride := pool_stride L; pool_pad := pool_pad L; mode := mode L;
     self_pool_fn := self_pool_fn L; arg_pool_fn := arg_pool_fn L |}.

Section Layers.

(** [initialize_activation(name)] and [initialize_weights(name, activation)]
    of the sibling modules, and the contents of freshly allocated memory. *)
Variable initialize_activation : pyval -> result Activation.
Variable initialize_weights : pyval -> pyval -> result (list Z -> result ndarray).
Variable junk : nat -> Qc.

(** *** FullyConnected (the constructor; the methods come after the arrays
    of any rank) *)

Definition FullyConnected_init (n_out' activation' weight_init : pyval)
  : result FullyConnected :=
  act <- initialize_activation activation' ;;
  iw <- initialize_weights weight_init activation' ;;
  Ok {| fc_base :=
          {| activation := Some act; n_in := None; n_out := n_out';
             parameters := []; cache := []; gradients := [] |};
        fc_init_weights := iw |}.

(** *** Conv2D *)

Definition Conv2D_init (n_out' kernel_shape' activation' stride' pad' weight_init : pyval)
  : result Conv2D :=
  act <- initialize_activation activation' ;;
  iw <- initialize_weights weight_init activation' ;;
  Ok {| base :=
          {| activation := Some act; n_in := None; n_out := n_out';
             parameters := []; cache := []; gradients := [] |};
        kernel_shape := kernel_shape';
        stride := stride';
        pad := pad';
        init_weights := iw |}.

(** [Conv2D._init_parameters] *)
Definition Conv2D_init_parameters (L : Conv2D) (X_shape : list nat) : result Conv2D :=
  match nth_error X_shape 3 with
  | None => Raise IndexError
  | Some c =>
      '(kh, kw) <- as_tuple (kernel_shape L) ;;
      n <- as_int (n_out (base L)) ;;
      let W_shape := [kh; kw; Z.of_nat c; n] in
      W <- init_weights L W_shape ;;
      b_shape <- shape_of_ints [1%Z; n] ;;
      let b := np_zeros b_shape in
      let base' :=
        {| activation := activation (base L); n_in := Some c; n_out := n_out (base L);
           parameters := [("W", W); ("b", b)];
           cache := [("Z", Clist []); ("X", Clist [])];
           gradients := [("W", np_zeros_like W); ("b", np_zeros_like b)] |} in
      p <- resolve_pad (pad L) (Ok kh) (Ok kw) ;;
      Ok (with_pad (with_base L base') p)
  end.

(** The window of output position [(row, col)]: [row*s : row*s + kh] and
    [col*s : col*s + kw]. *)
Definition window (s kh kw : Z) (row col : nat) : Z * Z * Z * Z :=
  ((Z.of_nat row * s)%Z, (Z.of_nat row * s + kh)%Z,
   (Z.of_nat col * s)%Z, (Z.of_nat col * s + kw)%Z).

(** The body of the innermost loop of [Conv2D.forward]. *)
Definition Conv2D_forward_step (padX W b : ndarray) (s kh kw : Z)
    (row col channel : nat) (Zc : ndarray) : result ndarray :=
  let '(r0, r1, c0, c1) := window s kh kw row col in
  win <- slice_hw padX r0 r1 c0 c1 ;;
  Wc <- last_axis_item W channel ;;
  prod <- np_mul win (expand4 Wc) ;;
  sums <- np_sum_123 prod ;;
  bc <- column b channel ;;
  v <- np_add1 sums bc ;;
  setitem_cell Zc row col channel v.

(** [Conv2D.forward] *)
Definition Conv2D_forward (L : Conv2D) (X : ndarray) : result (Conv2D * ndarray) :=
  L <- match n_in (base L) with
       | None => Conv2D_init_parameters L (shape X)
       | Some _ => Ok L
       end ;;
  W <- dict_item (parameters (base L)) "W" ;;
  b <- dict_item (parameters (base L)) "b" ;;
  '(kernel_height, kernel_width, _, out_channels) <- unpack4 (shape W) ;;
  '(n_examples, in_rows, in_cols, in_channels) <- unpack4 (shape X) ;;
  let kh := Z.of_nat kernel_height in
  let kw := Z.of_nat kernel_width in
  pad0 <- pair_item (pad L) 0 ;;
  s <- as_int (stride L) ;;
  out_rows <- out_size in_rows pad0 kh s ;;
  pad1 <- pair_item (pad L) 1 ;;
  out_cols <- out_size in_cols pad1 kw s ;;
  padX <- np_pad X pad0 pad1 ;;
  Z0 <- np_empty junk (dtype X)
          [Z.of_nat n_examples; out_rows; out_cols; Z.of_nat out_channels] ;;
  Zf <- for_each (range out_rows) (fun Zc row =>
          for_each (range out_cols) (fun Zc col =>
            for_each (seq 0 out_channels) (fun Zc channel =>
              Conv2D_forward_step padX W b s kh kw row col channel Zc) Zc) Zc) Z0 ;;
  act <- call_activation (activation (base L)) ;;
  let out := act_forward act Zf in
  let c1 := dict_set (cache (base L)) "Z" (Carr Zf) in
  let c2 := dict_set c1 "X" (Carr X) in
  Ok (with_base L (set_cache (base L) c2), out).

(** The body of the innermost loop of [Conv2D.backward], on the pair
    [(dX_pad, dW)]. *)
Definition Conv2D_backward_step (X_pad W dZ : ndarray) (s kh kw : Z)
    (row col channel : nat) (st : ndarray * ndarray) : result (ndarray * ndarray) :=
  let '(dX_pad, dW) := st in
  let '(r0, r1, c0, c1) := window s kh kw row col in
  Wc <- last_axis_item W channel ;;
  dz <- grad_item dZ (Z.of_nat row) (Z.of_nat col) channel ;;
  contrib <- np_mul (expand4 Wc) dz ;;
  dX_pad' <- iadd_hw dX_pad r0 r1 c0 c1 contrib ;;
  win <- slice_hw X_pad r0 r1 c0 c1 ;;
  prod <- np_mul win dz ;;
  sums <- np_sum_0 prod ;;
  dW' <- iadd_last_axis_item dW channel sums ;;
  Ok (dX_pad', dW').

(** [Conv2D.backward] *)
Definition Conv2D_backward (L : Conv2D) (dLdY : ndarray) : result (Conv2D * ndarray) :=
  W <- dict_item (parameters (base L)) "W" ;;
  b <- dict_item (parameters (base L)) "b" ;;
  X <- cache_array (cache (base L)) "X" ;;
  Zc <- cache_array (cache (base L)) "Z" ;;
  act <- activation_backward (activation (base L)) ;;
  let dZ := act_backward act Zc dLdY in
  '(n_examples, in_rows, in_cols, in_channels) <- unpack4 (shape X) ;;
  '(kernel_height, kernel_width, _, out_channels) <- unpack4 (shape W) ;;
  let kh := Z.of_nat kernel_height in
  let kw := Z.of_nat kernel_width in
  pad0 <- pair_item (pad L) 0 ;;
  s <- as_int (stride L) ;;
  out_rows <- out_size in_rows pad0 kh s ;;
  pad1 <- pair_item (pad L) 1 ;;
  out_cols <- out_size in_cols pad1 kw s ;;
  X_pad <- np_pad X pad0 pad1 ;;
  let dX_pad := np_zeros_like X_pad in
  let dW := np_zeros_like W in
  sums <- np_sum_012 dZ ;;
  dB <- np_reshape sums [1%Z; (-1)%Z] ;;
  '(dX_pad, dW) <-
    for_each (range out_rows) (fun st row =>
      for_each (range out_cols) (fun st col =>
        for_each (seq 0 out_channels) (fun st channel =>
          Conv2D_backward_step X_pad W dZ s kh kw row col channel st) st) st)
      (dX_pad, dW) ;;
  let g1 := dict_set (gradients (base L)) "W" dW in
  let g2 := dict_set g1 "b" dB in
  dX <- slice_hw dX_pad pad0 (Z.of_nat in_rows + pad0) pad1 (Z.of_nat in_cols + pad1) ;;
  Ok (with_base L (set_gradients (base L) g2), dX).

(** *** Pool2D *)

(** [Pool2D.__init__].  The constructor does not call [Layer.__init__]; the
    attributes the base class would set are absent, here left at [None]. *)
Definition Pool2D_init (kernel_shape' mode' stride' pad' : pyval) : result Pool2D :=
  let kernel_shape' :=
    match kernel_shape' with
    | PyInt k => PyTuple k k
    | _ => kernel_shape'
    end in
  p <- resolve_pad pad' (pair_item kernel_shape' 0) (pair_item kernel_shape' 1) ;;
  let '(fn, arg) :=
    if is_str mode' "max" then (Some NpMax, true)
    else if is_str mode' "average" then (Some NpMean, false)
    else (None, false) in
  Ok {| pool_base :=
          {| activation := None; n_in := None; n_out := PyNone;
             parameters := [];
             cache := [("out_rows", Clist []); ("out_cols", Clist []);
                       ("X_pad", Clist []); ("p", Clist []); ("pool_shape", Clist [])];
             gradients := [] |};
        pool_kernel_shape := kernel_shape';
        pool_stride := stride';
        pool_pad := p;
        mode := mode';
        self_pool_fn := fn;
        arg_pool_fn := arg |}.

(** The local variable [pool_fn] of [Pool2D.forward]: bound only when the
    mode is one of the two known ones. *)
Definition local_pool_fn (m : pyval) : option pool_fn :=
  if is_str m "max" then Some NpMax
  else if is_str m "average" then Some NpMean
  else None.

Definition apply_pool_fn (f : option pool_fn) (win : ndarray) : result ndarray :=
  match f with
  | Some NpMax => np_max_12 win
  | Some NpMean => np_mean_12 win
  | None => Raise (UnboundLocalError "pool_fn")
  end.

Definition Pool2D_forward_step (X_pad : ndarray) (f : option pool_fn) (s kh kw : Z)
    (row col : nat) (X_pooled : ndarray) : result ndarray :=
  let '(row0, row1, col0, col1) := window s kh kw row col in
  win <- slice_hw X_pad row0 row1 col0 col1 ;;
  v <- apply_pool_fn f win ;;
  setitem_pixel X_pooled row col v.

(** [Pool2D.forward] *)
Definition Pool2D_forward (L : Pool2D) (X : ndarray) : result (Pool2D * ndarray) :=
  '(n_examples, in_rows, in_cols, in_channels) <- unpack4 (shape X) ;;
  '(kh, kw) <- unpack_pair (pool_kernel_shape L) ;;
  pad0 <- pair_item (pool_pad L) 0 ;;
  s <- as_int (pool_stride L) ;;
  out_rows <- out_size in_rows pad0 kh s ;;
  pad1 <- pair_item (pool_pad L) 1 ;;
  out_cols <- out_size in_cols pad1 kw s ;;
  let f := local_pool_fn (mode L) in
  X_pad <- np_pad X pad0 pad1 ;;
  sh <- shape_of_ints [Z.of_nat n_examples; out_rows; out_cols; Z.of_nat in_channels] ;;
  let X_pooled := np_zeros sh in
  X_pooled <- for_each (range out_rows) (fun A row =>
                for_each (range out_cols) (fun A col =>
                  Pool2D_forward_step X_pad f s kh kw row col A) A) X_pooled ;;
  let c := dict_set (cache (pool_base L)) "X" (Carr X) in
  Ok (pool_with_base L (set_cache (pool_base L) c), X_pooled).

(** The body of the loops of [Pool2D.backward]. *)
Definition Pool2D_backward_step (X_pad dLdY : ndarray) (m : pyval)
    (n_examples in_channels : nat) (s kh kw : Z)
    (row col : nat) (dX : ndarray) : result ndarray :=
  let '(row0, row1, col0, col1) := window s kh kw row col in
  if is_str m "average" then
    g <- slice_hw dLdY (Z.of_nat row) (Z.of_nat row + 1) (Z.of_nat col) (Z.of_nat col + 1) ;;
    iadd_hw dX row0 row1 col0 col1 (np_div_int g (kh * kw))
  else if is_str m "max" then
    win <- slice_hw X_pad row0 row1 col0 col1 ;;
    xi_reshape <- np_reshape win [Z.of_nat n_examples; (kh * kw)%Z; Z.of_nat in_channels] ;;
    max_id <- np_argmax_1 xi_reshape ;;
    x_mask <- one_hot_1 xi_reshape max_id ;;
    x_mask <- np_reshape x_mask [Z.of_nat n_examples; kh; kw; Z.of_nat in_channels] ;;
    g <- slice_hw dLdY (Z.of_nat row) (Z.of_nat row + 1) (Z.of_nat col) (Z.of_nat col + 1) ;;
    contrib <- np_mul x_mask g ;;
    iadd_hw dX row0 row1 col0 col1 contrib
  else Ok dX.

(** [Pool2D.backward] *)
Definition Pool2D_backward (L : Pool2D) (dLdY : ndarray) : result ndarray :=
  _ <- dict_item (cache (pool_base L)) "out_rows" ;;
  _ <- dict_item (cache (pool_base L)) "out_cols" ;;
  X <- cache_array (cache (pool_base L)) "X" ;;
  '(n_examples, in_rows, in_cols, in_channels) <- unpack4 (shape X) ;;
  '(kh, kw) <- unpack_pair (pool_kernel_shape L) ;;
  pad0 <- pair_item (pool_pad L) 0 ;;
  s <- as_int (pool_stride L) ;;
  out_rows <- out_size in_rows pad0 kh s ;;
  pad1 <- pair_item (pool_pad L) 1 ;;
  out_cols <- out_size in_cols pad1 kw s ;;
  X_pad <- np_pad X pad0 pad1 ;;
  let dX := np_zeros_like X_pad in
  dX <- for_each (range out_rows) (fun A row =>
          for_each (range out_cols) (fun A col =>
            Pool2D_backward_step X_pad dLdY (mode L) n_examples in_channels
              s kh kw row col A) A) dX ;;
  slice_hw dX pad0 (Z.of_nat in_rows + pad0) pad1 (Z.of_nat in_cols + pad1).

(** *** Flatten *)

(** [Flatten.__init__] with [_init_params].  (The attribute [self.X], set to
    an empty list and never read, is left out.) *)
Definition Flatten_init (keep_dim' : pyval) : Flatten :=
  {| flat_base :=
       {| activation := None; n_in := None; n_out := PyNone;
          parameters := []; cache := [("in_dims", Clist [])]; gradients := [] |};
     keep_dim := keep_dim' |}.

(** [Flatten.forward] *)
Definition Flatten_forward (L : Flatten) (X : ndarray) : result (Flatten * ndarray) :=
  let c := dict_set (cache (flat_base L)) "in_dims" (Cshape (shape X)) in
  let L' := {| flat_base := set_cache (flat_base L) c; keep_dim := keep_dim L |} in
  if is_int (keep_dim L) (-1) then
    Y <- np_reshape (np_flatten X) [1%Z; (-1)%Z] ;; Ok (L', Y)
  else
    rs <- (if is_str (keep_dim L) "first" then
             match shape X with
             | n :: _ => Ok [Z.of_nat n; (-1)%Z]
             | [] => Raise IndexError
             end
           else
             match rev (shape X) with
             | n :: _ => Ok [(-1)%Z; Z.of_nat n]
             | [] => Raise IndexError
             end) ;;
    Y <- np_reshape X rs ;; Ok (L', Y).

(** [Flatten.backward] *)
Definition Flatten_backward (L : Flatten) (dLdY : ndarray) : result ndarray :=
  in_dims <- dict_item (cache (flat_base L)) "in_dims" ;;
  match in_dims with
  | Cshape sh => np_reshape dLdY (map Z.of_nat sh)
  | Clist [] => np_reshape dLdY []
  | _ => Raise TypeError
  end.

(** *** The factory *)

(** [initialize_layer].  The last branch evaluates the name
    [NotimplementedError], which is bound nowhere. *)
Definition initialize_layer
    (name activation' weight_init n_out' kernel_shape' stride' pad' mode' keep_dim' : pyval)
  : result layer :=
  if is_str name "fully_connected" then
    l <- FullyConnected_init n_out' activation' weight_init ;; Ok (IsFullyConnected l)
  else if is_str name "conv2d" then
    l <- Conv2D_init n_out' kernel_shape' activation' stride' pad' weight_init ;;
    Ok (IsConv2D l)
  else if is_str name "pool2d" then
    l <- Pool2D_init kernel_shape' mode' stride' pad' ;; Ok (IsPool2D l)
  else if is_str name "flatten" then
    Ok (IsFlatten (Flatten_init keep_dim'))
  else Raise (NameError "NotimplementedError").

End Layers.

(** ** Further methods of the layers *)

Definition set_parameters (L : Layer) (p : dict ndarray) : Layer :=
  {| activation := activation L; n_in := n_in L; n_out := n_out L;
     parameters := p; cache := cache L; gradients := gradients L |}.

(** [Layer.forward_with_param(param_name, X)] returns the closure
    [inner_forward]; the closure acts on the layer object as it is when it
    is called: it stores [param_val] under [param_name] and runs the layer's
    own [forward].  [T] is the class of the layer, [forward] its method. *)
Definition inner_forward {T : Type}
    (get_base : T -> Layer) (set_base : T -> Layer -> T)
    (forward : T -> ndarray -> result (T * ndarray))
    (param_name : string) (X : ndarray) (param_val : ndarray) (self : T)
  : result (T * ndarray) :=
  let self' :=
    set_base self
      (set_parameters (get_base self)
         (dict_set (parameters (get_base self)) param_name param_val)) in
  forward self' X.

Definition Conv2D_forward_with_param (junk : nat -> Qc)
    (param_name : string) (X : ndarray) : ndarray -> Conv2D -> result (Conv2D * ndarray) :=
  inner_forward base with_base (Conv2D_forward junk) param_name X.

Definition Pool2D_forward_with_param
    (param_name : string) (X : ndarray) : ndarray -> Pool2D -> result (Pool2D * ndarray) :=
  inner_forward pool_base pool_with_base Pool2D_forward param_name X.

(** [Layer.clear_gradients] as inherited by the layers. *)
Definition Conv2D_clear_gradients (L : Conv2D) : Conv2D :=
  with_base L (clear_gradients (base L)).

Definition Pool2D_clear_gradients (L : Pool2D) : Pool2D :=
  pool_with_base L (clear_gradients (pool_base L)).

(** ** Arrays of any rank *)

(** Row-major position of a multi-index, and back. *)
Fixpoint ravel (sh idx : list nat) : nat :=
  match sh, idx with
  | _ :: sh', i :: idx' => (i * size sh' + ravel sh' idx')%nat
  | _, _ => 0%nat
  end.

Fixpoint unravel (sh : list nat) (n : nat) : list nat :=
  match sh with
  | [] => []
  | _ :: sh' => (n / size sh')%nat :: unravel sh' (n mod size sh')
  end.

Definition item (A : ndarray) (idx : list nat) : Qc :=
  nth (ravel (shape A) idx) (data A) 0.

Definition tabulate (d : kind) (sh : list nat) (f : list nat -> Qc) : ndarray :=
  {| shape := sh; data := map (fun n => f (unravel sh n)) (seq 0 (size sh));
     dtype := d |}.

(** Broadcasting of two shapes, aligned at their last axes. *)
Fixpoint broadcast_rev (s1 s2 : list nat) : result (list nat) :=
  match s1, s2 with
  | [], s => Ok s
  | s, [] => Ok s
  | a :: s1', b :: s2' =>
      d <- bdim a b ;; r <- broadcast_rev s1' s2' ;; Ok (d :: r)
  end.

Definition broadcast_shapes (s1 s2 : list nat) : result (list nat) :=
  r <- broadcast_rev (rev s1) (rev s2) ;; Ok (rev r).

(** The index read in an operand of shape [sh] for the index [idx] of the
    broadcast result: the trailing axes, an axis of length 1 read at 0. *)
Definition operand_index (sh idx : list nat) : list nat :=
  map (fun ni => bidx (fst ni) (snd ni))
    (combine sh (skipn (length idx - length sh) idx)).

Definition broadcast (op : Qc -> Qc -> Qc) (A B : ndarray) : result ndarray :=
  sh <- broadcast_shapes (shape A) (shape B) ;;
  Ok (tabulate (result_type (dtype A) (dtype B)) sh (fun idx =>
        op (item A (operand_index (shape A) idx))
           (item B (operand_index (shape B) idx)))).

(** [A + B] *)
Definition np_add : ndarray -> ndarray -> result ndarray := broadcast Qcplus.

(** [A.T]: the axes in reverse order. *)
Definition np_T (A : ndarray) : ndarray :=
  tabulate (dtype A) (rev (shape A)) (fun idx => item A (rev idx)).

(** [A.sum(axis=0, keepdims=True)] *)
Definition np_sum_0_keepdims (A : ndarray) : result ndarray :=
  match shape A with
  | [] => Raise (ValueError "axis out of bounds")
  | d :: rest =>
      Ok (tabulate (dtype A) (1%nat :: rest)
            (fun idx => sum_n d (fun i => item A (i :: tl idx))))
  end.

(** [A @ B].  A rank-1 operand is a row on the left and a column on the
    right, and its axis is dropped from the result; operands of higher rank
    are stacks of matrices whose leading axes are broadcast. *)
Definition split_last2 (sh : list nat) : list nat * nat * nat :=
  (firstn (length sh - 2) sh, nth (length sh - 2) sh 0%nat, nth (length sh - 1) sh 0%nat).

Definition np_matmul (A B : ndarray) : result ndarray :=
  match shape A, shape B with
  | [], _ | _, [] =>
      Raise (ValueError "matmul: Input operand does not have enough dimensions")
  | _, _ =>
      let a1 := (length (shape A) =? 1)%nat in
      let b1 := (length (shape B) =? 1)%nat in
      let shA := if a1 then 1%nat :: shape A else shape A in
      let shB := if b1 then shape B ++ [1%nat] else shape B in
      let '(bA, n, k) := split_last2 shA in
      let '(bB, k', m) := split_last2 shB in
      if negb (k =? k')%nat
      then Raise (ValueError "matmul: Input operand 1 has a mismatch in its core dimension 0")
      else
        batch <- broadcast_shapes bA bB ;;
        let A' := {| shape := shA; data := data A; dtype := dtype A |} in
        let B' := {| shape := shB; data := data B; dtype := dtype B |} in
        let R :=
          tabulate (result_type (dtype A) (dtype B)) (batch ++ [n; m]) (fun idx =>
            let beta := firstn (length batch) idx in
            let i := nth (length batch) idx 0%nat in
            let j := nth (S (length batch)) idx 0%nat in
            sum_n k (fun l =>
              item A' (operand_index bA beta ++ [i; l])
              * item B' (operand_index bB beta ++ [l; j]))) in
        Ok {| shape := batch ++ (if a1 then [] else [n]) ++ (if b1 then [] else [m]);
              data := data R; dtype := dtype R |}
  end.

(** ** FullyConnected *)

Definition fc_with_base (L : FullyConnected) (b : Layer) : FullyConnected :=
  {| fc_base := b; fc_init_weights := fc_init_weights L |}.

(** [FullyConnected._init_parameters] *)
Definition FullyConnected_init_parameters (L : FullyConnected) (X_shape : list nat)
  : result FullyConnected :=
  match nth_error X_shape 1 with
  | None => Raise IndexError
  | Some c =>
      n <- as_int (n_out (fc_base L)) ;;
      W <- fc_init_weights L [Z.of_nat c; n] ;;
      b_shape <- shape_of_ints [1%Z; n] ;;
      let b := np_zeros b_shape in
      Ok (fc_with_base L
            {| activation := activation (fc_base L); n_in := Some c;
               n_out := n_out (fc_base L);
               parameters := [("W", W); ("b", b)];
               cache := [("Z", Clist []); ("X", Clist [])];
               gradients := [("W", np_zeros_like W); ("b", np_zeros_like b)] |})
  end.

(** [FullyConnected.forward] *)
Definition FullyConnected_forward (L : FullyConnected) (X : ndarray)
  : result (FullyConnected * ndarray) :=
  L <- match n_in (fc_base L) with
       | None => FullyConnected_init_parameters L (shape X)
       | Some _ => Ok L
       end ;;
  W <- dict_item (parameters (fc_base L)) "W" ;;
  b <- dict_item (parameters (fc_base L)) "b" ;;
  XW <- np_matmul X W ;;
  Zf <- np_add XW b ;;
  act <- call_activation (activation (fc_base L)) ;;
  let out := act_forward act Zf in
  let c1 := dict_set (cache (fc_base L)) "Z" (Carr Zf) in
  let c2 := dict_set c1 "X" (Carr X) in
  Ok (fc_with_base L (set_cache (fc_base L) c2), out).

(** A cached value used as an array. *)
Definition as_array (v : cache_val) : result ndarray :=
  match v with
  | Carr A => Ok A
  | _ => Raise AttributeError
  end.

(** [FullyConnected.backward].  The four reads come first; the activation
    and the products need arrays. *)
Definition FullyConnected_backward (L : FullyConnected) (dLdY : ndarray)
  : result (FullyConnected * ndarray) :=
  W <- dict_item (parameters (fc_base L)) "W" ;;
  b <- dict_item (parameters (fc_base L)) "b" ;;
  Xv <- dict_item (cache (fc_base L)) "X" ;;
  Zv <- dict_item (cache (fc_base L)) "Z" ;;
  act <- activation_backward (activation (fc_base L)) ;;
  Zc <- as_array Zv ;;
  let dZ := act_backward act Zc dLdY in
  dX <- np_matmul dZ (np_T W) ;;
  X <- as_array Xv ;;
  dW <- np_matmul (np_T X) dZ ;;
  dB <- np_sum_0_keepdims dZ ;;
  let g1 := dict_set (gradients (fc_base L)) "W" dW in
  let g2 := dict_set g1 "b" dB in
  Ok (fc_with_base L (set_gradients (fc_base L) g2), dX).

Definition FullyConnected_forward_with_param
    (param_name : string) (X : ndarray)
  : ndarray -> FullyConnected -> result (FullyConnected * ndarray) :=
  inner_forward fc_base fc_with_base FullyConnected_forward param_name X.
(** ** Arrays seen as a shape and a function of the indices *)

Definition is1 (A : ndarray) (n0 : nat) (f : nat -> Qc) : Prop :=
  shape A = [n0] /\ forall i, (i < n0)%nat -> get1 A i = f i.

Definition is2 (A : ndarray) (n0 n1 : nat) (f : nat -> nat -> Qc) : Prop :=
  shape A = [n0; n1]
  /\ forall i j, (i < n0)%nat -> (j < n1)%nat -> get2 A i j = f i j.

Definition is3 (A : ndarray) (n0 n1 n2 : nat) (f : nat -> nat -> nat -> Qc) : Prop :=
  shape A = [n0; n1; n2]
  /\ forall i j k, (i < n0)%nat -> (j < n1)%nat -> (k < n2)%nat ->
       get3 A i j k = f i j k.

Definition is4 (A : ndarray) (n0 n1 n2 n3 : nat)
    (f : nat -> nat -> nat -> nat -> Qc) : Prop :=
  shape A = [n0; n1; n2; n3]
  /\ forall b i j k, (b < n0)%nat -> (i < n1)%nat -> (j < n2)%nat -> (k < n3)%nat ->
       get4 A b i j k = f b i j k.


(** ** Closed forms used in the statements *)

(** The zero-padded input, cell by cell. *)
Definition padded (X : ndarray) (p q : nat) (b i j k : nat) : Qc :=
  match shape X with
  | [_; H; W; _] =>
      if (p <=? i) && (i <? p + H) && (q <=? j) && (j <? q + W)
      then get4 X b (i - p) (j - q) k
      else 0
  | _ => 0
  end.

(** Cell [(i, j)] lies in the window of output position [(row, col)]. *)
Definition covers (s kh kw row col i j : nat) : bool :=
  (row * s <=? i) && (i <? row * s + kh) && (col * s <=? j) && (j <? col * s + kw).

(** The convolution sum of output position [(row, col)] and channel [ch]:
    the window of [fx] against the kernel slice [fw _ _ _ ch]. *)
Definition conv_at (fx fw : nat -> nat -> nat -> nat -> Qc)
    (kh kw C s : nat) (b row col ch : nat) : Qc :=
  sum_n kh (fun i => sum_n kw (fun j => sum_n C (fun k =>
    fx b (row * s + i)%nat (col * s + j)%nat k * fw i j k ch))).

(** The cells of the window of output position [(row, col)], for example [b]
    and channel [k], flattened in row-major order. *)
Definition window_cells (fx : nat -> nat -> nat -> nat -> Qc)
    (s kh kw : nat) (b row col k : nat) : list Qc :=
  flat_map (fun i => map (fun j => fx b (row * s + i)%nat (col * s + j)%nat k) (seq 0 kw))
    (seq 0 kh).

(** Cell [(i, j)] is the one the window of [(row, col)] routes its gradient
    to: it lies in the window, at the row-major position [argmax] picks. *)
Definition is_argmax_cell (fx : nat -> nat -> nat -> nat -> Qc)
    (s kh kw : nat) (b row col k : nat) (i j : nat) : bool :=
  covers s kh kw row col i j
  && ((i - row * s) * kw + (j - col * s) =? argmax (window_cells fx s kh kw b row col k)).

(** Cell [(i, j)] of the padded input is a cell of the input itself. *)
Definition is_real (H W p q i j : nat) : bool :=
  (p <=? i) && (i <? p + H) && (q <=? j) && (j <? q + W).

(** The two pooled values of a window. *)
Definition mean_at (fx : nat -> nat -> nat -> nat -> Qc)
    (s kh kw : nat) (b row col k : nat) : Qc :=
  sum_n kh (fun i => sum_n kw (fun j => fx b (row * s + i)%nat (col * s + j)%nat k))
  / of_int (Z.of_nat (kh * kw)).

Definition max_at (fx : nat -> nat -> nat -> nat -> Qc)
    (s kh kw : nat) (b row col k : nat) : Qc :=
  match window_cells fx s kh kw b row col k with
  | [] => 0
  | x :: l => max_list x l
  end.

(** The inner product of two arrays of the same shape, given by their
    entries: the directional derivative of a loss whose gradient is the one
    array, along the other. *)
Definition inner2 (n0 n1 : nat) (f g : nat -> nat -> Qc) : Qc :=
  sum_n n0 (fun i => sum_n n1 (fun j => f i j * g i j)).

Definition inner4 (n0 n1 n2 n3 : nat) (f g : nat -> nat -> nat -> nat -> Qc) : Qc :=
  sum_n n0 (fun b => sum_n n1 (fun i => sum_n n2 (fun j => sum_n n3 (fun k =>
    f b i j k * g b i j k)))).
(** ** Concrete layers and arrays used in the examples *)

Definition identity_activation : Activation :=
  {| act_forward := fun Zc => Zc; act_backward := fun _ dLdY => dLdY |}.

Definition no_activation (name : pyval) : result Activation :=
  match name with
  | PyNone => Ok identity_activation
  | _ => Raise (ValueError "unknown activation")
  end.

Definition counting_weights (sh : list Z) : result ndarray :=
  sh' <- shape_of_ints sh ;;
  Ok {| shape := sh'; data := map (fun i => of_int (Z.of_nat i + 1)) (seq 0 (size sh'));
        dtype := Kfloat |}.

Definition no_weights (name act : pyval) : result (list Z -> result ndarray) :=
  Ok counting_weights.

(** The values of an array, for display. *)
Definition values (A : ndarray) : list Q := map this (data A).


(** A fresh convolution layer: 2x2 kernel, stride 1, padding 1, one output
    channel; and the same layer after its first call has initialised it. *)
Definition conv_example : Conv2D :=
  {| base := {| activation := Some identity_activation; n_in := None; n_out := PyInt 1;
                parameters := []; cache := []; gradients := [] |};
     kernel_shape := PyTuple 2 2;
     stride := PyInt 1;
     pad := PyInt 1;
     init_weights := counting_weights |}.

Definition conv_kernel : ndarray :=
  {| shape := [2; 2; 1; 1]%nat; data := [of_int 1; of_int 2; of_int 3; of_int 4];
     dtype := Kfloat |}.

Definition conv_bias : ndarray := np_zeros [1; 1]%nat.

Definition conv_ready : Conv2D :=
  {| base := {| activation := Some identity_activation; n_in := Some 1%nat;
                n_out := PyInt 1;
                parameters := [("W", conv_kernel); ("b", conv_bias)];
                cache := [("Z", Clist []); ("X", Clist [])];
                gradients := [("W", np_zeros_like conv_kernel);
                              ("b", np_zeros_like conv_bias)] |};
     kernel_shape := PyTuple 2 2;
     stride := PyInt 1;
     pad := PyTuple 1 1;
     init_weights := counting_weights |}.

Definition conv_input : ndarray :=
  {| shape := [1; 2; 2; 1]%nat; data := [of_int 1; of_int 2; of_int 3; of_int 4];
     dtype := Kfloat |}.

Definition conv_output : ndarray :=
  {| shape := [1; 3; 3; 1]%nat;
     data := map of_int [4; 11; 6; 14; 30; 14; 6; 11; 4]%Z; dtype := Kfloat |}.

(** The layer after [forward conv_input]. *)
Definition conv_after : Conv2D :=
  with_base conv_ready
    (set_cache (base conv_ready) [("Z", Carr conv_output); ("X", Carr conv_input)]).

(** Pooling layers with a 2x2 kernel and stride 1, as the constructor
    builds them, and the layer after [forward window_example]. *)
Definition pool_cache : dict cache_val :=
  [("out_rows", Clist []); ("out_cols", Clist []); ("X_pad", Clist []);
   ("p", Clist []); ("pool_shape", Clist [])].

Definition pool_layer (m : string) (f : option pool_fn) (arg : bool) (p : Z)
    (c : dict cache_val) : Pool2D :=
  {| pool_base :=
       {| activation := None; n_in := None; n_out := PyNone; parameters := [];
          cache := c; gradients := [] |};
     pool_kernel_shape := PyTuple 2 2;
     pool_stride := PyInt 1;
     pool_pad := PyTuple p p;
     mode := PyStr m;
     self_pool_fn := f;
     arg_pool_fn := arg |}.

Definition pool_max : Pool2D := pool_layer "max" (Some NpMax) true 0 pool_cache.
Definition pool_min : Pool2D := pool_layer "min" None false 0 pool_cache.
Definition pool_average : Pool2D := pool_layer "average" (Some NpMean) false 0 pool_cache.

Definition window_example : ndarray :=
  {| shape := [1; 2; 2; 1]%nat; data := [of_int 1; of_int 3; of_int 2; of_int 0];
     dtype := Kfloat |}.

Definition pool_max_after : Pool2D :=
  pool_layer "max" (Some NpMax) true 0 (pool_cache ++ [("X", Carr window_example)]).

Definition pool_average_after : Pool2D :=
  pool_layer "average" (Some NpMean) false 0 (pool_cache ++ [("X", Carr window_example)]).

(** An upstream gradient for the single output position. *)
Definition upstream (g : Z) : ndarray :=
  {| shape := [1; 1; 1; 1]%nat; data := [of_int g]; dtype := Kfloat |}.

(** Max pooling with padding 1 over an input whose cells are all negative. *)
Definition negative_example : ndarray :=
  {| shape := [1; 2; 2; 1]%nat; data := [of_int (-1); of_int (-2); of_int (-3); of_int (-4)];
     dtype := Kfloat |}.

Definition pool_max_padded : Pool2D := pool_layer "max" (Some NpMax) true 1 pool_cache.

Definition pool_max_padded_after : Pool2D :=
  pool_layer "max" (Some NpMax) true 1 (pool_cache ++ [("X", Carr negative_example)]).

Definition ones (sh : list nat) : ndarray :=
  {| shape := sh; data := repeat (of_int 1) (size sh); dtype := Kfloat |}.

(** A layer state with non-trivial cache and gradients. *)
Definition cleared_example : Layer :=
  {| activation := Some identity_activation; n_in := Some 1%nat; n_out := PyInt 2;
     parameters := [("W", {| shape := [1; 2]%nat; data := [of_int 3; of_int 4];
                             dtype := Kfloat |});
                    ("b", {| shape := [1; 2]%nat; data := [of_int 0; of_int 0];
                             dtype := Kfloat |})];
     cache := [("Z", Carr {| shape := [1; 2]%nat; data := [of_int 7; of_int 9];
                             dtype := Kfloat |});
               ("X", Carr {| shape := [1; 1]%nat; data := [of_int 1]; dtype := Kfloat |})];
     gradients := [("W", {| shape := [1; 2]%nat; data := [of_int 5; of_int 6];
                            dtype := Kfloat |});
                   ("b", {| shape := [1; 2]%nat; data := [of_int 1; of_int 1];
                            dtype := Kfloat |})] |}.

(** An input for [Flatten] and what [forward] returns on it. *)
Definition flatten_example : ndarray :=
  {| shape := [2; 3; 1; 2]%nat; data := map of_int [1; 2; 3; 4; 5; 6; 7; 8; 9; 10; 11; 12]%Z;
     dtype := Kfloat |}.

Definition flatten_example_out : Flatten * ndarray :=
  ({| flat_base :=
        {| activation := None; n_in := None; n_out := PyNone; parameters := [];
           cache := [("in_dims", Cshape [2; 3; 1; 2]%nat)]; gradients := [] |};
      keep_dim := PyStr "first" |},
   {| shape := [2; 6]%nat; data := data flatten_example; dtype := Kfloat |}).


(** An initialised convolution whose 4x4 kernel is larger than the 1x1
    input: stride 2, no padding. *)
Definition conv_wide : Conv2D :=
  {| base := {| activation := Some identity_activation; n_in := Some 1%nat;
                n_out := PyInt 1;
                parameters := [("W", np_zeros [4; 4; 1; 1]%nat);
                               ("b", np_zeros [1; 1]%nat)];
                cache := [("Z", Clist []); ("X", Clist [])];
                gradients := [("W", np_zeros [4; 4; 1; 1]%nat);
                              ("b", np_zeros [1; 1]%nat)] |};
     kernel_shape := PyTuple 4 4;
     stride := PyInt 2;
     pad := PyTuple 0 0;
     init_weights := counting_weights |}.

Definition tiny_input : ndarray := {| shape := [1; 1; 1; 1]%nat; data := [of_int 7];
                                      dtype := Kfloat |}.

(** ** Further example layers *)

(** A fresh convolution whose padding is none of the accepted values. *)
Definition conv_bad_pad : Conv2D :=
  {| base := {| activation := Some identity_activation; n_in := None; n_out := PyInt 1;
                parameters := []; cache := []; gradients := [] |};
     kernel_shape := PyTuple 2 2;
     stride := PyInt 1;
     pad := PyStr "full";
     init_weights := counting_weights |}.

(** A replacement kernel for [conv_ready]. *)
Definition conv_kernel' : ndarray :=
  {| shape := [2; 2; 1; 1]%nat; data := [of_int 1; of_int 0; of_int 0; of_int 1];
     dtype := Kfloat |}.

(** The output of [pool_max] on [window_example]. *)
Definition pool_max_output : ndarray :=
  {| shape := [1; 1; 1; 1]%nat; data := [of_int 3]; dtype := Kfloat |}.

(** [pool_min] after a [forward] on an input smaller than its kernel. *)
Definition pool_min_after : Pool2D :=
  pool_layer "min" None false 0 (pool_cache ++ [("X", Carr tiny_input)]).

(** Average pooling with a 3x3 kernel, stride 1 and "same" padding, as the
    constructor returns it. *)
Definition pool_same : Pool2D :=
  {| pool_base :=
       {| activation := None; n_in := None; n_out := PyNone; parameters := [];
          cache := pool_cache; gradients := [] |};
     pool_kernel_shape := PyTuple 3 3;
     pool_stride := PyInt 1;
     pool_pad := PyTuple 1 1;
     mode := PyStr "average";
     self_pool_fn := Some NpMean;
     arg_pool_fn := false |}.

(** A fully-connected layer with two outputs, as constructed, and after its
    first [forward] on a batch of two rows of three features. *)
Definition fc_weights (sh : list Z) : result ndarray :=
  sh' <- shape_of_ints sh ;;
  Ok {| shape := sh'; data := map (fun n => of_int (Z.of_nat n)) (seq 0 (size sh'));
        dtype := Kfloat |}.

Definition fc_example : FullyConnected :=
  {| fc_base := {| activation := Some identity_activation; n_in := None;
                   n_out := PyInt 2; parameters := []; cache := []; gradients := [] |};
     fc_init_weights := fc_weights |}.

Definition fc_input : ndarray :=
  {| shape := [2; 3]%nat; data := map of_int [1; 2; 3; 4; 5; 6]%Z; dtype := Kfloat |}.

Definition fc_kernel : ndarray :=
  {| shape := [3; 2]%nat; data := map of_int [0; 1; 2; 3; 4; 5]%Z; dtype := Kfloat |}.

Definition fc_bias : ndarray := np_zeros [1; 2]%nat.

Definition fc_output : ndarray :=
  {| shape := [2; 2]%nat; data := map of_int [16; 22; 34; 49]%Z; dtype := Kfloat |}.

Definition fc_ready : FullyConnected :=
  fc_with_base fc_example
    {| activation := Some identity_activation; n_in := Some 3%nat; n_out := PyInt 2;
       parameters := [("W", fc_kernel); ("b", fc_bias)];
       cache := [("Z", Clist []); ("X", Clist [])];
       gradients := [("W", np_zeros [3; 2]%nat); ("b", np_zeros [1; 2]%nat)] |}.

Definition fc_after : FullyConnected :=
  fc_with_base fc_ready
    (set_cache (fc_base fc_ready) [("Z", Carr fc_output); ("X", Carr fc_input)]).

(** An input with four features, which [fc_ready] cannot take. *)
Definition fc_wide_input : ndarray :=
  {| shape := [1; 4]%nat; data := map of_int [1; 2; 3; 4]%Z; dtype := Kfloat |}.

(** An upstream gradient for [fc_output]. *)
Definition fc_upstream : ndarray :=
  {| shape := [2; 2]%nat; data := map of_int [1; 0; 0; 1]%Z; dtype := Kfloat |}.

(** A fresh convolution with a 3x3 kernel, stride 1 and "same" padding. *)
Definition conv_same : Conv2D :=
  {| base := {| activation := Some identity_activation; n_in := None; n_out := PyInt 1;
                parameters := []; cache := []; gradients := [] |};
     kernel_shape := PyTuple 3 3;
     stride := PyInt 1;
     pad := PyStr "same";
     init_weights := counting_weights |}.

(** The convolution the factory builds when [pad] is left out. *)
Definition conv_no_pad : Conv2D :=
  {| base := {| activation := Some identity_activation; n_in := None; n_out := PyInt 1;
                parameters := []; cache := []; gradients := [] |};
     kernel_shape := PyTuple 2 2;
     stride := PyInt 1;
     pad := PyNone;
     init_weights := counting_weights |}.

(** ** Integer-typed inputs *)

(** [np.array([[[[7]]]])]: Python integers give an integer array. *)
Definition int_pixel : ndarray :=
  {| shape := [1; 1; 1; 1]%nat; data := [of_int 7]; dtype := Kint |}.

(** An initialised convolution with a 1x1 kernel holding 1/2, stride 1 and
    no padding. *)
Definition half_kernel : ndarray :=
  {| shape := [1; 1; 1; 1]%nat; data := [Q2Qc (1 # 2)]; dtype := Kfloat |}.

Definition conv_half : Conv2D :=
  {| base := {| activation := Some identity_activation; n_in := Some 1%nat;
                n_out := PyInt 1;
                parameters := [("W", half_kernel); ("b", np_zeros [1; 1]%nat)];
                cache := [("Z", Clist []); ("X", Clist [])];
                gradients := [("W", np_zeros_like half_kernel);
                              ("b", np_zeros [1; 1]%nat)] |};
     kernel_shape := PyTuple 1 1;
     stride := PyInt 1;
     pad := PyTuple 0 0;
     init_weights := counting_weights |}.

(** [conv_input] and [window_example] built from Python integers. *)
Definition conv_input_int : ndarray :=
  {| shape := [1; 2; 2; 1]%nat; data := [of_int 1; of_int 2; of_int 3; of_int 4];
     dtype := Kint |}.

Definition conv_output_int : ndarray :=
  {| shape := [1; 3; 3; 1]%nat;
     data := map of_int [4; 11; 6; 14; 30; 14; 6; 11; 4]%Z;
     dtype := Kint |}.

Definition conv_after_int : Conv2D :=
  with_base conv_ready
    (set_cache (base conv_ready)
       [("Z", Carr conv_output_int); ("X", Carr conv_input_int)]).

Definition window_int : ndarray :=
  {| shape := [1; 2; 2; 1]%nat; data := [of_int 1; of_int 3; of_int 2; of_int 0];
     dtype := Kint |}.

Definition pool_max_after_int : Pool2D :=
  pool_layer "max" (Some NpMax) true 0 (pool_cache ++ [("X", Carr window_int)]).

Definition pool_average_after_int : Pool2D :=
  pool_layer "average" (Some NpMean) false 0 (pool_cache ++ [("X", Carr window_int)]).

(** An integer upstream gradient for the single output position. *)
Definition upstream_int (g : Z) : ndarray :=
  {| shape := [1; 1; 1; 1]%nat; data := [of_int g]; dtype := Kint |}.

Definition negative_int : ndarray :=
  {| shape := [1; 2; 2; 1]%nat;
     data := [of_int (-1); of_int (-2); of_int (-3); of_int (-4)]; dtype := Kint |}.

Definition pool_max_padded_after_int : Pool2D :=
  pool_layer "max" (Some NpMax) true 1 (pool_cache ++ [("X", Carr negative_int)]).

(** ** Padded average pooling *)

Definition pool_average_padded : Pool2D :=
  pool_layer "average" (Some NpMean) false 1 pool_cache.

(** The layer after [forward window_example]. *)
Definition pool_average_padded_after : Pool2D :=
  pool_layer "average" (Some NpMean) false 1
    (pool_cache ++ [("X", Carr window_example)]).

(** ** A 7x7 input and 3x3 convolutions of stride 2 *)

Definition input_7x7 : ndarray :=
  {| shape := [1; 7; 7; 1]%nat;
     data := map (fun i => of_int (Z.of_nat i)) (seq 0 49); dtype := Kfloat |}.

Definition conv_stride2 (p : pyval) : Conv2D :=
  {| base := {| activation := Some identity_activation; n_in := None; n_out := PyInt 1;
                parameters := []; cache := []; gradients := [] |};
     kernel_shape := PyTuple 3 3;
     stride := PyInt 2;
     pad := p;
     init_weights := counting_weights |}.

Definition kernel_3x3 : ndarray :=
  {| shape := [3; 3; 1; 1]%nat;
     data := map (fun i => of_int (Z.of_nat i + 1)) (seq 0 9); dtype := Kfloat |}.

(** [conv_stride2 p] after [_init_parameters], which resolves the padding. *)
Definition conv_stride2_ready (p : Z) : Conv2D :=
  {| base := {| activation := Some identity_activation; n_in := Some 1%nat;
                n_out := PyInt 1;
                parameters := [("W", kernel_3x3); ("b", np_zeros [1; 1]%nat)];
                cache := [("Z", Clist []); ("X", Clist [])];
                gradients := [("W", np_zeros_like kernel_3x3);
                              ("b", np_zeros_like (np_zeros [1; 1]%nat))] |};
     kernel_shape := PyTuple 3 3;
     stride := PyInt 2;
     pad := PyTuple p p;
     init_weights := counting_weights |}.

(** ** A layer whose mode is reassigned after [forward] *)

(** [pool_max_after] (the layer after [forward window_example] in "max"
    mode) after [layer.mode = "min"]: only the attribute [mode] changes. *)
Definition pool_max_renamed : Pool2D :=
  pool_layer "min" (Some NpMax) true 0 (pool_cache ++ [("X", Carr window_example)]).
Unset Implicit Arguments.

(** ** Index arithmetic of row-major buffers *)

Lemma length_flat_map_const {A B : Type} (g : A -> list B) (l : list A) (m : nat) :
  (forall x, In x l -> length (g x) = m) ->
  length (flat_map g l) = (length l * m)%nat.
Proof.
  induction l as [|x l IH]; intros Hg; simpl; [reflexivity|].
  rewrite length_app, Hg by (now left).
  rewrite IH by (intros; apply Hg; now right). reflexivity.
Qed.

Lemma nth_flat_map_seq {B : Type} (g : nat -> list B) (m : nat) (d : B) :
  forall n s i j,
    (forall x, (s <= x < s + n)%nat -> length (g x) = m) ->
    (i < n)%nat -> (j < m)%nat ->
    nth (i * m + j) (flat_map g (seq s n)) d = nth j (g (s + i)%nat) d.
Proof.
  induction n as [|n IH]; intros s i j Hlen Hi Hj; [lia|].
  simpl. destruct i as [|i].
  - simpl. rewrite app_nth1 by (rewrite Hlen; lia).
    now rewrite Nat.add_0_r.
  - rewrite app_nth2 by (rewrite Hlen; lia).
    rewrite Hlen by lia.
    replace (S i * m + j - m)%nat with (i * m + j)%nat by lia.
    rewrite IH by (try lia; intros; apply Hlen; lia).
    f_equal. f_equal. lia.
Qed.

Lemma nth_map_seq {B : Type} (f : nat -> B) (d : B) (n j : nat) :
  (j < n)%nat -> nth j (map f (seq 0 n)) d = f j.
Proof.
  intros Hj. rewrite nth_indep with (d' := f 0%nat) by (now rewrite length_map, length_seq).
  rewrite map_nth with (d := 0%nat). now rewrite seq_nth.
Qed.

Lemma get1_mk1 d n0 f i : (i < n0)%nat -> get1 (mk1 d n0 f) i = f i.
Proof. intros. unfold get1, mk1; simpl. now apply nth_map_seq. Qed.

Lemma get2_mk2 d n0 n1 f i j :
  (i < n0)%nat -> (j < n1)%nat -> get2 (mk2 d n0 n1 f) i j = f i j.
Proof.
  intros Hi Hj. unfold get2, mk2; simpl.
  rewrite nth_flat_map_seq with (m := n1); try lia.
  - simpl. now apply nth_map_seq.
  - intros. now rewrite length_map, length_seq.
Qed.

Lemma length_row n3 (h : nat -> Qc) : length (map h (seq 0 n3)) = n3.
Proof. now rewrite length_map, length_seq. Qed.

Lemma length_plane n2 n3 (h : nat -> nat -> Qc) :
  length (flat_map (fun j => map (h j) (seq 0 n3)) (seq 0 n2)) = (n2 * n3)%nat.
Proof.
  rewrite length_flat_map_const with (m := n3).
  - now rewrite length_seq.
  - intros. apply length_row.
Qed.

Lemma length_cube n1 n2 n3 (h : nat -> nat -> nat -> Qc) :
  length (flat_map (fun i => flat_map (fun j => map (h i j) (seq 0 n3)) (seq 0 n2))
            (seq 0 n1)) = (n1 * (n2 * n3))%nat.
Proof.
  rewrite length_flat_map_const with (m := (n2 * n3)%nat).
  - now rewrite length_seq.
  - intros. apply length_plane.
Qed.

Lemma flat_index_lt (n m i j : nat) :
  (i < n)%nat -> (j < m)%nat -> (i * m + j < n * m)%nat.
Proof.
  intros Hi Hj.
  assert (i * m + m <= n * m)%nat by (replace (i * m + m)%nat with (S i * m)%nat by lia;
                                       apply Nat.mul_le_mono_r; lia).
  lia.
Qed.

Lemma get4_mk4 d n0 n1 n2 n3 f b i j k :
  (b < n0)%nat -> (i < n1)%nat -> (j < n2)%nat -> (k < n3)%nat ->
  get4 (mk4 d n0 n1 n2 n3 f) b i j k = f b i j k.
Proof.
  intros Hb Hi Hj Hk. unfold get4, mk4; simpl.
  replace (((b * n1 + i) * n2 + j) * n3 + k)%nat
    with (b * (n1 * (n2 * n3)) + (i * (n2 * n3) + (j * n3 + k)))%nat by lia.
  rewrite nth_flat_map_seq with (m := (n1 * (n2 * n3))%nat);
    [| intros; apply length_cube | lia
     | apply flat_index_lt; [lia | now apply flat_index_lt] ].
  rewrite nth_flat_map_seq with (m := (n2 * n3)%nat);
    [| intros; apply length_plane | lia | now apply flat_index_lt].
  rewrite nth_flat_map_seq with (m := n3);
    [| intros; apply length_row | lia | lia].
  simpl. now apply nth_map_seq.
Qed.

Lemma wf_mk4 d n0 n1 n2 n3 f : wf (mk4 d n0 n1 n2 n3 f).
Proof.
  unfold wf, mk4; simpl.
  rewrite length_flat_map_const with (m := (n1 * (n2 * n3))%nat).
  - rewrite length_seq. lia.
  - intros. apply length_cube.
Qed.

Lemma get3_mk3 d n0 n1 n2 f i j k :
  (i < n0)%nat -> (j < n1)%nat -> (k < n2)%nat ->
  get3 (mk3 d n0 n1 n2 f) i j k = f i j k.
Proof.
  intros Hi Hj Hk. unfold get3, mk3; simpl.
  replace ((i * n1 + j) * n2 + k)%nat with (i * (n1 * n2) + (j * n2 + k))%nat by lia.
  rewrite nth_flat_map_seq with (m := (n1 * n2)%nat);
    [| intros; apply length_plane | lia | now apply flat_index_lt].
  rewrite nth_flat_map_seq with (m := n2);
    [| intros; apply length_row | lia | lia].
  simpl. now apply nth_map_seq.
Qed.

Lemma get4_expand4 (A : ndarray) i j k : get4 (expand4 A) 0 i j k = get3 A i j k.
Proof.
  unfold get4, get3, expand4; simpl.
  destruct (shape A) as [|n0 [|n1 [|n2 [|n3 sh]]]]; reflexivity.
Qed.

(** ** Output extent *)

Lemma py_int_nonneg (q : Q) : (0 <= Qnum q)%Z -> py_int q = Qfloor q.
Proof.
  intros H. unfold py_int. destruct q as [n d]; simpl in *.
  apply Z.quot_div_nonneg; lia.
Qed.

Lemma out_size_fits (n : nat) (p k s : Z) :
  (0 < s)%Z -> (k <= Z.of_nat n + 2 * p)%Z ->
  out_size n p k s = Ok ((Z.of_nat n + 2 * p - k) / s + 1)%Z.
Proof.
  intros Hs Hk. unfold out_size.
  destruct (Z.eqb_spec s 0) as [->|_]; [lia|].
  f_equal. set (a := (Z.of_nat n + 2 * p - k)%Z).
  assert (Ha : (0 <= a)%Z) by (unfold a; lia).
  destruct s as [|s'|s']; try lia.
  rewrite py_int_nonneg.
  - assert (E : (inject_Z a / inject_Z (Z.pos s') + 1 == (a + Z.pos s') # s')%Q).
    { unfold Qeq, Qdiv, Qmult, Qplus, Qinv, inject_Z; simpl. lia. }
    rewrite (Qfloor_comp _ _ E). simpl.
    replace (a + Z.pos s')%Z with (a + 1 * Z.pos s')%Z by lia.
    rewrite Z.div_add by lia. reflexivity.
  - unfold Qdiv, Qmult, Qplus, Qinv, inject_Z; simpl. lia.
Qed.

(** ** Dictionaries *)

Lemma dict_set_fresh {V : Type} (d : dict V) (k : string) (v : V) :
  ~ In k (keys d) -> dict_set d k v = d ++ [(k, v)].
Proof.
  induction d as [|[k' v'] d IH]; intros Hk; simpl; [reflexivity|].
  destruct (String.eqb_spec k' k) as [->|Hne].
  - exfalso. apply Hk. now left.
  - rewrite IH; [reflexivity|]. intros Hin. apply Hk. now right.
Qed.

Lemma dict_comp_acc {V U : Type} (f : V -> U) (d : dict V) :
  forall acc : dict U,
    NoDup (keys acc ++ keys d) ->
    fold_left (fun acc ab => dict_set acc (fst ab) (f (snd ab))) d acc
    = acc ++ map (fun ab => (fst ab, f (snd ab))) d.
Proof.
  induction d as [|[k v] d IH]; intros acc Hnd; simpl.
  - now rewrite app_nil_r.
  - simpl in Hnd. rewrite dict_set_fresh.
    + rewrite IH.
      * now rewrite <- app_assoc.
      * unfold keys in *. rewrite map_app. simpl. rewrite <- app_assoc. exact Hnd.
    + apply NoDup_remove_2 in Hnd. intros Hin. apply Hnd.
      apply in_or_app. now left.
Qed.

Lemma dict_comp_map {V U : Type} (f : V -> U) (d : dict V) :
  NoDup (keys d) -> dict_comp f d = map (fun ab => (fst ab, f (snd ab))) d.
Proof. intros Hnd. unfold dict_comp. now rewrite dict_comp_acc. Qed.

Lemma keys_map_values {V U : Type} (f : V -> U) (d : dict V) :
  keys (map (fun ab => (fst ab, f (snd ab))) d) = keys d.
Proof. unfold keys. rewrite map_map. now apply map_ext. Qed.

Lemma dict_get_map_values {V U : Type} (f : V -> U) (d : dict V) (k : string) :
  dict_get (map (fun ab => (fst ab, f (snd ab))) d) k = option_map f (dict_get d k).
Proof.
  induction d as [|[k' v] d IH]; simpl; [reflexivity|].
  destruct (String.eqb k' k); [reflexivity | exact IH].
Qed.

Lemma dict_get_set_same {V : Type} (d : dict V) (k : string) (v : V) :
  dict_get (dict_set d k v) k = Some v.
Proof.
  induction d as [|[k' v'] d IH]; simpl.
  - now rewrite String.eqb_refl.
  - destruct (String.eqb k' k) eqn:E; simpl; rewrite E; [reflexivity | exact IH].
Qed.

Lemma dict_get_set_other {V : Type} (d : dict V) (k k0 : string) (v : V) :
  k <> k0 -> dict_get (dict_set d k v) k0 = dict_get d k0.
Proof.
  intros Hne. induction d as [|[k' v'] d IH]; simpl.
  - destruct (String.eqb_spec k k0); [contradiction | reflexivity].
  - destruct (String.eqb_spec k' k) as [->|Hk]; simpl.
    + destruct (String.eqb_spec k k0); [contradiction | reflexivity].
    + destruct (String.eqb k' k0); [reflexivity | exact IH].
Qed.

Lemma size_repeat_zero (n : nat) : Forall (fun x => x = 0) (repeat 0 n).
Proof. induction n; simpl; constructor; auto. Qed.

(** ** Reshaping *)

Lemma known_size_of_nats (sh : list nat) :
  known_size (map Z.of_nat sh) = Z.of_nat (size sh).
Proof.
  induction sh as [|n sh IH]; simpl; [reflexivity|].
  destruct (Z.eqb_spec (Z.of_nat n) (-1)); [lia|].
  rewrite IH. lia.
Qed.

Lemma count_minus_one_nats (sh : list nat) :
  count_occ Z.eq_dec (map Z.of_nat sh) (-1)%Z = 0%nat.
Proof.
  induction sh as [|n sh IH]; simpl; [reflexivity|].
  destruct (Z.eq_dec (Z.of_nat n) (-1)); [lia | exact IH].
Qed.

Lemma no_negative_nats (sh : list nat) :
  existsb (fun z => (z <? -1)%Z) (map Z.of_nat sh) = false.
Proof.
  induction sh as [|n sh IH]; simpl; [reflexivity|].
  rewrite IH. destruct (Z.ltb_spec (Z.of_nat n) (-1)); [lia | reflexivity].
Qed.

Lemma to_nat_of_nat_map (sh : list nat) : map Z.to_nat (map Z.of_nat sh) = sh.
Proof.
  rewrite map_map. rewrite <- (map_id sh) at 2. apply map_ext.
  intros. apply Nat2Z.id.
Qed.

(** Reshaping to a shape of the same size keeps the buffer. *)
Lemma np_reshape_to_shape (A : ndarray) (sh : list nat) :
  size sh = size (shape A) ->
  np_reshape A (map Z.of_nat sh)
  = Ok {| shape := sh; data := data A; dtype := dtype A |}.
Proof.
  intros Hsz. unfold np_reshape.
  rewrite no_negative_nats, count_minus_one_nats, known_size_of_nats, Hsz.
  rewrite Z.eqb_refl, to_nat_of_nat_map. reflexivity.
Qed.

(** What a successful reshape returns: the same buffer, a shape of the same
    size. *)
Lemma np_reshape_row (A : ndarray) (B : ndarray) :
  np_reshape A [1%Z; (-1)%Z] = Ok B ->
  data B = data A /\ shape B = [1%nat; size (shape A)].
Proof.
  unfold np_reshape; simpl. rewrite Z.mod_1_r. simpl.
  intros H. injection H as <-. simpl.
  rewrite Z.div_1_r, Nat2Z.id. auto.
Qed.


Lemma reshape_fill (n m : nat) :
  Z.of_nat n <> 0%Z -> (Z.of_nat m mod Z.of_nat n = 0)%Z ->
  (Z.to_nat (Z.of_nat n) * (Z.to_nat (Z.of_nat m / Z.of_nat n) * 1) = m)%nat /\
  (Z.to_nat (Z.of_nat m / Z.of_nat n) * (Z.to_nat (Z.of_nat n) * 1) = m)%nat.
Proof.
  intros Hn Hm. apply Z.div_exact in Hm; [|exact Hn].
  assert (Hq : (0 <= Z.of_nat m / Z.of_nat n)%Z) by (apply Z.div_pos; lia).
  rewrite Nat2Z.id.
  assert (E : (n * Z.to_nat (Z.of_nat m / Z.of_nat n))%nat = m).
  { apply Nat2Z.inj. rewrite Nat2Z.inj_mul, Z2Nat.id by exact Hq. lia. }
  lia.
Qed.

Lemma np_reshape_first (A : ndarray) (n : nat) (B : ndarray) :
  np_reshape A [Z.of_nat n; (-1)%Z] = Ok B ->
  data B = data A /\ size (shape B) = size (shape A).
Proof.
  unfold np_reshape; simpl.
  destruct (Z.ltb_spec (Z.of_nat n) (-1)); [lia|]. simpl.
  destruct (Z.eq_dec (Z.of_nat n) (-1)); [lia|].
  destruct (Z.eqb_spec (Z.of_nat n) (-1)); [lia|].
  rewrite Z.mul_1_r.
  destruct (Z.eqb_spec (Z.of_nat n) 0); [discriminate|].
  destruct (Z.eqb_spec (Z.of_nat (size (shape A)) mod Z.of_nat n) 0) as [Hm|]; [|discriminate].
  intros Heq. injection Heq as <-. simpl. split; [reflexivity|].
  now apply reshape_fill.
Qed.

Lemma np_reshape_last (A : ndarray) (n : nat) (B : ndarray) :
  np_reshape A [(-1)%Z; Z.of_nat n] = Ok B ->
  data B = data A /\ size (shape B) = size (shape A).
Proof.
  unfold np_reshape; simpl.
  destruct (Z.ltb_spec (Z.of_nat n) (-1)); [lia|]. simpl.
  destruct (Z.eq_dec (Z.of_nat n) (-1)); [lia|].
  destruct (Z.eqb_spec (Z.of_nat n) (-1)); [lia|].
  rewrite Z.mul_1_r.
  destruct (Z.eqb_spec (Z.of_nat n) 0); [discriminate|].
  destruct (Z.eqb_spec (Z.of_nat (size (shape A)) mod Z.of_nat n) 0) as [Hm|]; [|discriminate].
  intros Heq. injection Heq as <-. simpl. split; [reflexivity|].
  now apply reshape_fill.
Qed.

(** ** Arrays as functions: basic facts *)

Lemma is1_mk1 d n0 g f :
  (forall i, (i < n0)%nat -> g i = f i) -> is1 (mk1 d n0 g) n0 f.
Proof. intros H. split; [reflexivity|]. intros. rewrite get1_mk1; auto. Qed.

Lemma is2_mk2 d n0 n1 g f :
  (forall i j, (i < n0)%nat -> (j < n1)%nat -> g i j = f i j) ->
  is2 (mk2 d n0 n1 g) n0 n1 f.
Proof. intros H. split; [reflexivity|]. intros. rewrite get2_mk2; auto. Qed.

Lemma is3_mk3 d n0 n1 n2 g f :
  (forall i j k, (i < n0)%nat -> (j < n1)%nat -> (k < n2)%nat -> g i j k = f i j k) ->
  is3 (mk3 d n0 n1 n2 g) n0 n1 n2 f.
Proof. intros H. split; [reflexivity|]. intros. rewrite get3_mk3; auto. Qed.

Lemma is4_mk4 d n0 n1 n2 n3 g f :
  (forall b i j k, (b < n0)%nat -> (i < n1)%nat -> (j < n2)%nat -> (k < n3)%nat ->
     g b i j k = f b i j k) ->
  is4 (mk4 d n0 n1 n2 n3 g) n0 n1 n2 n3 f.
Proof. intros H. split; [reflexivity|]. intros. rewrite get4_mk4; auto. Qed.

Lemma is4_get4 (A : ndarray) n0 n1 n2 n3 :
  shape A = [n0; n1; n2; n3] -> is4 A n0 n1 n2 n3 (get4 A).
Proof. intros H. split; [exact H | reflexivity]. Qed.

Lemma is4_ext (A : ndarray) n0 n1 n2 n3 f g :
  is4 A n0 n1 n2 n3 f ->
  (forall b i j k, (b < n0)%nat -> (i < n1)%nat -> (j < n2)%nat -> (k < n3)%nat ->
     f b i j k = g b i j k) ->
  is4 A n0 n1 n2 n3 g.
Proof.
  intros [Hs Hf] Hfg. split; [exact Hs|]. intros. rewrite Hf by assumption. auto.
Qed.

Lemma is4_expand4 (A : ndarray) n0 n1 n2 f :
  is3 A n0 n1 n2 f -> is4 (expand4 A) 1 n0 n1 n2 (fun _ i j k => f i j k).
Proof.
  intros [Hs Hf]. split; [unfold expand4; simpl; now rewrite Hs|].
  intros b i j k Hb Hi Hj Hk. assert (b = 0)%nat as -> by lia.
  rewrite get4_expand4. auto.
Qed.

Lemma is4_zeros n0 n1 n2 n3 :
  is4 (np_zeros [n0; n1; n2; n3]) n0 n1 n2 n3 (fun _ _ _ _ => 0).
Proof.
  split; [reflexivity|]. intros. unfold get4, np_zeros; simpl.
  apply nth_repeat.
Qed.

Lemma is4_zeros_like (A : ndarray) n0 n1 n2 n3 :
  shape A = [n0; n1; n2; n3] ->
  is4 (np_zeros_like A) n0 n1 n2 n3 (fun _ _ _ _ => 0).
Proof.
  intros Hs. split; [exact Hs|]. intros. unfold get4, np_zeros_like; simpl.
  rewrite Hs. apply nth_repeat.
Qed.


(** ** Sums *)

Lemma sum_n_ext (n : nat) (f g : nat -> Qc) :
  (forall i, (i < n)%nat -> f i = g i) -> sum_n n f = sum_n n g.
Proof.
  intros H. unfold sum_n. generalize 0 as acc.
  assert (Hin : forall i, In i (seq 0 n) -> f i = g i)
    by (intros i Hi; apply in_seq in Hi; apply H; lia).
  clear H. induction (seq 0 n) as [|x l IH]; intros acc; simpl; [reflexivity|].
  rewrite Hin by (now left). apply IH. intros; apply Hin; now right.
Qed.

Lemma fold_add_shift (I : Type) (g : I -> Qc) (l : list I) (a : Qc) :
  fold_left (fun acc i => acc + g i) l a
  = a + fold_left (fun acc i => acc + g i) l 0.
Proof.
  revert a. induction l as [|x l IH]; intros a; simpl.
  - now rewrite Qcplus_0_r.
  - rewrite IH, (IH (0 + g x)). ring.
Qed.

Lemma sum_n_S (n : nat) (f : nat -> Qc) : sum_n (S n) f = sum_n n f + f n.
Proof. unfold sum_n. rewrite seq_S, fold_left_app. reflexivity. Qed.

Lemma sum_n_zero (n : nat) (f : nat -> Qc) :
  (forall i, (i < n)%nat -> f i = 0) -> sum_n n f = 0.
Proof.
  intros H. induction n as [|n IH]; [reflexivity|].
  rewrite sum_n_S, IH, H by (intros; auto). ring.
Qed.

(** A sum with one non-zero term. *)
Lemma sum_n_single (n m : nat) (f : nat -> Qc) :
  (m < n)%nat -> (forall i, (i < n)%nat -> i <> m -> f i = 0) -> sum_n n f = f m.
Proof.
  intros Hm H. induction n as [|n IH]; [lia|].
  rewrite sum_n_S. destruct (Nat.eq_dec m n) as [->|Hne].
  - rewrite sum_n_zero; [ring|]. intros i Hi. apply H; lia.
  - rewrite IH, (H n); [ring| lia | lia | lia |]. intros i Hi Hne'. apply H; lia.
Qed.

(** ** Loops over arrays *)

Lemma for_each_inv (S I : Type) (Inv : list I -> S -> Prop)
    (body : S -> I -> result S) (l : list I) :
  (forall pre i s, In i l -> Inv pre s ->
     exists s', body s i = Ok s' /\ Inv (pre ++ [i]) s') ->
  forall pre s, Inv pre s ->
    exists s', for_each l body s = Ok s' /\ Inv (pre ++ l) s'.
Proof.
  induction l as [|x l IH]; intros Hstep pre s Hinv; simpl.
  - exists s. now rewrite app_nil_r.
  - destruct (Hstep pre x s (or_introl eq_refl) Hinv) as (s1 & E1 & Hinv1).
    rewrite E1. simpl.
    destruct (IH (fun pre i s Hi => Hstep pre i s (or_intror Hi)) _ _ Hinv1)
      as (s2 & E2 & Hinv2).
    exists s2. split; [exact E2|]. now rewrite <- app_assoc in Hinv2.
Qed.

(** A loop whose body transforms every cell by a function [T i] of the loop
    index and keeps the kind of the array: the loop applies these functions
    in order. *)
Lemma for_each_is4 (I : Type) (d : kind) (n0 n1 n2 n3 : nat)
    (T : I -> nat -> nat -> nat -> nat -> Qc -> Qc)
    (body : ndarray -> I -> result ndarray) (l : list I) :
  (forall A f i, In i l -> is4 A n0 n1 n2 n3 f -> dtype A = d ->
     exists A', body A i = Ok A'
                /\ is4 A' n0 n1 n2 n3 (fun b r c k => T i b r c k (f b r c k))
                /\ dtype A' = d) ->
  forall A f, is4 A n0 n1 n2 n3 f -> dtype A = d ->
    exists A', for_each l body A = Ok A'
               /\ is4 A' n0 n1 n2 n3
                    (fun b r c k => fold_left (fun a i => T i b r c k a) l (f b r c k))
               /\ dtype A' = d.
Proof.
  intros Hstep A f HA Hd.
  destruct (@for_each_inv ndarray I
              (fun pre A' => is4 A' n0 n1 n2 n3
                 (fun b r c k => fold_left (fun a i => T i b r c k a) pre (f b r c k))
                 /\ dtype A' = d)
              body l) with (pre := @nil I) (s := A) as (A' & E & H).
  - intros pre i s Hi [Hs Hds].
    destruct (Hstep _ _ i Hi Hs Hds) as (s' & Es & Hs' & Hds').
    exists s'. split; [exact Es|]. split; [|exact Hds'].
    eapply is4_ext; [exact Hs'|]. intros. simpl. now rewrite fold_left_app.
  - split; [exact HA | exact Hd].
  - exists A'. split; [exact E | exact H].
Qed.

(** ** The numpy operations on arrays seen as functions *)

Lemma bidx_lt (n i : nat) : (i < n)%nat -> bidx n i = i.
Proof.
  intros H. unfold bidx. destruct (Nat.eqb_spec n 1); [lia | reflexivity].
Qed.

Lemma bidx_one (i : nat) : bidx 1 i = 0%nat.
Proof. reflexivity. Qed.

Lemma bdim_same (a : nat) : bdim a a = Ok a.
Proof. unfold bdim. now rewrite Nat.eqb_refl. Qed.

Lemma bdim_one_r (a : nat) : bdim a 1 = Ok a.
Proof.
  unfold bdim. destruct (Nat.eqb_spec a 1) as [->|]; [reflexivity|]. reflexivity.
Qed.

Lemma bdim_one_l (a : nat) : bdim 1 a = Ok a.
Proof.
  unfold bdim. destruct (Nat.eqb_spec 1 a) as [<-|]; reflexivity.
Qed.

Lemma bdim_bidx (a b n i : nat) :
  bdim a b = Ok n -> (i < n)%nat -> (bidx a i < a)%nat /\ (bidx b i < b)%nat.
Proof.
  unfold bdim, bidx. intros H Hi.
  destruct (Nat.eqb_spec a b) as [->|Hab].
  - injection H as ->. destruct (Nat.eqb_spec n 1); lia.
  - destruct (Nat.eqb_spec a 1) as [->|Ha].
    + injection H as ->. destruct (Nat.eqb_spec n 1); lia.
    + destruct (Nat.eqb_spec b 1) as [->|Hb]; [|discriminate].
      injection H as ->. lia.
Qed.

Lemma fits_same (a : nat) : fits a a = true.
Proof. unfold fits. now rewrite Nat.eqb_refl. Qed.

Lemma fits_one (a : nat) : fits 1 a = true.
Proof. unfold fits. simpl. apply orb_true_r. Qed.

Lemma fits_bidx (v t i : nat) : fits v t = true -> (i < t)%nat -> (bidx v i < v)%nat.
Proof.
  unfold fits, bidx. intros H Hi.
  destruct (Nat.eqb_spec v 1) as [->|Hv]; [lia|].
  rewrite orb_false_r in H. apply Nat.eqb_eq in H. lia.
Qed.

Lemma py_slice_range (n : nat) (lo hi : Z) (a h : nat) :
  lo = Z.of_nat a -> hi = Z.of_nat (a + h) -> (a + h <= n)%nat ->
  py_slice n lo hi = (a, h).
Proof.
  intros -> -> Hle. unfold py_slice, norm_index.
  destruct (Z.ltb_spec (Z.of_nat a) 0); [lia|].
  destruct (Z.ltb_spec (Z.of_nat (a + h)) 0); [lia|].
  rewrite !Z.min_l by lia. f_equal; lia.
Qed.

Lemma np_pad_is4 (X : ndarray) (B H W C p q : nat) :
  shape X = [B; H; W; C] ->
  exists R, np_pad X (Z.of_nat p) (Z.of_nat q) = Ok R
            /\ is4 R B (H + 2 * p) (W + 2 * q) C (padded X p q).
Proof.
  intros Hs. unfold np_pad. rewrite Hs.
  destruct (Z.ltb_spec (Z.of_nat p) 0); [lia|].
  destruct (Z.ltb_spec (Z.of_nat q) 0); [lia|]. simpl orb. cbv iota.
  rewrite !Nat2Z.id. eexists. split; [reflexivity|].
  apply is4_mk4. intros. unfold padded. rewrite Hs. reflexivity.
Qed.

Lemma slice_hw_is4 (A : ndarray) (B H W C : nat) f (r0 r1 c0 c1 : Z) (a h c w : nat) :
  is4 A B H W C f ->
  r0 = Z.of_nat a -> r1 = Z.of_nat (a + h) -> (a + h <= H)%nat ->
  c0 = Z.of_nat c -> c1 = Z.of_nat (c + w) -> (c + w <= W)%nat ->
  exists R, slice_hw A r0 r1 c0 c1 = Ok R
            /\ is4 R B h w C (fun b i j k => f b (a + i)%nat (c + j)%nat k).
Proof.
  intros [Hs Hf] Hr0 Hr1 Hh Hc0 Hc1 Hw. unfold slice_hw. rewrite Hs.
  rewrite (py_slice_range H _ _ _ _ Hr0 Hr1 Hh), (py_slice_range W _ _ _ _ Hc0 Hc1 Hw).
  eexists. split; [reflexivity|].
  apply is4_mk4. intros. apply Hf; lia.
Qed.

Lemma last_axis_item_is3 (A : ndarray) (n0 n1 n2 n3 : nat) f (c : nat) :
  is4 A n0 n1 n2 n3 f -> (c < n3)%nat ->
  exists R, last_axis_item A c = Ok R
            /\ is3 R n0 n1 n2 (fun i j k => f i j k c).
Proof.
  intros [Hs Hf] Hc. unfold last_axis_item. rewrite Hs.
  destruct (Nat.ltb_spec c n3); [|lia].
  eexists. split; [reflexivity|]. apply is3_mk3. intros. now apply Hf.
Qed.

Lemma grad_item_is4 (A : ndarray) (B H W C : nat) f (row col c : nat) :
  is4 A B H W C f -> (row < H)%nat -> (col < W)%nat -> (c < C)%nat ->
  exists R, grad_item A (Z.of_nat row) (Z.of_nat col) c = Ok R
            /\ is4 R B 1 1 1 (fun b _ _ _ => f b row col c).
Proof.
  intros [Hs Hf] Hr Hc Hch. unfold grad_item. rewrite Hs.
  destruct (Nat.ltb_spec c C); [|lia].
  rewrite (py_slice_range H (Z.of_nat row) (Z.of_nat row + 1) row 1) by lia.
  rewrite (py_slice_range W (Z.of_nat col) (Z.of_nat col + 1) col 1) by lia.
  eexists. split; [reflexivity|]. apply is4_mk4. intros b i j k Hb Hi Hj Hk.
  assert (i = 0)%nat as -> by lia. assert (j = 0)%nat as -> by lia.
  rewrite !Nat.add_0_r. now apply Hf.
Qed.

Lemma column_is1 (A : ndarray) (n0 n1 : nat) f (c : nat) :
  is2 A n0 n1 f -> (c < n1)%nat ->
  exists R, column A c = Ok R /\ is1 R n0 (fun i => f i c).
Proof.
  intros [Hs Hf] Hc. unfold column. rewrite Hs.
  destruct (Nat.ltb_spec c n1); [|lia].
  eexists. split; [reflexivity|]. apply is1_mk1. intros. now apply Hf.
Qed.

Lemma broadcast1_is1 (op : Qc -> Qc -> Qc) (A B : ndarray) (a0 b0 n0 : nat) fa fb :
  is1 A a0 fa -> is1 B b0 fb -> bdim a0 b0 = Ok n0 ->
  exists R, broadcast1 op A B = Ok R
            /\ is1 R n0 (fun i => op (fa (bidx a0 i)) (fb (bidx b0 i))).
Proof.
  intros [Hsa Hfa] [Hsb Hfb] H0. unfold broadcast1. rewrite Hsa, Hsb, H0. simpl.
  eexists. split; [reflexivity|]. apply is1_mk1. intros i Hi.
  destruct (bdim_bidx _ _ _ _ H0 Hi). rewrite Hfa, Hfb by assumption. reflexivity.
Qed.

Lemma broadcast4_is4 (op : Qc -> Qc -> Qc) (A B : ndarray)
    (a0 a1 a2 a3 b0 b1 b2 b3 n0 n1 n2 n3 : nat) fa fb :
  is4 A a0 a1 a2 a3 fa -> is4 B b0 b1 b2 b3 fb ->
  bdim a0 b0 = Ok n0 -> bdim a1 b1 = Ok n1 ->
  bdim a2 b2 = Ok n2 -> bdim a3 b3 = Ok n3 ->
  exists R, broadcast4 op A B = Ok R
            /\ is4 R n0 n1 n2 n3
                 (fun b i j k =>
                    op (fa (bidx a0 b) (bidx a1 i) (bidx a2 j) (bidx a3 k))
                       (fb (bidx b0 b) (bidx b1 i) (bidx b2 j) (bidx b3 k))).
Proof.
  intros [Hsa Hfa] [Hsb Hfb] H0 H1 H2 H3. unfold broadcast4.
  rewrite Hsa, Hsb, H0, H1, H2, H3. simpl.
  eexists. split; [reflexivity|]. apply is4_mk4. intros b i j k Hb Hi Hj Hk.
  destruct (bdim_bidx _ _ _ _ H0 Hb), (bdim_bidx _ _ _ _ H1 Hi),
           (bdim_bidx _ _ _ _ H2 Hj), (bdim_bidx _ _ _ _ H3 Hk).
  rewrite Hfa, Hfb by assumption. reflexivity.
Qed.

Lemma np_sum_123_is1 (A : ndarray) (n0 n1 n2 n3 : nat) f :
  is4 A n0 n1 n2 n3 f ->
  exists R, np_sum_123 A = Ok R
            /\ is1 R n0 (fun b =>
                 sum_n n1 (fun i => sum_n n2 (fun j => sum_n n3 (fun k => f b i j k)))).
Proof.
  intros [Hs Hf]. unfold np_sum_123. rewrite Hs.
  eexists. split; [reflexivity|]. apply is1_mk1. intros b Hb.
  apply sum_n_ext; intros i Hi. apply sum_n_ext; intros j Hj.
  apply sum_n_ext; intros k Hk. now apply Hf.
Qed.

Lemma np_sum_0_is3 (A : ndarray) (n0 n1 n2 n3 : nat) f :
  is4 A n0 n1 n2 n3 f ->
  exists R, np_sum_0 A = Ok R
            /\ is3 R n1 n2 n3 (fun i j k => sum_n n0 (fun b => f b i j k)).
Proof.
  intros [Hs Hf]. unfold np_sum_0. rewrite Hs.
  eexists. split; [reflexivity|]. apply is3_mk3. intros i j k Hi Hj Hk.
  apply sum_n_ext; intros b Hb. now apply Hf.
Qed.

Lemma setitem_cell_is4 (A v : ndarray) (B H W C n : nat) f g (row col c : nat) :
  is4 A B H W C f -> is1 v n g ->
  (row < H)%nat -> (col < W)%nat -> (c < C)%nat -> fits n B = true ->
  exists R, setitem_cell A row col c v = Ok R
            /\ is4 R B H W C
                 (fun b i j k =>
                    if (i =? row) && (j =? col) && (k =? c)
                    then astype (dtype A) (g (bidx n b)) else f b i j k)
            /\ dtype R = dtype A.
Proof.
  intros [Hs Hf] [Hsv Hg] Hr Hc Hch Hfit. unfold setitem_cell.
  rewrite Hs, Hsv, Hfit.
  destruct (Nat.ltb_spec row H); [|lia].
  destruct (Nat.ltb_spec col W); [|lia].
  destruct (Nat.ltb_spec c C); [|lia]. simpl andb. cbv iota.
  eexists. split; [reflexivity|]. split; [|reflexivity].
  apply is4_mk4. intros b i j k Hb Hi Hj Hk.
  rewrite Hf by assumption.
  rewrite Hg by (eapply fits_bidx; eauto). reflexivity.
Qed.

Lemma setitem_pixel_is4 (A v : ndarray) (B H W C n0 n1 : nat) f g (row col : nat) :
  is4 A B H W C f -> is2 v n0 n1 g ->
  (row < H)%nat -> (col < W)%nat -> fits n0 B = true -> fits n1 C = true ->
  exists R, setitem_pixel A row col v = Ok R
            /\ is4 R B H W C
                 (fun b i j k =>
                    if (i =? row) && (j =? col)
                    then astype (dtype A) (g (bidx n0 b) (bidx n1 k)) else f b i j k)
            /\ dtype R = dtype A.
Proof.
  intros [Hs Hf] [Hsv Hg] Hr Hc Hfit0 Hfit1. unfold setitem_pixel.
  rewrite Hs, Hsv, Hfit0, Hfit1.
  destruct (Nat.ltb_spec row H); [|lia].
  destruct (Nat.ltb_spec col W); [|lia]. simpl andb. cbv iota.
  eexists. split; [reflexivity|]. split; [|reflexivity].
  apply is4_mk4. intros b i j k Hb Hi Hj Hk.
  rewrite Hf by assumption.
  rewrite Hg by (eapply fits_bidx; eauto). reflexivity.
Qed.

Lemma iadd_hw_is4 (A V : ndarray) (B H W C v0 v1 v2 v3 : nat) f g
    (r0 r1 c0 c1 : Z) (a h c w : nat) :
  is4 A B H W C f -> is4 V v0 v1 v2 v3 g ->
  can_cast (result_type (dtype A) (dtype V)) (dtype A) = true ->
  r0 = Z.of_nat a -> r1 = Z.of_nat (a + h) -> (a + h <= H)%nat ->
  c0 = Z.of_nat c -> c1 = Z.of_nat (c + w) -> (c + w <= W)%nat ->
  fits v0 B = true -> fits v1 h = true -> fits v2 w = true -> fits v3 C = true ->
  exists R, iadd_hw A r0 r1 c0 c1 V = Ok R
            /\ is4 R B H W C
                 (fun b i j k =>
                    if (a <=? i) && (i <? a + h) && (c <=? j) && (j <? c + w)
                    then f b i j k
                         + g (bidx v0 b) (bidx v1 (i - a)) (bidx v2 (j - c)) (bidx v3 k)
                    else f b i j k)
            /\ dtype R = dtype A.
Proof.
  intros [Hs Hf] [Hsv Hg] Hcast Hr0 Hr1 Hh Hc0 Hc1 Hw F0 F1 F2 F3. unfold iadd_hw.
  rewrite Hs, Hsv.
  rewrite (py_slice_range H _ _ _ _ Hr0 Hr1 Hh), (py_slice_range W _ _ _ _ Hc0 Hc1 Hw).
  rewrite Hcast, F0, F1, F2, F3. simpl andb. cbv iota. cbn [negb].
  eexists. split; [reflexivity|]. split; [|reflexivity].
  apply is4_mk4. intros b i j k Hb Hi Hj Hk.
  rewrite Hf by assumption.
  destruct ((a <=? i) && (i <? a + h) && (c <=? j) && (j <? c + w)) eqn:E;
    [|reflexivity].
  apply andb_true_iff in E. destruct E as [E E4].
  apply andb_true_iff in E. destruct E as [E E3].
  apply andb_true_iff in E. destruct E as [E1 E2].
  apply Nat.leb_le in E1, E3. apply Nat.ltb_lt in E2, E4.
  rewrite Hg; [reflexivity | | | | ]; eapply fits_bidx; eauto; lia.
Qed.

Lemma iadd_last_axis_item_is4 (A V : ndarray) (n0 n1 n2 n3 v0 v1 v2 : nat) f g (c : nat) :
  is4 A n0 n1 n2 n3 f -> is3 V v0 v1 v2 g -> (c < n3)%nat ->
  can_cast (result_type (dtype A) (dtype V)) (dtype A) = true ->
  fits v0 n0 = true -> fits v1 n1 = true -> fits v2 n2 = true ->
  exists R, iadd_last_axis_item A c V = Ok R
            /\ is4 R n0 n1 n2 n3
                 (fun i j k c' =>
                    if c' =? c
                    then f i j k c' + g (bidx v0 i) (bidx v1 j) (bidx v2 k)
                    else f i j k c')
            /\ dtype R = dtype A.
Proof.
  intros [Hs Hf] [Hsv Hg] Hc Hcast F0 F1 F2. unfold iadd_last_axis_item.
  rewrite Hs, Hsv, Hcast, F0, F1, F2.
  destruct (Nat.ltb_spec c n3); [|lia]. simpl andb. cbv iota. cbn [negb].
  eexists. split; [reflexivity|]. split; [|reflexivity].
  apply is4_mk4. intros i j k c' Hi Hj Hk Hc'.
  rewrite Hf by assumption.
  rewrite Hg by (eapply fits_bidx; eauto). reflexivity.
Qed.

(** ** The kind of the results *)

Lemma can_cast_float (k : kind) : can_cast k Kfloat = true.
Proof. destruct k; reflexivity. Qed.

Lemma can_cast_into (ka kv : kind) :
  can_cast kv ka = true -> can_cast (result_type ka kv) ka = true.
Proof. destruct ka, kv; simpl; congruence. Qed.

Lemma astype_float (x : Qc) : astype Kfloat x = x.
Proof. reflexivity. Qed.

Lemma np_pad_dtype (X R : ndarray) (p q : Z) :
  np_pad X p q = Ok R -> dtype R = dtype X.
Proof.
  unfold np_pad. destruct (shape X) as [|B [|H [|W [|C [|]]]]]; try discriminate.
  destruct ((p <? 0)%Z || (q <? 0)%Z); [discriminate|].
  intros E. injection E as <-. reflexivity.
Qed.

Lemma slice_hw_dtype (A R : ndarray) (r0 r1 c0 c1 : Z) :
  slice_hw A r0 r1 c0 c1 = Ok R -> dtype R = dtype A.
Proof.
  unfold slice_hw. destruct (shape A) as [|B [|H [|W [|C [|]]]]]; try discriminate.
  destruct (py_slice H r0 r1), (py_slice W c0 c1).
  intros E. injection E as <-. reflexivity.
Qed.

Lemma last_axis_item_dtype (A R : ndarray) (c : nat) :
  last_axis_item A c = Ok R -> dtype R = dtype A.
Proof.
  unfold last_axis_item.
  destruct (shape A) as [|n0 [|n1 [|n2 [|n3 [|]]]]]; try discriminate.
  destruct (c <? n3); [|discriminate]. intros E. injection E as <-. reflexivity.
Qed.

Lemma grad_item_dtype (A R : ndarray) (row col : Z) (c : nat) :
  grad_item A row col c = Ok R -> dtype R = dtype A.
Proof.
  unfold grad_item. destruct (shape A) as [|B [|H [|W [|C [|]]]]]; try discriminate.
  destruct (c <? C); [|discriminate].
  destruct (py_slice H row (row + 1)), (py_slice W col (col + 1)).
  intros E. injection E as <-. reflexivity.
Qed.

Lemma broadcast4_dtype (op : Qc -> Qc -> Qc) (A B R : ndarray) :
  broadcast4 op A B = Ok R -> dtype R = result_type (dtype A) (dtype B).
Proof.
  unfold broadcast4.
  destruct (shape A) as [|a0 [|a1 [|a2 [|a3 [|]]]]]; try discriminate;
    destruct (shape B) as [|b0 [|b1 [|b2 [|b3 [|]]]]]; try discriminate.
  destruct (bdim a0 b0); [|discriminate]. destruct (bdim a1 b1); [|discriminate].
  destruct (bdim a2 b2); [|discriminate]. destruct (bdim a3 b3); [|discriminate].
  cbn [bind]. intros E. injection E as <-. reflexivity.
Qed.

Lemma np_reshape_dtype (A R : ndarray) (sh : list Z) :
  np_reshape A sh = Ok R -> dtype R = dtype A.
Proof.
  unfold np_reshape. cbv zeta.
  destruct (existsb _ sh); [discriminate|].
  destruct (count_occ Z.eq_dec sh (-1)%Z) as [|[|n]]; [| |discriminate].
  - destruct (_ =? _)%Z; [|discriminate]. intros E. injection E as <-. reflexivity.
  - destruct (_ =? 0)%Z; [discriminate|].
    destruct (_ =? 0)%Z; [|discriminate]. intros E. injection E as <-. reflexivity.
Qed.

Lemma one_hot_1_dtype (A R : ndarray) (ids : list (list nat)) :
  one_hot_1 A ids = Ok R -> dtype R = dtype A.
Proof.
  unfold one_hot_1. destruct (shape A) as [|n0 [|n1 [|n2 [|]]]]; try discriminate.
  intros E. injection E as <-. reflexivity.
Qed.

Lemma np_sum_0_dtype (A R : ndarray) : np_sum_0 A = Ok R -> dtype R = dtype A.
Proof.
  unfold np_sum_0. destruct (shape A) as [|n0 [|n1 [|n2 [|n3 [|]]]]]; try discriminate.
  intros E. injection E as <-. reflexivity.
Qed.

Lemma shape_of_ints_nats (sh : list nat) : shape_of_ints (map Z.of_nat sh) = Ok sh.
Proof.
  induction sh as [|n sh IH]; simpl; [reflexivity|].
  destruct (Z.ltb_spec (Z.of_nat n) 0); [lia|].
  rewrite IH. simpl. now rewrite Nat2Z.id.
Qed.

(** ** Output extent and windows *)

Lemma out_size_quot (n : nat) (p k s : Z) :
  (0 < s)%Z -> out_size n p k s = Ok (Z.quot (Z.of_nat n + 2 * p - k + s) s).
Proof.
  intros Hs. unfold out_size.
  destruct (Z.eqb_spec s 0) as [->|_]; [lia|].
  f_equal. destruct s as [|s'|s']; try lia.
  set (a := (Z.of_nat n + 2 * p - k)%Z).
  unfold py_int, Qdiv, Qmult, Qplus, Qinv, inject_Z. simpl Qnum. simpl Qden.
  rewrite Pos.mul_1_r. f_equal. lia.
Qed.

(** Every window the loops visit lies inside the padded input. *)
Lemma out_size_window (n : nat) (p k s : Z) (o row : nat) :
  (0 < s)%Z -> out_size n p k s = Ok (Z.of_nat o) -> (row < o)%nat ->
  (Z.of_nat row * s + k <= Z.of_nat n + 2 * p)%Z.
Proof.
  intros Hs Ho' Hrow. rewrite out_size_quot in Ho' by exact Hs.
  assert (Ho : Z.quot (Z.of_nat n + 2 * p - k + s) s = Z.of_nat o) by congruence.
  clear Ho'. set (a := (Z.of_nat n + 2 * p - k)%Z) in *.
  assert (Ha : (0 <= a)%Z).
  { destruct (Z.lt_ge_cases a 0) as [Hneg|]; [|assumption]. exfalso.
    destruct (Z.lt_ge_cases (a + s) 0) as [Hneg'|Hpos].
    - assert (Z.quot (a + s) s <= 0)%Z by (apply Z.quot_le_upper_bound; lia). lia.
    - rewrite Z.quot_small in Ho by lia. lia. }
  rewrite Z.quot_div_nonneg in Ho by lia.
  replace (a + s)%Z with (a + 1 * s)%Z in Ho by lia.
  rewrite Z.div_add in Ho by lia.
  assert (Hm : (s * (a / s) <= a)%Z) by (apply Z.mul_div_le; lia).
  assert (Hr : (Z.of_nat row <= a / s)%Z) by lia.
  assert (Z.of_nat row * s <= s * (a / s))%Z by nia.
  unfold a in *. lia.
Qed.

(** ** Folds of cell updates *)

Lemma fold_left_id (I : Type) (G : I -> Qc -> Qc) (l : list I) (a0 : Qc) :
  (forall i a, In i l -> G i a = a) -> fold_left (fun a i => G i a) l a0 = a0.
Proof.
  revert a0. induction l as [|x l IH]; intros a0 H; simpl; [reflexivity|].
  rewrite H by (now left). apply IH. intros; apply H; now right.
Qed.

(** Only the iteration [r] changes the cell. *)
Lemma fold_left_pick (n r : nat) (G : nat -> Qc -> Qc) (a0 : Qc) :
  (r < n)%nat -> (forall i a, i <> r -> G i a = a) ->
  fold_left (fun a i => G i a) (seq 0 n) a0 = G r a0.
Proof.
  intros Hr Hid. induction n as [|n IH]; [lia|].
  rewrite seq_S, fold_left_app. simpl.
  destruct (Nat.eq_dec r n) as [->|Hne].
  - rewrite fold_left_id; [reflexivity|].
    intros i a Hi. apply in_seq in Hi. apply Hid. lia.
  - rewrite IH by lia. apply Hid. lia.
Qed.

(** Every iteration adds a term to the cell. *)
Lemma fold_left_add (n : nat) (g : nat -> Qc) (a0 : Qc) :
  fold_left (fun a i => a + g i) (seq 0 n) a0 = a0 + sum_n n g.
Proof. unfold sum_n. apply fold_add_shift. Qed.

Lemma fold_left_ext (I : Type) (G G' : I -> Qc -> Qc) (l : list I) (a0 : Qc) :
  (forall i a, In i l -> G i a = G' i a) ->
  fold_left (fun a i => G i a) l a0 = fold_left (fun a i => G' i a) l a0.
Proof.
  revert a0. induction l as [|x l IH]; intros a0 H; simpl; [reflexivity|].
  rewrite H by (now left). apply IH. intros; apply H; now right.
Qed.

(** ** Conv2D.forward *)

Ltac run H :=
  let R := fresh "R" in
  let E := fresh "E" in
  let HR := fresh "HR" in
  destruct H as (R & E & HR); rewrite E; cbn [bind].

Lemma Conv2D_forward_step_is4
    (padX W b Zc : ndarray) (B Hp Wp C kh kw Co oh ow s row col ch : nat)
    (fx fw fz : nat -> nat -> nat -> nat -> Qc) (fb : nat -> nat -> Qc) :
  is4 padX B Hp Wp C fx -> is4 W kh kw C Co fw -> is2 b 1 Co fb ->
  is4 Zc B oh ow Co fz ->
  (row * s + kh <= Hp)%nat -> (col * s + kw <= Wp)%nat ->
  (row < oh)%nat -> (col < ow)%nat -> (ch < Co)%nat ->
  exists Z',
    Conv2D_forward_step padX W b (Z.of_nat s) (Z.of_nat kh) (Z.of_nat kw) row col ch Zc
    = Ok Z'
    /\ is4 Z' B oh ow Co
         (fun b' i j k =>
            if (i =? row) && (j =? col) && (k =? ch)
            then astype (dtype Zc) (conv_at fx fw kh kw C s b' row col ch + fb 0%nat ch)
            else fz b' i j k)
    /\ dtype Z' = dtype Zc.
Proof.
  intros Hx Hw Hb Hz Hr Hc Hrow Hcol Hch.
  unfold Conv2D_forward_step, window, np_mul, np_add1.
  run (slice_hw_is4 padX B Hp Wp C fx
         (Z.of_nat row * Z.of_nat s) (Z.of_nat row * Z.of_nat s + Z.of_nat kh)
         (Z.of_nat col * Z.of_nat s) (Z.of_nat col * Z.of_nat s + Z.of_nat kw)
         (row * s) kh (col * s) kw Hx ltac:(lia) ltac:(lia) Hr ltac:(lia) ltac:(lia) Hc).
  run (last_axis_item_is3 W kh kw C Co fw ch Hw Hch).
  apply is4_expand4 in HR0.
  run (broadcast4_is4 Qcmult R (expand4 R0) B kh kw C 1 kh kw C B kh kw C _ _ HR HR0
         (bdim_one_r B) (bdim_same kh) (bdim_same kw) (bdim_same C)).
  run (np_sum_123_is1 R1 B kh kw C _ HR1).
  run (column_is1 b 1 Co fb ch Hb Hch).
  run (broadcast1_is1 Qcplus R2 R3 B 1 B _ _ HR2 HR3 (bdim_one_r B)).
  destruct (setitem_cell_is4 Zc R4 B oh ow Co B fz _ row col ch Hz HR4
              Hrow Hcol Hch (fits_same B)) as (Z' & EZ & HZ & HdZ).
  exists Z'. split; [exact EZ|]. split; [|exact HdZ].
  eapply is4_ext; [exact HZ|]. intros b' i j k Hb' Hi Hj Hk. cbv beta.
  destruct ((i =? row) && (j =? col) && (k =? ch)); [|reflexivity].
  rewrite !(bidx_lt B b') by assumption. rewrite bidx_one. f_equal. f_equal.
  unfold conv_at.
  apply sum_n_ext; intros i' Hi'. apply sum_n_ext; intros j' Hj'.
  apply sum_n_ext; intros k' Hk'.
  rewrite !(bidx_lt kh i'), !(bidx_lt kw j'), !(bidx_lt C k') by assumption.
  reflexivity.
Qed.

(** Three nested loops that assign every cell once. *)
Lemma fold_assign3 (n1 n2 n3 r c k : nat) (V : nat -> nat -> nat -> Qc) (a0 : Qc) :
  (r < n1)%nat -> (c < n2)%nat -> (k < n3)%nat ->
  fold_left (fun a row =>
    fold_left (fun a col =>
      fold_left (fun a ch =>
        if (r =? row) && (c =? col) && (k =? ch) then V row col ch else a)
        (seq 0 n3) a)
      (seq 0 n2) a)
    (seq 0 n1) a0
  = V r c k.
Proof.
  intros Hr Hc Hk.
  rewrite (fold_left_pick n1 r
             (fun row a => fold_left (fun a col =>
                fold_left (fun a ch =>
                  if (r =? row) && (c =? col) && (k =? ch) then V row col ch else a)
                  (seq 0 n3) a) (seq 0 n2) a)); [|exact Hr|].
  - rewrite (fold_left_pick n2 c
               (fun col a => fold_left (fun a ch =>
                  if (r =? r) && (c =? col) && (k =? ch) then V r col ch else a)
                  (seq 0 n3) a)); [|exact Hc|].
    + rewrite (fold_left_pick n3 k
                 (fun ch a => if (r =? r) && (c =? c) && (k =? ch) then V r c ch else a));
        [|exact Hk|].
      * now rewrite !Nat.eqb_refl.
      * intros i a Hi. destruct (Nat.eqb_spec k i); [congruence|].
        now rewrite andb_false_r.
    + intros i a Hi. apply fold_left_id. intros ch a' _.
      destruct (Nat.eqb_spec c i); [congruence|].
      now rewrite andb_false_r.
  - intros i a Hi. apply fold_left_id. intros col a' _.
    apply fold_left_id. intros ch a'' _.
    destruct (Nat.eqb_spec r i); [congruence|]. reflexivity.
Qed.

Lemma fold_assign2 (n1 n2 r c : nat) (V : nat -> nat -> Qc) (a0 : Qc) :
  (r < n1)%nat -> (c < n2)%nat ->
  fold_left (fun a row =>
    fold_left (fun a col => if (r =? row) && (c =? col) then V row col else a)
      (seq 0 n2) a)
    (seq 0 n1) a0
  = V r c.
Proof.
  intros Hr Hc.
  rewrite (fold_left_pick n1 r
             (fun row a => fold_left (fun a col =>
                if (r =? row) && (c =? col) then V row col else a) (seq 0 n2) a));
    [|exact Hr|].
  - rewrite (fold_left_pick n2 c
               (fun col a => if (r =? r) && (c =? col) then V r col else a));
      [|exact Hc|].
    + now rewrite !Nat.eqb_refl.
    + intros i a Hi. destruct (Nat.eqb_spec c i); [congruence|].
      now rewrite andb_false_r.
  - intros i a Hi. apply fold_left_id. intros col a' _.
    destruct (Nat.eqb_spec r i); [congruence|]. reflexivity.
Qed.

Lemma Conv2D_forward_loops
    (padX W b Z0 : ndarray) (B Hp Wp C kh kw Co oh ow s : nat)
    (fx fw fz : nat -> nat -> nat -> nat -> Qc) (fb : nat -> nat -> Qc) :
  is4 padX B Hp Wp C fx -> is4 W kh kw C Co fw -> is2 b 1 Co fb ->
  is4 Z0 B oh ow Co fz ->
  (forall row, (row < oh)%nat -> (row * s + kh <= Hp)%nat) ->
  (forall col, (col < ow)%nat -> (col * s + kw <= Wp)%nat) ->
  exists Zf,
    for_each (seq 0 oh) (fun Zc row =>
      for_each (seq 0 ow) (fun Zc col =>
        for_each (seq 0 Co) (fun Zc channel =>
          Conv2D_forward_step padX W b (Z.of_nat s) (Z.of_nat kh) (Z.of_nat kw)
            row col channel Zc) Zc) Zc) Z0
    = Ok Zf
    /\ is4 Zf B oh ow Co
         (fun b' r c k =>
            astype (dtype Z0) (conv_at fx fw kh kw C s b' r c k + fb 0%nat k))
    /\ dtype Zf = dtype Z0.
Proof.
  intros Hx Hw Hb Hz Hrows Hcols.
  pose (V := fun b' row col ch =>
               astype (dtype Z0) (conv_at fx fw kh kw C s b' row col ch + fb 0%nat ch)).
  pose (T3 := fun (row col ch b' i j k : nat) (a : Qc) =>
                if (i =? row) && (j =? col) && (k =? ch) then V b' row col ch else a).
  pose (T2 := fun (row col b' i j k : nat) (a : Qc) =>
                fold_left (fun a ch => T3 row col ch b' i j k a) (seq 0 Co) a).
  pose (T1 := fun (row b' i j k : nat) (a : Qc) =>
                fold_left (fun a col => T2 row col b' i j k a) (seq 0 ow) a).
  destruct (for_each_is4 nat (dtype Z0) B oh ow Co T1
              (fun Zc row =>
                 for_each (seq 0 ow) (fun Zc col =>
                   for_each (seq 0 Co) (fun Zc channel =>
                     Conv2D_forward_step padX W b (Z.of_nat s) (Z.of_nat kh) (Z.of_nat kw)
                       row col channel Zc) Zc) Zc)
              (seq 0 oh)) with (A := Z0) (f := fz) as (Zf & E & HZf & HdZf).
  - intros A f row Hrow HA Hd. apply in_seq in Hrow.
    apply (for_each_is4 nat (dtype Z0) B oh ow Co (T2 row)); [|exact HA|exact Hd].
    intros A' f' col Hcol HA' Hd'. apply in_seq in Hcol.
    apply (for_each_is4 nat (dtype Z0) B oh ow Co (T3 row col)); [|exact HA'|exact Hd'].
    intros A'' f'' ch Hch HA'' Hd''. apply in_seq in Hch.
    destruct (Conv2D_forward_step_is4 padX W b A'' B Hp Wp C kh kw Co oh ow s row col ch
                fx fw f'' fb Hx Hw Hb HA'' ltac:(apply Hrows; lia) ltac:(apply Hcols; lia)
                ltac:(lia) ltac:(lia) ltac:(lia)) as (Z' & EZ & HZ & HdZ).
    exists Z'. split; [exact EZ|]. rewrite Hd'' in HZ, HdZ. split; [exact HZ | exact HdZ].
  - exact Hz.
  - reflexivity.
  - exists Zf. split; [exact E|]. split; [|exact HdZf].
    eapply is4_ext; [exact HZf|]. intros b' r c k Hb' Hr Hc Hk.
    unfold T1, T2, T3.
    apply (fold_assign3 oh ow Co r c k (fun row col ch => V b' row col ch));
      assumption.
Qed.

(** ** Conv2D.backward *)

(** A loop on a pair of arrays, each cell of either transformed by a
    function of the loop index. *)
Lemma for_each_is4x2 (I : Type) (d1 d2 : kind) (n0 n1 n2 n3 m0 m1 m2 m3 : nat)
    (T U : I -> nat -> nat -> nat -> nat -> Qc -> Qc)
    (body : ndarray * ndarray -> I -> result (ndarray * ndarray)) (l : list I) :
  (forall A A2 f g i, In i l -> is4 A n0 n1 n2 n3 f -> is4 A2 m0 m1 m2 m3 g ->
     dtype A = d1 -> dtype A2 = d2 ->
     exists A' A2', body (A, A2) i = Ok (A', A2')
       /\ is4 A' n0 n1 n2 n3 (fun b r c k => T i b r c k (f b r c k))
       /\ is4 A2' m0 m1 m2 m3 (fun b r c k => U i b r c k (g b r c k))
       /\ dtype A' = d1 /\ dtype A2' = d2) ->
  forall A A2 f g, is4 A n0 n1 n2 n3 f -> is4 A2 m0 m1 m2 m3 g ->
    dtype A = d1 -> dtype A2 = d2 ->
    exists A' A2', for_each l body (A, A2) = Ok (A', A2')
      /\ is4 A' n0 n1 n2 n3
           (fun b r c k => fold_left (fun a i => T i b r c k a) l (f b r c k))
      /\ is4 A2' m0 m1 m2 m3
           (fun b r c k => fold_left (fun a i => U i b r c k a) l (g b r c k))
      /\ dtype A' = d1 /\ dtype A2' = d2.
Proof.
  intros Hstep A A2 f g HA HA2 Hd1 Hd2.
  destruct (for_each_inv (ndarray * ndarray) I
              (fun pre st =>
                 is4 (fst st) n0 n1 n2 n3
                   (fun b r c k => fold_left (fun a i => T i b r c k a) pre (f b r c k))
                 /\ is4 (snd st) m0 m1 m2 m3
                   (fun b r c k => fold_left (fun a i => U i b r c k a) pre (g b r c k))
                 /\ dtype (fst st) = d1 /\ dtype (snd st) = d2)
              body l) with (pre := @nil I) (s := (A, A2))
    as ([A' A2'] & E & H1 & H2 & H3 & H4).
  - intros pre i [s1 s2] Hi (Hs1 & Hs2 & Hk1 & Hk2). simpl in Hs1, Hs2, Hk1, Hk2.
    destruct (Hstep _ _ _ _ i Hi Hs1 Hs2 Hk1 Hk2)
      as (s1' & s2' & Es & Hs1' & Hs2' & Hk1' & Hk2').
    exists (s1', s2'). split; [exact Es|]. simpl. split; [|split; [|split; assumption]].
    + eapply is4_ext; [exact Hs1'|]. intros. simpl. now rewrite fold_left_app.
    + eapply is4_ext; [exact Hs2'|]. intros. simpl. now rewrite fold_left_app.
  - simpl. split; [exact HA|]. split; [exact HA2|]. split; assumption.
  - simpl in H1, H2, H3, H4. exists A', A2'. split; [exact E|].
    split; [exact H1|]. split; [exact H2|]. split; assumption.
Qed.

(** Nested loops that add a term to the cell whenever a condition holds. *)
Lemma fold_accum1 (n : nat) (c : nat -> bool) (g : nat -> Qc) (a0 : Qc) :
  fold_left (fun a x => if c x then a + g x else a) (seq 0 n) a0
  = a0 + sum_n n (fun x => if c x then g x else 0).
Proof.
  rewrite <- fold_left_add. apply fold_left_ext. intros i a _.
  destruct (c i); ring.
Qed.

Lemma fold_accum2 (n1 n2 : nat) (c : nat -> nat -> bool) (g : nat -> nat -> Qc)
    (a0 : Qc) :
  fold_left (fun a x =>
    fold_left (fun a y => if c x y then a + g x y else a) (seq 0 n2) a)
    (seq 0 n1) a0
  = a0 + sum_n n1 (fun x => sum_n n2 (fun y => if c x y then g x y else 0)).
Proof.
  rewrite <- fold_left_add.
  apply (fold_left_ext nat
           (fun x a => fold_left (fun a y => if c x y then a + g x y else a) (seq 0 n2) a)
           (fun x a => a + sum_n n2 (fun y => if c x y then g x y else 0))).
  intros x a _. apply fold_accum1.
Qed.

Lemma fold_accum3 (n1 n2 n3 : nat) (c : nat -> nat -> nat -> bool)
    (g : nat -> nat -> nat -> Qc) (a0 : Qc) :
  fold_left (fun a x =>
    fold_left (fun a y =>
      fold_left (fun a z => if c x y z then a + g x y z else a) (seq 0 n3) a)
      (seq 0 n2) a)
    (seq 0 n1) a0
  = a0 + sum_n n1 (fun x => sum_n n2 (fun y => sum_n n3 (fun z =>
           if c x y z then g x y z else 0))).
Proof.
  rewrite <- fold_left_add.
  apply (fold_left_ext nat
           (fun x a => fold_left (fun a y =>
              fold_left (fun a z => if c x y z then a + g x y z else a) (seq 0 n3) a)
              (seq 0 n2) a)
           (fun x a => a + sum_n n2 (fun y => sum_n n3 (fun z =>
              if c x y z then g x y z else 0)))).
  intros x a _. rewrite <- fold_left_add.
  apply (fold_left_ext nat
           (fun y a => fold_left (fun a z => if c x y z then a + g x y z else a)
                         (seq 0 n3) a)
           (fun y a => a + sum_n n3 (fun z => if c x y z then g x y z else 0))).
  intros y a' _. apply fold_accum1.
Qed.

(** Nested loops of which the innermost touches the cell in one iteration. *)
Lemma fold_accum_pick (n1 n2 n3 k : nat) (g : nat -> nat -> nat -> Qc) (a0 : Qc) :
  (k < n3)%nat ->
  fold_left (fun a x =>
    fold_left (fun a y =>
      fold_left (fun a z => if k =? z then a + g x y z else a) (seq 0 n3) a)
      (seq 0 n2) a)
    (seq 0 n1) a0
  = a0 + sum_n n1 (fun x => sum_n n2 (fun y => g x y k)).
Proof.
  intros Hk. rewrite fold_accum3. f_equal.
  apply sum_n_ext; intros x _. apply sum_n_ext; intros y _.
  rewrite (sum_n_single n3 k); [now rewrite Nat.eqb_refl | exact Hk |].
  intros z _ Hz. destruct (Nat.eqb_spec k z); [congruence | reflexivity].
Qed.

Lemma covers_true (s kh kw row col i j : nat) :
  covers s kh kw row col i j = true ->
  (row * s <= i < row * s + kh)%nat /\ (col * s <= j < col * s + kw)%nat.
Proof.
  unfold covers. intros H.
  apply andb_true_iff in H. destruct H as [H H4].
  apply andb_true_iff in H. destruct H as [H H3].
  apply andb_true_iff in H. destruct H as [H1 H2].
  apply Nat.leb_le in H1, H3. apply Nat.ltb_lt in H2, H4. lia.
Qed.

Lemma Conv2D_backward_step_is4
    (X_pad W dZ dXp dW : ndarray) (B Hp Wp C kh kw Co oh ow s row col ch : nat)
    (fx fw fdz fdx fdw : nat -> nat -> nat -> nat -> Qc) :
  is4 X_pad B Hp Wp C fx -> is4 W kh kw C Co fw -> is4 dZ B oh ow Co fdz ->
  is4 dXp B Hp Wp C fdx -> is4 dW kh kw C Co fdw ->
  can_cast (result_type (dtype W) (dtype dZ)) (dtype dXp) = true ->
  can_cast (result_type (dtype X_pad) (dtype dZ)) (dtype dW) = true ->
  (row * s + kh <= Hp)%nat -> (col * s + kw <= Wp)%nat ->
  (row < oh)%nat -> (col < ow)%nat -> (ch < Co)%nat ->
  exists dXp' dW',
    Conv2D_backward_step X_pad W dZ (Z.of_nat s) (Z.of_nat kh) (Z.of_nat kw)
      row col ch (dXp, dW)
    = Ok (dXp', dW')
    /\ is4 dXp' B Hp Wp C
         (fun b i j k =>
            if covers s kh kw row col i j
            then fdx b i j k
                 + fw (i - row * s)%nat (j - col * s)%nat k ch * fdz b row col ch
            else fdx b i j k)
    /\ is4 dW' kh kw C Co
         (fun i j k c' =>
            if c' =? ch
            then fdw i j k c'
                 + sum_n B (fun b =>
                     fx b (row * s + i)%nat (col * s + j)%nat k * fdz b row col ch)
            else fdw i j k c')
    /\ dtype dXp' = dtype dXp /\ dtype dW' = dtype dW.
Proof.
  intros Hx Hw Hdz Hdx Hdw Hcx Hcw Hr Hc Hrow Hcol Hch.
  unfold Conv2D_backward_step, window, np_mul.
  run (last_axis_item_is3 W kh kw C Co fw ch Hw Hch).
  apply is4_expand4 in HR.
  run (grad_item_is4 dZ B oh ow Co fdz row col ch Hdz Hrow Hcol Hch).
  run (broadcast4_is4 Qcmult (expand4 R) R0 1 kh kw C B 1 1 1 B kh kw C _ _ HR HR0
         (bdim_one_l B) (bdim_one_r kh) (bdim_one_r kw) (bdim_one_r C)).
  assert (Hk1 : can_cast (result_type (dtype dXp) (dtype R1)) (dtype dXp) = true).
  { apply can_cast_into. rewrite (broadcast4_dtype _ _ _ _ E1). cbn [expand4 dtype].
    now rewrite (last_axis_item_dtype _ _ _ E), (grad_item_dtype _ _ _ _ _ E0). }
  run (iadd_hw_is4 dXp R1 B Hp Wp C B kh kw C fdx _
         (Z.of_nat row * Z.of_nat s) (Z.of_nat row * Z.of_nat s + Z.of_nat kh)
         (Z.of_nat col * Z.of_nat s) (Z.of_nat col * Z.of_nat s + Z.of_nat kw)
         (row * s) kh (col * s) kw Hdx HR1 Hk1
         ltac:(lia) ltac:(lia) Hr ltac:(lia) ltac:(lia) Hc
         (fits_same B) (fits_same kh) (fits_same kw) (fits_same C)).
  destruct HR2 as [HR2 HdR2].
  run (slice_hw_is4 X_pad B Hp Wp C fx
         (Z.of_nat row * Z.of_nat s) (Z.of_nat row * Z.of_nat s + Z.of_nat kh)
         (Z.of_nat col * Z.of_nat s) (Z.of_nat col * Z.of_nat s + Z.of_nat kw)
         (row * s) kh (col * s) kw Hx ltac:(lia) ltac:(lia) Hr ltac:(lia) ltac:(lia) Hc).
  run (broadcast4_is4 Qcmult R3 R0 B kh kw C B 1 1 1 B kh kw C _ _ HR3 HR0
         (bdim_same B) (bdim_one_r kh) (bdim_one_r kw) (bdim_one_r C)).
  run (np_sum_0_is3 R4 B kh kw C _ HR4).
  assert (Hk2 : can_cast (result_type (dtype dW) (dtype R5)) (dtype dW) = true).
  { apply can_cast_into.
    rewrite (np_sum_0_dtype _ _ E5), (broadcast4_dtype _ _ _ _ E4).
    now rewrite (slice_hw_dtype _ _ _ _ _ _ E3), (grad_item_dtype _ _ _ _ _ E0). }
  run (iadd_last_axis_item_is4 dW R5 kh kw C Co kh kw C fdw _ ch Hdw HR5 Hch Hk2
         (fits_same kh) (fits_same kw) (fits_same C)).
  destruct HR6 as [HR6 HdR6].
  exists R2, R6. split; [reflexivity|]. split; [|split; [|split; assumption]].
  - eapply is4_ext; [exact HR2|]. intros b i j k Hb Hi Hj Hk. cbv beta.
    fold (covers s kh kw row col i j).
    destruct (covers s kh kw row col i j) eqn:Hcov; [|reflexivity].
    apply covers_true in Hcov.
    rewrite !(bidx_lt B b) by assumption.
    rewrite !(bidx_lt kh (i - row * s)), !(bidx_lt kw (j - col * s)),
            !(bidx_lt C k) by lia.
    reflexivity.
  - eapply is4_ext; [exact HR6|]. intros i j k c' Hi Hj Hk Hc'. cbv beta.
    destruct (c' =? ch); [|reflexivity]. f_equal.
    rewrite !(bidx_lt kh i), !(bidx_lt kw j), !(bidx_lt C k) by assumption.
    apply sum_n_ext; intros b Hb.
    rewrite !(bidx_lt B b) by assumption. reflexivity.
Qed.

Lemma Conv2D_backward_loops
    (X_pad W dZ dXp dW : ndarray) (B Hp Wp C kh kw Co oh ow s : nat)
    (fx fw fdz : nat -> nat -> nat -> nat -> Qc) :
  is4 X_pad B Hp Wp C fx -> is4 W kh kw C Co fw -> is4 dZ B oh ow Co fdz ->
  is4 dXp B Hp Wp C (fun _ _ _ _ => 0) -> is4 dW kh kw C Co (fun _ _ _ _ => 0) ->
  can_cast (result_type (dtype W) (dtype dZ)) (dtype dXp) = true ->
  can_cast (result_type (dtype X_pad) (dtype dZ)) (dtype dW) = true ->
  (forall row, (row < oh)%nat -> (row * s + kh <= Hp)%nat) ->
  (forall col, (col < ow)%nat -> (col * s + kw <= Wp)%nat) ->
  exists dXp' dW',
    for_each (seq 0 oh) (fun st row =>
      for_each (seq 0 ow) (fun st col =>
        for_each (seq 0 Co) (fun st channel =>
          Conv2D_backward_step X_pad W dZ (Z.of_nat s) (Z.of_nat kh) (Z.of_nat kw)
            row col channel st) st) st) (dXp, dW)
    = Ok (dXp', dW')
    /\ is4 dXp' B Hp Wp C
         (fun b i j k =>
            sum_n oh (fun row => sum_n ow (fun col => sum_n Co (fun ch =>
              if covers s kh kw row col i j
              then fw (i - row * s)%nat (j - col * s)%nat k ch * fdz b row col ch
              else 0))))
    /\ is4 dW' kh kw C Co
         (fun i j k ch =>
            sum_n oh (fun row => sum_n ow (fun col => sum_n B (fun b =>
              fx b (row * s + i)%nat (col * s + j)%nat k * fdz b row col ch))))
    /\ dtype dXp' = dtype dXp /\ dtype dW' = dtype dW.
Proof.
  intros Hx Hw Hdz Hdx Hdw Hcx Hcw Hrows Hcols.
  pose (T3 := fun (row col ch b i j k : nat) (a : Qc) =>
                if covers s kh kw row col i j
                then a + fw (i - row * s)%nat (j - col * s)%nat k ch * fdz b row col ch
                else a).
  pose (U3 := fun (row col ch i j k c' : nat) (a : Qc) =>
                if c' =? ch
                then a + sum_n B (fun b =>
                           fx b (row * s + i)%nat (col * s + j)%nat k * fdz b row col ch)
                else a).
  pose (T2 := fun (row col b i j k : nat) (a : Qc) =>
                fold_left (fun a ch => T3 row col ch b i j k a) (seq 0 Co) a).
  pose (U2 := fun (row col b i j k : nat) (a : Qc) =>
                fold_left (fun a ch => U3 row col ch b i j k a) (seq 0 Co) a).
  pose (T1 := fun (row b i j k : nat) (a : Qc) =>
                fold_left (fun a col => T2 row col b i j k a) (seq 0 ow) a).
  pose (U1 := fun (row b i j k : nat) (a : Qc) =>
                fold_left (fun a col => U2 row col b i j k a) (seq 0 ow) a).
  destruct (for_each_is4x2 nat (dtype dXp) (dtype dW) B Hp Wp C kh kw C Co T1 U1
              (fun st row =>
                 for_each (seq 0 ow) (fun st col =>
                   for_each (seq 0 Co) (fun st channel =>
                     Conv2D_backward_step X_pad W dZ (Z.of_nat s) (Z.of_nat kh)
                       (Z.of_nat kw) row col channel st) st) st)
              (seq 0 oh)) with (A := dXp) (A2 := dW)
                               (f := fun (_ _ _ _ : nat) => 0)
                               (g := fun (_ _ _ _ : nat) => 0)
    as (dXp' & dW' & E & H1 & H2 & H3 & H4).
  - intros A A2 f g row Hrow HA HA2 Hd Hd2. apply in_seq in Hrow.
    apply (for_each_is4x2 nat (dtype dXp) (dtype dW) B Hp Wp C kh kw C Co
             (T2 row) (U2 row)); [|exact HA|exact HA2|exact Hd|exact Hd2].
    intros A' A2' f' g' col Hcol HA' HA2' Hd' Hd2'. apply in_seq in Hcol.
    apply (for_each_is4x2 nat (dtype dXp) (dtype dW) B Hp Wp C kh kw C Co
             (T3 row col) (U3 row col)); [|exact HA'|exact HA2'|exact Hd'|exact Hd2'].
    intros A'' A2'' f'' g'' ch Hch HA'' HA2'' Hd'' Hd2''. apply in_seq in Hch.
    destruct (Conv2D_backward_step_is4 X_pad W dZ A'' A2'' B Hp Wp C kh kw Co oh ow s
                row col ch fx fw fdz f'' g'' Hx Hw Hdz HA'' HA2''
                ltac:(now rewrite Hd'') ltac:(now rewrite Hd2'')
                ltac:(apply Hrows; lia) ltac:(apply Hcols; lia)
                ltac:(lia) ltac:(lia) ltac:(lia))
      as (P & Q & EPQ & HP & HQ & HdP & HdQ).
    exists P, Q. split; [exact EPQ|]. split; [exact HP|]. split; [exact HQ|].
    split; congruence.
  - exact Hdx.
  - exact Hdw.
  - reflexivity.
  - reflexivity.
  - exists dXp', dW'. split; [exact E|]. split; [|split; [|split; assumption]].
    + eapply is4_ext; [exact H1|]. intros b i j k Hb Hi Hj Hk.
      unfold T1, T2, T3.
      rewrite (fold_accum3 oh ow Co
                 (fun row col ch => covers s kh kw row col i j)
                 (fun row col ch =>
                    fw (i - row * s)%nat (j - col * s)%nat k ch * fdz b row col ch)).
      apply Qcplus_0_l.
    + eapply is4_ext; [exact H2|]. intros i j k ch Hi Hj Hk Hch.
      unfold U1, U2, U3.
      rewrite (fold_accum_pick oh ow Co ch
                 (fun row col ch' => sum_n B (fun b =>
                    fx b (row * s + i)%nat (col * s + j)%nat k * fdz b row col ch'))
                 0 Hch).
      apply Qcplus_0_l.
Qed.

Lemma np_sum_012_is1 (A : ndarray) (n0 n1 n2 n3 : nat) f :
  is4 A n0 n1 n2 n3 f ->
  exists R, np_sum_012 A = Ok R
            /\ is1 R n3 (fun c =>
                 sum_n n0 (fun b => sum_n n1 (fun i => sum_n n2 (fun j => f b i j c)))).
Proof.
  intros [Hs Hf]. unfold np_sum_012. rewrite Hs.
  eexists. split; [reflexivity|]. apply is1_mk1. intros c Hc.
  apply sum_n_ext; intros b Hb. apply sum_n_ext; intros i Hi.
  apply sum_n_ext; intros j Hj. now apply Hf.
Qed.

(** [v.reshape(1, -1)] of a vector. *)
Lemma np_reshape_row_is2 (A : ndarray) (n : nat) f :
  is1 A n f ->
  exists R, np_reshape A [1%Z; (-1)%Z] = Ok R /\ is2 R 1 n (fun _ c => f c).
Proof.
  intros [Hs Hf]. unfold np_reshape. rewrite Hs. simpl.
  rewrite Z.mod_1_r. simpl. eexists. split; [reflexivity|].
  split.
  - simpl. rewrite Z.div_1_r, Nat2Z.id. now rewrite Nat.mul_1_r.
  - intros i c Hi Hc. unfold get2. simpl.
    rewrite Z.div_1_r, Nat2Z.id.
    assert (i = 0)%nat as -> by lia. simpl. now apply Hf.
Qed.

(** ** Row-major flattening of a window *)

Lemma seq_from (n len : nat) : seq n len = map (fun j => (n + j)%nat) (seq 0 len).
Proof.
  revert n. induction len as [|len IH]; intros n; [reflexivity|].
  simpl. rewrite Nat.add_0_r. f_equal.
  rewrite (IH (S n)), <- (seq_shift len 0), map_map. apply map_ext. intros; lia.
Qed.

Lemma map_divmod_flat (A : Type) (F : nat -> nat -> A) (h w : nat) :
  map (fun m => F (m / w)%nat (m mod w)%nat) (seq 0 (h * w))
  = flat_map (fun i => map (fun j => F i j) (seq 0 w)) (seq 0 h).
Proof.
  induction h as [|h IH]; [reflexivity|].
  rewrite seq_S, flat_map_app. simpl flat_map. rewrite app_nil_r.
  replace (S h * w)%nat with (h * w + w)%nat by lia.
  rewrite seq_app, map_app, IH. f_equal. simpl.
  destruct w as [|w']; [reflexivity|].
  rewrite (seq_from (h * S w')), map_map. apply map_ext_in.
  intros j Hj. apply in_seq in Hj.
  rewrite (Nat.add_comm (h * S w') j).
  rewrite Nat.div_add, Nat.Div0.mod_add by lia.
  rewrite Nat.div_small, Nat.mod_small by lia.
  reflexivity.
Qed.

Lemma flat_map_ext_in (A B : Type) (f g : A -> list B) (l : list A) :
  (forall x, In x l -> f x = g x) -> flat_map f l = flat_map g l.
Proof.
  induction l as [|x l IH]; intros H; simpl; [reflexivity|].
  rewrite H by (now left). f_equal. apply IH. intros; apply H; now right.
Qed.

(** ** Pooling operations on arrays seen as functions *)

Lemma np_mean_12_is2 (A : ndarray) (n0 n1 n2 n3 : nat) f :
  is4 A n0 n1 n2 n3 f -> (0 < n1)%nat -> (0 < n2)%nat ->
  exists R, np_mean_12 A = Ok R
            /\ is2 R n0 n3 (fun b c =>
                 sum_n n1 (fun i => sum_n n2 (fun j => f b i j c))
                 / of_int (Z.of_nat (n1 * n2))).
Proof.
  intros [Hs Hf] H1 H2. unfold np_mean_12. rewrite Hs.
  destruct (Nat.eqb_spec (n1 * n2) 0) as [E|_]; [nia|].
  eexists. split; [reflexivity|]. apply is2_mk2. intros b c Hb Hc.
  unfold of_int. f_equal.
  apply sum_n_ext; intros i Hi. apply sum_n_ext; intros j Hj. now apply Hf.
Qed.

Lemma np_max_12_is2 (A : ndarray) (n0 n1 n2 n3 : nat) f :
  is4 A n0 n1 n2 n3 f -> (0 < n1)%nat -> (0 < n2)%nat ->
  exists R, np_max_12 A = Ok R
            /\ is2 R n0 n3 (fun b c =>
                 match flat_map (fun i => map (fun j => f b i j c) (seq 0 n2)) (seq 0 n1)
                 with
                 | [] => 0
                 | x :: l => max_list x l
                 end).
Proof.
  intros [Hs Hf] H1 H2. unfold np_max_12. rewrite Hs.
  destruct (Nat.eqb_spec (n1 * n2) 0) as [E|_]; [nia|].
  eexists. split; [reflexivity|]. apply is2_mk2. intros b c Hb Hc.
  unfold cells. rewrite Hs.
  replace (flat_map (fun i => map (fun j => get4 A b i j c) (seq 0 n2)) (seq 0 n1))
    with (flat_map (fun i => map (fun j => f b i j c) (seq 0 n2)) (seq 0 n1));
    [reflexivity|].
  apply flat_map_ext_in. intros i Hi. apply in_seq in Hi.
  apply map_ext_in. intros j Hj. apply in_seq in Hj.
  symmetry. apply Hf; lia.
Qed.

Lemma Qcdiv_0_l (x : Qc) : 0 / x = 0.
Proof. unfold Qcdiv. apply Qcmult_0_l. Qed.

Lemma np_div_int_is4 (A : ndarray) (n0 n1 n2 n3 : nat) f (n : Z) :
  is4 A n0 n1 n2 n3 f ->
  is4 (np_div_int A n) n0 n1 n2 n3 (fun b i j k => f b i j k / of_int n).
Proof.
  intros [Hs Hf]. split; [exact Hs|]. intros b i j k Hb Hi Hj Hk.
  rewrite <- Hf by assumption. unfold get4, np_div_int. simpl. rewrite Hs.
  rewrite <- (Qcdiv_0_l (Q2Qc (inject_Z n))) at 1.
  rewrite (map_nth (fun x => x / Q2Qc (inject_Z n))). reflexivity.
Qed.

(** A window [B, kh, kw, C] reshaped to [B, kh*kw, C], and back. *)
Lemma np_reshape_43 (A : ndarray) (B kh kw C : nat) f :
  is4 A B kh kw C f ->
  exists R,
    np_reshape A [Z.of_nat B; (Z.of_nat kh * Z.of_nat kw)%Z; Z.of_nat C] = Ok R
    /\ is3 R B (kh * kw) C (fun b m c => f b (m / kw)%nat (m mod kw)%nat c).
Proof.
  intros [Hs Hf].
  rewrite <- Nat2Z.inj_mul.
  change [Z.of_nat B; Z.of_nat (kh * kw); Z.of_nat C]
    with (map Z.of_nat [B; (kh * kw)%nat; C]).
  rewrite np_reshape_to_shape by (rewrite Hs; simpl; lia).
  eexists. split; [reflexivity|]. split; [reflexivity|].
  intros b m c Hb Hm Hc.
  assert (Hkw : (0 < kw)%nat) by nia.
  assert (Hi : (m / kw < kh)%nat) by (apply Nat.Div0.div_lt_upper_bound; lia).
  assert (Hj : (m mod kw < kw)%nat) by (apply Nat.mod_upper_bound; lia).
  rewrite <- Hf by assumption. unfold get3, get4. simpl. rewrite Hs.
  f_equal. pose proof (Nat.div_mod_eq m kw). nia.
Qed.

Lemma np_reshape_34 (M : ndarray) (B kh kw C : nat) g :
  is3 M B (kh * kw) C g ->
  exists R,
    np_reshape M [Z.of_nat B; Z.of_nat kh; Z.of_nat kw; Z.of_nat C] = Ok R
    /\ is4 R B kh kw C (fun b i j c => g b (i * kw + j)%nat c).
Proof.
  intros [Hs Hg].
  change [Z.of_nat B; Z.of_nat kh; Z.of_nat kw; Z.of_nat C]
    with (map Z.of_nat [B; kh; kw; C]).
  rewrite np_reshape_to_shape by (rewrite Hs; simpl; lia).
  eexists. split; [reflexivity|]. split; [reflexivity|].
  intros b i j c Hb Hi Hj Hc.
  rewrite <- Hg; [| assumption | now apply flat_index_lt | assumption].
  unfold get3, get4. simpl. rewrite Hs. f_equal. ring.
Qed.

Lemma np_argmax_1_spec (A : ndarray) (n0 n1 n2 : nat) f :
  is3 A n0 n1 n2 f -> (0 < n1)%nat ->
  exists ids, np_argmax_1 A = Ok ids
    /\ forall b c, (b < n0)%nat -> (c < n2)%nat ->
         nth c (nth b ids []) 0%nat = argmax (map (fun m => f b m c) (seq 0 n1)).
Proof.
  intros [Hs Hf] H1. unfold np_argmax_1. rewrite Hs.
  destruct (Nat.eqb_spec n1 0); [lia|].
  eexists. split; [reflexivity|]. intros b c Hb Hc.
  rewrite (nth_indep _ [] (map (fun c => argmax (map (fun m => get3 A 0 m c) (seq 0 n1)))
                              (seq 0 n2)))
    by (now rewrite length_map, length_seq).
  rewrite (map_nth (fun b => map (fun c => argmax (map (fun m => get3 A b m c) (seq 0 n1)))
                                (seq 0 n2)) (seq 0 n0) 0%nat b).
  rewrite seq_nth by assumption. simpl.
  rewrite nth_map_seq by assumption. f_equal.
  apply map_ext_in. intros m Hm. apply in_seq in Hm. apply Hf; lia.
Qed.

Lemma one_hot_1_is3 (A : ndarray) (n0 n1 n2 : nat) (ids : list (list nat)) :
  shape A = [n0; n1; n2] ->
  exists R, one_hot_1 A ids = Ok R
    /\ is3 R n0 n1 n2 (fun b m c => if m =? nth c (nth b ids []) 0%nat then 1 else 0).
Proof.
  intros Hs. unfold one_hot_1. rewrite Hs.
  eexists. split; [reflexivity|]. apply is3_mk3. reflexivity.
Qed.

(** ** Maximum and first maximal position *)

Lemma Qcltb_lt (x y : Qc) : Qcltb x y = true <-> x < y.
Proof.
  unfold Qcltb. rewrite negb_true_iff. split.
  - intros H. apply Qcnot_le_lt. intros Hle.
    apply Qle_bool_iff in Hle. congruence.
  - intros H. destruct (Qle_bool y x) eqn:E; [|reflexivity].
    apply Qle_bool_iff in E. exfalso. exact (Qclt_not_le _ _ H E).
Qed.

Lemma Qcltb_ge (x y : Qc) : Qcltb x y = false <-> y <= x.
Proof.
  split.
  - intros H. apply Qcnot_lt_le. intros Hlt. apply Qcltb_lt in Hlt. congruence.
  - intros H. destruct (Qcltb x y) eqn:E; [|reflexivity].
    apply Qcltb_lt in E. exfalso. exact (Qclt_not_le _ _ E H).
Qed.

Lemma max_list_spec (l : list Qc) :
  forall x, x <= max_list x l
            /\ (forall y, In y l -> y <= max_list x l)
            /\ In (max_list x l) (x :: l).
Proof.
  unfold max_list. induction l as [|y l IH]; intros x; simpl.
  - split; [apply Qcle_refl|]. split; [intros y []|now left].
  - destruct (Qcltb x y) eqn:E.
    + apply Qcltb_lt in E. destruct (IH y) as (H1 & H2 & H3).
      split; [eapply Qcle_trans; [apply Qclt_le_weak; exact E | exact H1]|].
      split.
      * intros z [<-|Hz]; [exact H1 | now apply H2].
      * right. exact H3.
    + apply Qcltb_ge in E. destruct (IH x) as (H1 & H2 & H3).
      split; [exact H1|]. split.
      * intros z [<-|Hz]; [eapply Qcle_trans; eauto | now apply H2].
      * destruct H3 as [H3|H3]; [now left | right; now right].
Qed.

Lemma argmax_from_spec (l : list Qc) :
  forall (pre : list Qc) (bi : nat) (bv : Qc),
    (bi < length pre)%nat ->
    nth bi pre 0 = bv ->
    (forall n, (n < length pre)%nat -> nth n pre 0 <= bv) ->
    (forall n, (n < bi)%nat -> nth n pre 0 < bv) ->
    let m := argmax_from bi bv (length pre) l in
    (m < length (pre ++ l))%nat
    /\ (forall n, (n < length (pre ++ l))%nat -> nth n (pre ++ l) 0 <= nth m (pre ++ l) 0)
    /\ (forall n, (n < m)%nat -> nth n (pre ++ l) 0 < nth m (pre ++ l) 0).
Proof.
  induction l as [|y l IH]; intros pre bi bv Hbi Hbv Hall Hbefore; simpl.
  - rewrite app_nil_r, Hbv. repeat split; auto.
  - assert (Hlen : length (pre ++ [y]) = S (length pre))
      by (rewrite length_app; simpl; lia).
    assert (Hpre : forall n, (n < length pre)%nat ->
                     nth n (pre ++ [y]) 0 = nth n pre 0)
      by (intros; now apply app_nth1).
    assert (Hy : nth (length pre) (pre ++ [y]) 0 = y)
      by (rewrite app_nth2, Nat.sub_diag by lia; reflexivity).
    destruct (Qcltb bv y) eqn:E.
    + apply Qcltb_lt in E.
      assert (H : let m := argmax_from (length pre) y (length (pre ++ [y])) l in
                  (m < length ((pre ++ [y]) ++ l))%nat
                  /\ (forall n, (n < length ((pre ++ [y]) ++ l))%nat ->
                        nth n ((pre ++ [y]) ++ l) 0 <= nth m ((pre ++ [y]) ++ l) 0)
                  /\ (forall n, (n < m)%nat ->
                        nth n ((pre ++ [y]) ++ l) 0 < nth m ((pre ++ [y]) ++ l) 0)).
      { apply IH.
        - lia.
        - exact Hy.
        - intros n Hn. rewrite Hlen in Hn.
          destruct (Nat.eq_dec n (length pre)) as [->|Hne].
          + rewrite Hy. apply Qcle_refl.
          + rewrite Hpre by lia. apply Qclt_le_weak.
            eapply Qcle_lt_trans; [apply Hall; lia | exact E].
        - intros n Hn. rewrite Hpre by lia.
          eapply Qcle_lt_trans; [apply Hall; lia | exact E]. }
      rewrite Hlen in H. rewrite <- app_assoc in H. exact H.
    + apply Qcltb_ge in E.
      assert (H : let m := argmax_from bi bv (length (pre ++ [y])) l in
                  (m < length ((pre ++ [y]) ++ l))%nat
                  /\ (forall n, (n < length ((pre ++ [y]) ++ l))%nat ->
                        nth n ((pre ++ [y]) ++ l) 0 <= nth m ((pre ++ [y]) ++ l) 0)
                  /\ (forall n, (n < m)%nat ->
                        nth n ((pre ++ [y]) ++ l) 0 < nth m ((pre ++ [y]) ++ l) 0)).
      { apply IH.
        - lia.
        - now rewrite Hpre.
        - intros n Hn. rewrite Hlen in Hn.
          destruct (Nat.eq_dec n (length pre)) as [->|Hne].
          + now rewrite Hy.
          + rewrite Hpre by lia. apply Hall. lia.
        - intros n Hn. rewrite Hpre by lia. now apply Hbefore. }
      rewrite Hlen in H. rewrite <- app_assoc in H. exact H.
Qed.

(** [argmax] returns the first position holding the maximum. *)
Lemma argmax_first (l : list Qc) :
  l <> [] ->
  (argmax l < length l)%nat
  /\ (forall n, (n < length l)%nat -> nth n l 0 <= nth (argmax l) l 0)
  /\ (forall n, (n < argmax l)%nat -> nth n l 0 < nth (argmax l) l 0).
Proof.
  destruct l as [|x l]; [congruence|]. intros _.
  apply (argmax_from_spec l [x] 0%nat x).
  - simpl; lia.
  - reflexivity.
  - intros n Hn. simpl in Hn. assert (n = 0)%nat as -> by lia. apply Qcle_refl.
  - intros n Hn. lia.
Qed.

(** ** Pool2D.forward *)

Lemma Pool2D_forward_step_is4
    (X_pad A : ndarray) (f : option pool_fn)
    (PV : (nat -> nat -> nat -> nat -> Qc) -> nat -> nat -> Qc)
    (B Hp Wp C kh kw oh ow s row col : nat)
    (fx fa : nat -> nat -> nat -> nat -> Qc) :
  (forall win fwin, is4 win B kh kw C fwin ->
     exists v, apply_pool_fn f win = Ok v /\ is2 v B C (PV fwin)) ->
  is4 X_pad B Hp Wp C fx -> is4 A B oh ow C fa -> dtype A = Kfloat ->
  (row * s + kh <= Hp)%nat -> (col * s + kw <= Wp)%nat ->
  (row < oh)%nat -> (col < ow)%nat ->
  exists A',
    Pool2D_forward_step X_pad f (Z.of_nat s) (Z.of_nat kh) (Z.of_nat kw) row col A
    = Ok A'
    /\ is4 A' B oh ow C
         (fun b i j k =>
            if (i =? row) && (j =? col)
            then PV (fun b' i' j' k' =>
                       fx b' (row * s + i')%nat (col * s + j')%nat k') b k
            else fa b i j k)
    /\ dtype A' = Kfloat.
Proof.
  intros Hpool Hx Ha Hd Hr Hc Hrow Hcol.
  unfold Pool2D_forward_step, window.
  run (slice_hw_is4 X_pad B Hp Wp C fx
         (Z.of_nat row * Z.of_nat s) (Z.of_nat row * Z.of_nat s + Z.of_nat kh)
         (Z.of_nat col * Z.of_nat s) (Z.of_nat col * Z.of_nat s + Z.of_nat kw)
         (row * s) kh (col * s) kw Hx ltac:(lia) ltac:(lia) Hr ltac:(lia) ltac:(lia) Hc).
  run (Hpool R _ HR).
  destruct (setitem_pixel_is4 A R0 B oh ow C B C fa _ row col Ha HR0 Hrow Hcol
              (fits_same B) (fits_same C)) as (A' & EA & HA' & Hd').
  exists A'. split; [exact EA|]. split; [|congruence].
  eapply is4_ext; [exact HA'|]. intros b i j k Hb Hi Hj Hk. cbv beta.
  destruct ((i =? row) && (j =? col)); [|reflexivity].
  now rewrite Hd, astype_float, (bidx_lt B b), (bidx_lt C k) by assumption.
Qed.

Lemma apply_pool_fn_mean (B kh kw C : nat) :
  (0 < kh)%nat -> (0 < kw)%nat ->
  forall win fwin, is4 win B kh kw C fwin ->
    exists v, apply_pool_fn (Some NpMean) win = Ok v
      /\ is2 v B C (fun b k =>
           sum_n kh (fun i => sum_n kw (fun j => fwin b i j k))
           / of_int (Z.of_nat (kh * kw))).
Proof.
  intros Hkh Hkw win fwin Hwin. simpl.
  exact (np_mean_12_is2 win B kh kw C fwin Hwin Hkh Hkw).
Qed.

Lemma apply_pool_fn_max (B kh kw C : nat) :
  (0 < kh)%nat -> (0 < kw)%nat ->
  forall win fwin, is4 win B kh kw C fwin ->
    exists v, apply_pool_fn (Some NpMax) win = Ok v
      /\ is2 v B C (fun b k =>
           match flat_map (fun i => map (fun j => fwin b i j k) (seq 0 kw)) (seq 0 kh)
           with
           | [] => 0
           | x :: l => max_list x l
           end).
Proof.
  intros Hkh Hkw win fwin Hwin. simpl.
  exact (np_max_12_is2 win B kh kw C fwin Hwin Hkh Hkw).
Qed.

(** The run of [Pool2D.forward] for a pooling function whose value on a
    window is [PV]. *)
Lemma Pool2D_forward_run
    (L : Pool2D) (X : ndarray) (f : option pool_fn)
    (PV : (nat -> nat -> nat -> nat -> Qc) -> nat -> nat -> Qc)
    (B H Wd C kh kw oh ow s p q : nat) :
  local_pool_fn (mode L) = f ->
  (forall win fwin, is4 win B kh kw C fwin ->
     exists v, apply_pool_fn f win = Ok v /\ is2 v B C (PV fwin)) ->
  pool_kernel_shape L = PyTuple (Z.of_nat kh) (Z.of_nat kw) ->
  pool_stride L = PyInt (Z.of_nat s) -> (0 < s)%nat ->
  pool_pad L = PyTuple (Z.of_nat p) (Z.of_nat q) ->
  shape X = [B; H; Wd; C] ->
  out_size H (Z.of_nat p) (Z.of_nat kh) (Z.of_nat s) = Ok (Z.of_nat oh) ->
  out_size Wd (Z.of_nat q) (Z.of_nat kw) (Z.of_nat s) = Ok (Z.of_nat ow) ->
  exists Y,
    Pool2D_forward L X
    = Ok (pool_with_base L
            (set_cache (pool_base L) (dict_set (cache (pool_base L)) "X" (Carr X))), Y)
    /\ is4 Y B oh ow C
         (fun b row col k =>
            PV (fun b' i j k' =>
                  padded X p q b' (row * s + i)%nat (col * s + j)%nat k') b k).
Proof.
  intros Hf Hpool Hk Hstride Hs Hpad HsX Hoh How.
  unfold Pool2D_forward. rewrite HsX. cbn [unpack4 bind].
  rewrite Hk. cbn [unpack_pair bind].
  rewrite Hpad, Hstride. cbn [pair_item as_int bind Nat.eqb].
  rewrite Hoh, How. cbn [bind]. rewrite Hf.
  destruct (np_pad_is4 X B H Wd C p q HsX) as (X_pad & Epad & HXpad).
  rewrite Epad. cbn [bind].
  change [Z.of_nat B; Z.of_nat oh; Z.of_nat ow; Z.of_nat C]
    with (map Z.of_nat [B; oh; ow; C]).
  rewrite shape_of_ints_nats. cbn [bind].
  unfold range. rewrite !Nat2Z.id.
  pose (V := fun b row col k =>
               PV (fun b' i j k' =>
                     padded X p q b' (row * s + i)%nat (col * s + j)%nat k') b k).
  pose (T2 := fun (row col b i j k : nat) (a : Qc) =>
                if (i =? row) && (j =? col) then V b row col k else a).
  pose (T1 := fun (row b i j k : nat) (a : Qc) =>
                fold_left (fun a col => T2 row col b i j k a) (seq 0 ow) a).
  destruct (for_each_is4 nat Kfloat B oh ow C T1
              (fun A row =>
                 for_each (seq 0 ow) (fun A col =>
                   Pool2D_forward_step X_pad f (Z.of_nat s) (Z.of_nat kh) (Z.of_nat kw)
                     row col A) A)
              (seq 0 oh)) with (A := np_zeros [B; oh; ow; C])
                               (f := fun (_ _ _ _ : nat) => 0)
    as (Y & E & HY & _).
  - intros A fa row Hrow HA Hd. apply in_seq in Hrow.
    apply (for_each_is4 nat Kfloat B oh ow C (T2 row)); [|exact HA|exact Hd].
    intros A' fa' col Hcol HA' Hd'. apply in_seq in Hcol.
    apply (Pool2D_forward_step_is4 X_pad A' f PV B (H + 2 * p) (Wd + 2 * q) C
             kh kw oh ow s row col (padded X p q) fa' Hpool HXpad HA' Hd');
      try lia.
    + pose proof (out_size_window H (Z.of_nat p) (Z.of_nat kh) (Z.of_nat s) oh row
                    ltac:(lia) Hoh ltac:(lia)). lia.
    + pose proof (out_size_window Wd (Z.of_nat q) (Z.of_nat kw) (Z.of_nat s) ow col
                    ltac:(lia) How ltac:(lia)). lia.
  - apply is4_zeros.
  - reflexivity.
  - rewrite E. cbn [bind]. exists Y. split; [reflexivity|].
    eapply is4_ext; [exact HY|]. intros b r c k Hb Hr Hc Hk'.
    unfold T1, T2.
    apply (fold_assign2 oh ow r c (fun row col => V b row col k)); assumption.
Qed.

(** ** Pool2D.backward *)

Lemma Pool2D_backward_step_average
    (X_pad dLdY A : ndarray) (B Hp Wp C kh kw oh ow s row col : nat)
    (fdy fa : nat -> nat -> nat -> nat -> Qc) :
  is4 dLdY B oh ow C fdy -> is4 A B Hp Wp C fa -> dtype A = Kfloat ->
  (row * s + kh <= Hp)%nat -> (col * s + kw <= Wp)%nat ->
  (row < oh)%nat -> (col < ow)%nat ->
  exists A',
    Pool2D_backward_step X_pad dLdY (PyStr "average") B C
      (Z.of_nat s) (Z.of_nat kh) (Z.of_nat kw) row col A
    = Ok A'
    /\ is4 A' B Hp Wp C
         (fun b i j k =>
            if covers s kh kw row col i j
            then fa b i j k + fdy b row col k / of_int (Z.of_nat (kh * kw))
            else fa b i j k)
    /\ dtype A' = dtype A.
Proof.
  intros Hdy Ha Hd Hr Hc Hrow Hcol.
  unfold Pool2D_backward_step, window. cbn [is_str String.eqb Ascii.eqb Bool.eqb].
  run (slice_hw_is4 dLdY B oh ow C fdy
         (Z.of_nat row) (Z.of_nat row + 1) (Z.of_nat col) (Z.of_nat col + 1)
         row 1 col 1 Hdy ltac:(lia) ltac:(lia) ltac:(lia) ltac:(lia) ltac:(lia)
         ltac:(lia)).
  pose proof (np_div_int_is4 R B 1 1 C _ (Z.of_nat kh * Z.of_nat kw) HR) as Hdiv.
  destruct (iadd_hw_is4 A (np_div_int R (Z.of_nat kh * Z.of_nat kw))
              B Hp Wp C B 1 1 C fa _
              (Z.of_nat row * Z.of_nat s) (Z.of_nat row * Z.of_nat s + Z.of_nat kh)
              (Z.of_nat col * Z.of_nat s) (Z.of_nat col * Z.of_nat s + Z.of_nat kw)
              (row * s) kh (col * s) kw Ha Hdiv ltac:(now rewrite Hd)
              ltac:(lia) ltac:(lia) Hr ltac:(lia) ltac:(lia) Hc
              (fits_same B) (fits_one kh) (fits_one kw) (fits_same C))
    as (A' & EA & HA' & Hd').
  exists A'. split; [exact EA|]. split; [|exact Hd'].
  eapply is4_ext; [exact HA'|]. intros b i j k Hb Hi Hj Hk. cbv beta.
  fold (covers s kh kw row col i j).
  destruct (covers s kh kw row col i j); [|reflexivity].
  rewrite !bidx_one, (bidx_lt B b), (bidx_lt C k) by assumption.
  rewrite !Nat.add_0_r, Nat2Z.inj_mul. reflexivity.
Qed.

Lemma Pool2D_backward_step_max
    (X_pad dLdY A : ndarray) (B Hp Wp C kh kw oh ow s row col : nat)
    (fx fdy fa : nat -> nat -> nat -> nat -> Qc) :
  is4 X_pad B Hp Wp C fx -> is4 dLdY B oh ow C fdy -> is4 A B Hp Wp C fa ->
  can_cast (result_type (dtype X_pad) (dtype dLdY)) (dtype A) = true ->
  (0 < kh)%nat -> (0 < kw)%nat ->
  (row * s + kh <= Hp)%nat -> (col * s + kw <= Wp)%nat ->
  (row < oh)%nat -> (col < ow)%nat ->
  exists A',
    Pool2D_backward_step X_pad dLdY (PyStr "max") B C
      (Z.of_nat s) (Z.of_nat kh) (Z.of_nat kw) row col A
    = Ok A'
    /\ is4 A' B Hp Wp C
         (fun b i j k =>
            if is_argmax_cell fx s kh kw b row col k i j
            then fa b i j k + fdy b row col k
            else fa b i j k)
    /\ dtype A' = dtype A.
Proof.
  intros Hx Hdy Ha Hcast Hkh Hkw Hr Hc Hrow Hcol.
  unfold Pool2D_backward_step, window, np_mul.
  cbn [is_str String.eqb Ascii.eqb Bool.eqb].
  run (slice_hw_is4 X_pad B Hp Wp C fx
         (Z.of_nat row * Z.of_nat s) (Z.of_nat row * Z.of_nat s + Z.of_nat kh)
         (Z.of_nat col * Z.of_nat s) (Z.of_nat col * Z.of_nat s + Z.of_nat kw)
         (row * s) kh (col * s) kw Hx ltac:(lia) ltac:(lia) Hr ltac:(lia) ltac:(lia) Hc).
  run (np_reshape_43 R B kh kw C _ HR).
  assert (Hn : (0 < kh * kw)%nat) by nia.
  run (np_argmax_1_spec R0 B (kh * kw) C _ HR0 Hn).
  run (one_hot_1_is3 R0 B (kh * kw) C R1 (proj1 HR0)).
  run (np_reshape_34 R2 B kh kw C _ HR2).
  run (slice_hw_is4 dLdY B oh ow C fdy
         (Z.of_nat row) (Z.of_nat row + 1) (Z.of_nat col) (Z.of_nat col + 1)
         row 1 col 1 Hdy ltac:(lia) ltac:(lia) ltac:(lia) ltac:(lia) ltac:(lia)
         ltac:(lia)).
  run (broadcast4_is4 Qcmult R3 R4 B kh kw C B 1 1 C B kh kw C _ _ HR3 HR4
         (bdim_same B) (bdim_one_r kh) (bdim_one_r kw) (bdim_same C)).
  assert (Hcst : can_cast (result_type (dtype A) (dtype R5)) (dtype A) = true).
  { apply can_cast_into. rewrite (broadcast4_dtype _ _ _ _ E5).
    rewrite (np_reshape_dtype _ _ _ E3), (one_hot_1_dtype _ _ _ E2).
    rewrite (np_reshape_dtype _ _ _ E0), (slice_hw_dtype _ _ _ _ _ _ E).
    now rewrite (slice_hw_dtype _ _ _ _ _ _ E4). }
  destruct (iadd_hw_is4 A R5 B Hp Wp C B kh kw C fa _
              (Z.of_nat row * Z.of_nat s) (Z.of_nat row * Z.of_nat s + Z.of_nat kh)
              (Z.of_nat col * Z.of_nat s) (Z.of_nat col * Z.of_nat s + Z.of_nat kw)
              (row * s) kh (col * s) kw Ha HR5 Hcst
              ltac:(lia) ltac:(lia) Hr ltac:(lia) ltac:(lia) Hc
              (fits_same B) (fits_same kh) (fits_same kw) (fits_same C))
    as (A' & EA & HA' & Hd').
  exists A'. split; [exact EA|]. split; [|exact Hd'].
  eapply is4_ext; [exact HA'|]. intros b i j k Hb Hi Hj Hk. cbv beta.
  fold (covers s kh kw row col i j). unfold is_argmax_cell.
  destruct (covers s kh kw row col i j) eqn:Hcov; [|reflexivity].
  apply covers_true in Hcov. cbn [andb].
  rewrite !bidx_one, !(bidx_lt B b), !(bidx_lt C k) by assumption.
  rewrite !(bidx_lt kh (i - row * s)), !(bidx_lt kw (j - col * s)) by lia.
  rewrite HR1 by assumption.
  rewrite (map_divmod_flat Qc
             (fun i' j' => fx b (row * s + i')%nat (col * s + j')%nat k) kh kw).
  fold (window_cells fx s kh kw b row col k).
  rewrite !Nat.add_0_r.
  destruct ((i - row * s) * kw + (j - col * s)
            =? argmax (window_cells fx s kh kw b row col k)); ring.
Qed.

(** The run of [Pool2D.backward] for a mode whose loop body transforms the
    cells by [T row col]. *)
Lemma Pool2D_backward_run
    (L : Pool2D) (X dLdY : ndarray)
    (T : nat -> nat -> nat -> nat -> nat -> nat -> Qc -> Qc)
    (B H Wd C kh kw oh ow s p q : nat) :
  dict_get (cache (pool_base L)) "out_rows" <> None ->
  dict_get (cache (pool_base L)) "out_cols" <> None ->
  dict_get (cache (pool_base L)) "X" = Some (Carr X) ->
  pool_kernel_shape L = PyTuple (Z.of_nat kh) (Z.of_nat kw) ->
  pool_stride L = PyInt (Z.of_nat s) -> (0 < s)%nat ->
  pool_pad L = PyTuple (Z.of_nat p) (Z.of_nat q) ->
  shape X = [B; H; Wd; C] ->
  out_size H (Z.of_nat p) (Z.of_nat kh) (Z.of_nat s) = Ok (Z.of_nat oh) ->
  out_size Wd (Z.of_nat q) (Z.of_nat kw) (Z.of_nat s) = Ok (Z.of_nat ow) ->
  (forall X_pad A fa row col,
     is4 X_pad B (H + 2 * p) (Wd + 2 * q) C (padded X p q) ->
     dtype X_pad = dtype X ->
     is4 A B (H + 2 * p) (Wd + 2 * q) C fa -> dtype A = dtype X ->
     (row * s + kh <= H + 2 * p)%nat -> (col * s + kw <= Wd + 2 * q)%nat ->
     (row < oh)%nat -> (col < ow)%nat ->
     exists A',
       Pool2D_backward_step X_pad dLdY (mode L) B C
         (Z.of_nat s) (Z.of_nat kh) (Z.of_nat kw) row col A
       = Ok A'
       /\ is4 A' B (H + 2 * p) (Wd + 2 * q) C
            (fun b i j k => T row col b i j k (fa b i j k))
       /\ dtype A' = dtype X) ->
  exists dX,
    Pool2D_backward L dLdY = Ok dX
    /\ is4 dX B H Wd C
         (fun b i j k =>
            fold_left (fun a row =>
              fold_left (fun a col => T row col b (i + p)%nat (j + q)%nat k a)
                (seq 0 ow) a)
              (seq 0 oh) 0).
Proof.
  intros Hrows Hcols HX Hk Hstride Hs Hpad HsX Hoh How Hstep.
  unfold Pool2D_backward, cache_array, dict_item.
  destruct (dict_get (cache (pool_base L)) "out_rows"); [|congruence].
  destruct (dict_get (cache (pool_base L)) "out_cols"); [|congruence].
  cbn [bind]. rewrite HX. cbn [bind]. rewrite HsX. cbn [unpack4 bind].
  rewrite Hk. cbn [unpack_pair bind].
  rewrite Hpad, Hstride. cbn [pair_item as_int bind Nat.eqb].
  rewrite Hoh, How. cbn [bind].
  destruct (np_pad_is4 X B H Wd C p q HsX) as (X_pad & Epad & HXpad).
  rewrite Epad. cbn [bind].
  unfold range. rewrite !Nat2Z.id.
  assert (HdX0 : is4 (np_zeros_like X_pad) B (H + 2 * p) (Wd + 2 * q) C
                   (fun _ _ _ _ => 0)).
  { apply is4_zeros_like. exact (proj1 HXpad). }
  pose proof (np_pad_dtype _ _ _ _ Epad) as HdXpad.
  pose (T1 := fun (row b i j k : nat) (a : Qc) =>
                fold_left (fun a col => T row col b i j k a) (seq 0 ow) a).
  destruct (for_each_is4 nat (dtype X) B (H + 2 * p) (Wd + 2 * q) C T1
              (fun A row =>
                 for_each (seq 0 ow) (fun A col =>
                   Pool2D_backward_step X_pad dLdY (mode L) B C
                     (Z.of_nat s) (Z.of_nat kh) (Z.of_nat kw) row col A) A)
              (seq 0 oh)) with (A := np_zeros_like X_pad)
                               (f := fun (_ _ _ _ : nat) => 0)
    as (dXp & E & HdXp & _).
  - intros A fa row Hrow HA Hd. apply in_seq in Hrow.
    apply (for_each_is4 nat (dtype X) B (H + 2 * p) (Wd + 2 * q) C (T row));
      [|exact HA|exact Hd].
    intros A' fa' col Hcol HA' Hd'. apply in_seq in Hcol.
    apply Hstep; try assumption; try lia.
    + pose proof (out_size_window H (Z.of_nat p) (Z.of_nat kh) (Z.of_nat s) oh row
                    ltac:(lia) Hoh ltac:(lia)). lia.
    + pose proof (out_size_window Wd (Z.of_nat q) (Z.of_nat kw) (Z.of_nat s) ow col
                    ltac:(lia) How ltac:(lia)). lia.
  - exact HdX0.
  - exact HdXpad.
  - rewrite E. cbn [bind].
    destruct (slice_hw_is4 dXp B (H + 2 * p) (Wd + 2 * q) C _
                (Z.of_nat p) (Z.of_nat H + Z.of_nat p)
                (Z.of_nat q) (Z.of_nat Wd + Z.of_nat q) p H q Wd HdXp
                ltac:(lia) ltac:(lia) ltac:(lia) ltac:(lia) ltac:(lia) ltac:(lia))
      as (dX & EdX & HdX).
    exists dX. split; [exact EdX|].
    eapply is4_ext; [exact HdX|]. intros b i j k Hb Hi Hj Hk'. cbv beta.
    unfold T1. now rewrite (Nat.add_comm p i), (Nat.add_comm q j).
Qed.

(** ** Closed forms of the two backward passes *)

Lemma Pool2D_backward_average_closed
    (L : Pool2D) (X dLdY : ndarray) (B H Wd C kh kw oh ow s p q : nat) :
  mode L = PyStr "average" ->
  dict_get (cache (pool_base L)) "out_rows" <> None ->
  dict_get (cache (pool_base L)) "out_cols" <> None ->
  dict_get (cache (pool_base L)) "X" = Some (Carr X) ->
  pool_kernel_shape L = PyTuple (Z.of_nat kh) (Z.of_nat kw) ->
  pool_stride L = PyInt (Z.of_nat s) -> (0 < s)%nat ->
  pool_pad L = PyTuple (Z.of_nat p) (Z.of_nat q) ->
  shape X = [B; H; Wd; C] ->
  out_size H (Z.of_nat p) (Z.of_nat kh) (Z.of_nat s) = Ok (Z.of_nat oh) ->
  out_size Wd (Z.of_nat q) (Z.of_nat kw) (Z.of_nat s) = Ok (Z.of_nat ow) ->
  shape dLdY = [B; oh; ow; C] ->
  dtype X = Kfloat ->
  exists dX,
    Pool2D_backward L dLdY = Ok dX
    /\ is4 dX B H Wd C
         (fun b i j k =>
            sum_n oh (fun row => sum_n ow (fun col =>
              if covers s kh kw row col (i + p) (j + q)
              then get4 dLdY b row col k / of_int (Z.of_nat (kh * kw))
              else 0))).
Proof.
  intros Hmode Hrows Hcols HX Hk Hstride Hs Hpad HsX Hoh How Hsdy HdtX.
  destruct (Pool2D_backward_run L X dLdY
              (fun row col b i j k a =>
                 if covers s kh kw row col i j
                 then a + get4 dLdY b row col k / of_int (Z.of_nat (kh * kw))
                 else a)
              B H Wd C kh kw oh ow s p q Hrows Hcols HX Hk Hstride Hs Hpad HsX Hoh How)
    as (dX & E & HdX).
  - intros X_pad A fa row col HXpad HdXp HA HdA Hr Hc Hrow Hcol. rewrite Hmode.
    destruct (Pool2D_backward_step_average X_pad dLdY A B (H + 2 * p) (Wd + 2 * q) C
                kh kw oh ow s row col (get4 dLdY) fa
                (is4_get4 dLdY B oh ow C Hsdy) HA ltac:(congruence) Hr Hc Hrow Hcol)
      as (A' & EA & HA' & HdA').
    exists A'. split; [exact EA|]. split; [exact HA'|congruence].
  - exists dX. split; [exact E|].
    eapply is4_ext; [exact HdX|]. intros b i j k Hb Hi Hj Hk'. cbv beta.
    rewrite (fold_accum2 oh ow
               (fun row col => covers s kh kw row col (i + p) (j + q))
               (fun row col => get4 dLdY b row col k / of_int (Z.of_nat (kh * kw)))).
    apply Qcplus_0_l.
Qed.

Lemma Pool2D_backward_max_closed
    (L : Pool2D) (X dLdY : ndarray) (B H Wd C kh kw oh ow s p q : nat) :
  mode L = PyStr "max" ->
  dict_get (cache (pool_base L)) "out_rows" <> None ->
  dict_get (cache (pool_base L)) "out_cols" <> None ->
  dict_get (cache (pool_base L)) "X" = Some (Carr X) ->
  pool_kernel_shape L = PyTuple (Z.of_nat kh) (Z.of_nat kw) ->
  (0 < kh)%nat -> (0 < kw)%nat ->
  pool_stride L = PyInt (Z.of_nat s) -> (0 < s)%nat ->
  pool_pad L = PyTuple (Z.of_nat p) (Z.of_nat q) ->
  shape X = [B; H; Wd; C] ->
  out_size H (Z.of_nat p) (Z.of_nat kh) (Z.of_nat s) = Ok (Z.of_nat oh) ->
  out_size Wd (Z.of_nat q) (Z.of_nat kw) (Z.of_nat s) = Ok (Z.of_nat ow) ->
  shape dLdY = [B; oh; ow; C] ->
  can_cast (result_type (dtype X) (dtype dLdY)) (dtype X) = true ->
  exists dX,
    Pool2D_backward L dLdY = Ok dX
    /\ is4 dX B H Wd C
         (fun b i j k =>
            sum_n oh (fun row => sum_n ow (fun col =>
              if is_argmax_cell (padded X p q) s kh kw b row col k (i + p) (j + q)
              then get4 dLdY b row col k
              else 0))).
Proof.
  intros Hmode Hrows Hcols HX Hk Hkh Hkw Hstride Hs Hpad HsX Hoh How Hsdy Hcast.
  destruct (Pool2D_backward_run L X dLdY
              (fun row col b i j k a =>
                 if is_argmax_cell (padded X p q) s kh kw b row col k i j
                 then a + get4 dLdY b row col k
                 else a)
              B H Wd C kh kw oh ow s p q Hrows Hcols HX Hk Hstride Hs Hpad HsX Hoh How)
    as (dX & E & HdX).
  - intros X_pad A fa row col HXpad HdXp HA HdA Hr Hc Hrow Hcol. rewrite Hmode.
    destruct (Pool2D_backward_step_max X_pad dLdY A B (H + 2 * p) (Wd + 2 * q) C
                kh kw oh ow s row col (padded X p q) (get4 dLdY) fa
                HXpad (is4_get4 dLdY B oh ow C Hsdy) HA
                ltac:(now rewrite HdXp, HdA) Hkh Hkw Hr Hc Hrow Hcol)
      as (A' & EA & HA' & HdA').
    exists A'. split; [exact EA|]. split; [exact HA'|congruence].
  - exists dX. split; [exact E|].
    eapply is4_ext; [exact HdX|]. intros b i j k Hb Hi Hj Hk'. cbv beta.
    rewrite (fold_accum2 oh ow
               (fun row col =>
                  is_argmax_cell (padded X p q) s kh kw b row col k (i + p) (j + q))
               (fun row col => get4 dLdY b row col k)).
    apply Qcplus_0_l.
Qed.

(** ** The cells of a window *)

Lemma window_cells_map (fx : nat -> nat -> nat -> nat -> Qc) (s kh kw b row col k : nat) :
  window_cells fx s kh kw b row col k
  = map (fun m => fx b (row * s + m / kw)%nat (col * s + m mod kw)%nat k)
      (seq 0 (kh * kw)).
Proof.
  unfold window_cells. symmetry.
  apply (map_divmod_flat Qc
           (fun i j => fx b (row * s + i)%nat (col * s + j)%nat k) kh kw).
Qed.

Lemma window_cells_length (fx : nat -> nat -> nat -> nat -> Qc)
    (s kh kw b row col k : nat) :
  length (window_cells fx s kh kw b row col k) = (kh * kw)%nat.
Proof. rewrite window_cells_map. now rewrite length_map, length_seq. Qed.

Lemma window_cells_nth (fx : nat -> nat -> nat -> nat -> Qc)
    (s kh kw b row col k m : nat) :
  (m < kh * kw)%nat ->
  nth m (window_cells fx s kh kw b row col k) 0
  = fx b (row * s + m / kw)%nat (col * s + m mod kw)%nat k.
Proof.
  intros Hm. rewrite window_cells_map.
  exact (nth_map_seq
           (fun m => fx b (row * s + m / kw)%nat (col * s + m mod kw)%nat k)
           0 (kh * kw) m Hm).
Qed.

Lemma window_cells_nonempty (fx : nat -> nat -> nat -> nat -> Qc)
    (s kh kw b row col k : nat) :
  (0 < kh)%nat -> (0 < kw)%nat -> window_cells fx s kh kw b row col k <> [].
Proof.
  intros Hkh Hkw Hnil.
  pose proof (window_cells_length fx s kh kw b row col k) as Hlen.
  rewrite Hnil in Hlen. simpl in Hlen. nia.
Qed.

(** The position of cell [(i, j)] inside a window that covers it. *)
Lemma local_index (s kh kw row col i j : nat) :
  covers s kh kw row col i j = true ->
  let m := ((i - row * s) * kw + (j - col * s))%nat in
  (m < kh * kw)%nat /\ (row * s + m / kw = i)%nat /\ (col * s + m mod kw = j)%nat.
Proof.
  intros Hcov. apply covers_true in Hcov. destruct Hcov as [Hi Hj]. cbv zeta.
  assert (Hkw : (0 < kw)%nat) by lia.
  split; [apply flat_index_lt; lia|].
  rewrite Nat.div_add_l, Nat.div_small by lia.
  rewrite (Nat.add_comm ((i - row * s) * kw)), Nat.Div0.mod_add, Nat.mod_small by lia.
  lia.
Qed.

(** The one cell a window routes its gradient to. *)
Lemma is_argmax_cell_position (fx : nat -> nat -> nat -> nat -> Qc)
    (s kh kw b row col k i j : nat) :
  (0 < kh)%nat -> (0 < kw)%nat ->
  let m := argmax (window_cells fx s kh kw b row col k) in
  is_argmax_cell fx s kh kw b row col k i j = true
  <-> (i = row * s + m / kw)%nat /\ (j = col * s + m mod kw)%nat.
Proof.
  intros Hkh Hkw. cbv zeta.
  destruct (argmax_first (window_cells fx s kh kw b row col k)
              (window_cells_nonempty fx s kh kw b row col k Hkh Hkw)) as (Hm & _ & _).
  rewrite window_cells_length in Hm.
  unfold is_argmax_cell.
  remember (argmax (window_cells fx s kh kw b row col k)) as m eqn:Em. clear Em.
  rewrite andb_true_iff, Nat.eqb_eq. split.
  - intros [Hcov Heq]. destruct (local_index s kh kw row col i j Hcov) as (_ & Hi & Hj).
    rewrite Heq in Hi, Hj. lia.
  - intros [-> ->].
    assert (Hdiv : (m / kw < kh)%nat) by (apply Nat.Div0.div_lt_upper_bound; lia).
    assert (Hmod : (m mod kw < kw)%nat) by (apply Nat.mod_upper_bound; lia).
    split.
    + unfold covers. rewrite !andb_true_iff, !Nat.leb_le, !Nat.ltb_lt. lia.
    + replace (row * s + m / kw - row * s)%nat with (m / kw)%nat by lia.
      replace (col * s + m mod kw - col * s)%nat with (m mod kw)%nat by lia.
      rewrite (Nat.mul_comm (m / kw) kw). symmetry. apply Nat.div_mod_eq.
Qed.

(** ** Windows over the padding *)

Lemma padded_real (X : ndarray) (B H W C p q b i j k : nat) :
  shape X = [B; H; W; C] -> is_real H W p q i j = true ->
  padded X p q b i j k = get4 X b (i - p) (j - q) k.
Proof.
  intros Hs Hreal. unfold padded. rewrite Hs.
  unfold is_real in Hreal. now rewrite Hreal.
Qed.

Lemma padded_pad (X : ndarray) (B H W C p q b i j k : nat) :
  shape X = [B; H; W; C] -> is_real H W p q i j = false ->
  padded X p q b i j k = 0.
Proof.
  intros Hs Hreal. unfold padded. rewrite Hs.
  unfold is_real in Hreal. now rewrite Hreal.
Qed.

Lemma is_real_true (H W p q i j : nat) :
  is_real H W p q i j = true <-> (p <= i < p + H)%nat /\ (q <= j < q + W)%nat.
Proof.
  unfold is_real. rewrite !andb_true_iff, !Nat.leb_le, !Nat.ltb_lt. lia.
Qed.

Lemma covers_iff (s kh kw row col i j : nat) :
  covers s kh kw row col i j = true
  <-> (row * s <= i < row * s + kh)%nat /\ (col * s <= j < col * s + kw)%nat.
Proof.
  unfold covers. rewrite !andb_true_iff, !Nat.leb_le, !Nat.ltb_lt. lia.
Qed.

Section PaddedWindow.

Variables (X : ndarray) (B H W C kh kw s p q : nat) (b row col k : nat).
Hypothesis HsX : shape X = [B; H; W; C].
Hypothesis Hkh : (0 < kh)%nat.
Hypothesis Hkw : (0 < kw)%nat.

(** Every cell of the input that the window covers is negative, and the
    window has a cell in the padding. *)
Hypothesis Hneg :
  forall i j, (i < H)%nat -> (j < W)%nat ->
    covers s kh kw row col (i + p) (j + q) = true -> get4 X b i j k < 0.
Hypothesis Hpad :
  exists i j, covers s kh kw row col i j = true /\ is_real H W p q i j = false.

Let cells := window_cells (padded X p q) s kh kw b row col k.

Lemma padded_window_cell (n : nat) :
  (n < kh * kw)%nat ->
  (is_real H W p q (row * s + n / kw) (col * s + n mod kw) = true
   /\ nth n cells 0 < 0)
  \/ (is_real H W p q (row * s + n / kw) (col * s + n mod kw) = false
      /\ nth n cells 0 = 0).
Proof.
  intros Hn. unfold cells. rewrite window_cells_nth by exact Hn.
  assert (Hdiv : (n / kw < kh)%nat) by (apply Nat.Div0.div_lt_upper_bound; lia).
  assert (Hmod : (n mod kw < kw)%nat) by (apply Nat.mod_upper_bound; lia).
  destruct (is_real H W p q (row * s + n / kw) (col * s + n mod kw)) eqn:Hreal.
  - left. split; [reflexivity|].
    rewrite (padded_real X B H W C) by assumption.
    apply is_real_true in Hreal. apply Hneg; try lia.
    apply covers_iff. lia.
  - right. split; [reflexivity|]. now apply (padded_pad X B H W C).
Qed.

Lemma padded_window_has_zero :
  exists n, (n < kh * kw)%nat /\ nth n cells 0 = 0.
Proof.
  destruct Hpad as (i & j & Hcov & Hreal).
  destruct (local_index s kh kw row col i j Hcov) as (Hn & Hi & Hj).
  exists ((i - row * s) * kw + (j - col * s))%nat. split; [exact Hn|].
  unfold cells. rewrite window_cells_nth by exact Hn.
  rewrite Hi, Hj. now apply (padded_pad X B H W C).
Qed.

Lemma padded_window_max : max_at (padded X p q) s kh kw b row col k = 0.
Proof.
  unfold max_at. fold cells.
  pose proof (window_cells_length (padded X p q) s kh kw b row col k) as Hlen.
  fold cells in Hlen.
  destruct cells as [|x l] eqn:Ecells; [simpl in Hlen; nia|].
  destruct (max_list_spec l x) as (Hx & Hl & Hin).
  assert (Hge : forall n, (n < kh * kw)%nat -> nth n (x :: l) 0 <= max_list x l).
  { intros n Hn. destruct n as [|n]; [exact Hx|]. simpl. apply Hl.
    apply nth_In. simpl in Hlen. lia. }
  apply Qcle_antisym.
  - apply (In_nth _ _ 0) in Hin. destruct Hin as (n & Hn & <-).
    rewrite Hlen in Hn.
    destruct (padded_window_cell n Hn) as [[_ Hlt]|[_ Heq]].
    + rewrite Ecells in Hlt. now apply Qclt_le_weak.
    + rewrite Ecells in Heq. rewrite Heq. apply Qcle_refl.
  - destruct padded_window_has_zero as (n & Hn & Hz).
    rewrite Ecells in Hz. rewrite <- Hz. now apply Hge.
Qed.

Lemma padded_window_argmax :
  let m := argmax cells in
  is_real H W p q (row * s + m / kw) (col * s + m mod kw) = false.
Proof.
  intros m.
  destruct (argmax_first cells
              (window_cells_nonempty (padded X p q) s kh kw b row col k Hkh Hkw))
    as (Hm & Hmax & _).
  unfold cells in Hm at 2. rewrite window_cells_length in Hm.
  fold m in Hm, Hmax.
  destruct (padded_window_cell m Hm) as [[_ Hlt]|[Hreal _]]; [|exact Hreal].
  exfalso. destruct padded_window_has_zero as (n & Hn & Hz).
  assert (Hle : nth n cells 0 <= nth m cells 0).
  { apply Hmax. unfold cells. now rewrite window_cells_length. }
  rewrite Hz in Hle. exact (Qclt_not_le _ _ Hlt Hle).
Qed.

Lemma padded_window_routes_nothing (i j : nat) :
  (i < H)%nat -> (j < W)%nat ->
  is_argmax_cell (padded X p q) s kh kw b row col k (i + p) (j + q) = false.
Proof.
  intros Hi Hj.
  destruct (is_argmax_cell (padded X p q) s kh kw b row col k (i + p) (j + q)) eqn:E;
    [|reflexivity].
  apply (is_argmax_cell_position (padded X p q) s kh kw b row col k) in E;
    [|exact Hkh|exact Hkw].
  destruct E as [Ei Ej].
  pose proof padded_window_argmax as Hm. cbv zeta in Hm. fold cells in Ei, Ej.
  rewrite <- Ei, <- Ej in Hm.
  assert (Hreal : is_real H W p q (i + p) (j + q) = true)
    by (apply is_real_true; lia).
  congruence.
Qed.

End PaddedWindow.

(** ** Stepping through a method that may raise *)

Lemma bind_ok {A B : Type} (r : result A) (k : A -> result B) (b : B) :
  bind r k = Ok b -> exists a, r = Ok a /\ k a = Ok b.
Proof. destruct r as [a|e]; simpl; [eauto | discriminate]. Qed.

Lemma bind_raise {A B : Type} (r : result A) (k : A -> result B) (e : exn) :
  r = Raise e -> bind r k = Raise e.
Proof. intros ->. reflexivity. Qed.

Lemma dict_set_same_value {V : Type} (d : dict V) (k : string) (v : V) :
  dict_get d k = Some v -> dict_set d k v = d.
Proof.
  induction d as [|[k' v'] d IH]; simpl; [discriminate|].
  destruct (String.eqb k' k) eqn:E.
  - intros H. injection H as ->. reflexivity.
  - intros H. now rewrite IH.
Qed.

Lemma resolve_pad_pair (pad : pyval) (k0 k1 : result Z) (p : pyval) :
  resolve_pad pad k0 k1 = Ok p -> exists a b, p = PyTuple a b.
Proof.
  unfold resolve_pad.
  destruct (is_str pad "same").
  - destruct k0 as [a|]; [|discriminate]. destruct k1 as [b|]; [|discriminate].
    simpl. intros H. injection H as <-. eauto.
  - destruct (is_str pad "valid").
    + intros H. injection H as <-. eauto.
    + destruct pad; try discriminate. intros H. injection H as <-. eauto.
Qed.

Lemma resolve_pad_invalid (pad : pyval) (a b : Z) :
  is_str pad "same" = false -> is_str pad "valid" = false ->
  (forall p, pad <> PyInt p) ->
  resolve_pad pad (Ok a) (Ok b) = Raise (ValueError "invalid Pad mode found in self.pad.").
Proof.
  intros Hs Hv Hi. unfold resolve_pad. rewrite Hs, Hv.
  destruct pad; try reflexivity. exfalso. now apply (Hi z).
Qed.

Lemma shape_of_ints_row (n : Z) (sh : list nat) :
  shape_of_ints [1%Z; n] = Ok sh -> (0 <= n)%Z /\ sh = [1%nat; Z.to_nat n].
Proof.
  simpl. destruct (Z.ltb_spec n 0); [discriminate|].
  simpl. intros E. injection E as <-. split; [assumption | reflexivity].
Qed.

(** What [Conv2D._init_parameters] leaves behind when it returns. *)
Lemma Conv2D_init_parameters_ok (L L' : Conv2D) (X_shape : list nat) :
  Conv2D_init_parameters L X_shape = Ok L' ->
  exists c kh kw n W a b,
    nth_error X_shape 3 = Some c
    /\ kernel_shape L = PyTuple kh kw
    /\ n_out (base L) = PyInt n /\ (0 <= n)%Z
    /\ init_weights L [kh; kw; Z.of_nat c; n] = Ok W
    /\ resolve_pad (pad L) (Ok kh) (Ok kw) = Ok (PyTuple a b)
    /\ L' = with_pad
              (with_base L
                 {| activation := activation (base L); n_in := Some c;
                    n_out := n_out (base L);
                    parameters := [("W", W); ("b", np_zeros [1%nat; Z.to_nat n])];
                    cache := [("Z", Clist []); ("X", Clist [])];
                    gradients := [("W", np_zeros_like W);
                                  ("b", np_zeros_like (np_zeros [1%nat; Z.to_nat n]))] |})
              (PyTuple a b).
Proof.
  unfold Conv2D_init_parameters. intros H.
  destruct (nth_error X_shape 3) as [c|]; [|discriminate].
  apply bind_ok in H. destruct H as ([kh kw] & Ek & H).
  destruct (kernel_shape L) as [| | |kh' kw'] eqn:EK; try discriminate.
  injection Ek as -> ->.
  apply bind_ok in H. destruct H as (n & En & H).
  destruct (n_out (base L)) as [| |n'|] eqn:EN; try discriminate.
  injection En as ->.
  apply bind_ok in H. destruct H as (W & EW & H).
  apply bind_ok in H. destruct H as (bsh & Eb & H).
  apply shape_of_ints_row in Eb. destruct Eb as [Hn ->].
  apply bind_ok in H. destruct H as (p & Ep & H).
  destruct (resolve_pad_pair _ _ _ _ Ep) as (a & b & ->).
  injection H as <-.
  exists c, kh, kw, n, W, a, b. repeat split; assumption.
Qed.

(** ** How [Conv2D.forward] depends on the layer *)

Ltac next_step :=
  match goal with
  | |- context [bind ?r _] =>
      let a := fresh "a" in
      let e := fresh "e" in
      destruct r as [a|e]; cbn [bind]; [|reflexivity]
  end.

(** Two initialised layers that agree on parameters, activation, padding and
    stride compute the same array; each stores it in its own cache. *)
Lemma Conv2D_forward_frame (junk : nat -> Qc) (L1 L2 : Conv2D) (X : ndarray) :
  n_in (base L1) <> None -> n_in (base L2) <> None ->
  parameters (base L2) = parameters (base L1) ->
  activation (base L2) = activation (base L1) ->
  pad L2 = pad L1 -> stride L2 = stride L1 ->
  match Conv2D_forward junk L1 X with
  | Ok (L1', Y) =>
      exists Zf act,
        activation (base L1) = Some act /\ Y = act_forward act Zf
        /\ L1' = with_base L1 (set_cache (base L1)
                   (dict_set (dict_set (cache (base L1)) "Z" (Carr Zf)) "X" (Carr X)))
        /\ Conv2D_forward junk L2 X
           = Ok (with_base L2 (set_cache (base L2)
                   (dict_set (dict_set (cache (base L2)) "Z" (Carr Zf)) "X" (Carr X))), Y)
  | Raise e => Conv2D_forward junk L2 X = Raise e
  end.
Proof.
  intros H1 H2 Hp Ha Hpad Hs. unfold Conv2D_forward.
  destruct (n_in (base L1)); [|congruence].
  destruct (n_in (base L2)); [|congruence].
  cbn [bind]. rewrite Hp, Ha, Hpad, Hs.
  next_step. next_step. next_step. destruct a1 as [[[kh kw] ci] co]. cbn [bind].
  next_step. destruct a1 as [[[B H] W] C]. cbn [bind].
  next_step. next_step. next_step. next_step. next_step. next_step. next_step.
  next_step.
  destruct (activation (base L1)) as [act|]; cbn [call_activation bind];
    [|reflexivity].
  exists a8, act. repeat split.
Qed.

(** What a returning [Conv2D.forward] leaves behind. *)
Lemma Conv2D_forward_ok (junk : nat -> Qc) (L0 L' : Conv2D) (X Y : ndarray) :
  Conv2D_forward junk L0 X = Ok (L', Y) ->
  exists L Zf act,
    match n_in (base L0) with
    | None => Conv2D_init_parameters L0 (shape X)
    | Some _ => Ok L0
    end = Ok L
    /\ n_in (base L) <> None
    /\ Conv2D_forward junk L X = Ok (L', Y)
    /\ activation (base L) = Some act /\ Y = act_forward act Zf
    /\ L' = with_base L (set_cache (base L)
              (dict_set (dict_set (cache (base L)) "Z" (Carr Zf)) "X" (Carr X))).
Proof.
  intros H.
  assert (Hinit : exists L,
             match n_in (base L0) with
             | None => Conv2D_init_parameters L0 (shape X)
             | Some _ => Ok L0
             end = Ok L).
  { unfold Conv2D_forward in H. apply bind_ok in H. destruct H as (L & E & _). eauto. }
  destruct Hinit as (L & Hinit).
  assert (Hn : n_in (base L) <> None).
  { destruct (n_in (base L0)) eqn:E0.
    - injection Hinit as <-. congruence.
    - apply Conv2D_init_parameters_ok in Hinit.
      destruct Hinit as (c & kh & kw & n & W & a & b & _ & _ & _ & _ & _ & _ & ->).
      simpl. discriminate. }
  assert (HL : Conv2D_forward junk L X = Conv2D_forward junk L0 X).
  { unfold Conv2D_forward. rewrite Hinit.
    destruct (n_in (base L)); [reflexivity | congruence]. }
  rewrite H in HL.
  pose proof (Conv2D_forward_frame junk L L X Hn Hn eq_refl eq_refl eq_refl eq_refl)
    as Hf.
  rewrite HL in Hf. destruct Hf as (Zf & act & Hact & HY & HL' & _).
  exists L, Zf, act. repeat split; assumption.
Qed.

(** ** What [Pool2D.forward] leaves behind *)

Ltac unbind H :=
  let a := fresh "a" in
  let E := fresh "E" in
  apply bind_ok in H; destruct H as (a & E & H).

Ltac unbind_as H a E := apply bind_ok in H; destruct H as (a & E & H).

Lemma Pool2D_forward_ok (L L' : Pool2D) (X Y : ndarray) :
  Pool2D_forward L X = Ok (L', Y) ->
  L' = pool_with_base L (set_cache (pool_base L)
         (dict_set (cache (pool_base L)) "X" (Carr X))).
Proof.
  unfold Pool2D_forward. intros H.
  unbind H. destruct a as [[[B Hh] Ww] C].
  unbind H. destruct a as [kh kw].
  do 8 unbind H.
  injection H as <- _. reflexivity.
Qed.

Lemma Pool2D_init_ok (k m s p : pyval) (L : Pool2D) :
  Pool2D_init k m s p = Ok L ->
  pool_base L
  = {| activation := None; n_in := None; n_out := PyNone; parameters := [];
       cache := [("out_rows", Clist []); ("out_cols", Clist []);
                 ("X_pad", Clist []); ("p", Clist []); ("pool_shape", Clist [])];
       gradients := [] |}
  /\ pool_kernel_shape L = match k with PyInt z => PyTuple z z | _ => k end
  /\ pool_stride L = s /\ mode L = m
  /\ resolve_pad p
       (pair_item (match k with PyInt z => PyTuple z z | _ => k end) 0)
       (pair_item (match k with PyInt z => PyTuple z z | _ => k end) 1)
     = Ok (pool_pad L).
Proof.
  unfold Pool2D_init. intros H. unbind H. rewrite E.
  destruct (is_str m "max"); [|destruct (is_str m "average")];
    injection H as <-; repeat split.
Qed.

(** [Pool2D.forward] reads the kernel shape, the padding, the stride and the
    mode of the layer, and nothing else. *)
Lemma Pool2D_forward_frame (L1 L2 : Pool2D) (X : ndarray) :
  pool_kernel_shape L2 = pool_kernel_shape L1 -> pool_pad L2 = pool_pad L1 ->
  pool_stride L2 = pool_stride L1 -> mode L2 = mode L1 ->
  match Pool2D_forward L1 X with
  | Ok (_, Y) =>
      Pool2D_forward L2 X
      = Ok (pool_with_base L2 (set_cache (pool_base L2)
              (dict_set (cache (pool_base L2)) "X" (Carr X))), Y)
  | Raise e => Pool2D_forward L2 X = Raise e
  end.
Proof.
  intros Hk Hp Hs Hm. unfold Pool2D_forward. rewrite Hk, Hp, Hs, Hm.
  next_step. destruct a as [[[B H] W] C]. cbn [bind].
  next_step. destruct a as [kh kw]. cbn [bind].
  do 8 next_step. reflexivity.
Qed.

(** ** Reshaping with one inferred axis *)

Lemma np_reshape_first_eq (A : ndarray) (n m : nat) :
  n <> 0%nat -> size (shape A) = (n * m)%nat ->
  np_reshape A [Z.of_nat n; (-1)%Z] = Ok {| shape := [n; m]; data := data A; dtype := dtype A |}.
Proof.
  intros Hn Hs. unfold np_reshape. rewrite Hs. simpl.
  destruct (Z.ltb_spec (Z.of_nat n) (-1)); [lia|]. simpl.
  destruct (Z.eq_dec (Z.of_nat n) (-1)); [lia|].
  destruct (Z.eqb_spec (Z.of_nat n) (-1)); [lia|].
  rewrite Z.mul_1_r.
  destruct (Z.eqb_spec (Z.of_nat n) 0); [lia|].
  rewrite Nat2Z.inj_mul, (Z.mul_comm (Z.of_nat n)), Z.mod_mul, Z.div_mul by lia.
  simpl. rewrite !Nat2Z.id. reflexivity.
Qed.

Lemma np_reshape_last_eq (A : ndarray) (n m : nat) :
  n <> 0%nat -> size (shape A) = (m * n)%nat ->
  np_reshape A [(-1)%Z; Z.of_nat n] = Ok {| shape := [m; n]; data := data A; dtype := dtype A |}.
Proof.
  intros Hn Hs. unfold np_reshape. rewrite Hs. simpl.
  destruct (Z.ltb_spec (Z.of_nat n) (-1)); [lia|]. simpl.
  destruct (Z.eq_dec (Z.of_nat n) (-1)); [lia|].
  destruct (Z.eqb_spec (Z.of_nat n) (-1)); [lia|].
  rewrite Z.mul_1_r.
  destruct (Z.eqb_spec (Z.of_nat n) 0); [lia|].
  rewrite Nat2Z.inj_mul, Z.mod_mul, Z.div_mul by lia.
  simpl. rewrite !Nat2Z.id. reflexivity.
Qed.

Lemma np_reshape_zero_axis (A : ndarray) :
  np_reshape A [0%Z; (-1)%Z] = Raise (ValueError "cannot reshape array")
  /\ np_reshape A [(-1)%Z; 0%Z] = Raise (ValueError "cannot reshape array").
Proof. split; reflexivity. Qed.

Lemma size_app (l1 l2 : list nat) : size (l1 ++ l2) = (size l1 * size l2)%nat.
Proof.
  induction l1 as [|a l1 IH]; simpl; [lia|]. rewrite IH. lia.
Qed.

(** ** Loops whose body does nothing, or cannot run *)

Lemma for_each_noop (S I : Type) (body : S -> I -> result S) (l : list I) (s : S) :
  (forall s' i, In i l -> body s' i = Ok s') -> for_each l body s = Ok s.
Proof.
  induction l as [|i l IH]; intros H; [reflexivity|]. simpl.
  rewrite H by (left; reflexivity). simpl. apply IH.
  intros s' i' Hi. apply H. now right.
Qed.

Lemma Pool2D_forward_step_unbound (X_pad A : ndarray) (s kh kw : Z) (row col : nat) :
  raises (Pool2D_forward_step X_pad None s kh kw row col A).
Proof.
  unfold Pool2D_forward_step, window, slice_hw.
  destruct (shape X_pad) as [|B [|H [|W [|C [|]]]]]; eexists; reflexivity.
Qed.

Lemma Pool2D_forward_step_unbound_eq (X_pad A : ndarray) (s kh kw : Z) (row col : nat)
    (B H W C : nat) :
  shape X_pad = [B; H; W; C] ->
  Pool2D_forward_step X_pad None s kh kw row col A = Raise (UnboundLocalError "pool_fn").
Proof.
  unfold Pool2D_forward_step, window, slice_hw. intros ->. reflexivity.
Qed.

Lemma Pool2D_forward_loops_unbound (X_pad A A' : ndarray) (s kh kw : Z) (oh ow : nat) :
  for_each (seq 0 oh) (fun A row =>
    for_each (seq 0 ow) (fun A col =>
      Pool2D_forward_step X_pad None s kh kw row col A) A) A = Ok A' ->
  (oh = 0 \/ ow = 0)%nat /\ A' = A.
Proof.
  destruct oh as [|oh]; [simpl; intros H; injection H as <-; auto|].
  destruct ow as [|ow].
  - rewrite for_each_noop by reflexivity. intros H; injection H as <-; auto.
  - cbn [seq for_each].
    destruct (Pool2D_forward_step_unbound X_pad A s kh kw 0 0) as [e ->].
    discriminate.
Qed.

(** ** Padding "same" *)

Lemma out_size_stride_one (n : nat) (p k : Z) :
  out_size n p k 1 = Ok (Z.of_nat n + 2 * p - k + 1)%Z.
Proof.
  rewrite out_size_quot by lia. now rewrite Z.quot_1_r.
Qed.

Lemma same_pad_extent (k n : nat) :
  (0 < k)%nat -> (0 < n)%nat ->
  (Z.of_nat n + 2 * Z.of_nat ((k - 1) / 2) - Z.of_nat k + 1)%Z
  = Z.of_nat (if Nat.odd k then n else (n - 1)%nat).
Proof.
  intros Hk Hn.
  pose proof (Nat.div_mod_eq (k - 1) 2) as Hd.
  pose proof (Nat.mod_upper_bound (k - 1) 2 ltac:(lia)) as Hm.
  destruct (Nat.odd k) eqn:Eo.
  - apply Nat.odd_spec in Eo. destruct Eo as [a ->].
    replace (2 * a + 1 - 1)%nat with (a * 2)%nat by lia.
    rewrite Nat.div_mul by lia. lia.
  - rewrite <- Nat.negb_even in Eo. apply negb_false_iff, Nat.even_spec in Eo.
    destruct Eo as [a ->]. destruct a as [|a]; [lia|].
    replace (2 * S a - 1)%nat with (1 + a * 2)%nat by lia.
    rewrite Nat.div_add by lia. simpl (1 / 2)%nat. lia.
Qed.

(** ** Arrays of rank 2 among the arrays of any rank *)

Lemma item2 (A : ndarray) (n0 n1 i j : nat) :
  shape A = [n0; n1] -> item A [i; j] = get2 A i j.
Proof.
  intros Hs. unfold item, get2. rewrite Hs. cbn [ravel size fold_right].
  f_equal. lia.
Qed.

Lemma is2_tabulate (d : kind) (n0 n1 : nat) (f : list nat -> Qc)
    (g : nat -> nat -> Qc) :
  (forall i j, (i < n0)%nat -> (j < n1)%nat -> f [i; j] = g i j) ->
  is2 (tabulate d [n0; n1] f) n0 n1 g.
Proof.
  intros H. split; [reflexivity|]. intros i j Hi Hj.
  unfold get2, tabulate. cbn [shape data size fold_right].
  rewrite nth_map_seq by nia.
  cbn [unravel size fold_right]. rewrite !Nat.mul_1_r, Nat.div_1_r.
  rewrite Nat.div_add_l, Nat.div_small, Nat.add_0_r by lia.
  rewrite Nat.add_comm, Nat.Div0.mod_add, Nat.mod_small by lia.
  now apply H.
Qed.

Lemma np_matmul_is2 (A B : ndarray) (n k m : nat) (fa fb : nat -> nat -> Qc) :
  is2 A n k fa -> is2 B k m fb ->
  exists R, np_matmul A B = Ok R
            /\ is2 R n m (fun i j => sum_n k (fun l => fa i l * fb l j)).
Proof.
  intros [HsA HA] [HsB HB]. unfold np_matmul. rewrite HsA, HsB.
  cbn [length Nat.eqb split_last2 Nat.sub firstn nth negb].
  rewrite Nat.eqb_refl.
  cbn [negb broadcast_shapes rev app broadcast_rev bind length].
  eexists. split; [reflexivity|].
  apply (is2_tabulate _ n m). intros i j Hi Hj.
  cbn [firstn nth operand_index combine map app].
  apply sum_n_ext. intros l Hl.
  rewrite (item2 _ n k), (item2 _ k m) by reflexivity.
  unfold get2 at 1 2. cbn [shape data].
  pose proof (HA i l Hi Hl) as Ea. pose proof (HB l j Hl Hj) as Eb.
  unfold get2 in Ea, Eb. rewrite HsA in Ea. rewrite HsB in Eb.
  now rewrite Ea, Eb.
Qed.

Lemma np_matmul_mismatch (A B : ndarray) (n k k' m : nat) :
  shape A = [n; k] -> shape B = [k'; m] -> k <> k' ->
  np_matmul A B
  = Raise (ValueError "matmul: Input operand 1 has a mismatch in its core dimension 0").
Proof.
  intros HsA HsB Hk. unfold np_matmul. rewrite HsA, HsB.
  cbn [length Nat.eqb split_last2 Nat.sub firstn nth negb].
  destruct (Nat.eqb_spec k k') as [E|_]; [contradiction | reflexivity].
Qed.

Lemma np_T_is2 (A : ndarray) (n m : nat) (f : nat -> nat -> Qc) :
  is2 A n m f -> is2 (np_T A) m n (fun i j => f j i).
Proof.
  intros [Hs Hf]. unfold np_T. rewrite Hs. cbn [rev app].
  apply is2_tabulate. intros i j Hi Hj. cbn [rev app].
  rewrite (item2 A n m) by exact Hs. now apply Hf.
Qed.

Lemma np_add_row_is2 (A b : ndarray) (n m : nat) (fa fb : nat -> nat -> Qc) :
  is2 A n m fa -> is2 b 1 m fb ->
  exists R, np_add A b = Ok R /\ is2 R n m (fun i j => fa i j + fb 0%nat j).
Proof.
  intros [HsA HA] [Hsb Hb]. unfold np_add, broadcast, broadcast_shapes.
  rewrite HsA, Hsb. cbn [rev app broadcast_rev].
  assert (E1 : bdim m m = Ok m) by (unfold bdim; now rewrite Nat.eqb_refl).
  assert (E2 : bdim n 1 = Ok n).
  { unfold bdim. destruct (Nat.eqb_spec n 1) as [->|]; reflexivity. }
  rewrite E1, E2. cbn [bind rev app].
  eexists. split; [reflexivity|].
  apply is2_tabulate. intros i j Hi Hj.
  cbn [operand_index length Nat.sub skipn combine map fst snd].
  rewrite (item2 A n m), (item2 b 1 m) by assumption.
  cbn [bidx Nat.eqb].
  assert (Ei : bidx n i = i).
  { unfold bidx. destruct (Nat.eqb_spec n 1); [lia | reflexivity]. }
  assert (Ej : bidx m j = j).
  { unfold bidx. destruct (Nat.eqb_spec m 1); [lia | reflexivity]. }
  rewrite Ei, Ej, HA, Hb by (assumption || lia). reflexivity.
Qed.

Lemma np_sum_0_keepdims_is2 (A : ndarray) (n m : nat) (f : nat -> nat -> Qc) :
  is2 A n m f ->
  exists R, np_sum_0_keepdims A = Ok R
            /\ is2 R 1 m (fun _ j => sum_n n (fun i => f i j)).
Proof.
  intros [Hs Hf]. unfold np_sum_0_keepdims. rewrite Hs.
  eexists. split; [reflexivity|].
  apply is2_tabulate. intros i j Hi Hj. cbn [tl].
  apply sum_n_ext. intros l Hl.
  rewrite (item2 A n m) by exact Hs. now apply Hf.
Qed.

(** ** What the methods of [FullyConnected] leave behind *)

Lemma FullyConnected_init_parameters_ok (L L' : FullyConnected) (X_shape : list nat) :
  FullyConnected_init_parameters L X_shape = Ok L' ->
  exists c n W,
    nth_error X_shape 1 = Some c
    /\ n_out (fc_base L) = PyInt n /\ (0 <= n)%Z
    /\ fc_init_weights L [Z.of_nat c; n] = Ok W
    /\ L' = fc_with_base L
              {| activation := activation (fc_base L); n_in := Some c;
                 n_out := n_out (fc_base L);
                 parameters := [("W", W); ("b", np_zeros [1%nat; Z.to_nat n])];
                 cache := [("Z", Clist []); ("X", Clist [])];
                 gradients := [("W", np_zeros_like W);
                               ("b", np_zeros_like (np_zeros [1%nat; Z.to_nat n]))] |}.
Proof.
  unfold FullyConnected_init_parameters. intros H.
  destruct (nth_error X_shape 1) as [c|]; [|discriminate].
  unbind_as H n En.
  destruct (n_out (fc_base L)) as [| |n'|] eqn:EN; try discriminate.
  injection En as ->.
  unbind_as H W EW. unbind_as H bsh Eb.
  apply shape_of_ints_row in Eb. destruct Eb as [Hn ->].
  injection H as <-.
  exists c, n, W. repeat split; assumption.
Qed.

Lemma FullyConnected_forward_ok (L0 L' : FullyConnected) (X Y : ndarray) :
  FullyConnected_forward L0 X = Ok (L', Y) ->
  exists L Wt bt XW Zf act,
    match n_in (fc_base L0) with
    | None => FullyConnected_init_parameters L0 (shape X)
    | Some _ => Ok L0
    end = Ok L
    /\ dict_get (parameters (fc_base L)) "W" = Some Wt
    /\ dict_get (parameters (fc_base L)) "b" = Some bt
    /\ np_matmul X Wt = Ok XW /\ np_add XW bt = Ok Zf
    /\ activation (fc_base L) = Some act /\ Y = act_forward act Zf
    /\ L' = fc_with_base L (set_cache (fc_base L)
              (dict_set (dict_set (cache (fc_base L)) "Z" (Carr Zf)) "X" (Carr X))).
Proof.
  unfold FullyConnected_forward, dict_item. intros H.
  unbind_as H L EL. unbind_as H Wt EW. unbind_as H bt Eb.
  unbind_as H XW EXW. unbind_as H Zf EZ. unbind_as H act Eact.
  destruct (dict_get (parameters (fc_base L)) "W") as [W'|] eqn:HW; [|discriminate].
  destruct (dict_get (parameters (fc_base L)) "b") as [b'|] eqn:Hb; [|discriminate].
  destruct (activation (fc_base L)) as [act'|] eqn:Hact; [|discriminate].
  injection EW as ->. injection Eb as ->. injection Eact as ->.
  injection H as <- <-.
  exists L, Wt, bt, XW, Zf, act. repeat split; assumption.
Qed.

Lemma FullyConnected_backward_ok (L L' : FullyConnected) (dLdY dX : ndarray) :
  FullyConnected_backward L dLdY = Ok (L', dX) ->
  exists dW dB,
    L' = fc_with_base L (set_gradients (fc_base L)
           (dict_set (dict_set (gradients (fc_base L)) "W" dW) "b" dB))
    /\ forall g,
         FullyConnected_backward (fc_with_base L (set_gradients (fc_base L) g)) dLdY
         = Ok (fc_with_base L (set_gradients (fc_base L)
                 (dict_set (dict_set g "W" dW) "b" dB)), dX).
Proof.
  unfold FullyConnected_backward. intros H.
  unbind_as H Wt EW. unbind_as H bt Eb. unbind_as H Xv EX. unbind_as H Zv EZ.
  unbind_as H act Eact. unbind_as H Zc EZc. unbind_as H dX' EdX.
  unbind_as H X EXa. unbind_as H dW EdW. unbind_as H dB EdB.
  injection H as <- <-.
  exists dW, dB. split; [reflexivity|]. intros g.
  cbn [fc_with_base fc_base set_gradients parameters cache activation gradients].
  rewrite EW, Eb, EX, EZ. cbn [bind]. rewrite Eact. cbn [bind].
  rewrite EZc. cbn [bind]. rewrite EdX. cbn [bind]. rewrite EXa. cbn [bind].
  rewrite EdW. cbn [bind]. rewrite EdB. reflexivity.
Qed.

Lemma dict_set_twice {V : Type} (d : dict V) (k1 k2 : string) (v1 v2 : V) :
  k1 <> k2 ->
  dict_set (dict_set (dict_set (dict_set d k1 v1) k2 v2) k1 v1) k2 v2
  = dict_set (dict_set d k1 v1) k2 v2.
Proof.
  intros Hk.
  rewrite (dict_set_same_value (dict_set (dict_set d k1 v1) k2 v2) k1 v1).
  - apply dict_set_same_value, dict_get_set_same.
  - rewrite dict_get_set_other by congruence. apply dict_get_set_same.
Qed.

Lemma Conv2D_backward_ok (L L' : Conv2D) (dLdY dX : ndarray) :
  Conv2D_backward L dLdY = Ok (L', dX) ->
  exists dW dB,
    L' = with_base L (set_gradients (base L)
           (dict_set (dict_set (gradients (base L)) "W" dW) "b" dB))
    /\ forall g,
         Conv2D_backward (with_base L (set_gradients (base L) g)) dLdY
         = Ok (with_base L (set_gradients (base L)
                 (dict_set (dict_set g "W" dW) "b" dB)), dX).
Proof.
  unfold Conv2D_backward. intros H.
  unbind_as H Wt EW. unbind_as H bt Eb. unbind_as H X EX. unbind_as H Zc EZ.
  unbind_as H act Eact.
  unbind_as H shX EsX. destruct shX as [[[B Hh] Ww] C].
  unbind_as H shW EsW. destruct shW as [[[kh kw] ci] co].
  unbind_as H p0 Ep0. unbind_as H s Es. unbind_as H oh Eoh.
  unbind_as H p1 Ep1. unbind_as H ow Eow. unbind_as H X_pad Epad.
  unbind_as H sums Esums. unbind_as H dB EdB.
  unbind_as H st Est. destruct st as [dX_pad dW].
  unbind_as H dX' EdX. injection H as <- <-.
  exists dW, dB. split; [reflexivity|]. intros g.
  cbn [with_base base set_gradients parameters cache activation gradients pad stride].
  rewrite EW, Eb, EX, EZ. cbn [bind]. rewrite Eact. cbn [bind].
  rewrite EsX. cbn [bind]. rewrite EsW. cbn [bind].
  rewrite Ep0. cbn [bind]. rewrite Es. cbn [bind]. rewrite Eoh. cbn [bind].
  rewrite Ep1. cbn [bind]. rewrite Eow. cbn [bind]. rewrite Epad. cbn [bind].
  rewrite Esums. cbn [bind]. rewrite EdB. cbn [bind]. rewrite Est. cbn [bind].
  rewrite EdX. reflexivity.
Qed.
(** ** Closed forms of the two passes of the convolution *)

Lemma is2_get2 (A : ndarray) (n0 n1 : nat) :
  shape A = [n0; n1] -> is2 A n0 n1 (get2 A).
Proof. intros H. split; [exact H | reflexivity]. Qed.

Lemma is4_junk (junk : nat -> Qc) (d : kind) (n0 n1 n2 n3 : nat) :
  exists Z0,
    np_empty junk d [Z.of_nat n0; Z.of_nat n1; Z.of_nat n2; Z.of_nat n3] = Ok Z0
    /\ is4 Z0 n0 n1 n2 n3 (get4 Z0)
    /\ dtype Z0 = d.
Proof.
  unfold np_empty.
  change [Z.of_nat n0; Z.of_nat n1; Z.of_nat n2; Z.of_nat n3]
    with (map Z.of_nat [n0; n1; n2; n3]).
  rewrite shape_of_ints_nats. cbn [bind].
  eexists. split; [reflexivity|]. split; [now apply is4_get4 | reflexivity].
Qed.

Lemma Conv2D_forward_closed
    (junk : nat -> Qc) (L0 L : Conv2D) (X Wt bt : ndarray) (act : Activation)
    (B H Wd C kh kw Co oh ow s p q : nat) :
  match n_in (base L0) with
  | None => Conv2D_init_parameters L0 (shape X)
  | Some _ => Ok L0
  end = Ok L ->
  activation (base L) = Some act ->
  dict_get (parameters (base L)) "W" = Some Wt ->
  dict_get (parameters (base L)) "b" = Some bt ->
  shape Wt = [kh; kw; C; Co] ->
  shape bt = [1; Co]%nat ->
  shape X = [B; H; Wd; C] ->
  pad L = PyTuple (Z.of_nat p) (Z.of_nat q) ->
  stride L = PyInt (Z.of_nat s) ->
  (0 < s)%nat ->
  out_size H (Z.of_nat p) (Z.of_nat kh) (Z.of_nat s) = Ok (Z.of_nat oh) ->
  out_size Wd (Z.of_nat q) (Z.of_nat kw) (Z.of_nat s) = Ok (Z.of_nat ow) ->
  exists Zf,
    Conv2D_forward junk L0 X
    = Ok (with_base L (set_cache (base L)
            (dict_set (dict_set (cache (base L)) "Z" (Carr Zf)) "X" (Carr X))),
          act_forward act Zf)
    /\ is4 Zf B oh ow Co
         (fun b row col ch =>
            astype (dtype X)
              (conv_at (padded X p q) (get4 Wt) kh kw C s b row col ch
               + get2 bt 0%nat ch))
    /\ dtype Zf = dtype X.
Proof.
  intros Hinit Hact HW Hb HsW Hsb HsX Hpad Hstride Hs Hoh How.
  unfold Conv2D_forward. rewrite Hinit. cbn [bind].
  unfold dict_item. rewrite HW, Hb. cbn [bind].
  rewrite HsW, HsX. cbn [unpack4 bind].
  rewrite Hpad, Hstride. cbn [pair_item as_int bind Nat.eqb].
  rewrite Hoh, How. cbn [bind].
  destruct (np_pad_is4 X B H Wd C p q HsX) as (padX & Epad & HpadX).
  rewrite Epad. cbn [bind].
  destruct (is4_junk junk (dtype X) B oh ow Co) as (Z0 & EZ0 & HZ0 & HdZ0).
  rewrite EZ0. cbn [bind].
  unfold range. rewrite !Nat2Z.id.
  destruct (Conv2D_forward_loops padX Wt bt Z0 B (H + 2 * p) (Wd + 2 * q) C kh kw Co
              oh ow s (padded X p q) (get4 Wt) (get4 Z0) (get2 bt)
              HpadX (is4_get4 Wt _ _ _ _ HsW) (is2_get2 bt _ _ Hsb) HZ0)
    as (Zf & EZf & HZf & HdZf).
  - intros row Hrow.
    pose proof (out_size_window H (Z.of_nat p) (Z.of_nat kh) (Z.of_nat s) oh row
                  ltac:(lia) Hoh Hrow). lia.
  - intros col Hcol.
    pose proof (out_size_window Wd (Z.of_nat q) (Z.of_nat kw) (Z.of_nat s) ow col
                  ltac:(lia) How Hcol). lia.
  - rewrite EZf. cbn [bind]. rewrite Hact. cbn [call_activation bind].
    exists Zf. split; [reflexivity|]. rewrite HdZ0 in HZf, HdZf.
    split; [exact HZf | exact HdZf].
Qed.

Lemma Conv2D_backward_closed
    (L : Conv2D) (X Zc Wt bt dLdY : ndarray) (act : Activation)
    (B H Wd C kh kw Co oh ow s p q : nat) :
  activation (base L) = Some act ->
  dict_get (parameters (base L)) "W" = Some Wt ->
  dict_get (parameters (base L)) "b" = Some bt ->
  dict_get (cache (base L)) "X" = Some (Carr X) ->
  dict_get (cache (base L)) "Z" = Some (Carr Zc) ->
  shape Wt = [kh; kw; C; Co] ->
  shape X = [B; H; Wd; C] ->
  shape (act_backward act Zc dLdY) = [B; oh; ow; Co] ->
  pad L = PyTuple (Z.of_nat p) (Z.of_nat q) ->
  stride L = PyInt (Z.of_nat s) ->
  (0 < s)%nat ->
  out_size H (Z.of_nat p) (Z.of_nat kh) (Z.of_nat s) = Ok (Z.of_nat oh) ->
  out_size Wd (Z.of_nat q) (Z.of_nat kw) (Z.of_nat s) = Ok (Z.of_nat ow) ->
  can_cast (result_type (dtype Wt) (dtype (act_backward act Zc dLdY))) (dtype X)
    = true ->
  can_cast (result_type (dtype X) (dtype (act_backward act Zc dLdY))) (dtype Wt)
    = true ->
  let dZ := act_backward act Zc dLdY in
  exists dX dW dB,
    Conv2D_backward L dLdY
    = Ok (with_base L (set_gradients (base L)
            (dict_set (dict_set (gradients (base L)) "W" dW) "b" dB)), dX)
    /\ is4 dX B H Wd C
         (fun b i j k =>
            sum_n oh (fun row => sum_n ow (fun col => sum_n Co (fun ch =>
              if covers s kh kw row col (i + p) (j + q)
              then get4 Wt (i + p - row * s)%nat (j + q - col * s)%nat k ch
                   * get4 dZ b row col ch
              else 0))))
    /\ is4 dW kh kw C Co
         (fun i j k ch =>
            sum_n oh (fun row => sum_n ow (fun col => sum_n B (fun b =>
              padded X p q b (row * s + i)%nat (col * s + j)%nat k
              * get4 dZ b row col ch))))
    /\ is2 dB 1 Co
         (fun _ ch =>
            sum_n B (fun b => sum_n oh (fun row => sum_n ow (fun col =>
              get4 dZ b row col ch))))
    /\ dtype dX = dtype X /\ dtype dW = dtype Wt.
Proof.
  intros Hact HW Hb HX HZ HsW HsX HsdZ Hpad Hstride Hs Hoh How HcX HcW dZ.
  unfold Conv2D_backward, cache_array, dict_item.
  rewrite HW, Hb, HX, HZ. cbn [bind]. rewrite Hact. cbn [activation_backward bind].
  fold dZ. rewrite HsX, HsW. cbn [unpack4 bind].
  rewrite Hpad, Hstride. cbn [pair_item as_int bind Nat.eqb].
  rewrite Hoh, How. cbn [bind].
  destruct (np_pad_is4 X B H Wd C p q HsX) as (X_pad & Epad & HXpad).
  rewrite Epad. cbn [bind].
  pose proof (is4_get4 dZ _ _ _ _ HsdZ) as HdZ.
  destruct (np_sum_012_is1 dZ B oh ow Co _ HdZ) as (sums & Esums & Hsums).
  rewrite Esums. cbn [bind].
  destruct (np_reshape_row_is2 sums Co _ Hsums) as (dB & EdB & HdB).
  rewrite EdB. cbn [bind].
  unfold range. rewrite !Nat2Z.id.
  assert (HdX0 : is4 (np_zeros_like X_pad) B (H + 2 * p) (Wd + 2 * q) C
                   (fun _ _ _ _ => 0)).
  { apply is4_zeros_like. exact (proj1 HXpad). }
  assert (HdW0 : is4 (np_zeros_like Wt) kh kw C Co (fun _ _ _ _ => 0)).
  { apply is4_zeros_like. exact HsW. }
  pose proof (np_pad_dtype _ _ _ _ Epad) as HdXpad.
  destruct (Conv2D_backward_loops X_pad Wt dZ (np_zeros_like X_pad) (np_zeros_like Wt)
              B (H + 2 * p) (Wd + 2 * q) C kh kw Co oh ow s
              (padded X p q) (get4 Wt) (get4 dZ)
              HXpad (is4_get4 Wt _ _ _ _ HsW) HdZ HdX0 HdW0
              ltac:(cbn [np_zeros_like dtype]; rewrite HdXpad; exact HcX)
              ltac:(cbn [np_zeros_like dtype]; rewrite HdXpad; exact HcW))
    as (dXp & dW & Eloop & HdXp & HdW & HkX & HkW).
  - intros row Hrow.
    pose proof (out_size_window H (Z.of_nat p) (Z.of_nat kh) (Z.of_nat s) oh row
                  ltac:(lia) Hoh Hrow). lia.
  - intros col Hcol.
    pose proof (out_size_window Wd (Z.of_nat q) (Z.of_nat kw) (Z.of_nat s) ow col
                  ltac:(lia) How Hcol). lia.
  - rewrite Eloop. cbn [bind].
    destruct (slice_hw_is4 dXp B (H + 2 * p) (Wd + 2 * q) C _
                (Z.of_nat p) (Z.of_nat H + Z.of_nat p)
                (Z.of_nat q) (Z.of_nat Wd + Z.of_nat q) p H q Wd HdXp
                ltac:(lia) ltac:(lia) ltac:(lia) ltac:(lia) ltac:(lia) ltac:(lia))
      as (dX & EdX & HdX).
    rewrite EdX. cbn [bind].
    exists dX, dW, dB. split; [reflexivity|].
    split; [|split; [exact HdW|split; [exact HdB|split]]].
    + eapply is4_ext; [exact HdX|]. intros b i j k Hb' Hi Hj Hk. cbv beta.
      rewrite (Nat.add_comm p i), (Nat.add_comm q j). reflexivity.
    + rewrite (slice_hw_dtype _ _ _ _ _ _ EdX), HkX. cbn [np_zeros_like dtype].
      exact HdXpad.
    + rewrite HkW. reflexivity.
Qed.
(** * Layer factory *)

(** C7 (the code at every unknown tag).  For a name tag that is none of
    "fully_connected", "conv2d", "pool2d", "flatten", the [else] branch
    evaluates [raise NotimplementedError(...)].  The name is misspelt (the
    builtin is [NotImplementedError]) and is bound nowhere in the module, so
    what the call raises is the [NameError] of looking that name up, before
    any exception object is built: the configuration error the statement was
    written to raise is never raised.  The call still fails fast, returning
    neither a layer nor [None]. *)
Theorem initialize_layer_unknown_name
    (ia : pyval -> result Activation)
    (iw : pyval -> pyval -> result (list Z -> result ndarray))
    (name act weight_init n kernel s p m keep : pyval) :
  ~ In name (map PyStr ["fully_connected"; "conv2d"; "pool2d"; "flatten"]) ->
  initialize_layer ia iw name act weight_init n kernel s p m keep
    = Raise (NameError "NotimplementedError")
  /\ raises (initialize_layer ia iw name act weight_init n kernel s p m keep)
  /\ ~ returns (initialize_layer ia iw name act weight_init n kernel s p m keep).
Proof.
  intros Hname.
  assert (E : initialize_layer ia iw name act weight_init n kernel s p m keep
              = Raise (NameError "NotimplementedError")).
  { unfold initialize_layer.
    assert (Hs : forall t, In t ["fully_connected"; "conv2d"; "pool2d"; "flatten"] ->
                           is_str name t = false).
    { intros t Ht. destruct name as [|t'|z|a b]; try reflexivity.
      simpl. destruct (String.eqb_spec t' t) as [->|]; [|reflexivity].
      exfalso. apply Hname. now apply in_map. }
    rewrite !Hs by (simpl; auto 6). reflexivity. }
  split; [exact E|]. split.
  - eexists. exact E.
  - intros [l Hl]. rewrite E in Hl. discriminate.
Qed.

Lemma initialize_layer_unknown_name_witness :
  ~ In (PyStr "dropout") (map PyStr ["fully_connected"; "conv2d"; "pool2d"; "flatten"])
  /\ initialize_layer no_activation no_weights (PyStr "dropout")
       PyNone PyNone PyNone PyNone PyNone PyNone PyNone (PyStr "first")
     = Raise (NameError "NotimplementedError").
Proof.
  assert (H : ~ In (PyStr "dropout")
                (map PyStr ["fully_connected"; "conv2d"; "pool2d"; "flatten"])).
  { simpl. intros [H|[H|[H|[H|[]]]]]; discriminate H. }
  split; [exact H|].
  exact (proj1 (initialize_layer_unknown_name no_activation no_weights (PyStr "dropout")
                  PyNone PyNone PyNone PyNone PyNone PyNone PyNone (PyStr "first") H)).
Defined.

(** A known tag constructs the layer of that kind. *)
Example initialize_layer_flatten :
  initialize_layer no_activation no_weights (PyStr "flatten")
    PyNone PyNone PyNone PyNone PyNone PyNone PyNone (PyStr "first")
  = Ok (IsFlatten (Flatten_init (PyStr "first"))).
Proof. reflexivity. Qed.

(** * Clearing gradients *)

(** C9.  [clear_gradients] maps every cache key to the empty list and every
    gradient to zeros of the same shape, keeps the keys and their order, and
    leaves the parameters (and the rest of the layer) as they were. *)
Theorem clear_gradients_frame (L : Layer) :
  NoDup (keys (cache L)) -> NoDup (keys (gradients L)) ->
  let L' := clear_gradients L in
  parameters L' = parameters L
  /\ activation L' = activation L /\ n_in L' = n_in L /\ n_out L' = n_out L
  /\ cache L' = map (fun ab => (fst ab, Clist [])) (cache L)
  /\ gradients L' = map (fun ab => (fst ab, np_zeros_like (snd ab))) (gradients L)
  /\ keys (cache L') = keys (cache L)
  /\ keys (gradients L') = keys (gradients L)
  /\ (forall k v, dict_get (cache L) k = Some v ->
        dict_get (cache L') k = Some (Clist []))
  /\ (forall k G, dict_get (gradients L) k = Some G ->
        exists G', dict_get (gradients L') k = Some G'
                   /\ shape G' = shape G
                   /\ wf G'
                   /\ Forall (fun x => x = 0) (data G')).
Proof.
  intros Hc Hg L'.
  assert (Ec : cache L' = map (fun ab => (fst ab, Clist [])) (cache L)).
  { unfold L', clear_gradients; simpl. now apply dict_comp_map. }
  assert (Eg : gradients L'
               = map (fun ab => (fst ab, np_zeros_like (snd ab))) (gradients L)).
  { unfold L', clear_gradients; simpl. now apply dict_comp_map. }
  repeat split; try reflexivity; try assumption.
  - rewrite Ec. apply (keys_map_values (fun _ : cache_val => Clist [])).
  - rewrite Eg. apply keys_map_values.
  - intros k v Hk. rewrite Ec.
    rewrite (dict_get_map_values (fun _ : cache_val => Clist [])), Hk. reflexivity.
  - intros k G Hk. exists (np_zeros_like G). rewrite Eg.
    rewrite dict_get_map_values, Hk. repeat split.
    + unfold wf, np_zeros_like, np_zeros; simpl. apply repeat_length.
    + apply size_repeat_zero.
Qed.

Lemma clear_gradients_frame_witness :
  NoDup (keys (cache cleared_example))
  /\ NoDup (keys (gradients cleared_example))
  /\ parameters (clear_gradients cleared_example) = parameters cleared_example
  /\ cache (clear_gradients cleared_example) = [("Z", Clist []); ("X", Clist [])].
Proof.
  assert (Hc : NoDup (keys (cache cleared_example))).
  { simpl. repeat constructor; simpl; intuition discriminate. }
  assert (Hg : NoDup (keys (gradients cleared_example))).
  { simpl. repeat constructor; simpl; intuition discriminate. }
  split; [exact Hc|]. split; [exact Hg|].
  pose proof (clear_gradients_frame cleared_example Hc Hg) as H.
  split; [exact (proj1 H) | exact (proj1 (proj2 (proj2 (proj2 (proj2 H)))))].
Defined.

(** * Flatten *)

Lemma np_reshape_first_returns (A : ndarray) (n : nat) :
  n <> 0%nat -> (Z.of_nat (size (shape A)) mod Z.of_nat n = 0)%Z ->
  returns (np_reshape A [Z.of_nat n; (-1)%Z]).
Proof.
  intros Hn Hm. unfold np_reshape; simpl.
  destruct (Z.ltb_spec (Z.of_nat n) (-1)); [lia|]. simpl.
  destruct (Z.eq_dec (Z.of_nat n) (-1)); [lia|].
  destruct (Z.eqb_spec (Z.of_nat n) (-1)); [lia|].
  rewrite Z.mul_1_r.
  destruct (Z.eqb_spec (Z.of_nat n) 0); [lia|].
  rewrite Hm. simpl. eexists; reflexivity.
Qed.

Lemma np_reshape_last_returns (A : ndarray) (n : nat) :
  n <> 0%nat -> (Z.of_nat (size (shape A)) mod Z.of_nat n = 0)%Z ->
  returns (np_reshape A [(-1)%Z; Z.of_nat n]).
Proof.
  intros Hn Hm. unfold np_reshape; simpl.
  destruct (Z.ltb_spec (Z.of_nat n) (-1)); [lia|]. simpl.
  destruct (Z.eq_dec (Z.of_nat n) (-1)); [lia|].
  destruct (Z.eqb_spec (Z.of_nat n) (-1)); [lia|].
  rewrite Z.mul_1_r.
  destruct (Z.eqb_spec (Z.of_nat n) 0); [lia|].
  rewrite Hm. simpl. eexists; reflexivity.
Qed.

Lemma size_rev (sh : list nat) : size (rev sh) = size sh.
Proof.
  induction sh as [|a sh IH]; [reflexivity|]. simpl.
  rewrite <- IH. clear IH. induction (rev sh) as [|b l IHl]; simpl; [lia|].
  rewrite IHl. simpl. lia.
Qed.

Lemma size_head_divides (n : nat) (sh : list nat) :
  (Z.of_nat (size (n :: sh)) mod Z.of_nat n = 0)%Z.
Proof.
  change (size (n :: sh)) with (n * size sh)%nat.
  rewrite Nat2Z.inj_mul, Z.mul_comm.
  destruct n; [now rewrite Z.mul_0_r | apply Z.mod_mul; lia].
Qed.

(** When [Flatten.forward] returns: with [keep_dim = -1] always; otherwise
    when the kept axis exists and is not empty. *)
Lemma Flatten_forward_returns (L : Flatten) (X : ndarray) :
  is_int (keep_dim L) (-1) = true
  \/ (is_str (keep_dim L) "first" = true
      /\ exists n sh, shape X = n :: sh /\ n <> 0%nat)
  \/ (is_int (keep_dim L) (-1) = false /\ is_str (keep_dim L) "first" = false
      /\ exists n sh, rev (shape X) = n :: sh /\ n <> 0%nat) ->
  returns (Flatten_forward L X).
Proof.
  assert (Hrow : forall A, returns (np_reshape A [1%Z; (-1)%Z])).
  { intros A. unfold np_reshape; simpl. rewrite Z.mod_1_r. simpl.
    eexists; reflexivity. }
  assert (Hret : forall (L' : Flatten) (r : result ndarray),
             returns r -> returns (Y <- r ;; Ok (L', Y))).
  { intros L' r [B ->]. simpl. eexists; reflexivity. }
  unfold Flatten_forward.
  intros [H1|[(H1 & n & sh & Hsh & Hn)|(H0 & H1 & n & sh & Hsh & Hn)]].
  - rewrite H1. apply Hret, Hrow.
  - destruct (is_int (keep_dim L) (-1)); [apply Hret, Hrow|].
    rewrite H1, Hsh. simpl bind. apply Hret.
    apply np_reshape_first_returns; [exact Hn|].
    rewrite Hsh. apply size_head_divides.
  - rewrite H0, H1, Hsh. simpl bind. apply Hret.
    apply np_reshape_last_returns; [exact Hn|].
    rewrite <- size_rev, Hsh. apply size_head_divides.
Qed.

(** C8.  Whenever [forward] returns, it has cached the full shape of [X] and
    kept the buffer; [backward] reshapes any gradient with as many elements
    to the cached shape without touching its values, and applied to the
    output itself it gives back [X] exactly. *)
Theorem Flatten_round_trip (L L' : Flatten) (X Y : ndarray) :
  Flatten_forward L X = Ok (L', Y) ->
  dict_get (cache (flat_base L')) "in_dims" = Some (Cshape (shape X))
  /\ data Y = data X
  /\ size (shape Y) = size (shape X)
  /\ Flatten_backward L' Y = Ok X
  /\ (forall dLdY, size (shape dLdY) = size (shape Y) ->
        Flatten_backward L' dLdY
        = Ok {| shape := shape X; data := data dLdY; dtype := dtype dLdY |})
  /\ dtype Y = dtype X.
Proof.
  intros Hf.
  assert (HdY : dtype Y = dtype X).
  { unfold Flatten_forward in Hf.
    destruct (is_int (keep_dim L) (-1)).
    - destruct (np_reshape (np_flatten X) [1%Z; (-1)%Z]) as [B|e] eqn:E;
        simpl in Hf; [|discriminate].
      injection Hf as <- <-. exact (np_reshape_dtype _ _ _ E).
    - destruct (is_str (keep_dim L) "first").
      + destruct (shape X) as [|n sh]; simpl in Hf; [discriminate|].
        destruct (np_reshape X [Z.of_nat n; (-1)%Z]) as [B|e] eqn:E;
          simpl in Hf; [|discriminate].
        injection Hf as <- <-. exact (np_reshape_dtype _ _ _ E).
      + destruct (rev (shape X)) as [|n sh]; simpl in Hf; [discriminate|].
        destruct (np_reshape X [(-1)%Z; Z.of_nat n]) as [B|e] eqn:E;
          simpl in Hf; [|discriminate].
        injection Hf as <- <-. exact (np_reshape_dtype _ _ _ E). }
  assert (HL : cache (flat_base L')
               = dict_set (cache (flat_base L)) "in_dims" (Cshape (shape X))
               /\ data Y = data X /\ size (shape Y) = size (shape X)).
  { unfold Flatten_forward in Hf.
    destruct (is_int (keep_dim L) (-1)).
    - destruct (np_reshape (np_flatten X) [1%Z; (-1)%Z]) as [B|e] eqn:E;
        simpl in Hf; [|discriminate].
      injection Hf as <- <-. apply np_reshape_row in E. destruct E as [Ed Es].
      simpl. rewrite Es. simpl in *. repeat split; auto; lia.
    - destruct (is_str (keep_dim L) "first").
      + destruct (shape X) as [|n sh] eqn:Hsh; simpl in Hf; [discriminate|].
        destruct (np_reshape X [Z.of_nat n; (-1)%Z]) as [B|e] eqn:E;
          simpl in Hf; [|discriminate].
        injection Hf as <- <-. apply np_reshape_first in E. rewrite Hsh in E.
        simpl. tauto.
      + destruct (rev (shape X)) as [|n sh] eqn:Hsh; simpl in Hf; [discriminate|].
        destruct (np_reshape X [(-1)%Z; Z.of_nat n]) as [B|e] eqn:E;
          simpl in Hf; [|discriminate].
        injection Hf as <- <-. apply np_reshape_last in E.
        simpl. tauto. }
  destruct HL as (Hc & Hd & Hs).
  assert (Hb : forall dLdY, size (shape dLdY) = size (shape Y) ->
             Flatten_backward L' dLdY
        = Ok {| shape := shape X; data := data dLdY; dtype := dtype dLdY |}).
  { intros dLdY Hsz. unfold Flatten_backward, dict_item.
    rewrite Hc, dict_get_set_same. simpl.
    apply np_reshape_to_shape. rewrite Hsz. now symmetry. }
  repeat split; auto.
  - rewrite Hc. apply dict_get_set_same.
  - rewrite (Hb Y eq_refl), Hd, HdY. destruct X; reflexivity.
Qed.

Lemma Flatten_round_trip_witness :
  Flatten_forward (Flatten_init (PyStr "first")) flatten_example = Ok flatten_example_out
  /\ Flatten_backward (fst flatten_example_out) (snd flatten_example_out)
     = Ok flatten_example.
Proof.
  assert (H : Flatten_forward (Flatten_init (PyStr "first")) flatten_example
              = Ok flatten_example_out) by (vm_compute; reflexivity).
  split; [exact H|].
  exact (proj1 (proj2 (proj2 (proj2
           (Flatten_round_trip (Flatten_init (PyStr "first")) (fst flatten_example_out)
              flatten_example (snd flatten_example_out) H))))).
Defined.

(** * Pool2D: the pooling mode *)

(** The constructor never looks at an unknown mode: whenever the padding
    resolves, it returns a layer that merely records the mode. *)
Lemma Pool2D_init_ignores_mode (kernel m s p : pyval) :
  is_str m "max" = false -> is_str m "average" = false ->
  raises (resolve_pad p
            (pair_item (match kernel with PyInt k => PyTuple k k | _ => kernel end) 0)
            (pair_item (match kernel with PyInt k => PyTuple k k | _ => kernel end) 1))
  \/ exists L, Pool2D_init kernel m s p = Ok L /\ mode L = m /\ self_pool_fn L = None.
Proof.
  intros Hmax Havg. unfold Pool2D_init. rewrite Hmax, Havg.
  destruct (resolve_pad p _ _) as [p'|e].
  - right. simpl. eexists. split; [reflexivity|]. split; reflexivity.
  - left. now exists e.
Qed.

(** The example layers are what the constructor returns. *)
Example Pool2D_init_examples :
  Pool2D_init (PyTuple 2 2) (PyStr "max") (PyInt 1) (PyInt 0) = Ok pool_max
  /\ Pool2D_init (PyInt 2) (PyStr "average") (PyInt 1) (PyStr "valid") = Ok pool_average
  /\ Pool2D_init (PyTuple 2 2) (PyStr "max") (PyInt 1) (PyInt 1) = Ok pool_max_padded
  /\ Pool2D_init (PyTuple 2 2) (PyStr "max") (PyInt 1) PyNone
     = Raise (ValueError "invalid Pad mode found in self.pad.").
Proof. repeat split; vm_compute; reflexivity. Qed.

(** C6 (the code at the failing input).  [Pool2D(kernel_shape=(2, 2),
    mode="min", stride=1, pad=0)] is constructed without any error; the mode
    is only missed when [forward] reaches its first window, as an
    [UnboundLocalError]. *)
Theorem Pool2D_unknown_mode_accepted :
  Pool2D_init (PyTuple 2 2) (PyStr "min") (PyInt 1) (PyInt 0) = Ok pool_min
  /\ Pool2D_forward pool_min window_example = Raise (UnboundLocalError "pool_fn").
Proof. split; vm_compute; reflexivity. Qed.

(** * Conv2D *)

(** C1 (as amended).  For an input [X] of shape [B, H, W, n_in], a kernel
    [W] of shape [kh, kw, n_in, n_out] and a bias of shape [1, n_out],
    [forward] returns [activation(Z)] where [Z] has shape
    [B, out_h, out_w, n_out] and the element type of [X]
    ([np.empty(..., dtype=X.dtype)]), and every [Z[b, row, col, ch]] is the
    sum over the [kh x kw x n_in] window at offset [(row*stride, col*stride)]
    of the zero-padded input times the kernel slice [W[:, :, :, ch]], plus
    [b[0, ch]], converted to that element type: for a floating-point [X] it
    is that value itself, for an integer [X] it is truncated towards zero.
    Afterwards the cache holds [Z] and the unpadded [X].  [L] is the layer
    after the lazy initialisation of the first call. *)
Theorem Conv2D_forward_spec
    (junk : nat -> Qc) (L0 L : Conv2D) (X Wt bt : ndarray) (act : Activation)
    (B H Wd C kh kw Co oh ow s p q : nat) :
  match n_in (base L0) with
  | None => Conv2D_init_parameters L0 (shape X)
  | Some _ => Ok L0
  end = Ok L ->
  activation (base L) = Some act ->
  dict_get (parameters (base L)) "W" = Some Wt ->
  dict_get (parameters (base L)) "b" = Some bt ->
  shape Wt = [kh; kw; C; Co] ->
  shape bt = [1; Co]%nat ->
  shape X = [B; H; Wd; C] ->
  pad L = PyTuple (Z.of_nat p) (Z.of_nat q) ->
  stride L = PyInt (Z.of_nat s) ->
  (0 < s)%nat ->
  out_size H (Z.of_nat p) (Z.of_nat kh) (Z.of_nat s) = Ok (Z.of_nat oh) ->
  out_size Wd (Z.of_nat q) (Z.of_nat kw) (Z.of_nat s) = Ok (Z.of_nat ow) ->
  exists Zf L',
    Conv2D_forward junk L0 X = Ok (L', act_forward act Zf)
    /\ shape Zf = [B; oh; ow; Co]
    /\ dtype Zf = dtype X
    /\ (forall b row col ch,
          (b < B)%nat -> (row < oh)%nat -> (col < ow)%nat -> (ch < Co)%nat ->
          get4 Zf b row col ch
          = astype (dtype X)
              (sum_n kh (fun i => sum_n kw (fun j => sum_n C (fun k =>
                 padded X p q b (row * s + i)%nat (col * s + j)%nat k
                 * get4 Wt i j k ch)))
               + get2 bt 0%nat ch))
    /\ (dtype X = Kfloat ->
        forall b row col ch,
          (b < B)%nat -> (row < oh)%nat -> (col < ow)%nat -> (ch < Co)%nat ->
          get4 Zf b row col ch
          = sum_n kh (fun i => sum_n kw (fun j => sum_n C (fun k =>
              padded X p q b (row * s + i)%nat (col * s + j)%nat k
              * get4 Wt i j k ch)))
            + get2 bt 0%nat ch)
    /\ dict_get (cache (base L')) "Z" = Some (Carr Zf)
    /\ dict_get (cache (base L')) "X" = Some (Carr X)
    /\ parameters (base L') = parameters (base L).
Proof.
  intros Hinit Hact HW Hb HsW Hsb HsX Hpad Hstride Hs Hoh How.
  destruct (Conv2D_forward_closed junk L0 L X Wt bt act B H Wd C kh kw Co oh ow s p q
              Hinit Hact HW Hb HsW Hsb HsX Hpad Hstride Hs Hoh How)
    as (Zf & EZf & [HsZ HZ] & HdZ).
  eexists Zf, _. split; [exact EZf|].
  split; [exact HsZ|]. split; [exact HdZ|]. split; [|split].
  - intros b row col ch Hb' Hrow Hcol Hch. now apply HZ.
  - intros Hfloat b row col ch Hb' Hrow Hcol Hch.
    rewrite HZ by assumption. rewrite Hfloat. reflexivity.
  - cbn [with_base base set_cache cache parameters]. split; [|split].
    + rewrite dict_get_set_other by discriminate. apply dict_get_set_same.
    + apply dict_get_set_same.
    + reflexivity.
Qed.

Lemma Conv2D_forward_spec_witness :
  exists Zf L',
    Conv2D_forward (fun _ => 0) conv_example conv_input
    = Ok (L', act_forward identity_activation Zf)
    /\ shape Zf = [1; 3; 3; 1]%nat
    /\ dtype Zf = dtype conv_input
    /\ (forall b row col ch,
          (b < 1)%nat -> (row < 3)%nat -> (col < 3)%nat -> (ch < 1)%nat ->
          get4 Zf b row col ch
          = astype (dtype conv_input)
              (sum_n 2 (fun i => sum_n 2 (fun j => sum_n 1 (fun k =>
                 padded conv_input 1 1 b (row * 1 + i)%nat (col * 1 + j)%nat k
                 * get4 conv_kernel i j k ch)))
               + get2 conv_bias 0%nat ch))
    /\ (dtype conv_input = Kfloat ->
        forall b row col ch,
          (b < 1)%nat -> (row < 3)%nat -> (col < 3)%nat -> (ch < 1)%nat ->
          get4 Zf b row col ch
          = sum_n 2 (fun i => sum_n 2 (fun j => sum_n 1 (fun k =>
              padded conv_input 1 1 b (row * 1 + i)%nat (col * 1 + j)%nat k
              * get4 conv_kernel i j k ch)))
            + get2 conv_bias 0%nat ch)
    /\ dict_get (cache (base L')) "Z" = Some (Carr Zf)
    /\ dict_get (cache (base L')) "X" = Some (Carr conv_input)
    /\ parameters (base L') = parameters (base conv_ready).
Proof.
  assert (Hinit : match n_in (base conv_example) with
                  | None => Conv2D_init_parameters conv_example (shape conv_input)
                  | Some _ => Ok conv_example
                  end = Ok conv_ready) by (vm_compute; reflexivity).
  assert (Hoh : out_size 2 (Z.of_nat 1) (Z.of_nat 2) (Z.of_nat 1) = Ok (Z.of_nat 3))
    by (vm_compute; reflexivity).
  exact (Conv2D_forward_spec (fun _ => 0) conv_example conv_ready conv_input
           conv_kernel conv_bias identity_activation 1 2 2 1 2 2 1 3 3 1 1 1
           Hinit eq_refl eq_refl eq_refl eq_refl eq_refl eq_refl eq_refl eq_refl
           (le_n 1) Hoh Hoh).
Defined.

(** The same call, evaluated. *)
Example Conv2D_forward_example :
  Conv2D_forward (fun _ => 0) conv_example conv_input = Ok (conv_after, conv_output)
  /\ values conv_output = [4; 11; 6; 14; 30; 14; 6; 11; 4]%Q.
Proof. split; vm_compute; reflexivity. Qed.

(** An integer input: [X = np.array([[[[7]]]])] with the 1x1 kernel 1/2 and
    a zero bias.  The window sum plus the bias is 7/2, but [Z] is allocated
    with the element type of [X] and the assignment stores 3. *)
Lemma Conv2D_forward_truncates :
  dtype int_pixel = Kint
  /\ sum_n 1 (fun i => sum_n 1 (fun j => sum_n 1 (fun k =>
       padded int_pixel 0 0 0 (0 * 1 + i)%nat (0 * 1 + j)%nat k
       * get4 half_kernel i j k 0)))
     + get2 (np_zeros [1; 1]%nat) 0%nat 0%nat
     = Q2Qc (7 # 2)
  /\ exists L' Zf,
       Conv2D_forward (fun _ => 0) conv_half int_pixel
       = Ok (L', act_forward identity_activation Zf)
       /\ get4 Zf 0 0 0 0 = of_int 3
       /\ get4 Zf 0 0 0 0
          <> sum_n 1 (fun i => sum_n 1 (fun j => sum_n 1 (fun k =>
               padded int_pixel 0 0 0 (0 * 1 + i)%nat (0 * 1 + j)%nat k
               * get4 half_kernel i j k 0)))
             + get2 (np_zeros [1; 1]%nat) 0%nat 0%nat.
Proof.
  split; [reflexivity|]. split; [vm_compute; reflexivity|].
  destruct (Conv2D_forward (fun _ => 0) conv_half int_pixel) as [[L' Y]|e] eqn:E;
    vm_compute in E; [|discriminate].
  injection E as <- <-. do 2 eexists. split; [reflexivity|].
  split; [vm_compute; reflexivity|]. vm_compute. discriminate.
Qed.

(** C2 (as amended).  Let [dZ = activation.backward(Z, dLdY)] have shape
    [B, out_h, out_w, n_out], and let the products the loop adds in place be
    castable into their targets: [W * dZ] into the element type of [X] (that
    of [dX_pad = np.zeros_like(X_pad)]) and [X_pad * dZ] into that of [W]
    (that of [dW = np.zeros_like(W)]); this holds when [X] and [W] are
    floating-point arrays, or when [X], [W] and [dZ] are all integer arrays.
    Then [backward] returns [dX] of the shape of [X]: the padded gradient,
    to which every output position and channel whose window covers a cell
    has added its kernel entry times [dZ], cropped by the pad offsets.
    [gradients["W"]] is, per channel, the sum over the output positions and
    the batch of the padded input window times [dZ]; [gradients["b"]] has
    shape [1, n_out] and holds the sum of [dZ] over the batch and both
    spatial axes. *)
Theorem Conv2D_backward_spec
    (L : Conv2D) (X Zc Wt bt dLdY : ndarray) (act : Activation)
    (B H Wd C kh kw Co oh ow s p q : nat) :
  activation (base L) = Some act ->
  dict_get (parameters (base L)) "W" = Some Wt ->
  dict_get (parameters (base L)) "b" = Some bt ->
  dict_get (cache (base L)) "X" = Some (Carr X) ->
  dict_get (cache (base L)) "Z" = Some (Carr Zc) ->
  shape Wt = [kh; kw; C; Co] ->
  shape X = [B; H; Wd; C] ->
  shape (act_backward act Zc dLdY) = [B; oh; ow; Co] ->
  pad L = PyTuple (Z.of_nat p) (Z.of_nat q) ->
  stride L = PyInt (Z.of_nat s) ->
  (0 < s)%nat ->
  out_size H (Z.of_nat p) (Z.of_nat kh) (Z.of_nat s) = Ok (Z.of_nat oh) ->
  out_size Wd (Z.of_nat q) (Z.of_nat kw) (Z.of_nat s) = Ok (Z.of_nat ow) ->
  can_cast (result_type (dtype Wt) (dtype (act_backward act Zc dLdY))) (dtype X)
    = true ->
  can_cast (result_type (dtype X) (dtype (act_backward act Zc dLdY))) (dtype Wt)
    = true ->
  let dZ := act_backward act Zc dLdY in
  exists dX dW dB L',
    Conv2D_backward L dLdY = Ok (L', dX)
    /\ shape dX = [B; H; Wd; C]
    /\ (forall b i j k,
          (b < B)%nat -> (i < H)%nat -> (j < Wd)%nat -> (k < C)%nat ->
          get4 dX b i j k
          = sum_n oh (fun row => sum_n ow (fun col => sum_n Co (fun ch =>
              if covers s kh kw row col (i + p) (j + q)
              then get4 Wt (i + p - row * s)%nat (j + q - col * s)%nat k ch
                   * get4 dZ b row col ch
              else 0))))
    /\ dict_get (gradients (base L')) "W" = Some dW
    /\ shape dW = [kh; kw; C; Co]
    /\ (forall i j k ch,
          (i < kh)%nat -> (j < kw)%nat -> (k < C)%nat -> (ch < Co)%nat ->
          get4 dW i j k ch
          = sum_n oh (fun row => sum_n ow (fun col => sum_n B (fun b =>
              padded X p q b (row * s + i)%nat (col * s + j)%nat k
              * get4 dZ b row col ch))))
    /\ dict_get (gradients (base L')) "b" = Some dB
    /\ shape dB = [1; Co]%nat
    /\ (forall ch, (ch < Co)%nat ->
          get2 dB 0%nat ch
          = sum_n B (fun b => sum_n oh (fun row => sum_n ow (fun col =>
              get4 dZ b row col ch))))
    /\ parameters (base L') = parameters (base L)
    /\ dtype dX = dtype X /\ dtype dW = dtype Wt.
Proof.
  intros Hact HW Hb HX HZ HsW HsX HsdZ Hpad Hstride Hs Hoh How HcX HcW dZ.
  destruct (Conv2D_backward_closed L X Zc Wt bt dLdY act B H Wd C kh kw Co oh ow s p q
              Hact HW Hb HX HZ HsW HsX HsdZ Hpad Hstride Hs Hoh How HcX HcW)
    as (dX & dW & dB & E & HdX & HdW & HdB & HkX & HkW).
  exists dX, dW, dB. eexists. split; [exact E|].
  split; [exact (proj1 HdX)|].
  split; [intros; now apply (proj2 HdX)|].
  cbn [with_base base set_gradients gradients parameters].
  split; [rewrite dict_get_set_other by discriminate; apply dict_get_set_same|].
  split; [exact (proj1 HdW)|].
  split; [intros; now apply (proj2 HdW)|].
  split; [apply dict_get_set_same|].
  split; [exact (proj1 HdB)|].
  split; [intros ch Hch; now apply (proj2 HdB); [lia|]|].
  split; [reflexivity|]. split; [exact HkX | exact HkW].
Qed.

Lemma Conv2D_backward_spec_witness :
  exists dX dW dB L',
    Conv2D_backward conv_after conv_output = Ok (L', dX)
    /\ shape dX = [1; 2; 2; 1]%nat
    /\ (forall b i j k,
          (b < 1)%nat -> (i < 2)%nat -> (j < 2)%nat -> (k < 1)%nat ->
          get4 dX b i j k
          = sum_n 3 (fun row => sum_n 3 (fun col => sum_n 1 (fun ch =>
              if covers 1 2 2 row col (i + 1) (j + 1)
              then get4 conv_kernel (i + 1 - row * 1)%nat (j + 1 - col * 1)%nat k ch
                   * get4 (act_backward identity_activation conv_output conv_output)
                       b row col ch
              else 0))))
    /\ dict_get (gradients (base L')) "W" = Some dW
    /\ shape dW = [2; 2; 1; 1]%nat
    /\ (forall i j k ch,
          (i < 2)%nat -> (j < 2)%nat -> (k < 1)%nat -> (ch < 1)%nat ->
          get4 dW i j k ch
          = sum_n 3 (fun row => sum_n 3 (fun col => sum_n 1 (fun b =>
              padded conv_input 1 1 b (row * 1 + i)%nat (col * 1 + j)%nat k
              * get4 (act_backward identity_activation conv_output conv_output)
                  b row col ch))))
    /\ dict_get (gradients (base L')) "b" = Some dB
    /\ shape dB = [1; 1]%nat
    /\ (forall ch, (ch < 1)%nat ->
          get2 dB 0%nat ch
          = sum_n 1 (fun b => sum_n 3 (fun row => sum_n 3 (fun col =>
              get4 (act_backward identity_activation conv_output conv_output)
                b row col ch))))
    /\ parameters (base L') = parameters (base conv_after)
    /\ dtype dX = dtype conv_input /\ dtype dW = dtype conv_kernel.
Proof.
  assert (Hoh : out_size 2 (Z.of_nat 1) (Z.of_nat 2) (Z.of_nat 1) = Ok (Z.of_nat 3))
    by (vm_compute; reflexivity).
  exact (Conv2D_backward_spec conv_after conv_input conv_output conv_kernel conv_bias
           conv_output identity_activation 1 2 2 1 2 2 1 3 3 1 1 1
           eq_refl eq_refl eq_refl eq_refl eq_refl eq_refl eq_refl eq_refl eq_refl
           eq_refl (le_n 1) Hoh Hoh eq_refl eq_refl).
Defined.

Example Conv2D_backward_example :
  exists L' dX dW dB,
    Conv2D_backward conv_after conv_output = Ok (L', dX)
    /\ values dX = [107; 136; 169; 188]%Q
    /\ dict_get (gradients (base L')) "W" = Some dW
    /\ values dW = [107; 136; 169; 188]%Q
    /\ dict_get (gradients (base L')) "b" = Some dB
    /\ values dB = [100]%Q.
Proof.
  destruct (Conv2D_backward conv_after conv_output) as [[L' dX]|e] eqn:E;
    vm_compute in E; [|discriminate].
  injection E as <- <-.
  do 4 eexists. repeat split; vm_compute; reflexivity.
Qed.

(** An integer input: [conv_input] built from Python integers.  [forward]
    returns (the products with the floating-point kernel are whole numbers
    here), and caches the integer [X]; in [backward],
    [dX_pad = np.zeros_like(X_pad)] is then an integer array and the first
    [dX_pad[...] += W[...] * dZ[...]] cannot cast the floating-point product
    into it: numpy raises [UFuncTypeError] and no gradient is returned or
    stored. *)
Lemma Conv2D_backward_integer_input :
  dtype conv_input_int = Kint
  /\ shape conv_output = [1; 3; 3; 1]%nat
  /\ Conv2D_forward (fun _ => 0) conv_example conv_input_int
     = Ok (conv_after_int, conv_output_int)
  /\ Conv2D_backward conv_after_int conv_output = Raise UFuncTypeError
  /\ ~ returns (Conv2D_backward conv_after_int conv_output).
Proof.
  assert (E : Conv2D_backward conv_after_int conv_output = Raise UFuncTypeError)
    by (vm_compute; reflexivity).
  split; [reflexivity|]. split; [reflexivity|].
  split; [vm_compute; reflexivity|]. split; [exact E|].
  intros [r Hr]. rewrite E in Hr. discriminate.
Qed.

(** * Pool2D *)

(** C4 (as amended).  In average mode [forward] returns, for every output
    position and channel, the sum over the [kh x kw] window of the
    zero-padded input divided by [kh*kw], whether or not the window overlaps
    the padding.  For a floating-point input ([dX = np.zeros_like(X_pad)]
    has the element type of [X], and the quotient [dLdY / (kh*kw)] added to
    it in place is floating-point), [backward] gives every cell of the input
    the sum, over the windows that cover it, of the upstream gradient
    divided by [kh*kw] (the padded gradient cropped to the extent of the
    input). *)
Theorem Pool2D_average_spec
    (L : Pool2D) (X dLdY : ndarray) (B H Wd C kh kw oh ow s p q : nat) :
  mode L = PyStr "average" ->
  pool_kernel_shape L = PyTuple (Z.of_nat kh) (Z.of_nat kw) ->
  (0 < kh)%nat -> (0 < kw)%nat ->
  pool_stride L = PyInt (Z.of_nat s) -> (0 < s)%nat ->
  pool_pad L = PyTuple (Z.of_nat p) (Z.of_nat q) ->
  dict_get (cache (pool_base L)) "out_rows" <> None ->
  dict_get (cache (pool_base L)) "out_cols" <> None ->
  shape X = [B; H; Wd; C] ->
  out_size H (Z.of_nat p) (Z.of_nat kh) (Z.of_nat s) = Ok (Z.of_nat oh) ->
  out_size Wd (Z.of_nat q) (Z.of_nat kw) (Z.of_nat s) = Ok (Z.of_nat ow) ->
  shape dLdY = [B; oh; ow; C] ->
  exists Y L',
    Pool2D_forward L X = Ok (L', Y)
    /\ shape Y = [B; oh; ow; C]
    /\ (forall b row col k,
          (b < B)%nat -> (row < oh)%nat -> (col < ow)%nat -> (k < C)%nat ->
          get4 Y b row col k
          = sum_n kh (fun i => sum_n kw (fun j =>
              padded X p q b (row * s + i)%nat (col * s + j)%nat k))
            / of_int (Z.of_nat (kh * kw)))
    /\ dict_get (cache (pool_base L')) "X" = Some (Carr X)
    /\ (dtype X = Kfloat ->
        exists dX,
          Pool2D_backward L' dLdY = Ok dX
          /\ shape dX = [B; H; Wd; C]
          /\ (forall b i j k,
                (b < B)%nat -> (i < H)%nat -> (j < Wd)%nat -> (k < C)%nat ->
                get4 dX b i j k
                = sum_n oh (fun row => sum_n ow (fun col =>
                    if covers s kh kw row col (i + p) (j + q)
                    then get4 dLdY b row col k / of_int (Z.of_nat (kh * kw))
                    else 0)))).
Proof.
  intros Hmode Hk Hkh Hkw Hstride Hs Hpad Hrows Hcols HsX Hoh How Hsdy.
  destruct (Pool2D_forward_run L X (Some NpMean)
              (fun fwin b k =>
                 sum_n kh (fun i => sum_n kw (fun j => fwin b i j k))
                 / of_int (Z.of_nat (kh * kw)))
              B H Wd C kh kw oh ow s p q)
    as (Y & EY & HY); try assumption.
  - rewrite Hmode. reflexivity.
  - now apply apply_pool_fn_mean.
  - set (L' := pool_with_base L
                 (set_cache (pool_base L) (dict_set (cache (pool_base L)) "X" (Carr X))))
      in *.
    exists Y, L'. split; [exact EY|].
    split; [exact (proj1 HY)|]. split; [exact (proj2 HY)|].
    split; [unfold L'; simpl; apply dict_get_set_same|].
    intros Hfloat.
    destruct (Pool2D_backward_average_closed L' X dLdY B H Wd C kh kw oh ow s p q)
      as (dX & EdX & HdX); try assumption.
    + unfold L'; simpl. now rewrite dict_get_set_other by discriminate.
    + unfold L'; simpl. now rewrite dict_get_set_other by discriminate.
    + unfold L'; simpl. apply dict_get_set_same.
    + exists dX. split; [exact EdX|]. split; [exact (proj1 HdX) | exact (proj2 HdX)].
Qed.

Lemma Pool2D_average_spec_witness :
  exists Y L',
    Pool2D_forward pool_average_padded window_example = Ok (L', Y)
    /\ shape Y = [1; 3; 3; 1]%nat
    /\ (forall b row col k,
          (b < 1)%nat -> (row < 3)%nat -> (col < 3)%nat -> (k < 1)%nat ->
          get4 Y b row col k
          = sum_n 2 (fun i => sum_n 2 (fun j =>
              padded window_example 1 1 b (row * 1 + i)%nat (col * 1 + j)%nat k))
            / of_int (Z.of_nat (2 * 2)))
    /\ dict_get (cache (pool_base L')) "X" = Some (Carr window_example)
    /\ (dtype window_example = Kfloat ->
        exists dX,
          Pool2D_backward L' (ones [1; 3; 3; 1]%nat) = Ok dX
          /\ shape dX = [1; 2; 2; 1]%nat
          /\ (forall b i j k,
                (b < 1)%nat -> (i < 2)%nat -> (j < 2)%nat -> (k < 1)%nat ->
                get4 dX b i j k
                = sum_n 3 (fun row => sum_n 3 (fun col =>
                    if covers 1 2 2 row col (i + 1) (j + 1)
                    then get4 (ones [1; 3; 3; 1]%nat) b row col k
                         / of_int (Z.of_nat (2 * 2))
                    else 0)))).
Proof.
  assert (Hoh : out_size 2 (Z.of_nat 1) (Z.of_nat 2) (Z.of_nat 1) = Ok (Z.of_nat 3))
    by (vm_compute; reflexivity).
  assert (Hr : dict_get (cache (pool_base pool_average_padded)) "out_rows" <> None)
    by (simpl; discriminate).
  assert (Hc : dict_get (cache (pool_base pool_average_padded)) "out_cols" <> None)
    by (simpl; discriminate).
  exact (Pool2D_average_spec pool_average_padded window_example (ones [1; 3; 3; 1]%nat)
           1 2 2 1 2 2 3 3 1 1 1
           eq_refl eq_refl (le_S 1 1 (le_n 1)) (le_S 1 1 (le_n 1)) eq_refl (le_n 1)
           eq_refl Hr Hc eq_refl Hoh Hoh eq_refl).
Defined.

(** The window [[1, 3], [2, 0]]: the mean is 3/2, and an upstream gradient
    of 4 gives 1 to each of the four cells. *)
Example Pool2D_average_example :
  Pool2D_init (PyTuple 2 2) (PyStr "average") (PyInt 1) (PyInt 0) = Ok pool_average
  /\ exists Y dX,
       Pool2D_forward pool_average window_example = Ok (pool_average_after, Y)
       /\ values Y = [3 # 2]%Q
       /\ Pool2D_backward pool_average_after (upstream 4) = Ok dX
       /\ values dX = [1; 1; 1; 1]%Q.
Proof.
  split; [vm_compute; reflexivity|].
  destruct (Pool2D_forward pool_average window_example) as [[L' Y]|e] eqn:E;
    vm_compute in E; [|discriminate].
  injection E as <- <-.
  destruct (Pool2D_backward pool_average_after (upstream 4)) as [dX|e] eqn:E;
    vm_compute in E; [|discriminate].
  injection E as <-.
  do 2 eexists. repeat split; vm_compute; reflexivity.
Qed.

(** The same window padded by 1: nine windows, each overlapping the padding
    and divided by 4 all the same; with an upstream gradient of ones every
    cell of the input, covered by four windows, receives 4 * 1/4. *)
Example Pool2D_average_padded_example :
  Pool2D_init (PyTuple 2 2) (PyStr "average") (PyInt 1) (PyInt 1)
  = Ok pool_average_padded
  /\ exists Y dX,
       Pool2D_forward pool_average_padded window_example
       = Ok (pool_average_padded_after, Y)
       /\ values Y
          = [1 # 4; 1; 3 # 4; 3 # 4; 3 # 2; 3 # 4; 1 # 2; 1 # 2; 0]%Q
       /\ Pool2D_backward pool_average_padded_after (ones [1; 3; 3; 1]%nat) = Ok dX
       /\ values dX = [1; 1; 1; 1]%Q.
Proof.
  split; [vm_compute; reflexivity|].
  destruct (Pool2D_forward pool_average_padded window_example) as [[L' Y]|e] eqn:E;
    vm_compute in E; [|discriminate].
  injection E as <- <-.
  destruct (Pool2D_backward pool_average_padded_after (ones [1; 3; 3; 1]%nat))
    as [dX|e] eqn:E;
    vm_compute in E; [|discriminate].
  injection E as <-.
  do 2 eexists. split; [reflexivity|]. split; [vm_compute; reflexivity|].
  split; [reflexivity|]. vm_compute; reflexivity.
Qed.

(** An integer input: the window [[1, 3], [2, 0]] built from Python
    integers.  [forward] returns the mean 3/2 ([X_pooled = np.zeros(...)] is
    floating-point) and caches the integer [X]; in [backward] [dX] is then
    an integer array, and adding the quotient [dLdY / (kh*kw)] to it in
    place raises [UFuncTypeError], for a floating-point and for an integer
    upstream gradient alike. *)
Lemma Pool2D_average_integer_input :
  dtype window_int = Kint
  /\ (exists Y,
        Pool2D_forward pool_average window_int = Ok (pool_average_after_int, Y)
        /\ values Y = [3 # 2]%Q)
  /\ Pool2D_backward pool_average_after_int (upstream 4) = Raise UFuncTypeError
  /\ Pool2D_backward pool_average_after_int (upstream_int 4) = Raise UFuncTypeError
  /\ ~ returns (Pool2D_backward pool_average_after_int (upstream 4)).
Proof.
  assert (E : Pool2D_backward pool_average_after_int (upstream 4)
              = Raise UFuncTypeError) by (vm_compute; reflexivity).
  split; [reflexivity|]. split; [|split; [exact E|split]].
  - destruct (Pool2D_forward pool_average window_int) as [[L' Y]|e] eqn:EY;
      vm_compute in EY; [|discriminate].
    injection EY as <- <-. eexists. split; vm_compute; reflexivity.
  - vm_compute; reflexivity.
  - intros [r Hr]. rewrite E in Hr. discriminate.
Qed.

(** C3 (as amended).  In max mode, for a layer whose cache holds [X]: the
    position [argmax] picks in a window, scanned in row-major order, holds
    the maximum of the window and is the first to do so; exactly one cell of
    the padded window is the target of the window.  When the masked gradient
    [x_mask * dLdY], whose element type is that of [X] and [dLdY] combined,
    can be cast into [dX = np.zeros_like(X_pad)], whose element type is that
    of [X] (a floating-point [X], or an integer [X] with an integer
    [dLdY]), [backward] gives every cell of the input the sum of the
    upstream gradients of the windows that target it, other windows
    contributing nothing.  For the single floating-point window
    [[1., 3.], [2., 0.]] the output is 3, and an upstream gradient of 5 goes
    to the cell holding 3, the other three receiving 0. *)
Theorem Pool2D_max_backward_spec
    (L : Pool2D) (X dLdY : ndarray) (B H Wd C kh kw oh ow s p q : nat) :
  mode L = PyStr "max" ->
  pool_kernel_shape L = PyTuple (Z.of_nat kh) (Z.of_nat kw) ->
  (0 < kh)%nat -> (0 < kw)%nat ->
  pool_stride L = PyInt (Z.of_nat s) -> (0 < s)%nat ->
  pool_pad L = PyTuple (Z.of_nat p) (Z.of_nat q) ->
  dict_get (cache (pool_base L)) "out_rows" <> None ->
  dict_get (cache (pool_base L)) "out_cols" <> None ->
  dict_get (cache (pool_base L)) "X" = Some (Carr X) ->
  shape X = [B; H; Wd; C] ->
  out_size H (Z.of_nat p) (Z.of_nat kh) (Z.of_nat s) = Ok (Z.of_nat oh) ->
  out_size Wd (Z.of_nat q) (Z.of_nat kw) (Z.of_nat s) = Ok (Z.of_nat ow) ->
  shape dLdY = [B; oh; ow; C] ->
  can_cast (result_type (dtype X) (dtype dLdY)) (dtype X) = true ->
  (forall b row col k,
     let cells := window_cells (padded X p q) s kh kw b row col k in
     let m := argmax cells in
     length cells = (kh * kw)%nat
     /\ (m < kh * kw)%nat
     /\ (forall n, (n < kh * kw)%nat -> nth n cells 0 <= nth m cells 0)
     /\ (forall n, (n < m)%nat -> nth n cells 0 < nth m cells 0)
     /\ (forall i j,
           is_argmax_cell (padded X p q) s kh kw b row col k i j = true
           <-> (i = row * s + m / kw)%nat /\ (j = col * s + m mod kw)%nat))
  /\ (exists dX,
        Pool2D_backward L dLdY = Ok dX
        /\ shape dX = [B; H; Wd; C]
        /\ (forall b i j k,
              (b < B)%nat -> (i < H)%nat -> (j < Wd)%nat -> (k < C)%nat ->
              get4 dX b i j k
              = sum_n oh (fun row => sum_n ow (fun col =>
                  if is_argmax_cell (padded X p q) s kh kw b row col k (i + p) (j + q)
                  then get4 dLdY b row col k
                  else 0))))
  /\ (exists Y dX,
        Pool2D_forward pool_max window_example = Ok (pool_max_after, Y)
        /\ values Y = [3]%Q
        /\ Pool2D_backward pool_max_after (upstream 5) = Ok dX
        /\ values dX = [0; 5; 0; 0]%Q).
Proof.
  intros Hmode Hk Hkh Hkw Hstride Hs Hpad Hrows Hcols HX HsX Hoh How Hsdy Hcast.
  split; [|split].
  - intros b row col k cells m.
    destruct (argmax_first cells
                (window_cells_nonempty (padded X p q) s kh kw b row col k Hkh Hkw))
      as (Hm & Hmax & Hfirst).
    assert (Hlen : length cells = (kh * kw)%nat) by apply window_cells_length.
    rewrite Hlen in Hm, Hmax.
    split; [exact Hlen|]. split; [exact Hm|]. split; [exact Hmax|].
    split; [exact Hfirst|].
    intros i j.
    exact (is_argmax_cell_position (padded X p q) s kh kw b row col k i j Hkh Hkw).
  - destruct (Pool2D_backward_max_closed L X dLdY B H Wd C kh kw oh ow s p q)
      as (dX & EdX & HdX); try assumption.
    exists dX. split; [exact EdX|]. split; [exact (proj1 HdX) | exact (proj2 HdX)].
  - destruct (Pool2D_forward pool_max window_example) as [[L' Y]|e] eqn:E;
      vm_compute in E; [|discriminate].
    injection E as <- <-.
    destruct (Pool2D_backward pool_max_after (upstream 5)) as [dX|e] eqn:E;
      vm_compute in E; [|discriminate].
    injection E as <-.
    do 2 eexists. repeat split; vm_compute; reflexivity.
Qed.

Lemma Pool2D_max_backward_spec_witness :
  exists dX,
    Pool2D_backward pool_max_after (upstream 5) = Ok dX
    /\ shape dX = [1; 2; 2; 1]%nat
    /\ (forall b i j k,
          (b < 1)%nat -> (i < 2)%nat -> (j < 2)%nat -> (k < 1)%nat ->
          get4 dX b i j k
          = sum_n 1 (fun row => sum_n 1 (fun col =>
              if is_argmax_cell (padded window_example 0 0) 1 2 2 b row col k
                   (i + 0) (j + 0)
              then get4 (upstream 5) b row col k
              else 0))).
Proof.
  assert (Hoh : out_size 2 (Z.of_nat 0) (Z.of_nat 2) (Z.of_nat 1) = Ok (Z.of_nat 1))
    by (vm_compute; reflexivity).
  assert (Hr : dict_get (cache (pool_base pool_max_after)) "out_rows" <> None)
    by (simpl; discriminate).
  assert (Hc : dict_get (cache (pool_base pool_max_after)) "out_cols" <> None)
    by (simpl; discriminate).
  exact (proj1 (proj2
           (Pool2D_max_backward_spec pool_max_after window_example (upstream 5)
              1 2 2 1 2 2 1 1 1 0 0
              eq_refl eq_refl (le_S 1 1 (le_n 1)) (le_S 1 1 (le_n 1)) eq_refl (le_n 1)
              eq_refl Hr Hc eq_refl eq_refl Hoh Hoh eq_refl eq_refl))).
Defined.

(** The window [[1, 3], [2, 0]] built from Python integers: [forward]
    returns 3 and caches the integer [X]; [backward] with the
    floating-point upstream gradient 5 then raises [UFuncTypeError] at
    [dX[...] += x_mask * dLdY[...]], since [dX] is an integer array and the
    product is not.  (With an integer upstream gradient the 5 is routed to
    the cell holding 3.) *)
Lemma Pool2D_max_integer_window :
  dtype window_int = Kint
  /\ values window_int = [1; 3; 2; 0]%Q
  /\ (exists Y,
        Pool2D_forward pool_max window_int = Ok (pool_max_after_int, Y)
        /\ values Y = [3]%Q)
  /\ Pool2D_backward pool_max_after_int (upstream 5) = Raise UFuncTypeError
  /\ ~ returns (Pool2D_backward pool_max_after_int (upstream 5))
  /\ (exists dX,
        Pool2D_backward pool_max_after_int (upstream_int 5) = Ok dX
        /\ values dX = [0; 5; 0; 0]%Q).
Proof.
  assert (E : Pool2D_backward pool_max_after_int (upstream 5) = Raise UFuncTypeError)
    by (vm_compute; reflexivity).
  split; [reflexivity|]. split; [vm_compute; reflexivity|].
  split; [|split; [exact E|split]].
  - destruct (Pool2D_forward pool_max window_int) as [[L' Y]|e] eqn:EY;
      vm_compute in EY; [|discriminate].
    injection EY as <- <-. eexists. split; vm_compute; reflexivity.
  - intros [r Hr]. rewrite E in Hr. discriminate.
  - destruct (Pool2D_backward pool_max_after_int (upstream_int 5)) as [dX|e] eqn:EdX;
      vm_compute in EdX; [|discriminate].
    injection EdX as <-. eexists. split; vm_compute; reflexivity.
Qed.

(** C10 (as amended).  In max mode, take a window that has at least one
    cell in the padding and whose input cells are all strictly negative.
    Then [forward] returns 0 at that output position; the cell [backward]
    routes the gradient of that position to is a padding cell, so no cell
    of the input is its target; and, for upstream gradients whose masked
    product can be added in place to [dX = np.zeros_like(X_pad)] (a
    floating-point [X], or an integer [X] with integer gradients), the
    gradient [backward] returns does not depend on the upstream gradient at
    that position. *)
Theorem Pool2D_max_padded_window
    (L : Pool2D) (X : ndarray) (B H Wd C kh kw oh ow s p q : nat)
    (b row col k : nat) :
  mode L = PyStr "max" ->
  pool_kernel_shape L = PyTuple (Z.of_nat kh) (Z.of_nat kw) ->
  (0 < kh)%nat -> (0 < kw)%nat ->
  pool_stride L = PyInt (Z.of_nat s) -> (0 < s)%nat ->
  pool_pad L = PyTuple (Z.of_nat p) (Z.of_nat q) ->
  dict_get (cache (pool_base L)) "out_rows" <> None ->
  dict_get (cache (pool_base L)) "out_cols" <> None ->
  shape X = [B; H; Wd; C] ->
  out_size H (Z.of_nat p) (Z.of_nat kh) (Z.of_nat s) = Ok (Z.of_nat oh) ->
  out_size Wd (Z.of_nat q) (Z.of_nat kw) (Z.of_nat s) = Ok (Z.of_nat ow) ->
  (b < B)%nat -> (row < oh)%nat -> (col < ow)%nat -> (k < C)%nat ->
  (forall i j, (i < H)%nat -> (j < Wd)%nat ->
     covers s kh kw row col (i + p) (j + q) = true -> get4 X b i j k < 0) ->
  (exists i j, covers s kh kw row col i j = true /\ is_real H Wd p q i j = false) ->
  exists Y L',
    Pool2D_forward L X = Ok (L', Y)
    /\ get4 Y b row col k = 0
    /\ (let m := argmax (window_cells (padded X p q) s kh kw b row col k) in
        is_argmax_cell (padded X p q) s kh kw b row col k
          (row * s + m / kw) (col * s + m mod kw) = true
        /\ is_real H Wd p q (row * s + m / kw) (col * s + m mod kw) = false)
    /\ (forall i j, (i < H)%nat -> (j < Wd)%nat ->
          is_argmax_cell (padded X p q) s kh kw b row col k (i + p) (j + q) = false)
    /\ (forall dLdY dLdY',
          shape dLdY = [B; oh; ow; C] -> shape dLdY' = [B; oh; ow; C] ->
          can_cast (result_type (dtype X) (dtype dLdY)) (dtype X) = true ->
          can_cast (result_type (dtype X) (dtype dLdY')) (dtype X) = true ->
          (forall b' r c k',
             (b' < B)%nat -> (r < oh)%nat -> (c < ow)%nat -> (k' < C)%nat ->
             (b', r, c, k') <> (b, row, col, k) ->
             get4 dLdY b' r c k' = get4 dLdY' b' r c k') ->
          exists dX dX',
            Pool2D_backward L' dLdY = Ok dX
            /\ Pool2D_backward L' dLdY' = Ok dX'
            /\ shape dX = [B; H; Wd; C] /\ shape dX' = [B; H; Wd; C]
            /\ (forall b' i j k',
                  (b' < B)%nat -> (i < H)%nat -> (j < Wd)%nat -> (k' < C)%nat ->
                  get4 dX b' i j k' = get4 dX' b' i j k')).
Proof.
  intros Hmode Hk Hkh Hkw Hstride Hs Hpad Hrows Hcols HsX Hoh How
         Hb Hrow Hcol Hk' Hneg Hwin.
  destruct (Pool2D_forward_run L X (Some NpMax)
              (fun fwin b k =>
                 match flat_map (fun i => map (fun j => fwin b i j k) (seq 0 kw)) (seq 0 kh)
                 with
                 | [] => 0
                 | x :: l => max_list x l
                 end)
              B H Wd C kh kw oh ow s p q)
    as (Y & EY & HY); try assumption.
  - rewrite Hmode. reflexivity.
  - now apply apply_pool_fn_max.
  - set (L' := pool_with_base L
                 (set_cache (pool_base L) (dict_set (cache (pool_base L)) "X" (Carr X))))
      in *.
    pose proof (padded_window_routes_nothing X B H Wd C kh kw s p q b row col k
                  HsX Hkh Hkw Hneg Hwin) as Hroute.
    exists Y, L'. split; [exact EY|]. split; [|split; [|split; [exact Hroute|]]].
    + rewrite (proj2 HY) by assumption.
      exact (padded_window_max X B H Wd C kh kw s p q b row col k
               HsX Hkh Hkw Hneg Hwin).
    + intros m. split.
      * apply (is_argmax_cell_position (padded X p q) s kh kw b row col k);
          [exact Hkh | exact Hkw | split; reflexivity].
      * exact (padded_window_argmax X B H Wd C kh kw s p q b row col k
                 HsX Hkh Hkw Hneg Hwin).
    + intros dLdY dLdY' Hsdy Hsdy' Hcast Hcast' Hagree.
      assert (HrL : dict_get (cache (pool_base L')) "out_rows" <> None)
        by (unfold L'; simpl; now rewrite dict_get_set_other by discriminate).
      assert (HcL : dict_get (cache (pool_base L')) "out_cols" <> None)
        by (unfold L'; simpl; now rewrite dict_get_set_other by discriminate).
      assert (HXL : dict_get (cache (pool_base L')) "X" = Some (Carr X))
        by (unfold L'; simpl; apply dict_get_set_same).
      destruct (Pool2D_backward_max_closed L' X dLdY B H Wd C kh kw oh ow s p q)
        as (dX & EdX & HdX); try assumption.
      destruct (Pool2D_backward_max_closed L' X dLdY' B H Wd C kh kw oh ow s p q)
        as (dX' & EdX' & HdX'); try assumption.
      exists dX, dX'. split; [exact EdX|]. split; [exact EdX'|].
      split; [exact (proj1 HdX)|]. split; [exact (proj1 HdX')|].
      intros b' i j k0 Hb' Hi Hj Hk0.
      rewrite (proj2 HdX), (proj2 HdX') by assumption.
      apply sum_n_ext; intros r Hr. apply sum_n_ext; intros c Hc.
      destruct (is_argmax_cell (padded X p q) s kh kw b' r c k0 (i + p) (j + q))
        eqn:E; [|reflexivity].
      apply Hagree; try assumption.
      intros Heq. injection Heq as -> -> -> ->.
      rewrite Hroute in E by assumption. discriminate.
Qed.

Lemma Pool2D_max_padded_window_witness :
  exists Y L',
    Pool2D_forward pool_max_padded negative_example = Ok (L', Y)
    /\ get4 Y 0 0 0 0 = 0
    /\ (let m := argmax (window_cells (padded negative_example 1 1) 1 2 2 0 0 0 0) in
        is_argmax_cell (padded negative_example 1 1) 1 2 2 0 0 0 0
          (0 * 1 + m / 2) (0 * 1 + m mod 2) = true
        /\ is_real 2 2 1 1 (0 * 1 + m / 2) (0 * 1 + m mod 2) = false)
    /\ (forall i j, (i < 2)%nat -> (j < 2)%nat ->
          is_argmax_cell (padded negative_example 1 1) 1 2 2 0 0 0 0 (i + 1) (j + 1)
          = false)
    /\ (forall dLdY dLdY',
          shape dLdY = [1; 3; 3; 1]%nat -> shape dLdY' = [1; 3; 3; 1]%nat ->
          can_cast (result_type (dtype negative_example) (dtype dLdY))
            (dtype negative_example) = true ->
          can_cast (result_type (dtype negative_example) (dtype dLdY'))
            (dtype negative_example) = true ->
          (forall b' r c k',
             (b' < 1)%nat -> (r < 3)%nat -> (c < 3)%nat -> (k' < 1)%nat ->
             (b', r, c, k') <> (0, 0, 0, 0)%nat ->
             get4 dLdY b' r c k' = get4 dLdY' b' r c k') ->
          exists dX dX',
            Pool2D_backward L' dLdY = Ok dX
            /\ Pool2D_backward L' dLdY' = Ok dX'
            /\ shape dX = [1; 2; 2; 1]%nat /\ shape dX' = [1; 2; 2; 1]%nat
            /\ (forall b' i j k',
                  (b' < 1)%nat -> (i < 2)%nat -> (j < 2)%nat -> (k' < 1)%nat ->
                  get4 dX b' i j k' = get4 dX' b' i j k')).
Proof.
  assert (Hoh : out_size 2 (Z.of_nat 1) (Z.of_nat 2) (Z.of_nat 1) = Ok (Z.of_nat 3))
    by (vm_compute; reflexivity).
  assert (Hr : dict_get (cache (pool_base pool_max_padded)) "out_rows" <> None)
    by (simpl; discriminate).
  assert (Hc : dict_get (cache (pool_base pool_max_padded)) "out_cols" <> None)
    by (simpl; discriminate).
  assert (Hneg : forall i j, (i < 2)%nat -> (j < 2)%nat ->
            covers 1 2 2 0 0 (i + 1) (j + 1) = true ->
            get4 negative_example 0 i j 0 < 0).
  { intros i j Hi Hj _.
    destruct i as [|[|i]]; [| |lia]; (destruct j as [|[|j]]; [| |lia]);
      vm_compute; reflexivity. }
  assert (Hwin : exists i j, covers 1 2 2 0 0 i j = true /\ is_real 2 2 1 1 i j = false).
  { exists 0%nat, 0%nat. split; reflexivity. }
  exact (Pool2D_max_padded_window pool_max_padded negative_example
           1 2 2 1 2 2 3 3 1 1 1 0 0 0 0
           eq_refl eq_refl (le_S 1 1 (le_n 1)) (le_S 1 1 (le_n 1)) eq_refl (le_n 1)
           eq_refl Hr Hc eq_refl Hoh Hoh (le_n 1) (le_S 1 2 (le_S 1 1 (le_n 1)))
           (le_S 1 2 (le_S 1 1 (le_n 1))) (le_n 1) Hneg Hwin).
Defined.

(** A window that lies inside the input (padding 1, output position (1, 1)
    of a 2x2 input): all its cells are negative, yet the output is their
    maximum, not 0, and the gradient of the position reaches the input.
    And the same input built from Python integers: [forward] returns the
    same values, and [backward] with a floating-point upstream gradient
    raises [UFuncTypeError] instead of returning a gradient. *)
Lemma Pool2D_max_interior_window :
  (forall i j, (i < 2)%nat -> (j < 2)%nat -> get4 negative_example 0 i j 0 < 0)
  /\ pool_pad pool_max_padded = PyTuple 1 1
  /\ (exists Y dX,
       Pool2D_forward pool_max_padded negative_example = Ok (pool_max_padded_after, Y)
       /\ values Y = [0; 0; 0; 0; -1; 0; 0; 0; 0]%Q
       /\ get4 Y 0 1 1 0 <> 0
       /\ Pool2D_backward pool_max_padded_after (ones [1; 3; 3; 1]%nat) = Ok dX
       /\ values dX = [1; 0; 0; 0]%Q)
  /\ (exists Y,
       Pool2D_forward pool_max_padded negative_int = Ok (pool_max_padded_after_int, Y)
       /\ values Y = [0; 0; 0; 0; -1; 0; 0; 0; 0]%Q
       /\ Pool2D_backward pool_max_padded_after_int (ones [1; 3; 3; 1]%nat)
          = Raise UFuncTypeError).
Proof.
  split; [|split; [reflexivity|split]].
  - intros i j Hi Hj.
    destruct i as [|[|i]]; [| |lia]; (destruct j as [|[|j]]; [| |lia]);
      vm_compute; reflexivity.
  - destruct (Pool2D_forward pool_max_padded negative_example) as [[L' Y]|e] eqn:E;
      vm_compute in E; [|discriminate].
    injection E as <- <-.
    destruct (Pool2D_backward pool_max_padded_after (ones [1; 3; 3; 1]%nat))
      as [dX|e] eqn:E; vm_compute in E; [|discriminate].
    injection E as <-.
    do 2 eexists. repeat split; try (vm_compute; reflexivity).
    vm_compute. discriminate.
  - destruct (Pool2D_forward pool_max_padded negative_int) as [[L' Y]|e] eqn:E;
      vm_compute in E; [|discriminate].
    injection E as <- <-. eexists. split; [reflexivity|].
    split; vm_compute; reflexivity.
Qed.

(** ** Sums: linearity, exchange, change of index *)

Lemma sum_n_add (n : nat) (f g : nat -> Qc) :
  sum_n n (fun i => f i + g i) = sum_n n f + sum_n n g.
Proof.
  induction n as [|n IH]; [unfold sum_n; simpl; ring|].
  rewrite !sum_n_S, IH. ring.
Qed.

Lemma sum_n_mul_l (n : nat) (c : Qc) (f : nat -> Qc) :
  sum_n n (fun i => c * f i) = c * sum_n n f.
Proof.
  induction n as [|n IH]; [unfold sum_n; simpl; ring|].
  rewrite !sum_n_S, IH. ring.
Qed.

Lemma sum_n_mul_r (n : nat) (c : Qc) (f : nat -> Qc) :
  sum_n n (fun i => f i * c) = sum_n n f * c.
Proof.
  induction n as [|n IH]; [unfold sum_n; simpl; ring|].
  rewrite !sum_n_S, IH. ring.
Qed.

Lemma sum_n_swap (n m : nat) (f : nat -> nat -> Qc) :
  sum_n n (fun i => sum_n m (fun j => f i j))
  = sum_n m (fun j => sum_n n (fun i => f i j)).
Proof.
  induction n as [|n IH].
  - symmetry. apply sum_n_zero. reflexivity.
  - rewrite sum_n_S, IH, <- sum_n_add. apply sum_n_ext. intros j _.
    now rewrite sum_n_S.
Qed.

Lemma sum_n_if (n : nat) (c : bool) (f : nat -> Qc) :
  sum_n n (fun i => if c then f i else 0) = if c then sum_n n f else 0.
Proof.
  destruct c; [reflexivity|]. apply sum_n_zero. reflexivity.
Qed.

(** A step under the binders of [d] nested sums. *)
Tactic Notation "step_at" integer(d) tactic3(tac) :=
  etransitivity; [do d (apply sum_n_ext; intros ? ?); tac | cbv beta].

(** Two ways of listing the pairs [(i, i')] with [i + a = b + i']. *)
Lemma sum_n_match (n m a b : nat) (F : nat -> nat -> Qc) :
  sum_n n (fun i =>
    if (b <=? i + a) && (i + a <? b + m) then F i (i + a - b)%nat else 0)
  = sum_n m (fun i' =>
      if (a <=? b + i') && (b + i' <? a + n) then F (b + i' - a)%nat i' else 0).
Proof.
  transitivity (sum_n n (fun i => sum_n m (fun i' =>
                  if (i + a =? b + i')%nat then F i i' else 0))).
  - apply sum_n_ext. intros i Hi.
    destruct ((b <=? i + a) && (i + a <? b + m)) eqn:E.
    + apply andb_true_iff in E. destruct E as [E1 E2].
      apply Nat.leb_le in E1. apply Nat.ltb_lt in E2.
      rewrite (sum_n_single m (i + a - b)).
      * replace (b + (i + a - b))%nat with (i + a)%nat by lia.
        now rewrite Nat.eqb_refl.
      * lia.
      * intros i' Hi' Hne. destruct (Nat.eqb_spec (i + a) (b + i')); [lia | reflexivity].
    + symmetry. apply sum_n_zero. intros i' Hi'.
      destruct (Nat.eqb_spec (i + a) (b + i')) as [Heq|]; [|reflexivity].
      exfalso. apply andb_false_iff in E.
      destruct E as [E|E]; [apply Nat.leb_gt in E | apply Nat.ltb_ge in E]; lia.
  - rewrite sum_n_swap. apply sum_n_ext. intros i' Hi'.
    destruct ((a <=? b + i') && (b + i' <? a + n)) eqn:E.
    + apply andb_true_iff in E. destruct E as [E1 E2].
      apply Nat.leb_le in E1. apply Nat.ltb_lt in E2.
      rewrite (sum_n_single n (b + i' - a)).
      * replace (b + i' - a + a)%nat with (b + i')%nat by lia.
        now rewrite Nat.eqb_refl.
      * lia.
      * intros i Hi Hne. destruct (Nat.eqb_spec (i + a) (b + i')); [lia | reflexivity].
    + apply sum_n_zero. intros i Hi.
      destruct (Nat.eqb_spec (i + a) (b + i')) as [Heq|]; [|reflexivity].
      exfalso. apply andb_false_iff in E.
      destruct E as [E|E]; [apply Nat.leb_gt in E | apply Nat.ltb_ge in E]; lia.
Qed.

(** The cells of the input that a window covers, listed from the input and
    from the window. *)
Lemma sum_n_match2 (H Wd kh kw s p q row col : nat)
    (G : nat -> nat -> nat -> nat -> Qc) :
  sum_n H (fun i => sum_n Wd (fun j =>
    if covers s kh kw row col (i + p) (j + q)
    then G i j (i + p - row * s)%nat (j + q - col * s)%nat else 0))
  = sum_n kh (fun i' => sum_n kw (fun j' =>
      if is_real H Wd p q (row * s + i') (col * s + j')
      then G (row * s + i' - p)%nat (col * s + j' - q)%nat i' j' else 0)).
Proof.
  transitivity
    (sum_n H (fun i =>
       if (row * s <=? i + p) && (i + p <? row * s + kh)
       then sum_n Wd (fun j =>
              if (col * s <=? j + q) && (j + q <? col * s + kw)
              then G i j (i + p - row * s)%nat (j + q - col * s)%nat else 0)
       else 0)).
  { apply sum_n_ext. intros i Hi. rewrite <- sum_n_if.
    apply sum_n_ext. intros j Hj. unfold covers.
    destruct ((row * s <=? i + p) && (i + p <? row * s + kh)); [|reflexivity].
    cbn [andb].
    destruct (col * s <=? j + q); reflexivity. }
  rewrite (sum_n_match H kh p (row * s)
             (fun i i' => sum_n Wd (fun j =>
                if (col * s <=? j + q) && (j + q <? col * s + kw)
                then G i j i' (j + q - col * s)%nat else 0))).
  apply sum_n_ext. intros i' Hi'.
  rewrite (sum_n_match Wd kw q (col * s)
             (fun j j' => G (row * s + i' - p)%nat j i' j')).
  rewrite <- sum_n_if. apply sum_n_ext. intros j' Hj'. unfold is_real.
  destruct ((p <=? row * s + i') && (row * s + i' <? p + H)); [|reflexivity].
  cbn [andb].
  destruct (q <=? col * s + j'); reflexivity.
Qed.

(** ** The backward sums against the forward sums *)

Lemma padded_cases (X : ndarray) (B H W C p q b i j k : nat) :
  shape X = [B; H; W; C] ->
  padded X p q b i j k
  = if is_real H W p q i j then get4 X b (i - p) (j - q) k else 0.
Proof. intros Hs. unfold padded, is_real. now rewrite Hs. Qed.

Lemma conv_adjoint_input (X' : ndarray) (B H Wd C kh kw Co oh ow s p q : nat)
    (w dz : nat -> nat -> nat -> nat -> Qc) :
  shape X' = [B; H; Wd; C] ->
  sum_n B (fun b => sum_n H (fun i => sum_n Wd (fun j => sum_n C (fun k =>
    sum_n oh (fun row => sum_n ow (fun col => sum_n Co (fun ch =>
      if covers s kh kw row col (i + p) (j + q)
      then w (i + p - row * s)%nat (j + q - col * s)%nat k ch * dz b row col ch
      else 0)))
    * get4 X' b i j k))))
  = sum_n B (fun b => sum_n oh (fun row => sum_n ow (fun col => sum_n Co (fun ch =>
      dz b row col ch * conv_at (padded X' p q) w kh kw C s b row col ch)))).
Proof.
  intros HsX. apply sum_n_ext. intros b Hb.
  step_at 3 (symmetry; apply sum_n_mul_r).
  step_at 4 (symmetry; apply sum_n_mul_r).
  step_at 5 (symmetry; apply sum_n_mul_r).
  step_at 2 (apply sum_n_swap). step_at 1 (apply sum_n_swap). rewrite sum_n_swap.
  apply sum_n_ext. intros row Hrow.
  step_at 2 (apply sum_n_swap). step_at 1 (apply sum_n_swap). rewrite sum_n_swap.
  apply sum_n_ext. intros col Hcol.
  step_at 2 (apply sum_n_swap). step_at 1 (apply sum_n_swap). rewrite sum_n_swap.
  apply sum_n_ext. intros ch Hch.
  pose (G := fun i j i' j' : nat =>
               sum_n C (fun k => w i' j' k ch * dz b row col ch * get4 X' b i j k)).
  transitivity
    (sum_n H (fun i => sum_n Wd (fun j =>
       if covers s kh kw row col (i + p) (j + q)
       then G i j (i + p - row * s)%nat (j + q - col * s)%nat else 0))).
  { apply sum_n_ext. intros i Hi. apply sum_n_ext. intros j Hj.
    destruct (covers s kh kw row col (i + p) (j + q)); [reflexivity|].
    apply sum_n_zero. intros k Hk. ring. }
  rewrite sum_n_match2. unfold conv_at.
  rewrite <- sum_n_mul_l. apply sum_n_ext. intros i' Hi'.
  rewrite <- sum_n_mul_l. apply sum_n_ext. intros j' Hj'.
  rewrite <- sum_n_mul_l.
  destruct (is_real H Wd p q (row * s + i') (col * s + j')) eqn:E.
  - apply sum_n_ext. intros k Hk.
    rewrite (padded_cases X' B H Wd C) by exact HsX. rewrite E. ring.
  - symmetry. apply sum_n_zero. intros k Hk.
    rewrite (padded_cases X' B H Wd C) by exact HsX. rewrite E. ring.
Qed.

Lemma conv_adjoint_kernel (B C kh kw Co oh ow s : nat)
    (fx dz v : nat -> nat -> nat -> nat -> Qc) :
  sum_n kh (fun i => sum_n kw (fun j => sum_n C (fun k => sum_n Co (fun ch =>
    sum_n oh (fun row => sum_n ow (fun col => sum_n B (fun b =>
      fx b (row * s + i)%nat (col * s + j)%nat k * dz b row col ch)))
    * v i j k ch))))
  = sum_n B (fun b => sum_n oh (fun row => sum_n ow (fun col => sum_n Co (fun ch =>
      dz b row col ch * conv_at fx v kh kw C s b row col ch)))).
Proof.
  step_at 4 (symmetry; apply sum_n_mul_r).
  step_at 5 (symmetry; apply sum_n_mul_r).
  step_at 6 (symmetry; apply sum_n_mul_r).
  (* i j k ch row col b  ->  b i j k ch row col *)
  step_at 5 (apply sum_n_swap). step_at 4 (apply sum_n_swap).
  step_at 3 (apply sum_n_swap). step_at 2 (apply sum_n_swap).
  step_at 1 (apply sum_n_swap). rewrite sum_n_swap.
  apply sum_n_ext. intros b Hb.
  (* i j k ch row col  ->  row i j k ch col *)
  step_at 3 (apply sum_n_swap). step_at 2 (apply sum_n_swap).
  step_at 1 (apply sum_n_swap). rewrite sum_n_swap.
  apply sum_n_ext. intros row Hrow.
  (* i j k ch col  ->  col i j k ch *)
  step_at 3 (apply sum_n_swap). step_at 2 (apply sum_n_swap).
  step_at 1 (apply sum_n_swap). rewrite sum_n_swap.
  apply sum_n_ext. intros col Hcol.
  (* i j k ch  ->  ch i j k *)
  step_at 2 (apply sum_n_swap). step_at 1 (apply sum_n_swap). rewrite sum_n_swap.
  apply sum_n_ext. intros ch Hch.
  unfold conv_at.
  rewrite <- sum_n_mul_l. apply sum_n_ext. intros i Hi.
  rewrite <- sum_n_mul_l. apply sum_n_ext. intros j Hj.
  rewrite <- sum_n_mul_l. apply sum_n_ext. intros k Hk. ring.
Qed.

Lemma adjoint_bias (B oh ow Co : nat) (dz : nat -> nat -> nat -> nat -> Qc)
    (beta : nat -> Qc) :
  sum_n Co (fun ch =>
    sum_n B (fun b => sum_n oh (fun row => sum_n ow (fun col => dz b row col ch)))
    * beta ch)
  = sum_n B (fun b => sum_n oh (fun row => sum_n ow (fun col => sum_n Co (fun ch =>
      dz b row col ch * beta ch)))).
Proof.
  step_at 1 (symmetry; apply sum_n_mul_r).
  step_at 2 (symmetry; apply sum_n_mul_r).
  step_at 3 (symmetry; apply sum_n_mul_r).
  rewrite sum_n_swap. apply sum_n_ext. intros b Hb.
  rewrite sum_n_swap. apply sum_n_ext. intros row Hrow.
  rewrite sum_n_swap. reflexivity.
Qed.

Lemma pool_average_adjoint (X' : ndarray) (B H Wd C kh kw oh ow s p q : nat)
    (dy : nat -> nat -> nat -> nat -> Qc) :
  shape X' = [B; H; Wd; C] ->
  sum_n B (fun b => sum_n H (fun i => sum_n Wd (fun j => sum_n C (fun k =>
    sum_n oh (fun row => sum_n ow (fun col =>
      if covers s kh kw row col (i + p) (j + q)
      then dy b row col k / of_int (Z.of_nat (kh * kw)) else 0))
    * get4 X' b i j k))))
  = sum_n B (fun b => sum_n oh (fun row => sum_n ow (fun col => sum_n C (fun k =>
      dy b row col k * mean_at (padded X' p q) s kh kw b row col k)))).
Proof.
  intros HsX. apply sum_n_ext. intros b Hb.
  step_at 3 (symmetry; apply sum_n_mul_r).
  step_at 4 (symmetry; apply sum_n_mul_r).
  (* i j k row col -> row col k i j *)
  step_at 2 (apply sum_n_swap). step_at 1 (apply sum_n_swap). rewrite sum_n_swap.
  apply sum_n_ext. intros row Hrow.
  step_at 2 (apply sum_n_swap). step_at 1 (apply sum_n_swap). rewrite sum_n_swap.
  apply sum_n_ext. intros col Hcol.
  step_at 1 (apply sum_n_swap). rewrite sum_n_swap.
  apply sum_n_ext. intros k Hk.
  pose (G := fun i j (_ _ : nat) =>
               dy b row col k / of_int (Z.of_nat (kh * kw)) * get4 X' b i j k).
  transitivity
    (sum_n H (fun i => sum_n Wd (fun j =>
       if covers s kh kw row col (i + p) (j + q)
       then G i j (i + p - row * s)%nat (j + q - col * s)%nat else 0))).
  { apply sum_n_ext. intros i Hi. apply sum_n_ext. intros j Hj.
    destruct (covers s kh kw row col (i + p) (j + q)); [reflexivity | ring]. }
  rewrite sum_n_match2. unfold G.
  transitivity
    (sum_n kh (fun i' => sum_n kw (fun j' =>
       dy b row col k / of_int (Z.of_nat (kh * kw))
       * padded X' p q b (row * s + i')%nat (col * s + j')%nat k))).
  { apply sum_n_ext. intros i' Hi'. apply sum_n_ext. intros j' Hj'.
    rewrite (padded_cases X' B H Wd C) by exact HsX.
    destruct (is_real H Wd p q (row * s + i') (col * s + j')); ring. }
  step_at 1 (apply sum_n_mul_l). rewrite sum_n_mul_l.
  unfold mean_at, Qcdiv. ring.
Qed.

(** ** Closed forms of the backward passes with parameters *)

Lemma FullyConnected_backward_closed
    (L : FullyConnected) (X Zc Wt bt dLdY : ndarray) (act : Activation) (B n m : nat) :
  activation (fc_base L) = Some act ->
  dict_get (parameters (fc_base L)) "W" = Some Wt ->
  dict_get (parameters (fc_base L)) "b" = Some bt ->
  dict_get (cache (fc_base L)) "X" = Some (Carr X) ->
  dict_get (cache (fc_base L)) "Z" = Some (Carr Zc) ->
  shape X = [B; n] -> shape Wt = [n; m] ->
  shape (act_backward act Zc dLdY) = [B; m] ->
  let dZ := act_backward act Zc dLdY in
  exists dX dW dB,
    FullyConnected_backward L dLdY
    = Ok (fc_with_base L (set_gradients (fc_base L)
            (dict_set (dict_set (gradients (fc_base L)) "W" dW) "b" dB)), dX)
    /\ is2 dX B n (fun i l => sum_n m (fun j => get2 dZ i j * get2 Wt l j))
    /\ is2 dW n m (fun l j => sum_n B (fun i => get2 X i l * get2 dZ i j))
    /\ is2 dB 1 m (fun _ j => sum_n B (fun i => get2 dZ i j)).
Proof.
  intros Hact HW Hb HX HZ HsX HsW HsdZ dZ.
  unfold FullyConnected_backward, dict_item.
  rewrite HW, Hb, HX, HZ. cbn [bind]. rewrite Hact.
  cbn [activation_backward as_array bind]. fold dZ.
  pose proof (is2_get2 dZ B m HsdZ) as HdZ.
  destruct (np_matmul_is2 dZ (np_T Wt) B m n _ _ HdZ
              (np_T_is2 Wt n m _ (is2_get2 Wt n m HsW))) as (dX & EdX & HdX).
  rewrite EdX. cbn [bind].
  destruct (np_matmul_is2 (np_T X) dZ n B m _ _
              (np_T_is2 X B n _ (is2_get2 X B n HsX)) HdZ) as (dW & EdW & HdW).
  rewrite EdW. cbn [bind].
  destruct (np_sum_0_keepdims_is2 dZ B m _ HdZ) as (dB & EdB & HdB).
  rewrite EdB. cbn [bind].
  exists dX, dW, dB. repeat split; try assumption; apply HdX || apply HdW || apply HdB.
Qed.

(** ** Closed forms of the forward passes with parameters *)

Lemma FullyConnected_forward_closed
    (L0 L : FullyConnected) (X Wt bt : ndarray) (act : Activation) (B n m : nat) :
  match n_in (fc_base L0) with
  | None => FullyConnected_init_parameters L0 (shape X)
  | Some _ => Ok L0
  end = Ok L ->
  activation (fc_base L) = Some act ->
  dict_get (parameters (fc_base L)) "W" = Some Wt ->
  dict_get (parameters (fc_base L)) "b" = Some bt ->
  shape X = [B; n] -> shape Wt = [n; m] -> shape bt = [1; m]%nat ->
  exists Zf,
    FullyConnected_forward L0 X
    = Ok (fc_with_base L (set_cache (fc_base L)
            (dict_set (dict_set (cache (fc_base L)) "Z" (Carr Zf)) "X" (Carr X))),
          act_forward act Zf)
    /\ is2 Zf B m
         (fun i j => sum_n n (fun l => get2 X i l * get2 Wt l j) + get2 bt 0%nat j).
Proof.
  intros Hinit Hact HW Hb HsX HsW Hsb.
  unfold FullyConnected_forward. rewrite Hinit. cbn [bind].
  unfold dict_item. rewrite HW, Hb. cbn [bind].
  destruct (np_matmul_is2 X Wt B n m _ _ (is2_get2 X B n HsX) (is2_get2 Wt n m HsW))
    as (XW & EXW & HXW).
  rewrite EXW. cbn [bind].
  destruct (np_add_row_is2 XW bt B m _ _ HXW (is2_get2 bt 1 m Hsb)) as (Zf & EZ & HZ).
  rewrite EZ. cbn [bind]. rewrite Hact. cbn [call_activation bind].
  exists Zf. split; [reflexivity | exact HZ].
Qed.
(** * Conv2D: output extent *)

Lemma out_size_nat (n p k s : nat) :
  (0 < s)%nat -> (k <= n + 2 * p)%nat ->
  out_size n (Z.of_nat p) (Z.of_nat k) (Z.of_nat s)
  = Ok (Z.of_nat ((n + 2 * p - k) / s + 1)).
Proof.
  intros Hs Hk. rewrite out_size_fits by lia. f_equal.
  rewrite Nat2Z.inj_add, Nat2Z.inj_div, Nat2Z.inj_sub by lia.
  rewrite Nat2Z.inj_add, Nat2Z.inj_mul. reflexivity.
Qed.

(** C5 (as amended).  When the kernel fits inside the padded input
    ([kh <= H + 2*pad_h], [kw <= W + 2*pad_w]) and the stride is positive,
    the array [Z] of which [forward] returns the activation has shape
    [B, out_h, out_w, n_out] with
    [out_h = floor((H + 2*pad_h - kh) / stride) + 1] and [out_w] likewise
    ([/] on integers is the floor of the quotient).  On a 7x7 input, a fresh
    layer with a 3x3 kernel and stride 2 returns a 3x3 output for the
    padding "valid", which [_init_parameters] resolves to 0, and a 4x4
    output for "same", which it resolves to 1. *)
Theorem Conv2D_output_size
    (junk : nat -> Qc) (L0 L : Conv2D) (X Wt bt : ndarray) (act : Activation)
    (B H Wd C kh kw Co s p q : nat) :
  match n_in (base L0) with
  | None => Conv2D_init_parameters L0 (shape X)
  | Some _ => Ok L0
  end = Ok L ->
  activation (base L) = Some act ->
  dict_get (parameters (base L)) "W" = Some Wt ->
  dict_get (parameters (base L)) "b" = Some bt ->
  shape Wt = [kh; kw; C; Co] ->
  shape bt = [1; Co]%nat ->
  shape X = [B; H; Wd; C] ->
  pad L = PyTuple (Z.of_nat p) (Z.of_nat q) ->
  stride L = PyInt (Z.of_nat s) ->
  (0 < s)%nat -> (kh <= H + 2 * p)%nat -> (kw <= Wd + 2 * q)%nat ->
  (exists Zf L' oh ow,
     Conv2D_forward junk L0 X = Ok (L', act_forward act Zf)
     /\ shape Zf = [B; oh; ow; Co]
     /\ Z.of_nat oh
        = ((Z.of_nat H + 2 * Z.of_nat p - Z.of_nat kh) / Z.of_nat s + 1)%Z
     /\ Z.of_nat ow
        = ((Z.of_nat Wd + 2 * Z.of_nat q - Z.of_nat kw) / Z.of_nat s + 1)%Z)
  /\ (exists L' Y,
        Conv2D_forward junk (conv_stride2 (PyStr "valid")) input_7x7 = Ok (L', Y)
        /\ pad L' = PyTuple 0 0
        /\ shape Y = [1; 3; 3; 1]%nat)
  /\ (exists L' Y,
        Conv2D_forward junk (conv_stride2 (PyStr "same")) input_7x7 = Ok (L', Y)
        /\ pad L' = PyTuple 1 1
        /\ shape Y = [1; 4; 4; 1]%nat).
Proof.
  intros Hinit Hact HW Hb HsW Hsb HsX Hpad Hstride Hs Hkh Hkw.
  split; [|split].
  - destruct (Conv2D_forward_closed junk L0 L X Wt bt act B H Wd C kh kw Co
                ((H + 2 * p - kh) / s + 1) ((Wd + 2 * q - kw) / s + 1) s p q
                Hinit Hact HW Hb HsW Hsb HsX Hpad Hstride Hs
                (out_size_nat H p kh s Hs Hkh) (out_size_nat Wd q kw s Hs Hkw))
      as (Zf & E & HZ & _).
    exists Zf. eexists. exists ((H + 2 * p - kh) / s + 1)%nat,
                               ((Wd + 2 * q - kw) / s + 1)%nat.
    split; [exact E|]. split; [exact (proj1 HZ)|].
    split; rewrite Nat2Z.inj_add, Nat2Z.inj_div, Nat2Z.inj_sub by lia;
      rewrite Nat2Z.inj_add, Nat2Z.inj_mul; reflexivity.
  - destruct (Conv2D_forward_closed junk (conv_stride2 (PyStr "valid"))
                (conv_stride2_ready 0) input_7x7 kernel_3x3 (np_zeros [1; 1]%nat)
                identity_activation 1 7 7 1 3 3 1 3 3 2 0 0)
      as (Zf & E & HZ & _); try reflexivity; try lia.
    rewrite E. do 2 eexists. split; [reflexivity|].
    split; [reflexivity | exact (proj1 HZ)].
  - destruct (Conv2D_forward_closed junk (conv_stride2 (PyStr "same"))
                (conv_stride2_ready 1) input_7x7 kernel_3x3 (np_zeros [1; 1]%nat)
                identity_activation 1 7 7 1 3 3 1 4 4 2 1 1)
      as (Zf & E & HZ & _); try reflexivity; try lia.
    rewrite E. do 2 eexists. split; [reflexivity|].
    split; [reflexivity | exact (proj1 HZ)].
Qed.

Lemma Conv2D_output_size_witness :
  (0 < 2)%nat /\ (3 <= 7 + 2 * 1)%nat
  /\ exists Zf L' oh ow,
       Conv2D_forward (fun _ => 0) (conv_stride2 (PyStr "same")) input_7x7
       = Ok (L', act_forward identity_activation Zf)
       /\ shape Zf = [1; oh; ow; 1]%nat
       /\ Z.of_nat oh
          = ((Z.of_nat 7 + 2 * Z.of_nat 1 - Z.of_nat 3) / Z.of_nat 2 + 1)%Z
       /\ Z.of_nat ow
          = ((Z.of_nat 7 + 2 * Z.of_nat 1 - Z.of_nat 3) / Z.of_nat 2 + 1)%Z.
Proof.
  assert (Hinit : match n_in (base (conv_stride2 (PyStr "same"))) with
                  | None => Conv2D_init_parameters (conv_stride2 (PyStr "same"))
                              (shape input_7x7)
                  | Some _ => Ok (conv_stride2 (PyStr "same"))
                  end = Ok (conv_stride2_ready 1)) by (vm_compute; reflexivity).
  assert (Hs : (0 < 2)%nat) by lia.
  assert (Hk : (3 <= 7 + 2 * 1)%nat) by lia.
  split; [exact Hs|]. split; [exact Hk|].
  exact (proj1 (Conv2D_output_size (fun _ => 0) (conv_stride2 (PyStr "same"))
                  (conv_stride2_ready 1) input_7x7 kernel_3x3 (np_zeros [1; 1]%nat)
                  identity_activation 1 7 7 1 3 3 1 2 1 1
                  Hinit eq_refl eq_refl eq_refl eq_refl eq_refl eq_refl eq_refl eq_refl
                  Hs Hk Hk)).
Defined.

(** The two runs on the 7x7 input, evaluated. *)
Example Conv2D_output_size_example :
  resolve_pad (PyStr "valid") (Ok 3%Z) (Ok 3%Z) = Ok (PyTuple 0 0)
  /\ resolve_pad (PyStr "same") (Ok 3%Z) (Ok 3%Z) = Ok (PyTuple 1 1)
  /\ out_size 7 0 3 2 = Ok 3%Z /\ out_size 7 1 3 2 = Ok 4%Z
  /\ (exists L' Y,
        Conv2D_forward (fun _ => 0) (conv_stride2 (PyStr "valid")) input_7x7
        = Ok (L', Y)
        /\ shape Y = [1; 3; 3; 1]%nat /\ length (data Y) = 9%nat)
  /\ (exists L' Y,
        Conv2D_forward (fun _ => 0) (conv_stride2 (PyStr "same")) input_7x7
        = Ok (L', Y)
        /\ shape Y = [1; 4; 4; 1]%nat /\ length (data Y) = 16%nat).
Proof.
  repeat (split; [vm_compute; reflexivity|]). split.
  - destruct (Conv2D_forward (fun _ => 0) (conv_stride2 (PyStr "valid")) input_7x7)
      as [[L' Y]|e] eqn:E; vm_compute in E; [|discriminate].
    injection E as <- <-. do 2 eexists. repeat split.
  - destruct (Conv2D_forward (fun _ => 0) (conv_stride2 (PyStr "same")) input_7x7)
      as [[L' Y]|e] eqn:E; vm_compute in E; [|discriminate].
    injection E as <- <-. do 2 eexists. repeat split.
Qed.

(** A kernel that exceeds the padded input by more than the stride: [int]
    truncates towards zero where the formula rounds down.  For a 1x1 input,
    a 4x4 kernel and stride 2, [forward] returns an array with no rows and
    no columns, where the formula gives -1. *)
Lemma out_size_truncates :
  out_size 1 0 4 2 = Ok 0%Z
  /\ ((Z.of_nat 1 + 2 * 0 - 4) / 2 + 1 = -1)%Z
  /\ out_size 1 0 4 2 <> Ok ((Z.of_nat 1 + 2 * 0 - 4) / 2 + 1)%Z
  /\ exists L' Y,
       Conv2D_forward (fun _ => 0) conv_wide tiny_input = Ok (L', Y)
       /\ shape Y = [1; 0; 0; 1]%nat.
Proof.
  split; [vm_compute; reflexivity|]. split; [reflexivity|].
  split; [vm_compute; discriminate|].
  destruct (Conv2D_forward (fun _ => 0) conv_wide tiny_input) as [[L' Y]|e] eqn:E;
    vm_compute in E; [|discriminate].
  injection E as <- <-. do 2 eexists. split; reflexivity.
Qed.

(** * Further properties of the layers *)

(** X1.  When [Conv2D._init_parameters] returns, the layer is initialised:
    [n_in] is the input's channel count; the parameters are ["W"], as the
    initialiser returned it for the shape [(kh, kw, n_in, n_out)], and
    ["b"], zeros of shape [(1, n_out)]; the gradients have the same keys in
    the same order, each a zero array of its parameter's shape; the cache
    holds two empty lists; and [pad] is a pair. *)
Theorem Conv2D_init_parameters_state (L L' : Conv2D) (X_shape : list nat) :
  Conv2D_init_parameters L X_shape = Ok L' ->
  exists c kh kw n W b,
    nth_error X_shape 3 = Some c
    /\ n_in (base L') = Some c
    /\ kernel_shape L = PyTuple kh kw /\ n_out (base L) = PyInt n
    /\ init_weights L [kh; kw; Z.of_nat c; n] = Ok W
    /\ parameters (base L') = [("W", W); ("b", b)]
    /\ shape b = [1%nat; Z.to_nat n] /\ Forall (fun x => x = 0) (data b)
    /\ keys (gradients (base L')) = keys (parameters (base L'))
    /\ (forall k P, dict_get (parameters (base L')) k = Some P ->
          exists G, dict_get (gradients (base L')) k = Some G
                    /\ shape G = shape P /\ Forall (fun x => x = 0) (data G))
    /\ cache (base L') = [("Z", Clist []); ("X", Clist [])]
    /\ (exists p q, pad L' = PyTuple p q)
    /\ kernel_shape L' = kernel_shape L /\ stride L' = stride L
    /\ activation (base L') = activation (base L).
Proof.
  intros H. apply Conv2D_init_parameters_ok in H.
  destruct H as (c & kh & kw & n & W & a & b & Hc & Hk & Hn & Hn0 & HW & Hp & ->).
  exists c, kh, kw, n, W, (np_zeros [1%nat; Z.to_nat n]).
  cbn [base with_pad with_base parameters gradients cache n_in pad kernel_shape
       stride activation].
  repeat split; try assumption; try reflexivity.
  - apply size_repeat_zero.
  - intros k P. cbn [dict_get].
    destruct (String.eqb "W" k).
    + intros E. injection E as <-. eexists. split; [reflexivity|].
      split; [reflexivity | apply size_repeat_zero].
    + destruct (String.eqb "b" k); [|discriminate].
      intros E. injection E as <-. eexists. split; [reflexivity|].
      split; [reflexivity | apply size_repeat_zero].
  - eauto.
Qed.

Lemma Conv2D_init_parameters_state_witness :
  Conv2D_init_parameters conv_example (shape conv_input) = Ok conv_ready
  /\ n_in (base conv_ready) = Some 1%nat
  /\ keys (gradients (base conv_ready)) = keys (parameters (base conv_ready)).
Proof.
  assert (H : Conv2D_init_parameters conv_example (shape conv_input) = Ok conv_ready)
    by (vm_compute; reflexivity).
  split; [exact H|].
  destruct (Conv2D_init_parameters_state conv_example conv_ready (shape conv_input) H)
    as (c & kh & kw & n & W & b & Hc & Hn & _ & _ & _ & _ & _ & _ & Hk & _).
  split; [reflexivity | exact Hk].
Defined.

(** X2.  The constructor of [Conv2D] stores [pad] without looking at it.
    A padding that is neither "same", "valid" nor an integer makes the
    first [forward] call raise; when the steps before the padding check
    succeed, the exception is the [ValueError] of [_init_parameters]. *)
Theorem Conv2D_invalid_pad (junk : nat -> Qc) (L : Conv2D) (X : ndarray) :
  n_in (base L) = None ->
  is_str (pad L) "same" = false -> is_str (pad L) "valid" = false ->
  (forall p, pad L <> PyInt p) ->
  raises (Conv2D_forward junk L X)
  /\ (forall c kh kw n W,
        nth_error (shape X) 3 = Some c ->
        kernel_shape L = PyTuple kh kw ->
        n_out (base L) = PyInt n -> (0 <= n)%Z ->
        init_weights L [kh; kw; Z.of_nat c; n] = Ok W ->
        Conv2D_forward junk L X
        = Raise (ValueError "invalid Pad mode found in self.pad.")).
Proof.
  intros Hn Hs Hv Hi. split.
  - destruct (Conv2D_forward junk L X) as [[L' Y]|e] eqn:E; [|now exists e].
    exfalso. apply Conv2D_forward_ok in E.
    destruct E as (L1 & _ & _ & Hinit & _). rewrite Hn in Hinit.
    apply Conv2D_init_parameters_ok in Hinit.
    destruct Hinit as (c & kh & kw & n & W & a & b & _ & _ & _ & _ & _ & Hp & _).
    rewrite (resolve_pad_invalid (pad L) kh kw Hs Hv Hi) in Hp. discriminate.
  - intros c kh kw n W Hc Hk Hno Hn0 HW.
    unfold Conv2D_forward. rewrite Hn. unfold Conv2D_init_parameters.
    rewrite Hc, Hk, Hno. cbn [as_tuple as_int bind]. rewrite HW. cbn [bind].
    cbn [shape_of_ints]. destruct (Z.ltb_spec n 0); [lia|]. cbn [bind].
    rewrite (resolve_pad_invalid (pad L) kh kw Hs Hv Hi). reflexivity.
Qed.

Lemma Conv2D_invalid_pad_witness :
  Conv2D_forward (fun _ => 0) conv_bad_pad conv_input
  = Raise (ValueError "invalid Pad mode found in self.pad.").
Proof.
  assert (Hi : forall p, pad conv_bad_pad <> PyInt p) by (intros p; discriminate).
  exact (proj2 (Conv2D_invalid_pad (fun _ => 0) conv_bad_pad conv_input
                  eq_refl eq_refl eq_refl Hi)
           1%nat 2%Z 2%Z 1%Z conv_kernel eq_refl eq_refl eq_refl
           (Z.le_0_1) eq_refl).
Defined.

(** X3.  A layer is initialised once.  After a [forward] call that returned,
    [n_in] is set and [pad] is a pair, and calling [forward] again on the
    same input returns the same output and leaves the layer exactly as it
    is: same parameters, same cache. *)
Theorem Conv2D_forward_again (junk : nat -> Qc) (L0 L' : Conv2D) (X Y : ndarray) :
  Conv2D_forward junk L0 X = Ok (L', Y) ->
  n_in (base L') <> None
  /\ (exists p q, pad L' = PyTuple p q)
  /\ Conv2D_forward junk L' X = Ok (L', Y).
Proof.
  intros H. apply Conv2D_forward_ok in H.
  destruct H as (L & Zf & act & Hinit & Hn & HL & Hact & HY & HL').
  assert (Hn' : n_in (base L') <> None) by (rewrite HL'; exact Hn).
  split; [exact Hn'|]. split.
  - assert (Hp : exists a, pair_item (pad L) 0 = Ok a).
    { unfold Conv2D_forward in HL.
      destruct (n_in (base L)); [|congruence]. cbn [bind] in HL.
      repeat (apply bind_ok in HL; destruct HL as (? & ? & HL)).
      destruct x1 as [[[? ?] ?] ?]. 
      repeat (apply bind_ok in HL; destruct HL as (? & ? & HL)).
      destruct x1 as [[[? ?] ?] ?].
      apply bind_ok in HL. destruct HL as (a & Ea & _). eauto. }
    destruct Hp as (a & Ea). rewrite HL'. cbn [with_base pad].
    destruct (pad L) as [|t| |p q]; try discriminate; [|eauto].
    destruct t; discriminate.
  - pose proof (Conv2D_forward_frame junk L L' X Hn Hn') as Hf.
    rewrite HL in Hf.
    destruct Hf as (Zf' & act' & _ & _ & E1 & E2); try (rewrite HL'; reflexivity).
    rewrite E2. f_equal. f_equal.
    assert (EZ : Zf' = Zf).
    { rewrite HL' in E1.
      apply (f_equal (fun l => dict_get (cache (base l)) "Z")) in E1.
      cbn [with_base base set_cache cache] in E1.
      rewrite !(dict_get_set_other _ "X" "Z") in E1 by discriminate.
      rewrite !dict_get_set_same in E1. congruence. }
    subst Zf'. rewrite HL'. cbn [with_base base set_cache cache].
    set (c2 := dict_set (dict_set (cache (base L)) "Z" (Carr Zf)) "X" (Carr X)).
    assert (E3 : dict_set c2 "Z" (Carr Zf) = c2).
    { apply dict_set_same_value. unfold c2.
      rewrite dict_get_set_other by discriminate. apply dict_get_set_same. }
    rewrite E3.
    assert (E4 : dict_set c2 "X" (Carr X) = c2).
    { apply dict_set_same_value. unfold c2. apply dict_get_set_same. }
    rewrite E4. reflexivity.
Qed.

Lemma Conv2D_forward_again_witness :
  Conv2D_forward (fun _ => 0) conv_example conv_input = Ok (conv_after, conv_output)
  /\ Conv2D_forward (fun _ => 0) conv_after conv_input = Ok (conv_after, conv_output).
Proof.
  assert (H : Conv2D_forward (fun _ => 0) conv_example conv_input
              = Ok (conv_after, conv_output)) by (vm_compute; reflexivity).
  split; [exact H|].
  exact (proj2 (proj2 (Conv2D_forward_again (fun _ => 0) conv_example conv_after
                         conv_input conv_output H))).
Defined.

(** X4.  [clear_gradients] does not change what an initialised layer
    computes: [forward] returns the same output (or raises the same
    exception) after it as before. *)
Theorem Conv2D_forward_after_clear (junk : nat -> Qc) (L : Conv2D) (X : ndarray) :
  n_in (base L) <> None ->
  match Conv2D_forward junk L X with
  | Ok (_, Y) => exists L'', Conv2D_forward junk (Conv2D_clear_gradients L) X = Ok (L'', Y)
                             /\ parameters (base L'') = parameters (base L)
  | Raise e => Conv2D_forward junk (Conv2D_clear_gradients L) X = Raise e
  end.
Proof.
  intros Hn.
  pose proof (Conv2D_forward_frame junk L (Conv2D_clear_gradients L) X Hn) as Hf.
  destruct (Conv2D_forward junk L X) as [[L' Y]|e].
  - destruct Hf as (Zf & act & _ & _ & _ & E); try reflexivity; [exact Hn|].
    eexists. split; [exact E | reflexivity].
  - apply Hf; try reflexivity. exact Hn.
Qed.

Lemma Conv2D_forward_after_clear_witness :
  exists L'', Conv2D_forward (fun _ => 0) (Conv2D_clear_gradients conv_after) conv_input
              = Ok (L'', conv_output)
              /\ parameters (base L'') = parameters (base conv_after).
Proof.
  assert (Hn : n_in (base conv_after) <> None) by discriminate.
  assert (H : Conv2D_forward (fun _ => 0) conv_after conv_input
              = Ok (conv_after, conv_output)) by (vm_compute; reflexivity).
  pose proof (Conv2D_forward_after_clear (fun _ => 0) conv_after conv_input Hn) as Hc.
  rewrite H in Hc. exact Hc.
Defined.

(** X5.  The substitution of [forward_with_param] is not undone: on an
    initialised layer, after [inner_forward(param_val)] has returned,
    [parameters[param_name]] is [param_val], the other parameters are as
    before, and the gradients are unchanged, so a new name adds a parameter
    that has no gradient entry. *)
Theorem Conv2D_forward_with_param_keeps (junk : nat -> Qc) (L L' : Conv2D)
    (name : string) (X val Y : ndarray) :
  n_in (base L) <> None ->
  Conv2D_forward_with_param junk name X val L = Ok (L', Y) ->
  parameters (base L') = dict_set (parameters (base L)) name val
  /\ dict_get (parameters (base L')) name = Some val
  /\ (forall k, k <> name ->
        dict_get (parameters (base L')) k = dict_get (parameters (base L)) k)
  /\ gradients (base L') = gradients (base L).
Proof.
  intros Hn H. unfold Conv2D_forward_with_param, inner_forward in H.
  apply Conv2D_forward_ok in H.
  destruct H as (L1 & Zf & act & Hinit & _ & _ & _ & _ & ->).
  cbn [with_base base set_parameters n_in] in Hinit.
  destruct (n_in (base L)); [|congruence]. injection Hinit as <-.
  cbn [with_base base set_cache set_parameters parameters gradients].
  split; [reflexivity|]. split; [apply dict_get_set_same|].
  split; [|reflexivity].
  intros k Hk. apply dict_get_set_other. congruence.
Qed.

Lemma Conv2D_forward_with_param_keeps_witness :
  exists L' Y,
    Conv2D_forward_with_param (fun _ => 0) "W" conv_input conv_kernel' conv_ready
    = Ok (L', Y)
    /\ dict_get (parameters (base L')) "W" = Some conv_kernel'.
Proof.
  destruct (Conv2D_forward_with_param (fun _ => 0) "W" conv_input conv_kernel' conv_ready)
    as [[L' Y]|e] eqn:E; [|vm_compute in E; discriminate].
  assert (Hn : n_in (base conv_ready) <> None) by discriminate.
  exists L', Y. split; [reflexivity|].
  exact (proj1 (proj2 (Conv2D_forward_with_param_keeps (fun _ => 0) conv_ready L'
                         "W" conv_input conv_kernel' Y Hn E))).
Defined.

(** X6.  On a layer that has not been initialised, the value given to
    [inner_forward] is lost: [forward] initialises the parameters anew, and
    the call behaves exactly as [forward] alone. *)
Theorem Conv2D_forward_with_param_fresh (junk : nat -> Qc) (L : Conv2D)
    (name : string) (X val : ndarray) :
  n_in (base L) = None ->
  Conv2D_forward_with_param junk name X val L = Conv2D_forward junk L X.
Proof.
  intros Hn. unfold Conv2D_forward_with_param, inner_forward, Conv2D_forward.
  cbn [with_base base set_parameters n_in]. rewrite Hn.
  reflexivity.
Qed.

Lemma Conv2D_forward_with_param_fresh_witness :
  Conv2D_forward_with_param (fun _ => 0) "W" conv_input conv_kernel' conv_example
  = Ok (conv_after, conv_output).
Proof.
  rewrite (Conv2D_forward_with_param_fresh (fun _ => 0) conv_example "W" conv_input
             conv_kernel' eq_refl).
  vm_compute. reflexivity.
Defined.

(** X7.  [Pool2D.backward] on a layer that has not run [forward] raises
    [KeyError]: the constructor's cache has no entry ["X"]. *)
Theorem Pool2D_backward_before_forward (k m s p : pyval) (L : Pool2D) (dLdY : ndarray) :
  Pool2D_init k m s p = Ok L ->
  Pool2D_backward L dLdY = Raise (KeyError "X").
Proof.
  intros H. apply Pool2D_init_ok in H. destruct H as (Hb & _).
  unfold Pool2D_backward. rewrite Hb. reflexivity.
Qed.

Lemma Pool2D_backward_before_forward_witness :
  Pool2D_backward pool_max (upstream 5) = Raise (KeyError "X").
Proof.
  exact (Pool2D_backward_before_forward (PyTuple 2 2) (PyStr "max") (PyInt 1) (PyInt 0)
           pool_max (upstream 5) eq_refl).
Defined.

(** X8.  [Conv2D.backward] on a layer as constructed raises [KeyError]: the
    parameters are only created by the first [forward]. *)
Theorem Conv2D_backward_before_forward
    (ia : pyval -> result Activation)
    (iw : pyval -> pyval -> result (list Z -> result ndarray))
    (n k a s p w : pyval) (L : Conv2D) (dLdY : ndarray) :
  Conv2D_init ia iw n k a s p w = Ok L ->
  Conv2D_backward L dLdY = Raise (KeyError "W").
Proof.
  unfold Conv2D_init. intros H. do 2 unbind H. injection H as <-. reflexivity.
Qed.

Lemma Conv2D_backward_before_forward_witness :
  Conv2D_backward conv_example (upstream 1) = Raise (KeyError "W").
Proof.
  exact (Conv2D_backward_before_forward
           (fun _ => Ok identity_activation) (fun _ _ => Ok counting_weights)
           (PyInt 1) (PyTuple 2 2) PyNone (PyInt 1) (PyInt 1) PyNone
           conv_example (upstream 1) eq_refl).
Defined.

(** X9.  [clear_gradients] empties the cached input too: after it,
    [Pool2D.backward] raises [AttributeError] (the empty list has no
    [shape]) until [forward] has run again, which gives the same output and
    restores the cache. *)
Theorem Pool2D_backward_after_clear (k m s p : pyval) (L0 L : Pool2D)
    (X Y dLdY : ndarray) :
  Pool2D_init k m s p = Ok L0 ->
  Pool2D_forward L0 X = Ok (L, Y) ->
  Pool2D_backward (Pool2D_clear_gradients L) dLdY = Raise AttributeError
  /\ Pool2D_forward (Pool2D_clear_gradients L) X = Ok (L, Y).
Proof.
  intros Hi Hf. pose proof (Pool2D_forward_ok _ _ _ _ Hf) as HL.
  apply Pool2D_init_ok in Hi. destruct Hi as (Hb & _).
  rewrite Hb in HL. split.
  - rewrite HL. reflexivity.
  - pose proof (Pool2D_forward_frame L0 (Pool2D_clear_gradients L) X) as Hfr.
    rewrite Hf in Hfr. rewrite Hfr by (rewrite HL; reflexivity).
    rewrite HL. reflexivity.
Qed.

Lemma Pool2D_backward_after_clear_witness :
  Pool2D_backward (Pool2D_clear_gradients pool_max_after) (upstream 5)
  = Raise AttributeError.
Proof.
  assert (Hf : Pool2D_forward pool_max window_example
               = Ok (pool_max_after, pool_max_output))
    by (vm_compute; reflexivity).
  exact (proj1 (Pool2D_backward_after_clear (PyTuple 2 2) (PyStr "max") (PyInt 1)
                  (PyInt 0) pool_max pool_max_after window_example
                  (pool_max_output) (upstream 5) eq_refl Hf)).
Defined.

(** X10.  The shapes [Flatten.forward] returns, and when it raises.  With
    [keep_dim = -1] the output is one row holding all elements, for every
    input.  With ["first"] an input of shape [(n, ...)] becomes [(n, rest)],
    and with any other value an input of shape [(..., n)] becomes
    [(rest, n)], where [rest] is the product of the other extents; in both
    cases an empty kept axis raises a [ValueError] and an input without
    axes an [IndexError].  The values are kept in order. *)
Theorem Flatten_forward_shapes (L : Flatten) (X : ndarray) :
  (is_int (keep_dim L) (-1) = true ->
     exists L', Flatten_forward L X
                = Ok (L', {| shape := [1%nat; size (shape X)]; data := data X;
                             dtype := dtype X |}))
  /\ (is_str (keep_dim L) "first" = true -> forall n sh, shape X = n :: sh ->
        if (n =? 0)%nat
        then Flatten_forward L X = Raise (ValueError "cannot reshape array")
        else exists L', Flatten_forward L X
                        = Ok (L', {| shape := [n; size sh]; data := data X;
                                     dtype := dtype X |}))
  /\ (is_int (keep_dim L) (-1) = false -> is_str (keep_dim L) "first" = false ->
        forall lead n, shape X = lead ++ [n] ->
        if (n =? 0)%nat
        then Flatten_forward L X = Raise (ValueError "cannot reshape array")
        else exists L', Flatten_forward L X
                        = Ok (L', {| shape := [size lead; n]; data := data X;
                                     dtype := dtype X |}))
  /\ (is_int (keep_dim L) (-1) = false -> shape X = [] ->
        Flatten_forward L X = Raise IndexError).
Proof.
  unfold Flatten_forward. repeat split.
  - intros ->. eexists.
    unfold np_reshape; simpl. rewrite Z.mod_1_r. simpl.
    rewrite Z.div_1_r, Nat2Z.id, Nat.mul_1_r. reflexivity.
  - intros Hf n sh Hsh.
    assert (Hi : is_int (keep_dim L) (-1) = false)
      by (destruct (keep_dim L); try reflexivity; discriminate).
    rewrite Hi, Hf, Hsh. cbn [bind].
    destruct (Nat.eqb_spec n 0) as [->|Hn].
    + reflexivity.
    + rewrite (np_reshape_first_eq X n (size sh) Hn) by (rewrite Hsh; reflexivity).
      eexists. reflexivity.
  - intros Hi Hf lead n Hsh. rewrite Hi, Hf, Hsh, rev_app_distr. cbn [rev app bind].
    destruct (Nat.eqb_spec n 0) as [->|Hn].
    + reflexivity.
    + rewrite (np_reshape_last_eq X n (size lead) Hn)
        by (rewrite Hsh, size_app; simpl; lia).
      eexists. reflexivity.
  - intros Hi Hsh. rewrite Hi, Hsh. destruct (is_str (keep_dim L) "first"); reflexivity.
Qed.

Lemma Flatten_forward_shapes_witness :
  exists L', Flatten_forward (Flatten_init (PyStr "first")) flatten_example
             = Ok (L', {| shape := [2; 6]%nat; data := data flatten_example;
                          dtype := dtype flatten_example |}).
Proof.
  exact (proj1 (proj2 (Flatten_forward_shapes (Flatten_init (PyStr "first"))
                         flatten_example))
           eq_refl 2%nat [3; 1; 2]%nat eq_refl).
Defined.

(** X11.  [Flatten.backward] on a layer that has not run [forward] reshapes
    to the empty list the constructor cached: a gradient of exactly one
    element comes back without axes, any other raises a [ValueError]. *)
Theorem Flatten_backward_before_forward (kd : pyval) (dLdY : ndarray) :
  Flatten_backward (Flatten_init kd) dLdY
  = if (size (shape dLdY) =? 1)%nat
    then Ok {| shape := []; data := data dLdY; dtype := dtype dLdY |}
    else Raise (ValueError "cannot reshape array").
Proof.
  unfold Flatten_backward, Flatten_init, np_reshape.
  cbn [flat_base cache dict_item dict_get String.eqb Ascii.eqb Bool.eqb bind
       existsb count_occ known_size fold_right map].
  destruct (Nat.eqb_spec (size (shape dLdY)) 1) as [->|Hn]; [reflexivity|].
  destruct (Z.eqb_spec 1 (Z.of_nat (size (shape dLdY)))); [lia | reflexivity].
Qed.

(** X12.  A [Pool2D] whose mode is neither "max" nor "average" cannot pool
    anything: [forward] returns only when there is no window at all, with an
    empty output, and raises [UnboundLocalError] as soon as the output has a
    position. *)
Theorem Pool2D_unknown_mode_forward (L : Pool2D) (X : ndarray) :
  is_str (mode L) "max" = false -> is_str (mode L) "average" = false ->
  (forall L' Y, Pool2D_forward L X = Ok (L', Y) -> data Y = [])
  /\ (forall (B H Wd C : nat) (kh kw p q s oh ow : Z),
        shape X = [B; H; Wd; C] ->
        pool_kernel_shape L = PyTuple kh kw -> pool_pad L = PyTuple p q ->
        pool_stride L = PyInt s -> (0 <= p)%Z -> (0 <= q)%Z ->
        out_size H p kh s = Ok oh -> out_size Wd q kw s = Ok ow ->
        (0 < oh)%Z -> (0 < ow)%Z ->
        Pool2D_forward L X = Raise (UnboundLocalError "pool_fn")).
Proof.
  intros Hmax Havg.
  assert (Hf : local_pool_fn (mode L) = None)
    by (unfold local_pool_fn; now rewrite Hmax, Havg).
  split.
  - intros L' Y H. unfold Pool2D_forward in H. rewrite Hf in H.
    unbind_as H sh Esh. destruct sh as [[[B Hh] Ww] C].
    unbind_as H k Ek. destruct k as [kh kw].
    unbind_as H p Ep. unbind_as H s Es. unbind_as H oh Eoh.
    unbind_as H q Eqd. unbind_as H ow Eow. unbind_as H X_pad Epad.
    unbind_as H sh Esh'. unbind_as H A EA.
    assert (HY : Y = A) by congruence. subst Y.
    apply Pool2D_forward_loops_unbound in EA. destruct EA as [H0 ->].
    cbn [shape_of_ints] in Esh'.
    destruct (Z.ltb_spec (Z.of_nat B) 0); [discriminate|].
    destruct (Z.ltb_spec oh 0); [discriminate|].
    destruct (Z.ltb_spec ow 0); [discriminate|].
    destruct (Z.ltb_spec (Z.of_nat C) 0); [discriminate|].
    cbn [bind] in Esh'. injection Esh' as <-.
    unfold np_zeros. cbn [data size fold_right].
    replace (Z.to_nat (Z.of_nat B) * (Z.to_nat oh * (Z.to_nat ow
               * (Z.to_nat (Z.of_nat C) * 1))))%nat with 0%nat
      by (destruct H0 as [H0 | H0]; rewrite H0; lia).
    reflexivity.
  - intros B H Wd C kh kw p q s oh ow HsX Hk Hp Hs Hp0 Hq0 Hoh How Hoh0 How0.
    unfold Pool2D_forward. rewrite HsX, Hk, Hp, Hs, Hf.
    cbn [unpack4 unpack_pair pair_item as_int bind Nat.eqb].
    rewrite Hoh, How. cbn [bind].
    unfold np_pad. rewrite HsX.
    destruct (Z.ltb_spec p 0); [lia|]. destruct (Z.ltb_spec q 0); [lia|].
    cbn [orb bind shape_of_ints].
    destruct (Z.ltb_spec (Z.of_nat B) 0); [lia|].
    destruct (Z.ltb_spec oh 0); [lia|]. destruct (Z.ltb_spec ow 0); [lia|].
    destruct (Z.ltb_spec (Z.of_nat C) 0); [lia|]. cbn [bind].
    unfold range.
    destruct (Z.to_nat oh) as [|oh'] eqn:Eoh; [lia|].
    destruct (Z.to_nat ow) as [|ow'] eqn:Eow; [lia|].
    cbn [seq for_each].
    erewrite Pool2D_forward_step_unbound_eq by reflexivity.
    reflexivity.
Qed.

Lemma Pool2D_unknown_mode_forward_witness :
  Pool2D_forward pool_min window_example = Raise (UnboundLocalError "pool_fn").
Proof.
  exact (proj2 (Pool2D_unknown_mode_forward pool_min window_example eq_refl eq_refl)
           1%nat 2%nat 2%nat 1%nat 2%Z 2%Z 0%Z 0%Z 1%Z 1%Z 1%Z
           eq_refl eq_refl eq_refl eq_refl ltac:(lia) ltac:(lia)
           eq_refl eq_refl ltac:(lia) ltac:(lia)).
Defined.

(** X13.  With a mode that is neither "max" nor "average",
    [Pool2D.backward] does not raise: no branch of its loop body applies,
    and the gradient it returns for the cached input is zero everywhere,
    whatever the upstream gradient is.  (The layer's own [forward] raises
    at its first window, so a cache holding an input with at least one
    window comes from a [forward] made before [mode] was reassigned.) *)
Theorem Pool2D_unknown_mode_backward (L : Pool2D) (X dLdY : ndarray)
    (B H Wd C kh kw oh ow s p q : nat) :
  is_str (mode L) "max" = false -> is_str (mode L) "average" = false ->
  dict_get (cache (pool_base L)) "out_rows" <> None ->
  dict_get (cache (pool_base L)) "out_cols" <> None ->
  dict_get (cache (pool_base L)) "X" = Some (Carr X) ->
  pool_kernel_shape L = PyTuple (Z.of_nat kh) (Z.of_nat kw) ->
  pool_stride L = PyInt (Z.of_nat s) -> (0 < s)%nat ->
  pool_pad L = PyTuple (Z.of_nat p) (Z.of_nat q) ->
  shape X = [B; H; Wd; C] ->
  out_size H (Z.of_nat p) (Z.of_nat kh) (Z.of_nat s) = Ok (Z.of_nat oh) ->
  out_size Wd (Z.of_nat q) (Z.of_nat kw) (Z.of_nat s) = Ok (Z.of_nat ow) ->
  exists dX,
    Pool2D_backward L dLdY = Ok dX
    /\ shape dX = [B; H; Wd; C]
    /\ forall b i j k, (b < B)%nat -> (i < H)%nat -> (j < Wd)%nat -> (k < C)%nat ->
         get4 dX b i j k = 0.
Proof.
  intros Hmax Havg Hrows Hcols HX Hk Hstride Hs Hpad HsX Hoh How.
  destruct (Pool2D_backward_run L X dLdY (fun _ _ _ _ _ _ a => a)
              B H Wd C kh kw oh ow s p q Hrows Hcols HX Hk Hstride Hs Hpad HsX Hoh How)
    as (dX & E & HdX).
  - intros X_pad A fa row col _ _ HA HdA _ _ _ _. exists A.
    split; [|split; [exact HA | exact HdA]].
    unfold Pool2D_backward_step, window. now rewrite Havg, Hmax.
  - exists dX. split; [exact E|]. split; [exact (proj1 HdX)|].
    intros b i j k Hb Hi Hj Hk'. rewrite (proj2 HdX) by assumption.
    apply fold_left_id. intros row a _. apply fold_left_id. reflexivity.
Qed.

(** The witness is [pool_max_after], the layer after
    [forward window_example] in "max" mode, whose [mode] was then set to
    "min": the loop body runs once, for the single window. *)
Lemma Pool2D_unknown_mode_backward_witness :
  out_size 2 (Z.of_nat 0) (Z.of_nat 2) (Z.of_nat 1) = Ok (Z.of_nat 1)
  /\ exists dX,
       Pool2D_backward pool_max_renamed (upstream 5) = Ok dX
       /\ shape dX = [1; 2; 2; 1]%nat
       /\ forall b i j k, (b < 1)%nat -> (i < 2)%nat -> (j < 2)%nat -> (k < 1)%nat ->
            get4 dX b i j k = 0.
Proof.
  assert (Hoh : out_size 2 (Z.of_nat 0) (Z.of_nat 2) (Z.of_nat 1) = Ok (Z.of_nat 1))
    by (vm_compute; reflexivity).
  assert (H1 : dict_get (cache (pool_base pool_max_renamed)) "out_rows" <> None)
    by discriminate.
  assert (H2 : dict_get (cache (pool_base pool_max_renamed)) "out_cols" <> None)
    by discriminate.
  assert (Hs : (0 < 1)%nat) by lia.
  split; [exact Hoh|].
  exact (Pool2D_unknown_mode_backward pool_max_renamed window_example (upstream 5)
           1 2 2 1 2 2 1 1 1 0 0 eq_refl eq_refl H1 H2 eq_refl eq_refl eq_refl Hs
           eq_refl eq_refl Hoh Hoh).
Defined.

(** X14.  A pooling layer built with ["same"] padding and stride 1 keeps the
    spatial extent of a non-empty input along every axis whose kernel
    extent is odd, and returns one position less along an axis whose kernel
    extent is even. *)
Theorem Pool2D_same_padding_shape (m : pyval) (kh kw : nat) (L : Pool2D) (X : ndarray)
    (B H Wd C : nat) :
  (0 < kh)%nat -> (0 < kw)%nat -> (0 < H)%nat -> (0 < Wd)%nat ->
  m = PyStr "max" \/ m = PyStr "average" ->
  Pool2D_init (PyTuple (Z.of_nat kh) (Z.of_nat kw)) m (PyInt 1) (PyStr "same") = Ok L ->
  shape X = [B; H; Wd; C] ->
  exists L' Y,
    Pool2D_forward L X = Ok (L', Y)
    /\ shape Y = [B; if Nat.odd kh then H else (H - 1)%nat;
                  if Nat.odd kw then Wd else (Wd - 1)%nat; C].
Proof.
  intros Hkh Hkw HH HW Hm Hinit HsX.
  apply Pool2D_init_ok in Hinit. destruct Hinit as (_ & Hk & Hs & Hmode & Hp).
  cbn [resolve_pad is_str String.eqb Ascii.eqb Bool.eqb pair_item Nat.eqb bind] in Hp.
  injection Hp as Hp.
  assert (Hpad : pool_pad L
                 = PyTuple (Z.of_nat ((kh - 1) / 2)) (Z.of_nat ((kw - 1) / 2))).
  { rewrite <- Hp, !Nat2Z.inj_div, !Nat2Z.inj_sub by lia. reflexivity. }
  assert (Hoh : out_size H (Z.of_nat ((kh - 1) / 2)) (Z.of_nat kh) (Z.of_nat 1)
                = Ok (Z.of_nat (if Nat.odd kh then H else (H - 1)%nat)))
    by (change (Z.of_nat 1) with 1%Z;
        now rewrite out_size_stride_one, same_pad_extent).
  assert (How : out_size Wd (Z.of_nat ((kw - 1) / 2)) (Z.of_nat kw) (Z.of_nat 1)
                = Ok (Z.of_nat (if Nat.odd kw then Wd else (Wd - 1)%nat)))
    by (change (Z.of_nat 1) with 1%Z;
        now rewrite out_size_stride_one, same_pad_extent).
  destruct Hm as [Hm | Hm]; rewrite Hm in Hmode.
  - destruct (Pool2D_forward_run L X (Some NpMax) _ B H Wd C kh kw _ _ 1 _ _
                ltac:(now rewrite Hmode) (apply_pool_fn_max B kh kw C Hkh Hkw)
                Hk Hs ltac:(lia) Hpad HsX Hoh How) as (Y & E & HY).
    do 2 eexists. split; [exact E | exact (proj1 HY)].
  - destruct (Pool2D_forward_run L X (Some NpMean) _ B H Wd C kh kw _ _ 1 _ _
                ltac:(now rewrite Hmode) (apply_pool_fn_mean B kh kw C Hkh Hkw)
                Hk Hs ltac:(lia) Hpad HsX Hoh How) as (Y & E & HY).
    do 2 eexists. split; [exact E | exact (proj1 HY)].
Qed.

Lemma Pool2D_same_padding_shape_witness :
  exists L' Y,
    Pool2D_forward pool_same window_example = Ok (L', Y)
    /\ shape Y = [1; 2; 2; 1]%nat.
Proof.
  assert (H3 : (0 < 3)%nat) by lia.
  assert (H2 : (0 < 2)%nat) by lia.
  exact (Pool2D_same_padding_shape (PyStr "average") 3 3 pool_same window_example
           1 2 2 1 H3 H3 H2 H2 (or_intror eq_refl) eq_refl eq_refl).
Defined.

(** X15.  In "max" mode every output value of [forward] is the largest cell
    of its window of the zero-padded input: no cell of the window exceeds
    it, and some cell of the window holds it.  The input is cached. *)
Theorem Pool2D_max_forward_spec (L : Pool2D) (X : ndarray)
    (B H Wd C kh kw oh ow s p q : nat) :
  mode L = PyStr "max" ->
  pool_kernel_shape L = PyTuple (Z.of_nat kh) (Z.of_nat kw) ->
  (0 < kh)%nat -> (0 < kw)%nat ->
  pool_stride L = PyInt (Z.of_nat s) -> (0 < s)%nat ->
  pool_pad L = PyTuple (Z.of_nat p) (Z.of_nat q) ->
  shape X = [B; H; Wd; C] ->
  out_size H (Z.of_nat p) (Z.of_nat kh) (Z.of_nat s) = Ok (Z.of_nat oh) ->
  out_size Wd (Z.of_nat q) (Z.of_nat kw) (Z.of_nat s) = Ok (Z.of_nat ow) ->
  exists L' Y,
    Pool2D_forward L X = Ok (L', Y)
    /\ shape Y = [B; oh; ow; C]
    /\ dict_get (cache (pool_base L')) "X" = Some (Carr X)
    /\ forall b row col k,
         (b < B)%nat -> (row < oh)%nat -> (col < ow)%nat -> (k < C)%nat ->
         (forall i j, (i < kh)%nat -> (j < kw)%nat ->
            padded X p q b (row * s + i)%nat (col * s + j)%nat k <= get4 Y b row col k)
         /\ (exists i j, (i < kh)%nat /\ (j < kw)%nat
               /\ get4 Y b row col k
                  = padded X p q b (row * s + i)%nat (col * s + j)%nat k).
Proof.
  intros Hmode Hk Hkh Hkw Hstride Hs Hpad HsX Hoh How.
  destruct (Pool2D_forward_run L X (Some NpMax) _ B H Wd C kh kw oh ow s p q
              ltac:(now rewrite Hmode) (apply_pool_fn_max B kh kw C Hkh Hkw)
              Hk Hstride Hs Hpad HsX Hoh How) as (Y & E & HY).
  do 2 eexists. split; [exact E|]. split; [exact (proj1 HY)|].
  split; [apply dict_get_set_same|].
  intros b row col k Hb Hrow Hcol Hk'.
  rewrite (proj2 HY) by assumption.
  fold (window_cells (padded X p q) s kh kw b row col k).
  pose proof (window_cells_length (padded X p q) s kh kw b row col k) as Hlen.
  assert (Hnth : forall m, (m < kh * kw)%nat ->
            nth m (window_cells (padded X p q) s kh kw b row col k) 0
            = padded X p q b (row * s + m / kw)%nat (col * s + m mod kw)%nat k)
    by (intros m Hm; now apply window_cells_nth).
  destruct (window_cells (padded X p q) s kh kw b row col k) as [|x l] eqn:Ecells.
  { simpl in Hlen. nia. }
  destruct (max_list_spec l x) as (Hx & Hl & Hin).
  assert (Hle : forall y, In y (x :: l) -> y <= max_list x l).
  { intros y [<-|Hy]; [exact Hx | now apply Hl]. }
  split.
  - intros i j Hi Hj.
    assert (Hm : (i * kw + j < kh * kw)%nat) by nia.
    specialize (Hnth _ Hm).
    rewrite Nat.div_add_l, Nat.div_small, Nat.add_0_r in Hnth by lia.
    rewrite Nat.add_comm, Nat.Div0.mod_add, Nat.mod_small in Hnth by lia.
    rewrite <- Hnth. apply Hle. apply nth_In. lia.
  - destruct (In_nth _ _ 0 Hin) as (m & Hm & Em).
    rewrite Hlen in Hm. rewrite Hnth in Em by exact Hm.
    exists (m / kw)%nat, (m mod kw)%nat.
    split; [apply Nat.Div0.div_lt_upper_bound; lia|].
    split; [apply Nat.mod_upper_bound; lia|].
    now symmetry.
Qed.

Lemma Pool2D_max_forward_spec_witness :
  exists L' Y,
    Pool2D_forward pool_max window_example = Ok (L', Y)
    /\ shape Y = [1; 1; 1; 1]%nat
    /\ exists i j, (i < 2)%nat /\ (j < 2)%nat
         /\ get4 Y 0 0 0 0 = padded window_example 0 0 0 (0 * 1 + i) (0 * 1 + j) 0.
Proof.
  assert (H2 : (0 < 2)%nat) by lia.
  assert (H1 : (0 < 1)%nat) by lia.
  destruct (Pool2D_max_forward_spec pool_max window_example 1 2 2 1 2 2 1 1 1 0 0
              eq_refl eq_refl H2 H2 eq_refl H1 eq_refl eq_refl eq_refl eq_refl)
    as (L' & Y & E & HsY & _ & HY).
  exists L', Y. split; [exact E|]. split; [exact HsY|].
  exact (proj2 (HY 0%nat 0%nat 0%nat 0%nat H1 H1 H1 H1)).
Defined.

(** X16.  For an input [X] of shape [B, n_in], weights of shape
    [n_in, n_out] and a bias of shape [1, n_out], [FullyConnected.forward]
    returns [activation(Z)] where [Z] has shape [B, n_out] and
    [Z[i, j] = sum_l X[i, l] * W[l, j] + b[0, j]]; afterwards the cache
    holds [Z] and [X], and the parameters are as they were.  [L] is the
    layer after the lazy initialisation of the first call. *)
Theorem FullyConnected_forward_spec
    (L0 L : FullyConnected) (X Wt bt : ndarray) (act : Activation) (B n m : nat) :
  match n_in (fc_base L0) with
  | None => FullyConnected_init_parameters L0 (shape X)
  | Some _ => Ok L0
  end = Ok L ->
  activation (fc_base L) = Some act ->
  dict_get (parameters (fc_base L)) "W" = Some Wt ->
  dict_get (parameters (fc_base L)) "b" = Some bt ->
  shape X = [B; n] -> shape Wt = [n; m] -> shape bt = [1; m]%nat ->
  exists Zf L',
    FullyConnected_forward L0 X = Ok (L', act_forward act Zf)
    /\ shape Zf = [B; m]
    /\ (forall i j, (i < B)%nat -> (j < m)%nat ->
          get2 Zf i j = sum_n n (fun l => get2 X i l * get2 Wt l j) + get2 bt 0%nat j)
    /\ dict_get (cache (fc_base L')) "Z" = Some (Carr Zf)
    /\ dict_get (cache (fc_base L')) "X" = Some (Carr X)
    /\ parameters (fc_base L') = parameters (fc_base L)
    /\ gradients (fc_base L') = gradients (fc_base L).
Proof.
  intros Hinit Hact HW Hb HsX HsW Hsb.
  unfold FullyConnected_forward. rewrite Hinit. cbn [bind].
  unfold dict_item. rewrite HW, Hb. cbn [bind].
  destruct (np_matmul_is2 X Wt B n m _ _ (is2_get2 X B n HsX) (is2_get2 Wt n m HsW))
    as (XW & EXW & HXW).
  rewrite EXW. cbn [bind].
  destruct (np_add_row_is2 XW bt B m _ _ HXW (is2_get2 bt 1 m Hsb)) as (Zf & EZ & HZ).
  rewrite EZ. cbn [bind]. rewrite Hact. cbn [call_activation bind].
  exists Zf. eexists. split; [reflexivity|].
  split; [exact (proj1 HZ)|]. split; [exact (proj2 HZ)|].
  cbn [fc_with_base fc_base set_cache cache parameters gradients].
  split; [|split; [|split; reflexivity]].
  - rewrite dict_get_set_other by discriminate. apply dict_get_set_same.
  - apply dict_get_set_same.
Qed.

Lemma FullyConnected_forward_spec_witness :
  exists Zf L',
    FullyConnected_forward fc_example fc_input = Ok (L', Zf)
    /\ shape Zf = [2; 2]%nat
    /\ get2 Zf 1 1
       = sum_n 3 (fun l => get2 fc_input 1 l * get2 fc_kernel l 1) + get2 fc_bias 0 1.
Proof.
  destruct (FullyConnected_forward_spec fc_example fc_ready fc_input fc_kernel fc_bias
              identity_activation 2 3 2 eq_refl eq_refl eq_refl eq_refl eq_refl eq_refl
              eq_refl) as (Zf & L' & E & Hs & HZ & _).
  exists Zf, L'. split; [exact E|]. split; [exact Hs|].
  apply HZ; lia.
Defined.

(** X17.  With [dZ = activation.backward(Z, dLdY)] of shape [B, n_out],
    [FullyConnected.backward] returns [dX = dZ @ W.T], of the shape of [X],
    and stores [gradients["W"] = X.T @ dZ], of the shape of [W], and
    [gradients["b"]], the column sums of [dZ] with shape [1, n_out]; the
    parameters and the cache are as they were. *)
Theorem FullyConnected_backward_spec
    (L : FullyConnected) (X Zc Wt bt dLdY : ndarray) (act : Activation) (B n m : nat) :
  activation (fc_base L) = Some act ->
  dict_get (parameters (fc_base L)) "W" = Some Wt ->
  dict_get (parameters (fc_base L)) "b" = Some bt ->
  dict_get (cache (fc_base L)) "X" = Some (Carr X) ->
  dict_get (cache (fc_base L)) "Z" = Some (Carr Zc) ->
  shape X = [B; n] -> shape Wt = [n; m] ->
  shape (act_backward act Zc dLdY) = [B; m] ->
  let dZ := act_backward act Zc dLdY in
  exists dX dW dB L',
    FullyConnected_backward L dLdY = Ok (L', dX)
    /\ shape dX = [B; n]
    /\ (forall i l, (i < B)%nat -> (l < n)%nat ->
          get2 dX i l = sum_n m (fun j => get2 dZ i j * get2 Wt l j))
    /\ dict_get (gradients (fc_base L')) "W" = Some dW
    /\ shape dW = [n; m]
    /\ (forall l j, (l < n)%nat -> (j < m)%nat ->
          get2 dW l j = sum_n B (fun i => get2 X i l * get2 dZ i j))
    /\ dict_get (gradients (fc_base L')) "b" = Some dB
    /\ shape dB = [1; m]%nat
    /\ (forall j, (j < m)%nat -> get2 dB 0%nat j = sum_n B (fun i => get2 dZ i j))
    /\ parameters (fc_base L') = parameters (fc_base L)
    /\ cache (fc_base L') = cache (fc_base L).
Proof.
  intros Hact HW Hb HX HZ HsX HsW HsdZ dZ.
  unfold FullyConnected_backward, dict_item.
  rewrite HW, Hb, HX, HZ. cbn [bind]. rewrite Hact.
  cbn [activation_backward as_array bind]. fold dZ.
  pose proof (is2_get2 dZ B m HsdZ) as HdZ.
  destruct (np_matmul_is2 dZ (np_T Wt) B m n _ _ HdZ
              (np_T_is2 Wt n m _ (is2_get2 Wt n m HsW))) as (dX & EdX & HdX).
  rewrite EdX. cbn [bind].
  destruct (np_matmul_is2 (np_T X) dZ n B m _ _
              (np_T_is2 X B n _ (is2_get2 X B n HsX)) HdZ) as (dW & EdW & HdW).
  rewrite EdW. cbn [bind].
  destruct (np_sum_0_keepdims_is2 dZ B m _ HdZ) as (dB & EdB & HdB).
  rewrite EdB. cbn [bind].
  exists dX, dW, dB. eexists. split; [reflexivity|].
  cbn [fc_with_base fc_base set_gradients gradients parameters cache].
  split; [exact (proj1 HdX)|]. split; [exact (proj2 HdX)|].
  split; [rewrite dict_get_set_other by discriminate; apply dict_get_set_same|].
  split; [exact (proj1 HdW)|]. split; [exact (proj2 HdW)|].
  split; [apply dict_get_set_same|].
  split; [exact (proj1 HdB)|].
  split; [intros j Hj; apply (proj2 HdB); lia|].
  split; reflexivity.
Qed.

Lemma FullyConnected_backward_spec_witness :
  exists dX dW L',
    FullyConnected_backward fc_after fc_upstream = Ok (L', dX)
    /\ shape dX = [2; 3]%nat
    /\ dict_get (gradients (fc_base L')) "W" = Some dW
    /\ shape dW = [3; 2]%nat.
Proof.
  destruct (FullyConnected_backward_spec fc_after fc_input fc_output fc_kernel fc_bias
              fc_upstream identity_activation 2 3 2 eq_refl eq_refl eq_refl eq_refl
              eq_refl eq_refl eq_refl eq_refl)
    as (dX & dW & dB & L' & E & HsX & _ & HW & HsW & _).
  exists dX, dW, L'. repeat split; assumption.
Defined.

(** X18.  The first [forward] of a fully-connected layer fixes its input
    width.  On an input of shape [B, n], with an initialiser that returns
    arrays of the requested shape, it sets [n_in = n], creates weights of
    shape [n, n_out] and a zero bias of shape [1, n_out] with zero gradients
    of the same shapes, and returns [activation(X @ W)]; from then on an
    input with another number of columns raises a [ValueError]. *)
Theorem FullyConnected_first_forward (L0 L1 : FullyConnected) (X Y : ndarray)
    (B n : nat) :
  n_in (fc_base L0) = None ->
  (forall sh W, fc_init_weights L0 sh = Ok W -> shape W = map Z.to_nat sh) ->
  shape X = [B; n] ->
  FullyConnected_forward L0 X = Ok (L1, Y) ->
  exists m W,
    n_out (fc_base L0) = PyInt (Z.of_nat m)
    /\ n_in (fc_base L1) = Some n
    /\ parameters (fc_base L1) = [("W", W); ("b", np_zeros [1%nat; m])]
    /\ shape W = [n; m]
    /\ gradients (fc_base L1) = [("W", np_zeros_like W); ("b", np_zeros [1%nat; m])]
    /\ (exists act Zf,
          activation (fc_base L0) = Some act /\ Y = act_forward act Zf
          /\ shape Zf = [B; m]
          /\ forall i j, (i < B)%nat -> (j < m)%nat ->
               get2 Zf i j = sum_n n (fun l => get2 X i l * get2 W l j))
    /\ (forall X' B' k, shape X' = [B'; k] -> k <> n ->
          raises (FullyConnected_forward L1 X')).
Proof.
  intros Hn Hiw HsX H. apply FullyConnected_forward_ok in H.
  destruct H as (L & Wt & bt & XW & Zf & act & Hinit & HW & Hb & EXW & EZ & Hact
                 & -> & ->).
  rewrite Hn in Hinit. apply FullyConnected_init_parameters_ok in Hinit.
  destruct Hinit as (c & z & W & Hc & Hz & Hz0 & HWi & ->).
  rewrite HsX in Hc. injection Hc as <-.
  cbn [fc_with_base fc_base parameters dict_get String.eqb Ascii.eqb Bool.eqb] in HW, Hb.
  injection HW as <-. injection Hb as <-.
  cbn [fc_with_base fc_base activation] in Hact.
  pose proof (Hiw _ _ HWi) as HsW. cbn [map] in HsW. rewrite Nat2Z.id in HsW.
  exists (Z.to_nat z), W.
  cbn [fc_with_base fc_base set_cache n_in parameters gradients].
  split; [now rewrite Z2Nat.id|]. split; [reflexivity|]. split; [reflexivity|].
  split; [exact HsW|].
  split; [reflexivity|].
  split.
  - exists act, Zf. split; [exact Hact|]. split; [reflexivity|].
    destruct (np_matmul_is2 X W B n (Z.to_nat z) _ _ (is2_get2 X B n HsX)
                (is2_get2 W n _ HsW)) as (XW' & EXW' & HXW).
    rewrite EXW in EXW'. injection EXW' as <-.
    destruct (np_add_row_is2 XW (np_zeros [1%nat; Z.to_nat z]) B (Z.to_nat z) _ _ HXW
                (is2_get2 (np_zeros [1%nat; Z.to_nat z]) 1 (Z.to_nat z) eq_refl))
      as (Zf' & EZ' & HZ).
    rewrite EZ in EZ'. injection EZ' as <-.
    split; [exact (proj1 HZ)|]. intros i j Hi Hj.
    rewrite (proj2 HZ) by assumption.
    replace (get2 (np_zeros [1%nat; Z.to_nat z]) 0 j) with 0; [ring|].
    unfold get2, np_zeros. cbn [shape data]. symmetry. apply nth_repeat.
  - intros X' B' k HsX' Hk. eexists.
    unfold FullyConnected_forward, dict_item.
    cbn [fc_with_base fc_base set_cache n_in parameters bind dict_get
         String.eqb Ascii.eqb Bool.eqb].
    rewrite (np_matmul_mismatch X' W B' k n (Z.to_nat z) HsX' HsW Hk). reflexivity.
Qed.

Lemma FullyConnected_first_forward_witness :
  n_in (fc_base fc_after) = Some 3%nat
  /\ raises (FullyConnected_forward fc_after fc_wide_input).
Proof.
  assert (Hiw : forall sh W, fc_init_weights fc_example sh = Ok W ->
                             shape W = map Z.to_nat sh).
  { intros sh W. unfold fc_example, fc_weights. cbn [fc_init_weights].
    destruct (shape_of_ints sh) as [sh'|e] eqn:E; [|discriminate].
    cbn [bind]. intros H. injection H as <-. cbn [shape].
    revert sh' E. induction sh as [|z sh IH]; intros sh' E.
    - injection E as <-. reflexivity.
    - cbn [shape_of_ints] in E. destruct (z <? 0)%Z; [discriminate|].
      destruct (shape_of_ints sh) as [sh''|]; [|discriminate].
      injection E as <-. cbn [map]. f_equal. now apply IH. }
  assert (Hf : FullyConnected_forward fc_example fc_input = Ok (fc_after, fc_output))
    by (vm_compute; reflexivity).
  assert (Hk : 4%nat <> 3%nat) by discriminate.
  destruct (FullyConnected_first_forward fc_example fc_after fc_input fc_output 2 3
              eq_refl Hiw eq_refl Hf) as (m & W & _ & Hn & _ & _ & _ & _ & Hbad).
  split; [exact Hn|]. exact (Hbad fc_wide_input 1%nat 4%nat eq_refl Hk).
Defined.

(** X19.  [FullyConnected.backward] on a layer as constructed raises
    [KeyError]: the parameters are only created by the first [forward]. *)
Theorem FullyConnected_backward_before_forward
    (ia : pyval -> result Activation)
    (iw : pyval -> pyval -> result (list Z -> result ndarray))
    (n a w : pyval) (L : FullyConnected) (dLdY : ndarray) :
  FullyConnected_init ia iw n a w = Ok L ->
  FullyConnected_backward L dLdY = Raise (KeyError "W").
Proof.
  unfold FullyConnected_init. intros H.
  unbind_as H act Ea. unbind_as H w' Ew. injection H as <-. reflexivity.
Qed.

Lemma FullyConnected_backward_before_forward_witness :
  FullyConnected_backward fc_example fc_upstream = Raise (KeyError "W").
Proof.
  exact (FullyConnected_backward_before_forward
           (fun _ => Ok identity_activation) (fun _ _ => Ok fc_weights)
           (PyInt 2) PyNone PyNone fc_example fc_upstream eq_refl).
Defined.

(** X20.  [FullyConnected.backward] overwrites the stored gradients, it
    does not add to them: a second call with the same upstream gradient
    returns the same [dX] and leaves the layer exactly as the first call
    left it. *)
Theorem FullyConnected_backward_again (L L' : FullyConnected) (dLdY dX : ndarray) :
  FullyConnected_backward L dLdY = Ok (L', dX) ->
  FullyConnected_backward L' dLdY = Ok (L', dX).
Proof.
  intros H. apply FullyConnected_backward_ok in H.
  destruct H as (dW & dB & -> & Hg).
  rewrite Hg. rewrite dict_set_twice by discriminate. reflexivity.
Qed.

Lemma FullyConnected_backward_again_witness :
  exists L' dX,
    FullyConnected_backward fc_after fc_upstream = Ok (L', dX)
    /\ FullyConnected_backward L' fc_upstream = Ok (L', dX).
Proof.
  destruct (FullyConnected_backward fc_after fc_upstream) as [[L' dX]|e] eqn:E;
    [|vm_compute in E; discriminate].
  exists L', dX. split; [reflexivity|].
  exact (FullyConnected_backward_again fc_after L' fc_upstream dX E).
Defined.

(** X21.  [Conv2D.backward] overwrites the stored gradients as well: a
    second call with the same upstream gradient returns the same [dX] and
    leaves the layer exactly as the first call left it. *)
Theorem Conv2D_backward_again (L L' : Conv2D) (dLdY dX : ndarray) :
  Conv2D_backward L dLdY = Ok (L', dX) ->
  Conv2D_backward L' dLdY = Ok (L', dX).
Proof.
  intros H. apply Conv2D_backward_ok in H.
  destruct H as (dW & dB & -> & Hg).
  rewrite Hg. rewrite dict_set_twice by discriminate. reflexivity.
Qed.

Lemma Conv2D_backward_again_witness :
  exists L' dX,
    Conv2D_backward conv_after conv_output = Ok (L', dX)
    /\ Conv2D_backward L' conv_output = Ok (L', dX).
Proof.
  destruct (Conv2D_backward conv_after conv_output) as [[L' dX]|e] eqn:E;
    [|vm_compute in E; discriminate].
  exists L', dX. split; [reflexivity|].
  exact (Conv2D_backward_again conv_after L' conv_output dX E).
Defined.

(** X22.  [FullyConnected.backward] returns the exact derivative of
    [Z = X @ W + b] applied to [dZ].  For every change [X'] of the input,
    [V] of the weights and [beta] of the bias, the inner product of the
    gradient with the change equals the inner product of [dZ] with the
    change it causes in [Z]: [X' @ W], [X @ V], and [beta] added to every
    row. *)
Theorem FullyConnected_backward_adjoint
    (L : FullyConnected) (X Zc Wt bt dLdY : ndarray) (act : Activation) (B n m : nat) :
  activation (fc_base L) = Some act ->
  dict_get (parameters (fc_base L)) "W" = Some Wt ->
  dict_get (parameters (fc_base L)) "b" = Some bt ->
  dict_get (cache (fc_base L)) "X" = Some (Carr X) ->
  dict_get (cache (fc_base L)) "Z" = Some (Carr Zc) ->
  shape X = [B; n] -> shape Wt = [n; m] ->
  shape (act_backward act Zc dLdY) = [B; m] ->
  let dZ := act_backward act Zc dLdY in
  exists dX dW dB L',
    FullyConnected_backward L dLdY = Ok (L', dX)
    /\ dict_get (gradients (fc_base L')) "W" = Some dW
    /\ dict_get (gradients (fc_base L')) "b" = Some dB
    /\ (forall X' : ndarray,
          inner2 B n (get2 dX) (get2 X')
          = inner2 B m (get2 dZ) (fun i j => sum_n n (fun l => get2 X' i l * get2 Wt l j)))
    /\ (forall V : ndarray,
          inner2 n m (get2 dW) (get2 V)
          = inner2 B m (get2 dZ) (fun i j => sum_n n (fun l => get2 X i l * get2 V l j)))
    /\ (forall beta : nat -> Qc,
          sum_n m (fun j => get2 dB 0%nat j * beta j)
          = inner2 B m (get2 dZ) (fun _ j => beta j)).
Proof.
  intros Hact HW Hb HX HZ HsX HsW HsdZ dZ.
  destruct (FullyConnected_backward_closed L X Zc Wt bt dLdY act B n m
              Hact HW Hb HX HZ HsX HsW HsdZ) as (dX & dW & dB & E & HdX & HdW & HdB).
  fold dZ in E, HdX, HdW, HdB.
  exists dX, dW, dB. eexists. split; [exact E|].
  cbn [fc_with_base fc_base set_gradients gradients].
  split; [rewrite dict_get_set_other by discriminate; apply dict_get_set_same|].
  split; [apply dict_get_set_same|].
  unfold inner2. split; [|split].
  - intros X'.
    transitivity (sum_n B (fun i => sum_n n (fun l =>
                    sum_n m (fun j => get2 dZ i j * get2 Wt l j) * get2 X' i l))).
    { apply sum_n_ext. intros i Hi. apply sum_n_ext. intros l Hl.
      now rewrite (proj2 HdX). }
    apply sum_n_ext. intros i Hi.
    step_at 1 (symmetry; apply sum_n_mul_r).
    rewrite sum_n_swap. apply sum_n_ext. intros j Hj.
    rewrite <- sum_n_mul_l. apply sum_n_ext. intros l Hl. ring.
  - intros V.
    transitivity (sum_n n (fun l => sum_n m (fun j =>
                    sum_n B (fun i => get2 X i l * get2 dZ i j) * get2 V l j))).
    { apply sum_n_ext. intros l Hl. apply sum_n_ext. intros j Hj.
      now rewrite (proj2 HdW). }
    step_at 2 (symmetry; apply sum_n_mul_r).
    step_at 1 (apply sum_n_swap). rewrite sum_n_swap.
    apply sum_n_ext. intros i Hi.
    rewrite sum_n_swap. apply sum_n_ext. intros j Hj.
    rewrite <- sum_n_mul_l. apply sum_n_ext. intros l Hl. ring.
  - intros beta.
    transitivity (sum_n m (fun j => sum_n B (fun i => get2 dZ i j) * beta j)).
    { apply sum_n_ext. intros j Hj. rewrite (proj2 HdB) by lia. reflexivity. }
    step_at 1 (symmetry; apply sum_n_mul_r).
    apply sum_n_swap.
Qed.

Lemma FullyConnected_backward_adjoint_witness :
  exists dX L',
    FullyConnected_backward fc_after fc_upstream = Ok (L', dX)
    /\ inner2 2 3 (get2 dX) (get2 fc_input)
       = inner2 2 2 (get2 fc_upstream)
           (fun i j => sum_n 3 (fun l => get2 fc_input i l * get2 fc_kernel l j)).
Proof.
  destruct (FullyConnected_backward_adjoint fc_after fc_input fc_output fc_kernel
              fc_bias fc_upstream identity_activation 2 3 2 eq_refl eq_refl eq_refl
              eq_refl eq_refl eq_refl eq_refl eq_refl)
    as (dX & dW & dB & L' & E & _ & _ & HX & _).
  exists dX, L'. split; [exact E | exact (HX fc_input)].
Defined.

(** X23.  When the products [backward] adds in place can be cast into
    their targets ([W * dZ] into the element type of [X], [X_pad * dZ] into
    that of [W]: floating-point [X] and [W], or [X], [W] and [dZ] all
    integer), [Conv2D.backward] returns the exact derivative of the
    convolution [Z] applied to [dZ].  For every change [X'] of the input,
    [V] of the kernel and [beta] of the bias, the inner product of the
    gradient with the change equals the inner product of [dZ] with the
    change it causes in [Z]: the convolution of the zero-padded [X'] with
    [W], of the zero-padded [X] with [V], and [beta] added per channel. *)
Theorem Conv2D_backward_adjoint
    (L : Conv2D) (X Zc Wt bt dLdY : ndarray) (act : Activation)
    (B H Wd C kh kw Co oh ow s p q : nat) :
  activation (base L) = Some act ->
  dict_get (parameters (base L)) "W" = Some Wt ->
  dict_get (parameters (base L)) "b" = Some bt ->
  dict_get (cache (base L)) "X" = Some (Carr X) ->
  dict_get (cache (base L)) "Z" = Some (Carr Zc) ->
  shape Wt = [kh; kw; C; Co] ->
  shape X = [B; H; Wd; C] ->
  shape (act_backward act Zc dLdY) = [B; oh; ow; Co] ->
  pad L = PyTuple (Z.of_nat p) (Z.of_nat q) ->
  stride L = PyInt (Z.of_nat s) ->
  (0 < s)%nat ->
  out_size H (Z.of_nat p) (Z.of_nat kh) (Z.of_nat s) = Ok (Z.of_nat oh) ->
  out_size Wd (Z.of_nat q) (Z.of_nat kw) (Z.of_nat s) = Ok (Z.of_nat ow) ->
  can_cast (result_type (dtype Wt) (dtype (act_backward act Zc dLdY))) (dtype X)
    = true ->
  can_cast (result_type (dtype X) (dtype (act_backward act Zc dLdY))) (dtype Wt)
    = true ->
  let dZ := act_backward act Zc dLdY in
  exists dX dW dB L',
    Conv2D_backward L dLdY = Ok (L', dX)
    /\ dict_get (gradients (base L')) "W" = Some dW
    /\ dict_get (gradients (base L')) "b" = Some dB
    /\ (forall X' : ndarray, shape X' = [B; H; Wd; C] ->
          inner4 B H Wd C (get4 dX) (get4 X')
          = inner4 B oh ow Co (get4 dZ)
              (conv_at (padded X' p q) (get4 Wt) kh kw C s))
    /\ (forall V : ndarray,
          inner4 kh kw C Co (get4 dW) (get4 V)
          = inner4 B oh ow Co (get4 dZ)
              (conv_at (padded X p q) (get4 V) kh kw C s))
    /\ (forall beta : nat -> Qc,
          sum_n Co (fun ch => get2 dB 0%nat ch * beta ch)
          = inner4 B oh ow Co (get4 dZ) (fun _ _ _ ch => beta ch)).
Proof.
  intros Hact HW Hb HX HZ HsW HsX HsdZ Hpad Hstride Hs Hoh How HcX HcW dZ.
  destruct (Conv2D_backward_closed L X Zc Wt bt dLdY act B H Wd C kh kw Co oh ow s p q
              Hact HW Hb HX HZ HsW HsX HsdZ Hpad Hstride Hs Hoh How HcX HcW)
    as (dX & dW & dB & E & HdX & HdW & HdB & _).
  fold dZ in E, HdX, HdW, HdB.
  exists dX, dW, dB. eexists. split; [exact E|].
  cbn [with_base base set_gradients gradients].
  split; [rewrite dict_get_set_other by discriminate; apply dict_get_set_same|].
  split; [apply dict_get_set_same|].
  unfold inner4. split; [|split].
  - intros X' HsX'.
    rewrite <- (conv_adjoint_input X' B H Wd C kh kw Co oh ow s p q
                  (get4 Wt) (get4 dZ) HsX').
    apply sum_n_ext. intros b Hb'. apply sum_n_ext. intros i Hi.
    apply sum_n_ext. intros j Hj. apply sum_n_ext. intros k Hk.
    now rewrite (proj2 HdX).
  - intros V.
    rewrite <- (conv_adjoint_kernel B C kh kw Co oh ow s (padded X p q)
                  (get4 dZ) (get4 V)).
    apply sum_n_ext. intros i Hi. apply sum_n_ext. intros j Hj.
    apply sum_n_ext. intros k Hk. apply sum_n_ext. intros ch Hch.
    now rewrite (proj2 HdW).
  - intros beta.
    rewrite <- (adjoint_bias B oh ow Co (get4 dZ) beta).
    apply sum_n_ext. intros ch Hch. rewrite (proj2 HdB) by lia. reflexivity.
Qed.

Lemma Conv2D_backward_adjoint_witness :
  exists dX L',
    Conv2D_backward conv_after conv_output = Ok (L', dX)
    /\ inner4 1 2 2 1 (get4 dX) (get4 conv_input)
       = inner4 1 3 3 1 (get4 conv_output)
           (conv_at (padded conv_input 1 1) (get4 conv_kernel) 2 2 1 1).
Proof.
  assert (Hoh : out_size 2 (Z.of_nat 1) (Z.of_nat 2) (Z.of_nat 1) = Ok (Z.of_nat 3))
    by (vm_compute; reflexivity).
  destruct (Conv2D_backward_adjoint conv_after conv_input conv_output conv_kernel
              conv_bias conv_output identity_activation 1 2 2 1 2 2 1 3 3 1 1 1
              eq_refl eq_refl eq_refl eq_refl eq_refl eq_refl eq_refl eq_refl eq_refl
              eq_refl (le_n 1) Hoh Hoh eq_refl eq_refl)
    as (dX & dW & dB & L' & E & _ & _ & HX & _).
  exists dX, L'. split; [exact E | exact (HX conv_input eq_refl)].
Defined.

(** X24.  In "average" mode, for a kernel that is not empty and a
    floating-point cached input, [Pool2D.backward] returns the exact
    derivative of the pooled output applied to [dLdY]: for every change [X']
    of the input, the inner product of the returned gradient with [X']
    equals the inner product of [dLdY] with the window means of the
    zero-padded [X'], which is what [forward] returns on [X']. *)
Theorem Pool2D_average_adjoint
    (L : Pool2D) (X dLdY : ndarray) (B H Wd C kh kw oh ow s p q : nat) :
  mode L = PyStr "average" ->
  dict_get (cache (pool_base L)) "out_rows" <> None ->
  dict_get (cache (pool_base L)) "out_cols" <> None ->
  dict_get (cache (pool_base L)) "X" = Some (Carr X) ->
  pool_kernel_shape L = PyTuple (Z.of_nat kh) (Z.of_nat kw) ->
  (0 < kh)%nat -> (0 < kw)%nat ->
  pool_stride L = PyInt (Z.of_nat s) -> (0 < s)%nat ->
  pool_pad L = PyTuple (Z.of_nat p) (Z.of_nat q) ->
  shape X = [B; H; Wd; C] -> dtype X = Kfloat ->
  out_size H (Z.of_nat p) (Z.of_nat kh) (Z.of_nat s) = Ok (Z.of_nat oh) ->
  out_size Wd (Z.of_nat q) (Z.of_nat kw) (Z.of_nat s) = Ok (Z.of_nat ow) ->
  shape dLdY = [B; oh; ow; C] ->
  exists dX,
    Pool2D_backward L dLdY = Ok dX
    /\ shape dX = [B; H; Wd; C]
    /\ (forall X' : ndarray, shape X' = [B; H; Wd; C] ->
          inner4 B H Wd C (get4 dX) (get4 X')
          = inner4 B oh ow C (get4 dLdY) (mean_at (padded X' p q) s kh kw))
    /\ (forall X' : ndarray, shape X' = [B; H; Wd; C] ->
          exists Y' L', Pool2D_forward L X' = Ok (L', Y')
            /\ forall b row col k,
                 (b < B)%nat -> (row < oh)%nat -> (col < ow)%nat -> (k < C)%nat ->
                 get4 Y' b row col k = mean_at (padded X' p q) s kh kw b row col k).
Proof.
  intros Hmode Hrows Hcols HX Hk Hkh Hkw Hstride Hs Hpad HsX HdtX Hoh How Hsdy.
  destruct (Pool2D_backward_average_closed L X dLdY B H Wd C kh kw oh ow s p q
              Hmode Hrows Hcols HX Hk Hstride Hs Hpad HsX Hoh How Hsdy HdtX)
    as (dX & E & HdX).
  exists dX. split; [exact E|]. split; [exact (proj1 HdX)|]. split.
  2:{ intros X' HsX'.
      destruct (Pool2D_forward_run L X' (Some NpMean)
                  (fun fwin b k =>
                     sum_n kh (fun i => sum_n kw (fun j => fwin b i j k))
                     / of_int (Z.of_nat (kh * kw)))
                  B H Wd C kh kw oh ow s p q)
        as (Y' & EY & HY); try assumption.
      - rewrite Hmode. reflexivity.
      - now apply apply_pool_fn_mean.
      - exists Y'. eexists. split; [exact EY|].
        intros b row col k Hb Hrow Hcol Hk'. now rewrite (proj2 HY). }
  intros X' HsX'. unfold inner4.
  rewrite <- (pool_average_adjoint X' B H Wd C kh kw oh ow s p q (get4 dLdY) HsX').
  apply sum_n_ext. intros b Hb. apply sum_n_ext. intros i Hi.
  apply sum_n_ext. intros j Hj. apply sum_n_ext. intros k Hk'.
  now rewrite (proj2 HdX).
Qed.

Lemma Pool2D_average_adjoint_witness :
  exists dX,
    Pool2D_backward pool_average_padded_after (ones [1; 3; 3; 1]%nat) = Ok dX
    /\ inner4 1 2 2 1 (get4 dX) (get4 window_example)
       = inner4 1 3 3 1 (get4 (ones [1; 3; 3; 1]%nat))
           (mean_at (padded window_example 1 1) 1 2 2).
Proof.
  assert (Hoh : out_size 2 (Z.of_nat 1) (Z.of_nat 2) (Z.of_nat 1) = Ok (Z.of_nat 3))
    by (vm_compute; reflexivity).
  assert (Hr : dict_get (cache (pool_base pool_average_padded_after)) "out_rows"
               <> None) by (simpl; discriminate).
  assert (Hc : dict_get (cache (pool_base pool_average_padded_after)) "out_cols"
               <> None) by (simpl; discriminate).
  destruct (Pool2D_average_adjoint pool_average_padded_after window_example
              (ones [1; 3; 3; 1]%nat)
              1 2 2 1 2 2 3 3 1 1 1 eq_refl Hr Hc eq_refl eq_refl
              (le_S 1 1 (le_n 1)) (le_S 1 1 (le_n 1)) eq_refl (le_n 1)
              eq_refl eq_refl eq_refl Hoh Hoh eq_refl) as (dX & E & _ & HX & _).
  exists dX. split; [exact E | exact (HX window_example eq_refl)].
Defined.

(** X25.  On an initialised fully-connected layer the closure of
    [forward_with_param("W", X)] is the layer's output as a function of the
    weights: called with [val] of shape [n_in, n_out] it returns
    [activation(X @ val + b)], and [val] stays in the layer as its weights. *)
Theorem FullyConnected_forward_with_param_W
    (L : FullyConnected) (X val bt : ndarray) (act : Activation) (B n m : nat) :
  n_in (fc_base L) <> None ->
  activation (fc_base L) = Some act ->
  dict_get (parameters (fc_base L)) "b" = Some bt ->
  shape X = [B; n] -> shape val = [n; m] -> shape bt = [1; m]%nat ->
  exists L' Zf,
    FullyConnected_forward_with_param "W" X val L = Ok (L', act_forward act Zf)
    /\ shape Zf = [B; m]
    /\ (forall i j, (i < B)%nat -> (j < m)%nat ->
          get2 Zf i j = sum_n n (fun l => get2 X i l * get2 val l j) + get2 bt 0%nat j)
    /\ dict_get (parameters (fc_base L')) "W" = Some val
    /\ (forall k, k <> "W" ->
          dict_get (parameters (fc_base L')) k = dict_get (parameters (fc_base L)) k).
Proof.
  intros Hn Hact Hb HsX Hsv Hsb.
  unfold FullyConnected_forward_with_param, inner_forward.
  set (L1 := fc_with_base L (set_parameters (fc_base L)
               (dict_set (parameters (fc_base L)) "W" val))).
  assert (Hinit : match n_in (fc_base L1) with
                  | None => FullyConnected_init_parameters L1 (shape X)
                  | Some _ => Ok L1
                  end = Ok L1).
  { unfold L1. cbn [fc_with_base fc_base set_parameters n_in].
    destruct (n_in (fc_base L)); [reflexivity | congruence]. }
  destruct (FullyConnected_forward_closed L1 L1 X val bt act B n m Hinit Hact
              (dict_get_set_same _ _ _)
              ltac:(unfold L1; cbn [fc_with_base fc_base set_parameters parameters];
                    rewrite dict_get_set_other by discriminate; exact Hb)
              HsX Hsv Hsb) as (Zf & E & HZ).
  do 2 eexists. split; [exact E|].
  split; [exact (proj1 HZ)|]. split; [exact (proj2 HZ)|].
  unfold L1. cbn [fc_with_base fc_base set_cache set_parameters parameters].
  split; [apply dict_get_set_same|].
  intros k Hk. apply dict_get_set_other. congruence.
Qed.

Lemma FullyConnected_forward_with_param_W_witness :
  exists L' Zf,
    FullyConnected_forward_with_param "W" fc_input fc_kernel fc_ready = Ok (L', Zf)
    /\ dict_get (parameters (fc_base L')) "W" = Some fc_kernel.
Proof.
  assert (Hn : n_in (fc_base fc_ready) <> None) by discriminate.
  destruct (FullyConnected_forward_with_param_W fc_ready fc_input fc_kernel fc_bias
              identity_activation 2 3 2 Hn eq_refl eq_refl eq_refl eq_refl eq_refl)
    as (L' & Zf & E & _ & _ & HW & _).
  exists L', Zf. split; [exact E | exact HW].
Defined.

(** X26.  A convolution built with ["same"] padding and stride 1, whose
    initialiser returns a kernel of the requested shape, keeps on its first
    [forward] the spatial extent of a non-empty input along every axis
    whose kernel extent is odd, and returns one position less along an
    axis whose kernel extent is even; the last axis has [n_out] channels. *)
Theorem Conv2D_same_padding_shape
    (junk : nat -> Qc) (L0 : Conv2D) (X Wt : ndarray) (act : Activation)
    (B H Wd C kh kw Co : nat) :
  n_in (base L0) = None ->
  pad L0 = PyStr "same" -> stride L0 = PyInt 1 ->
  kernel_shape L0 = PyTuple (Z.of_nat kh) (Z.of_nat kw) ->
  (0 < kh)%nat -> (0 < kw)%nat ->
  n_out (base L0) = PyInt (Z.of_nat Co) ->
  activation (base L0) = Some act ->
  init_weights L0 [Z.of_nat kh; Z.of_nat kw; Z.of_nat C; Z.of_nat Co] = Ok Wt ->
  shape Wt = [kh; kw; C; Co] ->
  shape X = [B; H; Wd; C] -> (0 < H)%nat -> (0 < Wd)%nat ->
  exists L' Zf,
    Conv2D_forward junk L0 X = Ok (L', act_forward act Zf)
    /\ shape Zf = [B; if Nat.odd kh then H else (H - 1)%nat;
                   if Nat.odd kw then Wd else (Wd - 1)%nat; Co]
    /\ pad L' = PyTuple (Z.of_nat ((kh - 1) / 2)) (Z.of_nat ((kw - 1) / 2)).
Proof.
  intros Hn Hpad Hstride Hk Hkh Hkw Hno Hact HW HsW HsX HH HWd.
  assert (Hinit : exists bs,
             match n_in (base L0) with
             | None => Conv2D_init_parameters L0 (shape X)
             | Some _ => Ok L0
             end
             = Ok (with_pad (with_base L0 bs)
                     (PyTuple (Z.of_nat ((kh - 1) / 2)) (Z.of_nat ((kw - 1) / 2))))
             /\ activation bs = Some act
             /\ parameters bs = [("W", Wt); ("b", np_zeros [1%nat; Co])]).
  { rewrite Hn. unfold Conv2D_init_parameters. rewrite HsX. cbn [nth_error].
    rewrite Hk, Hno. cbn [as_tuple as_int bind]. rewrite HW. cbn [bind].
    change [1%Z; Z.of_nat Co] with (map Z.of_nat [1%nat; Co]).
    rewrite shape_of_ints_nats. cbn [bind]. rewrite Hpad.
    cbn [resolve_pad is_str String.eqb Ascii.eqb Bool.eqb bind].
    rewrite !Nat2Z.inj_div, !Nat2Z.inj_sub by lia.
    eexists. split; [reflexivity|]. split; [exact Hact | reflexivity]. }
  destruct Hinit as (bs & Hinit & Hact' & Hpar).
  assert (Hoh : out_size H (Z.of_nat ((kh - 1) / 2)) (Z.of_nat kh) (Z.of_nat 1)
                = Ok (Z.of_nat (if Nat.odd kh then H else (H - 1)%nat)))
    by (change (Z.of_nat 1) with 1%Z;
        now rewrite out_size_stride_one, same_pad_extent).
  assert (How : out_size Wd (Z.of_nat ((kw - 1) / 2)) (Z.of_nat kw) (Z.of_nat 1)
                = Ok (Z.of_nat (if Nat.odd kw then Wd else (Wd - 1)%nat)))
    by (change (Z.of_nat 1) with 1%Z;
        now rewrite out_size_stride_one, same_pad_extent).
  destruct (Conv2D_forward_closed junk L0 _ X Wt (np_zeros [1%nat; Co]) act
              B H Wd C kh kw Co _ _ 1 _ _ Hinit Hact'
              ltac:(cbn [with_pad with_base base]; now rewrite Hpar)
              ltac:(cbn [with_pad with_base base]; now rewrite Hpar)
              HsW eq_refl HsX eq_refl Hstride (le_n 1) Hoh How) as (Zf & E & HZ & _).
  do 2 eexists. split; [exact E|]. split; [exact (proj1 HZ) | reflexivity].
Qed.

Lemma Conv2D_same_padding_shape_witness :
  exists L' Zf,
    Conv2D_forward (fun _ => 0) conv_same conv_input = Ok (L', Zf)
    /\ shape Zf = [1; 2; 2; 1]%nat.
Proof.
  assert (H3 : (0 < 3)%nat) by lia.
  assert (H2 : (0 < 2)%nat) by lia.
  destruct (Conv2D_same_padding_shape (fun _ => 0) conv_same conv_input
              kernel_3x3 identity_activation 1 2 2 1 3 3 1
              eq_refl eq_refl eq_refl eq_refl H3 H3 eq_refl eq_refl eq_refl eq_refl
              eq_refl H2 H2) as (L' & Zf & E & Hs & _).
  exists L', Zf. split; [exact E | exact Hs].
Defined.

(** X27.  The factory passes [pad] on as it is, and its default is [None].
    For "pool2d" the constructor then raises a [ValueError] whatever the
    other arguments are; for "conv2d" a layer is returned, and it is its
    first [forward] that raises. *)
Theorem initialize_layer_pad_omitted
    (ia : pyval -> result Activation)
    (iw : pyval -> pyval -> result (list Z -> result ndarray))
    (act weight_init n kernel s m keep : pyval) :
  initialize_layer ia iw (PyStr "pool2d") act weight_init n kernel s PyNone m keep
  = Raise (ValueError "invalid Pad mode found in self.pad.")
  /\ (forall l, initialize_layer ia iw (PyStr "conv2d") act weight_init n kernel s
                  PyNone m keep = Ok l ->
        exists L, l = IsConv2D L
                  /\ forall junk X, raises (Conv2D_forward junk L X)).
Proof.
  split; [reflexivity|].
  intros l H. unfold initialize_layer in H.
  cbn [is_str String.eqb Ascii.eqb Bool.eqb] in H.
  unbind_as H L EL. injection H as <-. exists L. split; [reflexivity|].
  unfold Conv2D_init in EL. unbind_as EL a Ea. unbind_as EL w Ew. injection EL as <-.
  intros junk X.
  destruct (Conv2D_forward junk _ X) as [[L' Y]|e] eqn:E; [|now exists e].
  exfalso. apply Conv2D_forward_ok in E.
  destruct E as (L1 & _ & _ & Hinit & _). cbn [base n_in] in Hinit.
  apply Conv2D_init_parameters_ok in Hinit.
  destruct Hinit as (c & kh & kw & n' & W & p & q & _ & _ & _ & _ & _ & Hp & _).
  discriminate Hp.
Qed.

Lemma initialize_layer_pad_omitted_witness :
  initialize_layer no_activation no_weights (PyStr "pool2d")
    PyNone PyNone PyNone (PyTuple 2 2) (PyInt 1) PyNone (PyStr "max") (PyStr "first")
  = Raise (ValueError "invalid Pad mode found in self.pad.")
  /\ exists L, IsConv2D conv_no_pad = IsConv2D L
               /\ forall junk X, raises (Conv2D_forward junk L X).
Proof.
  split.
  - exact (proj1 (initialize_layer_pad_omitted no_activation no_weights
                    PyNone PyNone PyNone (PyTuple 2 2) (PyInt 1) (PyStr "max")
                    (PyStr "first"))).
  - exact (proj2 (initialize_layer_pad_omitted no_activation no_weights
                    PyNone PyNone (PyInt 1) (PyTuple 2 2) (PyInt 1) PyNone
                    (PyStr "first")) (IsConv2D conv_no_pad) eq_refl).
Defined.

(** X28.  A pooling layer reads no parameter: the closure of
    [forward_with_param] returns on it the output of [forward] (or raises
    the same exception) whatever value it is called with, and leaves that
    value stored under the given name. *)
Theorem Pool2D_forward_with_param_constant
    (L : Pool2D) (name : string) (X val : ndarray) :
  match Pool2D_forward L X with
  | Ok (_, Y) =>
      exists L', Pool2D_forward_with_param name X val L = Ok (L', Y)
                 /\ dict_get (parameters (pool_base L')) name = Some val
  | Raise e => Pool2D_forward_with_param name X val L = Raise e
  end.
Proof.
  unfold Pool2D_forward_with_param, inner_forward.
  pose proof (Pool2D_forward_frame L
                (pool_with_base L (set_parameters (pool_base L)
                   (dict_set (parameters (pool_base L)) name val))) X
                eq_refl eq_refl eq_refl eq_refl) as H.
  destruct (Pool2D_forward L X) as [[L' Y]|e]; [|exact H].
  eexists. split; [exact H|].
  cbn [pool_with_base pool_base set_cache set_parameters parameters].
  apply dict_get_set_same.
Qed.
